(** * CoreAudio device adapter (juce_mac_CoreAudio.cpp): a shallow embedding

    The development follows the three classes of the source file:
    [CoreAudioInternal] (the per-device core), [CoreAudioIODevice] (the
    facade) and [CoreAudioIODeviceType] (the registry).

    Conventions of the embedding.
    - [int], [UInt32] and [size_t] values are integers of [Z]; the conversions
      the source performs are written with [to_int] and [to_size_t].
    - A [float] sample is the 32-bit pattern it is stored as; the pattern of
      [0.0f] is [0].  The code only copies samples and stores [0.0f].
    - A [Float64] that the OS reports (a sample rate, a bound of a value
      range) is a rational of [Q]; the source compares such values and
      subtracts or adds the constant 2, nothing else.
    - A pointer into the temporary audio buffer is the index of a float slot
      of that buffer, [None] is the null pointer.  A load or store through
      a null pointer or outside the addressed block is a fault: the
      operation returns [None].
    - The OS is an oracle: what each property read returns for a device at
      a time in milliseconds.  [Thread::sleep] advances the time. *)

From Stdlib Require Import ZArith QArith Qround List String Bool Lia Sorted.
From stdpp Require Import base option list strings pretty.
Import ListNotations.

#[local] Open Scope string_scope.
#[local] Open Scope Z_scope.

(** ** Machine integers *)

(** [int] has 32 bits.  [size_t] is taken at 32 bits, as on the targets
    the file was written for; the sizes in the properties below stay under
    [2 ^ 31], where a wider [size_t] gives the same values. *)
Definition int_bits : Z := 32.
Definition size_t_bits : Z := 32.

(** Conversion to [int]: the value is reduced to the 32-bit two's complement
    range. *)
Definition to_int (z : Z) : Z :=
  let m := z mod 2 ^ int_bits in
  if m <? 2 ^ (int_bits - 1) then m else m - 2 ^ int_bits.

(** Conversion to [size_t]. *)
Definition to_size_t (z : Z) : Z := z mod 2 ^ size_t_bits.

Definition sizeof_float : Z := 4.

Definition maxNumChans : Z := 96.

(** ** Types of the source *)

Abbreviation AudioDeviceID := Z (only parsing).
Abbreviation OSType := Z (only parsing).
Abbreviation sample := Z (only parsing).
Abbreviation pointer := (option Z) (only parsing).

(** [BitArray] is a set of bit positions; it is a non-negative integer here,
    bit [i] of the array being bit [i] of the integer. *)
Abbreviation BitArray := Z (only parsing).

(** An [AudioBufferList] passed to the I/O proc: the float data of every
    stream. *)
Abbreviation AudioBufferList := (list (list Z)) (only parsing).

(** [AudioValueRange]: [mMinimum] and [mMaximum]. *)
Abbreviation AudioValueRange := (Q * Q)%type (only parsing).

(** The client, [AudioIODeviceCallback*].  [cb_id] is the identity of the
    object (what pointer comparison sees); [cb_io inputs outputs n] is what
    [audioDeviceIOCallback] leaves in the output channels, given the input
    channels, the content of the output channels on entry and the number of
    samples. *)
Record AudioIODeviceCallback : Type := mkCallback {
  cb_id : nat;
  cb_io : list (list sample) -> list (list sample) -> Z -> list (list sample)
}.

Record CallbackDetailsForChannel : Type := mkInfo {
  sourceChannelNum : Z;
  streamNum : Z;
  dataOffsetSamples : Z;
  dataStrideSamples : Z
}.

(** What [zeromem] leaves in an entry of the routing tables. *)
Definition zeroInfo : CallbackDetailsForChannel := mkInfo 0 0 0 0.

(** What the client is told. *)
Inductive ClientEvent : Type :=
| AboutToStart (c : nat)
| IOCallback (c : nat) (inputs : list (list sample)) (numSamples : Z)
| Stopped (c : nat).

(** ** The OS *)

(** The answer of the HAL to each property read of one device at one
    moment.  [None] is a read that does not return [noErr]. *)
Record OSView : Type := mkOSView {
  os_NominalSampleRate : option Q;
  os_BufferFrameSize : option Z;
  os_BufferFrameSizeRange : option (list AudioValueRange);
  os_AvailableNominalSampleRates : option (list AudioValueRange);
  os_Latency : bool -> option Z;
  os_StreamConfiguration : bool -> option (list Z);
  os_DeviceIsRunning : option Z;
  os_DataSources : bool -> option (list OSType);
  os_DataSource : bool -> option OSType;
  os_AddIOProc : bool;
  os_Start : bool
}.

Abbreviation OS := (Z -> nat -> OSView) (only parsing).

Set Warnings "-register-all".

Inductive CoreAudioInternal : Type := mkCore {
  error : string;
  inputLatency : Z;
  outputLatency : Z;
  activeInputChans : BitArray;
  activeOutputChans : BitArray;
  inChanNames : list string;
  outChanNames : list string;
  sampleRates : list Q;
  bufferSizes : list Z;
  callback : option AudioIODeviceCallback;
  inputDevice : option CoreAudioInternal;
  isSlaveDevice : bool;
  timerRunning : bool;
  deviceID : AudioDeviceID;
  started : bool;
  sampleRate : Q;
  bufferSize : Z;
  audioBuffer : list sample;
  numInputChans : Z;
  numOutputChans : Z;
  callbacksAllowed : bool;
  numInputChannelInfos : Z;
  numOutputChannelInfos : Z;
  inputChannelInfo : list CallbackDetailsForChannel;
  outputChannelInfo : list CallbackDetailsForChannel;
  tempInputBuffers : list pointer;
  tempOutputBuffers : list pointer
}.

Definition set_error (v : string) (d : CoreAudioInternal) : CoreAudioInternal :=
  mkCore v (inputLatency d) (outputLatency d) (activeInputChans d)
    (activeOutputChans d) (inChanNames d) (outChanNames d) (sampleRates d)
    (bufferSizes d) (callback d) (inputDevice d) (isSlaveDevice d)
    (timerRunning d) (deviceID d) (started d) (sampleRate d) (bufferSize d)
    (audioBuffer d) (numInputChans d) (numOutputChans d) (callbacksAllowed d)
    (numInputChannelInfos d) (numOutputChannelInfos d) (inputChannelInfo d)
    (outputChannelInfo d) (tempInputBuffers d) (tempOutputBuffers d).

Definition set_inputLatency (v : Z) (d : CoreAudioInternal) : CoreAudioInternal :=
  mkCore (error d) v (outputLatency d) (activeInputChans d)
    (activeOutputChans d) (inChanNames d) (outChanNames d) (sampleRates d)
    (bufferSizes d) (callback d) (inputDevice d) (isSlaveDevice d)
    (timerRunning d) (deviceID d) (started d) (sampleRate d) (bufferSize d)
    (audioBuffer d) (numInputChans d) (numOutputChans d) (callbacksAllowed d)
    (numInputChannelInfos d) (numOutputChannelInfos d) (inputChannelInfo d)
    (outputChannelInfo d) (tempInputBuffers d) (tempOutputBuffers d).

Definition set_outputLatency (v : Z) (d : CoreAudioInternal) : CoreAudioInternal :=
  mkCore (error d) (inputLatency d) v (activeInputChans d)
    (activeOutputChans d) (inChanNames d) (outChanNames d) (sampleRates d)
    (bufferSizes d) (callback d) (inputDevice d) (isSlaveDevice d)
    (timerRunning d) (deviceID d) (started d) (sampleRate d) (bufferSize d)
    (audioBuffer d) (numInputChans d) (numOutputChans d) (callbacksAllowed d)
    (numInputChannelInfos d) (numOutputChannelInfos d) (inputChannelInfo d)
    (outputChannelInfo d) (tempInputBuffers d) (tempOutputBuffers d).

Definition set_activeInputChans (v : BitArray) (d : CoreAudioInternal) : CoreAudioInternal :=
  mkCore (error d) (inputLatency d) (outputLatency d) v (activeOutputChans d)
    (inChanNames d) (outChanNames d) (sampleRates d) (bufferSizes d)
    (callback d) (inputDevice d) (isSlaveDevice d) (timerRunning d)
    (deviceID d) (started d) (sampleRate d) (bufferSize d) (audioBuffer d)
    (numInputChans d) (numOutputChans d) (callbacksAllowed d)
    (numInputChannelInfos d) (numOutputChannelInfos d) (inputChannelInfo d)
    (outputChannelInfo d) (tempInputBuffers d) (tempOutputBuffers d).

Definition set_activeOutputChans (v : BitArray) (d : CoreAudioInternal) : CoreAudioInternal :=
  mkCore (error d) (inputLatency d) (outputLatency d) (activeInputChans d) v
    (inChanNames d) (outChanNames d) (sampleRates d) (bufferSizes d)
    (callback d) (inputDevice d) (isSlaveDevice d) (timerRunning d)
    (deviceID d) (started d) (sampleRate d) (bufferSize d) (audioBuffer d)
    (numInputChans d) (numOutputChans d) (callbacksAllowed d)
    (numInputChannelInfos d) (numOutputChannelInfos d) (inputChannelInfo d)
    (outputChannelInfo d) (tempInputBuffers d) (tempOutputBuffers d).

Definition set_inChanNames (v : list string) (d : CoreAudioInternal) : CoreAudioInternal :=
  mkCore (error d) (inputLatency d) (outputLatency d) (activeInputChans d)
    (activeOutputChans d) v (outChanNames d) (sampleRates d) (bufferSizes d)
    (callback d) (inputDevice d) (isSlaveDevice d) (timerRunning d)
    (deviceID d) (started d) (sampleRate d) (bufferSize d) (audioBuffer d)
    (numInputChans d) (numOutputChans d) (callbacksAllowed d)
    (numInputChannelInfos d) (numOutputChannelInfos d) (inputChannelInfo d)
    (outputChannelInfo d) (tempInputBuffers d) (tempOutputBuffers d).

Definition set_outChanNames (v : list string) (d : CoreAudioInternal) : CoreAudioInternal :=
  mkCore (error d) (inputLatency d) (outputLatency d) (activeInputChans d)
    (activeOutputChans d) (inChanNames d) v (sampleRates d) (bufferSizes d)
    (callback d) (inputDevice d) (isSlaveDevice d) (timerRunning d)
    (deviceID d) (started d) (sampleRate d) (bufferSize d) (audioBuffer d)
    (numInputChans d) (numOutputChans d) (callbacksAllowed d)
    (numInputChannelInfos d) (numOutputChannelInfos d) (inputChannelInfo d)
    (outputChannelInfo d) (tempInputBuffers d) (tempOutputBuffers d).

Definition set_sampleRates (v : list Q) (d : CoreAudioInternal) : CoreAudioInternal :=
  mkCore (error d) (inputLatency d) (outputLatency d) (activeInputChans d)
    (activeOutputChans d) (inChanNames d) (outChanNames d) v (bufferSizes d)
    (callback d) (inputDevice d) (isSlaveDevice d) (timerRunning d)
    (deviceID d) (started d) (sampleRate d) (bufferSize d) (audioBuffer d)
    (numInputChans d) (numOutputChans d) (callbacksAllowed d)
    (numInputChannelInfos d) (numOutputChannelInfos d) (inputChannelInfo d)
    (outputChannelInfo d) (tempInputBuffers d) (tempOutputBuffers d).

Definition set_bufferSizes (v : list Z) (d : CoreAudioInternal) : CoreAudioInternal :=
  mkCore (error d) (inputLatency d) (outputLatency d) (activeInputChans d)
    (activeOutputChans d) (inChanNames d) (outChanNames d) (sampleRates d) v
    (callback d) (inputDevice d) (isSlaveDevice d) (timerRunning d)
    (deviceID d) (started d) (sampleRate d) (bufferSize d) (audioBuffer d)
    (numInputChans d) (numOutputChans d) (callbacksAllowed d)
    (numInputChannelInfos d) (numOutputChannelInfos d) (inputChannelInfo d)
    (outputChannelInfo d) (tempInputBuffers d) (tempOutputBuffers d).

Definition set_callback (v : option AudioIODeviceCallback) (d : CoreAudioInternal) : CoreAudioInternal :=
  mkCore (error d) (inputLatency d) (outputLatency d) (activeInputChans d)
    (activeOutputChans d) (inChanNames d) (outChanNames d) (sampleRates d)
    (bufferSizes d) v (inputDevice d) (isSlaveDevice d) (timerRunning d)
    (deviceID d) (started d) (sampleRate d) (bufferSize d) (audioBuffer d)
    (numInputChans d) (numOutputChans d) (callbacksAllowed d)
    (numInputChannelInfos d) (numOutputChannelInfos d) (inputChannelInfo d)
    (outputChannelInfo d) (tempInputBuffers d) (tempOutputBuffers d).

Definition set_inputDevice (v : option CoreAudioInternal) (d : CoreAudioInternal) : CoreAudioInternal :=
  mkCore (error d) (inputLatency d) (outputLatency d) (activeInputChans d)
    (activeOutputChans d) (inChanNames d) (outChanNames d) (sampleRates d)
    (bufferSizes d) (callback d) v (isSlaveDevice d) (timerRunning d)
    (deviceID d) (started d) (sampleRate d) (bufferSize d) (audioBuffer d)
    (numInputChans d) (numOutputChans d) (callbacksAllowed d)
    (numInputChannelInfos d) (numOutputChannelInfos d) (inputChannelInfo d)
    (outputChannelInfo d) (tempInputBuffers d) (tempOutputBuffers d).

Definition set_isSlaveDevice (v : bool) (d : CoreAudioInternal) : CoreAudioInternal :=
  mkCore (error d) (inputLatency d) (outputLatency d) (activeInputChans d)
    (activeOutputChans d) (inChanNames d) (outChanNames d) (sampleRates d)
    (bufferSizes d) (callback d) (inputDevice d) v (timerRunning d)
    (deviceID d) (started d) (sampleRate d) (bufferSize d) (audioBuffer d)
    (numInputChans d) (numOutputChans d) (callbacksAllowed d)
    (numInputChannelInfos d) (numOutputChannelInfos d) (inputChannelInfo d)
    (outputChannelInfo d) (tempInputBuffers d) (tempOutputBuffers d).

Definition set_timerRunning (v : bool) (d : CoreAudioInternal) : CoreAudioInternal :=
  mkCore (error d) (inputLatency d) (outputLatency d) (activeInputChans d)
    (activeOutputChans d) (inChanNames d) (outChanNames d) (sampleRates d)
    (bufferSizes d) (callback d) (inputDevice d) (isSlaveDevice d) v
    (deviceID d) (started d) (sampleRate d) (bufferSize d) (audioBuffer d)
    (numInputChans d) (numOutputChans d) (callbacksAllowed d)
    (numInputChannelInfos d) (numOutputChannelInfos d) (inputChannelInfo d)
    (outputChannelInfo d) (tempInputBuffers d) (tempOutputBuffers d).

Definition set_started (v : bool) (d : CoreAudioInternal) : CoreAudioInternal :=
  mkCore (error d) (inputLatency d) (outputLatency d) (activeInputChans d)
    (activeOutputChans d) (inChanNames d) (outChanNames d) (sampleRates d)
    (bufferSizes d) (callback d) (inputDevice d) (isSlaveDevice d)
    (timerRunning d) (deviceID d) v (sampleRate d) (bufferSize d)
    (audioBuffer d) (numInputChans d) (numOutputChans d) (callbacksAllowed d)
    (numInputChannelInfos d) (numOutputChannelInfos d) (inputChannelInfo d)
    (outputChannelInfo d) (tempInputBuffers d) (tempOutputBuffers d).

Definition set_sampleRate (v : Q) (d : CoreAudioInternal) : CoreAudioInternal :=
  mkCore (error d) (inputLatency d) (outputLatency d) (activeInputChans d)
    (activeOutputChans d) (inChanNames d) (outChanNames d) (sampleRates d)
    (bufferSizes d) (callback d) (inputDevice d) (isSlaveDevice d)
    (timerRunning d) (deviceID d) (started d) v (bufferSize d) (audioBuffer d)
    (numInputChans d) (numOutputChans d) (callbacksAllowed d)
    (numInputChannelInfos d) (numOutputChannelInfos d) (inputChannelInfo d)
    (outputChannelInfo d) (tempInputBuffers d) (tempOutputBuffers d).

Definition set_bufferSize (v : Z) (d : CoreAudioInternal) : CoreAudioInternal :=
  mkCore (error d) (inputLatency d) (outputLatency d) (activeInputChans d)
    (activeOutputChans d) (inChanNames d) (outChanNames d) (sampleRates d)
    (bufferSizes d) (callback d) (inputDevice d) (isSlaveDevice d)
    (timerRunning d) (deviceID d) (started d) (sampleRate d) v (audioBuffer d)
    (numInputChans d) (numOutputChans d) (callbacksAllowed d)
    (numInputChannelInfos d) (numOutputChannelInfos d) (inputChannelInfo d)
    (outputChannelInfo d) (tempInputBuffers d) (tempOutputBuffers d).

Definition set_audioBuffer (v : list sample) (d : CoreAudioInternal) : CoreAudioInternal :=
  mkCore (error d) (inputLatency d) (outputLatency d) (activeInputChans d)
    (activeOutputChans d) (inChanNames d) (outChanNames d) (sampleRates d)
    (bufferSizes d) (callback d) (inputDevice d) (isSlaveDevice d)
    (timerRunning d) (deviceID d) (started d) (sampleRate d) (bufferSize d) v
    (numInputChans d) (numOutputChans d) (callbacksAllowed d)
    (numInputChannelInfos d) (numOutputChannelInfos d) (inputChannelInfo d)
    (outputChannelInfo d) (tempInputBuffers d) (tempOutputBuffers d).

Definition set_numInputChans (v : Z) (d : CoreAudioInternal) : CoreAudioInternal :=
  mkCore (error d) (inputLatency d) (outputLatency d) (activeInputChans d)
    (activeOutputChans d) (inChanNames d) (outChanNames d) (sampleRates d)
    (bufferSizes d) (callback d) (inputDevice d) (isSlaveDevice d)
    (timerRunning d) (deviceID d) (started d) (sampleRate d) (bufferSize d)
    (audioBuffer d) v (numOutputChans d) (callbacksAllowed d)
    (numInputChannelInfos d) (numOutputChannelInfos d) (inputChannelInfo d)
    (outputChannelInfo d) (tempInputBuffers d) (tempOutputBuffers d).

Definition set_numOutputChans (v : Z) (d : CoreAudioInternal) : CoreAudioInternal :=
  mkCore (error d) (inputLatency d) (outputLatency d) (activeInputChans d)
    (activeOutputChans d) (inChanNames d) (outChanNames d) (sampleRates d)
    (bufferSizes d) (callback d) (inputDevice d) (isSlaveDevice d)
    (timerRunning d) (deviceID d) (started d) (sampleRate d) (bufferSize d)
    (audioBuffer d) (numInputChans d) v (callbacksAllowed d)
    (numInputChannelInfos d) (numOutputChannelInfos d) (inputChannelInfo d)
    (outputChannelInfo d) (tempInputBuffers d) (tempOutputBuffers d).

Definition set_callbacksAllowed (v : bool) (d : CoreAudioInternal) : CoreAudioInternal :=
  mkCore (error d) (inputLatency d) (outputLatency d) (activeInputChans d)
    (activeOutputChans d) (inChanNames d) (outChanNames d) (sampleRates d)
    (bufferSizes d) (callback d) (inputDevice d) (isSlaveDevice d)
    (timerRunning d) (deviceID d) (started d) (sampleRate d) (bufferSize d)
    (audioBuffer d) (numInputChans d) (numOutputChans d) v
    (numInputChannelInfos d) (numOutputChannelInfos d) (inputChannelInfo d)
    (outputChannelInfo d) (tempInputBuffers d) (tempOutputBuffers d).

Definition set_numInputChannelInfos (v : Z) (d : CoreAudioInternal) : CoreAudioInternal :=
  mkCore (error d) (inputLatency d) (outputLatency d) (activeInputChans d)
    (activeOutputChans d) (inChanNames d) (outChanNames d) (sampleRates d)
    (bufferSizes d) (callback d) (inputDevice d) (isSlaveDevice d)
    (timerRunning d) (deviceID d) (started d) (sampleRate d) (bufferSize d)
    (audioBuffer d) (numInputChans d) (numOutputChans d) (callbacksAllowed d)
    v (numOutputChannelInfos d) (inputChannelInfo d) (outputChannelInfo d)
    (tempInputBuffers d) (tempOutputBuffers d).

Definition set_numOutputChannelInfos (v : Z) (d : CoreAudioInternal) : CoreAudioInternal :=
  mkCore (error d) (inputLatency d) (outputLatency d) (activeInputChans d)
    (activeOutputChans d) (inChanNames d) (outChanNames d) (sampleRates d)
    (bufferSizes d) (callback d) (inputDevice d) (isSlaveDevice d)
    (timerRunning d) (deviceID d) (started d) (sampleRate d) (bufferSize d)
    (audioBuffer d) (numInputChans d) (numOutputChans d) (callbacksAllowed d)
    (numInputChannelInfos d) v (inputChannelInfo d) (outputChannelInfo d)
    (tempInputBuffers d) (tempOutputBuffers d).

Definition set_inputChannelInfo (v : list CallbackDetailsForChannel) (d : CoreAudioInternal) : CoreAudioInternal :=
  mkCore (error d) (inputLatency d) (outputLatency d) (activeInputChans d)
    (activeOutputChans d) (inChanNames d) (outChanNames d) (sampleRates d)
    (bufferSizes d) (callback d) (inputDevice d) (isSlaveDevice d)
    (timerRunning d) (deviceID d) (started d) (sampleRate d) (bufferSize d)
    (audioBuffer d) (numInputChans d) (numOutputChans d) (callbacksAllowed d)
    (numInputChannelInfos d) (numOutputChannelInfos d) v (outputChannelInfo d)
    (tempInputBuffers d) (tempOutputBuffers d).

Definition set_outputChannelInfo (v : list CallbackDetailsForChannel) (d : CoreAudioInternal) : CoreAudioInternal :=
  mkCore (error d) (inputLatency d) (outputLatency d) (activeInputChans d)
    (activeOutputChans d) (inChanNames d) (outChanNames d) (sampleRates d)
    (bufferSizes d) (callback d) (inputDevice d) (isSlaveDevice d)
    (timerRunning d) (deviceID d) (started d) (sampleRate d) (bufferSize d)
    (audioBuffer d) (numInputChans d) (numOutputChans d) (callbacksAllowed d)
    (numInputChannelInfos d) (numOutputChannelInfos d) (inputChannelInfo d) v
    (tempInputBuffers d) (tempOutputBuffers d).

Definition set_tempInputBuffers (v : list pointer) (d : CoreAudioInternal) : CoreAudioInternal :=
  mkCore (error d) (inputLatency d) (outputLatency d) (activeInputChans d)
    (activeOutputChans d) (inChanNames d) (outChanNames d) (sampleRates d)
    (bufferSizes d) (callback d) (inputDevice d) (isSlaveDevice d)
    (timerRunning d) (deviceID d) (started d) (sampleRate d) (bufferSize d)
    (audioBuffer d) (numInputChans d) (numOutputChans d) (callbacksAllowed d)
    (numInputChannelInfos d) (numOutputChannelInfos d) (inputChannelInfo d)
    (outputChannelInfo d) v (tempOutputBuffers d).

Definition set_tempOutputBuffers (v : list pointer) (d : CoreAudioInternal) : CoreAudioInternal :=
  mkCore (error d) (inputLatency d) (outputLatency d) (activeInputChans d)
    (activeOutputChans d) (inChanNames d) (outChanNames d) (sampleRates d)
    (bufferSizes d) (callback d) (inputDevice d) (isSlaveDevice d)
    (timerRunning d) (deviceID d) (started d) (sampleRate d) (bufferSize d)
    (audioBuffer d) (numInputChans d) (numOutputChans d) (callbacksAllowed d)
    (numInputChannelInfos d) (numOutputChannelInfos d) (inputChannelInfo d)
    (outputChannelInfo d) (tempInputBuffers d) v.

(** ** Arrays and memory *)

(** Element [i] of a C array or of an allocated block; [None] outside it. *)
Definition arr_get {A : Type} (a : list A) (i : Z) : option A :=
  if 0 <=? i then a !! Z.to_nat i else None.

(** Assignment to element [i]; [None] outside the array or block. *)
Definition arr_set {A : Type} (a : list A) (i : Z) (v : A) : option (list A) :=
  if (0 <=? i) && (i <? Z.of_nat (length a))
  then Some (<[Z.to_nat i := v]> a) else None.

(** [*p] and [*p = v] for a pointer into the block [buf]. *)
Definition load (buf : list sample) (p : pointer) : option sample :=
  match p with
  | Some i => arr_get buf i
  | None => None
  end.

Definition store (buf : list sample) (p : pointer) (v : sample)
  : option (list sample) :=
  match p with
  | Some i => arr_set buf i v
  | None => None
  end.

(** [p + n] on a pointer; arithmetic on the null pointer stays null (any
    access through it faults). *)
Definition ptr_add (p : pointer) (n : Z) : pointer :=
  match p with
  | Some i => Some (i + n)
  | None => None
  end.

(** ** Containers of the library *)

(** Modelled from the spec: [juce::Array], whose source is not available.
    [a [i]] outside the array reads as the zero element (an unresolved name
    gives index -1, and the spec has the id of such a name treated as no
    device). *)
Definition Array_get (a : list Z) (i : Z) : Z :=
  match arr_get a i with
  | Some x => x
  | None => 0
  end.

(** Modelled from the spec: [Array::add] appends, [addIfNotAlreadyThere]
    appends only a value that the array does not hold (the spec's
    "including the current bufferSize if absent"). *)
Definition Array_add {A : Type} (x : A) (a : list A) : list A :=
  (a ++ [x])%list.

Definition addIfNotAlreadyThere (x : Z) (a : list Z) : list Z :=
  if existsb (Z.eqb x) a then a else Array_add x a.

(** Modelled from the spec: [StringArray::indexOf], whose source is not
    available; the position of the first entry equal to the name, -1 when
    there is none. *)
Fixpoint indexOf_from (names : list string) (s : string) (i : Z) : Z :=
  match names with
  | [] => -1
  | n :: rest => if String.eqb n s then i else indexOf_from rest s (i + 1)
  end.

Definition indexOf (names : list string) (s : string) : Z :=
  indexOf_from names s 0.

(** Modelled from the spec: [BitArray], whose source is not available.
    [operator[]], [getHighestBit] (-1 for the empty array), [setRange (start, num, false)]
    (clears [num] bits from [start]; nothing when [num <= 0]) and
    [countNumberOfSetBits]; the spec has [reopen] truncate the masks "so
    that no set bit exceeds the known channel count" and take the channel
    numbers "from bit counts". *)
Definition BitArray_get (b : BitArray) (i : Z) : bool :=
  if 0 <=? i then Z.testbit b i else false.

Definition getHighestBit (b : BitArray) : Z :=
  if 0 <? b then Z.log2 b else -1.

Definition clearRange (b : BitArray) (start num : Z) : BitArray :=
  if (0 <? num) && (0 <=? start)
  then Z.land b (Z.lnot (Z.shiftl (Z.ones num) start))
  else b.

Fixpoint Pos_countBits (p : positive) : Z :=
  match p with
  | xH => 1
  | xO q => Pos_countBits q
  | xI q => 1 + Pos_countBits q
  end.

Definition countNumberOfSetBits (b : BitArray) : Z :=
  match b with
  | Zpos p => Pos_countBits p
  | _ => 0
  end.

(** ** [Float64] values *)

(** Truncation towards zero. *)
Definition Q_truncate (x : Q) : Z :=
  if Qle_bool 0 x then Qfloor x else Qceiling x.

(** [(int) x]: truncation towards zero.  For a value whose truncation is
    outside the [int] range C++ defines no result; the conversion
    instruction of the compiled code gives [INT_MIN] there. *)
Definition Q_to_int (x : Q) : Z :=
  let t := Q_truncate x in
  if (- 2 ^ (int_bits - 1) <=? t) && (t <? 2 ^ (int_bits - 1)) then t
  else - 2 ^ (int_bits - 1).

Definition Q_of_int (i : Z) : Q := inject_Z i.

(** ** CoreAudioInternal *)

(** *** setTempBufferSize *)

(** The argument of [juce_calloc]: a number of bytes. *)
Definition tempBufferBytes (numChannels numSamples : Z) : Z :=
  to_size_t (32 + to_size_t (to_int (numChannels * numSamples)) * sizeof_float).

(** [for (i = 0; i < n; ++i) tbl[i] = audioBuffer + count++ * numSamples;]
    The result is the table and the value of [count] after the loop. *)
Fixpoint assignViews (n : nat) (i count numSamples : Z) (tbl : list pointer)
  : option (list pointer * Z) :=
  match n with
  | O => Some (tbl, count)
  | S n' =>
      tbl' ← arr_set tbl i (Some (to_int (count * numSamples)));
      assignViews n' (i + 1) (count + 1) numSamples tbl'
  end.

Definition nullTable : list pointer := replicate (Z.to_nat maxNumChans) None.

Definition setTempBufferSize (numChannels numSamples : Z) (d : CoreAudioInternal)
  : option CoreAudioInternal :=
  let slots := Z.to_nat (tempBufferBytes numChannels numSamples / sizeof_float) in
  let d := set_audioBuffer (replicate slots 0) d in
  '(tin, count) ← assignViews (Z.to_nat (numInputChans d)) 0 0 numSamples nullTable;
  '(tout, _) ← assignViews (Z.to_nat (numOutputChans d)) 0 count numSamples nullTable;
  Some (set_tempOutputBuffers tout (set_tempInputBuffers tin d)).

(** *** fillInChannelInfo *)

(** The body of the inner loop: channel [j] of stream [i], which has [nch]
    channels.  The state is [chanNum], [activeChans] and the device. *)
Definition fillOneChannel (input : bool) (i j nch : Z)
  (st : Z * Z * CoreAudioInternal) : option (Z * Z * CoreAudioInternal) :=
  let '(chanNum, activeChans, d) := st in
  let info := mkInfo chanNum i (to_int j) (to_int nch) in
  if input then
    '(activeChans, d) ←
      (if BitArray_get (activeInputChans d) chanNum then
         tbl ← arr_set (inputChannelInfo d) activeChans info;
         Some (activeChans + 1,
               set_numInputChannelInfos (activeChans + 1)
                 (set_inputChannelInfo tbl d))
       else Some (activeChans, d));
    Some (chanNum + 1, activeChans,
          set_inChanNames
            (Array_add ("input " +:+ pretty (chanNum + 1)) (inChanNames d)) d)
  else
    '(activeChans, d) ←
      (if BitArray_get (activeOutputChans d) chanNum then
         tbl ← arr_set (outputChannelInfo d) activeChans info;
         Some (activeChans + 1,
               set_numOutputChannelInfos (activeChans + 1)
                 (set_outputChannelInfo tbl d))
       else Some (activeChans, d));
    Some (chanNum + 1, activeChans,
          set_outChanNames
            (Array_add ("output " +:+ pretty (chanNum + 1)) (outChanNames d)) d).

(** [for (j = 0; j < b.mNumberChannels; ++j)], with [n] iterations left. *)
Fixpoint fillStream (input : bool) (i nch : Z) (n : nat) (j : Z)
  (st : Z * Z * CoreAudioInternal) : option (Z * Z * CoreAudioInternal) :=
  match n with
  | O => Some st
  | S n' =>
      st' ← fillOneChannel input i j nch st;
      fillStream input i nch n' (j + 1) st'
  end.

(** [for (i = 0; i < numStreams; ++i)] over the remaining streams. *)
Fixpoint fillStreams (input : bool) (streams : list Z) (i : Z)
  (st : Z * Z * CoreAudioInternal) : option (Z * Z * CoreAudioInternal) :=
  match streams with
  | [] => Some st
  | nch :: rest =>
      st' ← fillStream input i nch (Z.to_nat nch) 0 st;
      fillStreams input rest (i + 1) st'
  end.

Definition fillInChannelInfo (v : OSView) (input : bool) (d : CoreAudioInternal)
  : option CoreAudioInternal :=
  match os_StreamConfiguration v input with
  | Some streams =>
      '(_, _, d') ← fillStreams input streams 0 (0, 0, d);
      Some d'
  | None => Some d
  end.

(** *** updateDetailsFromDevice *)

Definition inRange (i : Z) (r : AudioValueRange) : bool :=
  Qle_bool (fst r) (Q_of_int i) && Qle_bool (Q_of_int i) (snd r).

(** [for (j = n; --j >= 0;) if (i >= ranges[j].mMinimum && ...) { ...; break; }]:
    whether the scan from the last range to the first finds one. *)
Definition inAnyRange (i : Z) (ranges : list AudioValueRange) : bool :=
  existsb (inRange i) (rev ranges).

(** [for (int i = 32; i < 8192; i += 32)]: 255 values. *)
Definition bufferSizeGrid : list Z :=
  map (fun k => 32 * Z.of_nat k) (seq 1 255).

Definition addGridSizes (ranges : list AudioValueRange) (sizes : list Z)
  : list Z :=
  fold_left
    (fun acc i => if inAnyRange i ranges then addIfNotAlreadyThere i acc else acc)
    bufferSizeGrid sizes.

(** The list of buffer sizes, from the ranges of the OS and the current
    [bufferSize].  [ranges[0]] of an empty block is a read outside it. *)
Definition buildBufferSizes (ranges : option (list AudioValueRange))
  (bufferSize : Z) : option (list Z) :=
  sizes ←
    match ranges with
    | Some rs =>
        r0 ← head rs;
        let sizes := Array_add (Q_to_int (fst r0)) [] in
        let sizes := addGridSizes rs sizes in
        Some (if 0 <? bufferSize then addIfNotAlreadyThere bufferSize sizes
              else sizes)
    | None => Some []
    end;
  Some (if (Z.of_nat (length sizes) =? 0) && (0 <? bufferSize)
        then Array_add bufferSize sizes else sizes).

Definition possibleRates : list Q :=
  [44100#1; 48000#1; 88200#1; 96000#1; 176400#1; 192000#1]%Q.

Definition rateInRange (rate : Q) (r : AudioValueRange) : bool :=
  Qle_bool (fst r - 2) rate && Qle_bool rate (snd r + 2).

Definition buildSampleRates (ranges : option (list AudioValueRange))
  (sampleRate : Q) : list Q :=
  let rates :=
    match ranges with
    | Some rs => filter (fun rate => existsb (rateInRange rate) (rev rs) = true)
                   possibleRates
    | None => []
    end in
  if (Z.of_nat (length rates) =? 0) && negb (Qle_bool sampleRate 0)
  then Array_add sampleRate rates else rates.

Definition zeroInfoTable : list CallbackDetailsForChannel :=
  replicate (Z.to_nat maxNumChans) zeroInfo.

Definition updateDetailsFromDevice (v : OSView) (d : CoreAudioInternal)
  : option CoreAudioInternal :=
  let d := set_timerRunning false d in
  if deviceID d =? 0 then Some d else
  let d := match os_NominalSampleRate v with
           | Some sr => set_sampleRate sr d
           | None => d
           end in
  d ← match os_BufferFrameSize v with
      | Some framesPerBuf =>
          let d := set_bufferSize (to_int framesPerBuf) d in
          if 0 <? bufferSize d
          then setTempBufferSize (numInputChans d + numOutputChans d)
                 (bufferSize d) d
          else Some d
      | None => Some d
      end;
  sizes ← buildBufferSizes (os_BufferFrameSizeRange v) (bufferSize d);
  let d := set_bufferSizes sizes d in
  let d := set_sampleRates
             (buildSampleRates (os_AvailableNominalSampleRates v) (sampleRate d))
             d in
  let d := set_inputLatency
             (match os_Latency v true with Some l => to_int l | None => 0 end) d in
  let d := set_outputLatency
             (match os_Latency v false with Some l => to_int l | None => 0 end) d in
  let d := set_outChanNames [] (set_inChanNames [] d) in
  let d := set_outputChannelInfo zeroInfoTable
             (set_inputChannelInfo zeroInfoTable d) in
  d ← fillInChannelInfo v true d;
  fillInChannelInfo v false d.

(** *** Data sources *)

(** [getAllDataSourcesForDevice]: the block of source ids, or null. *)
Definition getAllDataSourcesForDevice (v : OSView) (id : AudioDeviceID)
  (input : bool) : option (list OSType) :=
  if id =? 0 then None else os_DataSources v input.

(** [types[k]] as the source reads it: inside the block the element,
    outside it the word [beyond] that the heap holds after the block. *)
Definition typesAt (types : list OSType) (beyond : OSType) (k : Z) : OSType :=
  match arr_get types k with
  | Some t => t
  | None => beyond
  end.

(** [for (int i = 0; i < num; ++i) if (types[num] == currentSourceID)
    { result = i; break; }], with [n] iterations left. *)
Fixpoint scanSources (n : nat) (i num : Z) (types : list OSType)
  (beyond currentSourceID : OSType) (result : Z) : Z :=
  match n with
  | O => result
  | S n' =>
      if typesAt types beyond num =? currentSourceID then i
      else scanSources n' (i + 1) num types beyond currentSourceID result
  end.

Definition getCurrentSourceIndex (v : OSView) (beyond : OSType) (input : bool)
  (d : CoreAudioInternal) : Z :=
  let result := -1 in
  if deviceID d =? 0 then result else
  match os_DataSource v input with
  | Some currentSourceID =>
      match getAllDataSourcesForDevice v (deviceID d) input with
      | Some types =>
          let num := Z.of_nat (length types) in
          scanSources (Z.to_nat num) 0 num types beyond currentSourceID result
      | None => result
      end
  | None => result
  end.

(** *** stop *)

(** [for (int i = 40; --i >= 0;) { Thread::sleep (50); ...; if (running == 0)
    break; }]: the time after the loop. *)
Fixpoint waitUntilStopped (os : OS) (id : AudioDeviceID) (n : nat) (now : nat)
  : nat :=
  match n with
  | O => now
  | S n' =>
      let now := (now + 50)%nat in
      let running := match os_DeviceIsRunning (os id now) with
                     | Some r => r
                     | None => 0
                     end in
      if running =? 0 then now else waitUntilStopped os id n' now
  end.

Fixpoint stop (os : OS) (leaveInterruptRunning : bool) (now : nat)
  (d : CoreAudioInternal) {struct d} : nat * CoreAudioInternal :=
  let slave := inputDevice d in
  let d := set_callback None d in
  let '(now, d) :=
    if started d && negb (deviceID d =? 0) && negb leaveInterruptRunning
    then (waitUntilStopped os (deviceID d) 40 now, set_started false d)
    else (now, d) in
  match slave with
  | Some s =>
      let '(now, s) := stop os leaveInterruptRunning now s in
      (now, set_inputDevice (Some s) d)
  | None => (now, d)
  end.

(** *** start *)

Fixpoint start (os : OS) (now : nat) (cb : option AudioIODeviceCallback)
  (d : CoreAudioInternal) {struct d} : CoreAudioInternal * bool :=
  let slave := inputDevice d in
  let d :=
    if negb (started d) then
      let d := set_callback None d in
      if negb (deviceID d =? 0)
         && os_AddIOProc (os (deviceID d) now)
         && os_Start (os (deviceID d) now)
      then set_started true d else d
    else d in
  let d := if started d then set_callback cb d else d in
  match slave with
  | Some s =>
      if started d then
        let '(s, r) := start os now cb s in
        (set_inputDevice (Some s) d, r)
      else (d, false)
  | None => (d, started d)
  end.

(** *** reopen *)

Definition setRange_false (b : BitArray) (start num : Z) : BitArray :=
  clearRange b start num.

Definition truncateMask (b : BitArray) (numNames : Z) : BitArray :=
  setRange_false b numNames (getHighestBit b + 1 - numNames).

(** [int i = 30; while (--i >= 0) { updateDetailsFromDevice(); if (...)
    break; Thread::sleep (100); }] with [n] polls left.  The result is the
    time, the device and whether the loop was left by [break] (so that
    [i >= 0] after it). *)
Fixpoint waitForChange (os : OS) (newSampleRate : Q) (bufferSizeSamples : Z)
  (n : nat) (now : nat) (d : CoreAudioInternal)
  : option (nat * CoreAudioInternal * bool) :=
  match n with
  | O => Some (now, d, false)
  | S n' =>
      d ← updateDetailsFromDevice (os (deviceID d) now) d;
      if Qeq_bool (sampleRate d) newSampleRate
         && (bufferSizeSamples =? bufferSize d)
      then Some (now, d, true)
      else waitForChange os newSampleRate bufferSizeSamples n' (now + 100)%nat d
  end.

(** The length of the chain of slave devices. *)
Fixpoint depth (d : CoreAudioInternal) : nat :=
  match inputDevice d with
  | Some s => S (depth s)
  | None => O
  end.

(** [reopen], by recursion on a bound of the length of the slave chain. *)
Fixpoint reopen_rec (fuel : nat) (os : OS) (inputChannels outputChannels : BitArray)
  (newSampleRate : Q) (bufferSizeSamples : Z) (now : nat)
  (d : CoreAudioInternal) : option (nat * CoreAudioInternal * string) :=
  let d := set_error "" d in
  let d := set_callbacksAllowed false d in
  let d := set_timerRunning false d in
  let '(now, d) := stop os false now d in
  let d := set_activeInputChans inputChannels d in
  let d := set_activeOutputChans outputChannels d in
  let d := set_activeInputChans
             (truncateMask (activeInputChans d)
                (Z.of_nat (length (inChanNames d)))) d in
  let d := set_activeOutputChans
             (truncateMask (activeOutputChans d)
                (Z.of_nat (length (outChanNames d)))) d in
  let d := set_numInputChans (countNumberOfSetBits (activeInputChans d)) d in
  let d := set_numOutputChans (countNumberOfSetBits (activeOutputChans d)) d in
  '(now, d, changed) ←
    waitForChange os newSampleRate bufferSizeSamples 30 now d;
  let d := if (changed : bool) then d
           else set_error "Couldn't change sample rate/buffer size" d in
  let d := if Z.of_nat (length (sampleRates d)) =? 0
           then set_error "Device has no available sample-rates" d else d in
  let d := if Z.of_nat (length (bufferSizes d)) =? 0
           then set_error "Device has no available buffer-sizes" d else d in
  '(now, d) ←
    match inputDevice d with
    | Some s =>
        if String.eqb (error d) "" then
          match fuel with
          | S fuel' =>
              '(now, s, err) ←
                reopen_rec fuel' os inputChannels outputChannels
                  newSampleRate bufferSizeSamples now s;
              Some (now, set_error err (set_inputDevice (Some s) d))
          | O => None
          end
        else Some (now, d)
    | None => Some (now, d)
    end;
  let d := set_callbacksAllowed true d in
  Some (now, d, error d).

Definition reopen (os : OS) (inputChannels outputChannels : BitArray)
  (newSampleRate : Q) (bufferSizeSamples : Z) (now : nat)
  (d : CoreAudioInternal) : option (nat * CoreAudioInternal * string) :=
  reopen_rec (depth d) os inputChannels outputChannels newSampleRate
    bufferSizeSamples now d.

Definition getSampleRate (d : CoreAudioInternal) : Q := sampleRate d.
Definition getBufferSize (d : CoreAudioInternal) : Z := bufferSize d.

(** *** audioCallback *)

(** [for (int j = bufferSize; --j >= 0;) { *dest++ = *src; src += stride; }]
    with [n] iterations left; [src] is an index into the stream's [block]. *)
Fixpoint copyIn (n : nat) (dest : pointer) (src stride : Z)
  (block : list sample) (buf : list sample) : option (list sample) :=
  match n with
  | O => Some buf
  | S n' =>
      v ← arr_get block src;
      buf ← store buf dest v;
      copyIn n' (ptr_add dest 1) (src + stride) stride block buf
  end.

(** [for (int j = bufferSize; --j >= 0;) { *dest = *src++; dest += stride; }] *)
Fixpoint copyOut (n : nat) (src : pointer) (dest stride : Z)
  (buf : list sample) (block : list sample) : option (list sample) :=
  match n with
  | O => Some block
  | S n' =>
      v ← load buf src;
      block ← arr_set block dest v;
      copyOut n' (ptr_add src 1) (dest + stride) stride buf block
  end.

(** [for (int j = bufferSize; --j >= 0;) { *dest = 0.0f; dest += stride; }] *)
Fixpoint zeroOut (n : nat) (dest stride : Z) (block : list sample)
  : option (list sample) :=
  match n with
  | O => Some block
  | S n' =>
      block ← arr_set block dest 0;
      zeroOut n' (dest + stride) stride block
  end.

(** The data of stream [s] of a buffer list, rewritten by [f].  The data
    pointer of a stream that the list does not have addresses nothing: [f]
    runs on the empty block, where every access faults. *)
Definition withStream (bl : AudioBufferList) (s : Z)
  (f : list sample -> option (list sample)) : option AudioBufferList :=
  match arr_get bl s with
  | Some block => block ← f block; arr_set bl s block
  | None => _ ← f []; Some bl
  end.

Definition streamData (bl : AudioBufferList) (s : Z) : list sample :=
  match arr_get bl s with
  | Some block => block
  | None => []
  end.

(** The body of the input loop for logical channel [i]. *)
Definition readInputChannel (inInputData : AudioBufferList) (i : Z)
  (d : CoreAudioInternal) (buf : list sample) : option (list sample) :=
  info ← arr_get (inputChannelInfo d) i;
  dest ← arr_get (tempInputBuffers d) (sourceChannelNum info);
  let stride := dataStrideSamples info in
  if negb (stride =? 0)
  then copyIn (Z.to_nat (bufferSize d)) dest (dataOffsetSamples info) stride
         (streamData inInputData (streamNum info)) buf
  else Some buf.

(** [for (i = numInputChans; --i >= 0;)] with [n] channels left: the next
    channel is [n - 1]. *)
Fixpoint readInputChannels (inInputData : AudioBufferList) (n : nat)
  (d : CoreAudioInternal) (buf : list sample) : option (list sample) :=
  match n with
  | O => Some buf
  | S n' =>
      buf ← readInputChannel inInputData (Z.of_nat n') d buf;
      readInputChannels inInputData n' d buf
  end.

(** The body of the output loop for logical channel [i]. *)
Definition writeOutputChannel (i : Z) (d : CoreAudioInternal)
  (outOutputData : AudioBufferList) : option AudioBufferList :=
  info ← arr_get (outputChannelInfo d) i;
  src ← arr_get (tempOutputBuffers d) i;
  let stride := dataStrideSamples info in
  if negb (stride =? 0)
  then withStream outOutputData (streamNum info)
         (copyOut (Z.to_nat (bufferSize d)) src (dataOffsetSamples info) stride
            (audioBuffer d))
  else Some outOutputData.

Fixpoint writeOutputChannels (n : nat) (d : CoreAudioInternal)
  (outOutputData : AudioBufferList) : option AudioBufferList :=
  match n with
  | O => Some outOutputData
  | S n' =>
      out ← writeOutputChannel (Z.of_nat n') d outOutputData;
      writeOutputChannels n' d out
  end.

(** The body of the loop that silences output channel [i]. *)
Definition clearOutputChannel (i : Z) (d : CoreAudioInternal)
  (outOutputData : AudioBufferList) : option AudioBufferList :=
  info ← arr_get (outputChannelInfo d) i;
  let stride := dataStrideSamples info in
  if negb (stride =? 0)
  then withStream outOutputData (streamNum info)
         (zeroOut (Z.to_nat (bufferSize d)) (dataOffsetSamples info) stride)
  else Some outOutputData.

Fixpoint clearOutputChannels (n : nat) (d : CoreAudioInternal)
  (outOutputData : AudioBufferList) : option AudioBufferList :=
  match n with
  | O => Some outOutputData
  | S n' =>
      out ← clearOutputChannel (Z.of_nat n') d outOutputData;
      clearOutputChannels n' d out
  end.

(** What a client sees through channel pointer [p]: [n] samples of the
    buffer; nothing through a null pointer. *)
Definition channelView (buf : list sample) (p : pointer) (n : Z) : list sample :=
  match p with
  | Some off => if 0 <=? off then take (Z.to_nat n) (drop (Z.to_nat off) buf)
                else []
  | None => []
  end.

Definition channelViews (buf : list sample) (tbl : list pointer)
  (numChans n : Z) : list (list sample) :=
  map (fun p => channelView buf p n) (take (Z.to_nat numChans) tbl).

(** The samples [vals] that the client wrote through channel pointer [p]. *)
Fixpoint writeView (vals : list sample) (p : pointer) (buf : list sample)
  : option (list sample) :=
  match vals with
  | [] => Some buf
  | v :: rest =>
      buf ← store buf p v;
      writeView rest (ptr_add p 1) buf
  end.

Fixpoint writeViews (chans : list (list sample)) (tbl : list pointer)
  (buf : list sample) : option (list sample) :=
  match chans, tbl with
  | vals :: chans', p :: tbl' =>
      buf ← writeView vals p buf;
      writeViews chans' tbl' buf
  | _, _ => Some buf
  end.

(** [callback->audioDeviceIOCallback (ins, numIns, tempOutputBuffers,
    numOutputChans, bufferSize)]: the event and the buffer after it. *)
Definition callClient (cb : AudioIODeviceCallback) (ins : list (list sample))
  (d : CoreAudioInternal) : option (list sample * ClientEvent) :=
  let n := bufferSize d in
  let outs := channelViews (audioBuffer d) (tempOutputBuffers d)
                (numOutputChans d) n in
  let written := map (take (Z.to_nat n))
                   (take (Z.to_nat (numOutputChans d)) (cb_io cb ins outs n)) in
  buf ← writeViews written (tempOutputBuffers d) (audioBuffer d);
  Some (buf, IOCallback (cb_id cb) ins n).

Definition jmin (a b : Z) : Z := if b <? a then b else a.

Definition audioCallback (inInputData outOutputData : AudioBufferList)
  (d : CoreAudioInternal)
  : option (CoreAudioInternal * AudioBufferList * list ClientEvent) :=
  match callback d with
  | Some cb =>
      d ← match inputDevice d with
          | None =>
              buf ← readInputChannels inInputData (Z.to_nat (numInputChans d))
                      d (audioBuffer d);
              Some (set_audioBuffer buf d)
          | Some _ => Some d
          end;
      if negb (isSlaveDevice d) then
        let ins :=
          match inputDevice d with
          | None => channelViews (audioBuffer d) (tempInputBuffers d)
                      (numInputChans d) (bufferSize d)
          | Some s => channelViews (audioBuffer s) (tempInputBuffers s)
                        (numInputChans s) (bufferSize d)
          end in
        '(buf, ev) ← callClient cb ins d;
        let d := set_audioBuffer buf d in
        out ← writeOutputChannels (Z.to_nat (numOutputChans d)) d outOutputData;
        Some (d, out, [ev])
      else Some (d, outOutputData, [])
  | None =>
      out ← clearOutputChannels
              (Z.to_nat (jmin (numOutputChans d) (numOutputChannelInfos d)))
              d outOutputData;
      Some (d, out, [])
  end.

(** *** Changes that the OS reports *)

Definition deviceDetailsChanged (d : CoreAudioInternal) : CoreAudioInternal :=
  if callbacksAllowed d then set_timerRunning true d else d.

Definition timerCallback (os : OS) (now : nat) (d : CoreAudioInternal)
  : option (nat * CoreAudioInternal) :=
  let d := set_timerRunning false d in
  let oldSampleRate := sampleRate d in
  let oldBufferSize := bufferSize d in
  d ← updateDetailsFromDevice (os (deviceID d) now) d;
  if negb (oldBufferSize =? bufferSize d)
     || negb (Qeq_bool oldSampleRate (sampleRate d))
  then
    let d := set_callbacksAllowed false d in
    let '(now, d) := stop os false now d in
    d ← updateDetailsFromDevice (os (deviceID d) now) d;
    Some (now, set_callbacksAllowed true d)
  else Some (now, d).

(** *** Construction *)

(** The members as the constructor's initialiser list and body leave them
    before the device is looked at.  The four tables are not initialised
    by the constructor; they are taken as zeroed. *)
Definition initialCore (id : AudioDeviceID) : CoreAudioInternal :=
  {| error := ""; inputLatency := 0; outputLatency := 0;
     activeInputChans := 0; activeOutputChans := 0;
     inChanNames := []; outChanNames := [];
     sampleRates := []; bufferSizes := [];
     callback := None; inputDevice := None; isSlaveDevice := false;
     timerRunning := false; deviceID := id; started := false;
     sampleRate := 0%Q; bufferSize := 512; audioBuffer := [];
     numInputChans := 0; numOutputChans := 0; callbacksAllowed := true;
     numInputChannelInfos := 0; numOutputChannelInfos := 0;
     inputChannelInfo := zeroInfoTable; outputChannelInfo := zeroInfoTable;
     tempInputBuffers := nullTable; tempOutputBuffers := nullTable |}.

Definition new_CoreAudioInternal (os : OS) (now : nat) (id : AudioDeviceID)
  : option CoreAudioInternal :=
  let d := initialCore id in
  if deviceID d =? 0 then Some (set_error "can't open device" d)
  else updateDetailsFromDevice (os id now) d.

(** ** CoreAudioIODevice *)

Record CoreAudioIODevice : Type := mkDevice {
  deviceName : string;
  inputIndex : Z;
  outputIndex : Z;
  internal : option CoreAudioInternal;
  isOpen_ : bool;
  isStarted : bool;
  lastError : string
}.

Definition isNotEmpty (s : string) : bool := negb (String.eqb s "").

(** The constructor.  [newCore id] stands for [new CoreAudioInternal (id)];
    [deleteAndZero (device)] leaves [None]. *)
Definition CoreAudioIODevice_new
  (newCore : AudioDeviceID -> option CoreAudioInternal)
  (deviceName : string) (inputDeviceId : AudioDeviceID) (inputIndex_ : Z)
  (outputDeviceId : AudioDeviceID) (outputIndex_ : Z)
  : option CoreAudioIODevice :=
  '(device, lastError) ←
    (if (outputDeviceId =? 0) || (outputDeviceId =? inputDeviceId) then
       device ← newCore inputDeviceId;
       let lastError := error device in
       if isNotEmpty lastError then Some (None, lastError)
       else Some (Some device, lastError)
     else
       device ← newCore outputDeviceId;
       let lastError := error device in
       if isNotEmpty lastError then Some (None, lastError)
       else if negb (inputDeviceId =? 0) then
         secondDevice ← newCore inputDeviceId;
         let lastError := error device in
         if isNotEmpty lastError then Some (Some device, lastError)
         else
           Some (Some (set_inputDevice
                         (Some (set_isSlaveDevice true secondDevice)) device),
                 lastError)
       else Some (Some device, lastError));
  Some {| deviceName := deviceName;
          inputIndex := inputIndex_; outputIndex := outputIndex_;
          internal := device; isOpen_ := false; isStarted := false;
          lastError := lastError |}.

Definition set_internal (i : option CoreAudioInternal) (f : CoreAudioIODevice)
  : CoreAudioIODevice :=
  mkDevice (deviceName f) (inputIndex f) (outputIndex f) i (isOpen_ f)
    (isStarted f) (lastError f).

Definition set_isOpen_ (b : bool) (f : CoreAudioIODevice) : CoreAudioIODevice :=
  mkDevice (deviceName f) (inputIndex f) (outputIndex f) (internal f) b
    (isStarted f) (lastError f).

Definition set_isStarted (b : bool) (f : CoreAudioIODevice) : CoreAudioIODevice :=
  mkDevice (deviceName f) (inputIndex f) (outputIndex f) (internal f)
    (isOpen_ f) b (lastError f).

Definition set_lastError (e : string) (f : CoreAudioIODevice) : CoreAudioIODevice :=
  mkDevice (deviceName f) (inputIndex f) (outputIndex f) (internal f)
    (isOpen_ f) (isStarted f) e.

(** [for (int i = 0; i < getNumBufferSizesAvailable(); ++i)
    if (getBufferSizeSamples(i) >= 512) return getBufferSizeSamples(i);
    return 512;] with [n] iterations left. *)
Fixpoint firstUsableSize (n : nat) (i : Z) (sizes : list Z) : Z :=
  match n with
  | O => 512
  | S n' =>
      if 512 <=? Array_get sizes i then Array_get sizes i
      else firstUsableSize n' (i + 1) sizes
  end.

(** The methods dereference [internal]; on a null [internal] that is a
    fault. *)
Definition getDefaultBufferSize (f : CoreAudioIODevice) : option Z :=
  d ← internal f;
  Some (firstUsableSize (length (bufferSizes d)) 0 (bufferSizes d)).

Definition getCurrentBufferSizeSamples (f : CoreAudioIODevice) : Z :=
  match internal f with
  | Some d => getBufferSize d
  | None => 512
  end.

Definition getCurrentSampleRate (f : CoreAudioIODevice) : Q :=
  match internal f with
  | Some d => getSampleRate d
  | None => 0%Q
  end.

Definition open (os : OS) (inputChannels outputChannels : BitArray)
  (sampleRate : Q) (bufferSizeSamples : Z) (now : nat) (f : CoreAudioIODevice)
  : option (nat * CoreAudioIODevice * string) :=
  let f := set_isOpen_ true f in
  bufferSizeSamples ←
    (if bufferSizeSamples <=? 0 then getDefaultBufferSize f
     else Some bufferSizeSamples);
  d ← internal f;
  '(now, d, _) ←
    reopen os inputChannels outputChannels sampleRate bufferSizeSamples now d;
  let f := set_lastError (error d) (set_internal (Some d) f) in
  Some (now, f, lastError f).

Definition close (f : CoreAudioIODevice) : CoreAudioIODevice :=
  set_isOpen_ false f.

Definition facade_start (os : OS) (now : nat)
  (cb : option AudioIODeviceCallback) (f : CoreAudioIODevice)
  : CoreAudioIODevice * list ClientEvent :=
  match internal f with
  | Some d =>
      if negb (isStarted f) then
        let evs := match cb with
                   | Some c => [AboutToStart (cb_id c)]
                   | None => []
                   end in
        let f := set_isStarted true f in
        (set_internal (Some (fst (start os now cb d))) f, evs)
      else (f, [])
  | None => (f, [])
  end.

Definition facade_stop (os : OS) (now : nat) (f : CoreAudioIODevice)
  : nat * CoreAudioIODevice * list ClientEvent :=
  match internal f with
  | Some d =>
      if isStarted f then
        let lastCallback := callback d in
        let f := set_isStarted false f in
        let '(now, d) := stop os true now d in
        (now, set_internal (Some d) f,
         match lastCallback with
         | Some c => [Stopped (cb_id c)]
         | None => []
         end)
      else (now, f, [])
  | None => (now, f, [])
  end.

Definition isPlaying (f : CoreAudioIODevice) : option (CoreAudioIODevice * bool) :=
  d ← internal f;
  let f := match callback d with
           | None => set_isStarted false f
           | Some _ => f
           end in
  Some (f, isStarted f).

(** ** CoreAudioIODeviceType *)

Record CoreAudioIODeviceType : Type := mkType {
  inputDeviceNames : list string;
  outputDeviceNames : list string;
  inputIds : list AudioDeviceID;
  outputIds : list AudioDeviceID;
  hasScanned : bool
}.

(** [createDevice].  The condition reads an identifier [index] that the
    function does not declare and the class does not have; its value is no
    result of the two look-ups and is an argument here.  The result is
    [Some None] for the null pointer. *)
Definition createDevice (index : Z)
  (newCore : AudioDeviceID -> option CoreAudioInternal)
  (t : CoreAudioIODeviceType) (outputDeviceName inputDeviceName : string)
  : option (option CoreAudioIODevice) :=
  let inputIndex := indexOf (inputDeviceNames t) inputDeviceName in
  let outputIndex := indexOf (outputDeviceNames t) outputDeviceName in
  let deviceName := if String.eqb outputDeviceName "" then inputDeviceName
                    else outputDeviceName in
  if 0 <=? index then
    dev ← CoreAudioIODevice_new newCore deviceName
            (Array_get (inputIds t) inputIndex) inputIndex
            (Array_get (outputIds t) outputIndex) outputIndex;
    Some (Some dev)
  else Some None.

(** ** The device over time *)

(** What can happen to a device that the manager holds: the calls of the
    control thread, of the OS I/O thread (on the master's proc and on the
    slave's), of the property listeners and of the timers (of the master
    and of the slave).  Every call runs as a whole. *)
Inductive Action : Type :=
| ActStart (cb : option AudioIODeviceCallback)
| ActStop
| ActIsPlaying
| ActOpen (inputChannels outputChannels : BitArray) (sampleRate : Q)
    (bufferSizeSamples : Z)
| ActClose
| ActDetailsChanged
| ActTimer
| ActAudioProc (inInputData outOutputData : AudioBufferList)
| ActSlaveAudioProc (inInputData outOutputData : AudioBufferList)
| ActSlaveDetailsChanged
| ActSlaveTimer.

Definition step (os : OS) (now : nat) (f : CoreAudioIODevice) (a : Action)
  : option (nat * CoreAudioIODevice * list ClientEvent) :=
  match a with
  | ActStart cb =>
      let '(f, evs) := facade_start os now cb f in Some (now, f, evs)
  | ActStop => Some (facade_stop os now f)
  | ActIsPlaying => '(f, _) ← isPlaying f; Some (now, f, [])
  | ActOpen ins outs sr n =>
      '(now, f, _) ← open os ins outs sr n now f; Some (now, f, [])
  | ActClose => Some (now, close f, [])
  | ActDetailsChanged =>
      d ← internal f;
      Some (now, set_internal (Some (deviceDetailsChanged d)) f, [])
  | ActTimer =>
      d ← internal f;
      '(now, d) ← timerCallback os now d;
      Some (now, set_internal (Some d) f, [])
  | ActAudioProc ind outd =>
      d ← internal f;
      '(d, _, evs) ← audioCallback ind outd d;
      Some (now, set_internal (Some d) f, evs)
  | ActSlaveAudioProc ind outd =>
      d ← internal f;
      s ← inputDevice d;
      '(s, _, evs) ← audioCallback ind outd s;
      Some (now, set_internal (Some (set_inputDevice (Some s) d)) f, evs)
  | ActSlaveDetailsChanged =>
      d ← internal f;
      s ← inputDevice d;
      Some (now,
            set_internal
              (Some (set_inputDevice (Some (deviceDetailsChanged s)) d)) f,
            [])
  | ActSlaveTimer =>
      d ← internal f;
      s ← inputDevice d;
      '(now, s) ← timerCallback os now s;
      Some (now, set_internal (Some (set_inputDevice (Some s) d)) f, [])
  end.

(** The events of a sequence of actions, up to its end or to the first
    fault, and the state at its end. *)
Fixpoint run (os : OS) (now : nat) (f : CoreAudioIODevice) (acts : list Action)
  : list ClientEvent * option (nat * CoreAudioIODevice) :=
  match acts with
  | [] => ([], Some (now, f))
  | a :: rest =>
      match step os now f a with
      | Some (now', f', evs) =>
          let '(evs', r) := run os now' f' rest in ((evs ++ evs')%list, r)
      | None => ([], None)
      end
  end.

Definition eventClient (e : ClientEvent) : nat :=
  match e with
  | AboutToStart c => c
  | IOCallback c _ _ => c
  | Stopped c => c
  end.

(** ** The remaining operations of CoreAudioInternal *)

(** *** Names and selection of the data sources *)

(** [getSources].  [nameForID input t] is the answer of the OS to
    [kAudioDevicePropertyDataSourceNameForID] for the source id [t];
    [None] is a translation that does not return [noErr]. *)
Definition getSources (v : OSView) (nameForID : bool -> OSType -> option string)
  (input : bool) (d : CoreAudioInternal) : list string :=
  match getAllDataSourcesForDevice v (deviceID d) input with
  | Some types =>
      fold_left (fun s t => match nameForID input t with
                            | Some name => Array_add name s
                            | None => s
                            end) types []
  | None => []
  end.

(** [(unsigned int) x]. *)
Definition to_unsigned (z : Z) : Z := z mod 2 ^ int_bits.

(** [setCurrentSourceIndex]: the source id that the OS is asked to select;
    [Some None] when the function asks for nothing.  The comparison
    [((unsigned int) index) < num] is made on unsigned values. *)
Definition setCurrentSourceIndex (v : OSView) (index : Z) (input : bool)
  (d : CoreAudioInternal) : option (option OSType) :=
  if deviceID d =? 0 then Some None else
  match getAllDataSourcesForDevice v (deviceID d) input with
  | Some types =>
      let num := Z.of_nat (length types) in
      if to_unsigned index <? to_unsigned num then
        typeId ← arr_get types index;
        Some (Some typeId)
      else Some None
  | None => Some None
  end.

(** *** getRelatedDevice *)

(** [for (unsigned int i = 0; i < size / sizeof (AudioDeviceID); ++i)] over
    the remaining ids of the block.  [newCore id] stands for
    [new CoreAudioInternal (id)]; the result is [Some None] for the null
    pointer. *)
Fixpoint scanRelated (newCore : AudioDeviceID -> option CoreAudioInternal)
  (d : CoreAudioInternal) (devs : list AudioDeviceID)
  : option (option CoreAudioInternal) :=
  match devs with
  | [] => Some None
  | dev :: rest =>
      if negb (dev =? deviceID d) && negb (dev =? 0) then
        result ← newCore dev;
        if String.eqb (error result) "" then
          let thisIsInput :=
            (0 <? Z.of_nat (length (inChanNames d)))
            && (Z.of_nat (length (outChanNames d)) =? 0) in
          let otherIsInput :=
            (0 <? Z.of_nat (length (inChanNames result)))
            && (Z.of_nat (length (outChanNames result)) =? 0) in
          if negb (Bool.eqb thisIsInput otherIsInput)
             || (Z.of_nat (length (inChanNames d))
                 + Z.of_nat (length (outChanNames d)) =? 0)
             || (Z.of_nat (length (inChanNames result))
                 + Z.of_nat (length (outChanNames result)) =? 0)
          then Some (Some result)
          else scanRelated newCore d rest
        else scanRelated newCore d rest
      else scanRelated newCore d rest
  end.

(** [related] is the answer of the OS to
    [kAudioDevicePropertyRelatedDevices] for the device; [None] when one of
    the two reads does not return [noErr]. *)
Definition getRelatedDevice (related : option (list AudioDeviceID))
  (newCore : AudioDeviceID -> option CoreAudioInternal) (d : CoreAudioInternal)
  : option (option CoreAudioInternal) :=
  if deviceID d =? 0 then Some None else
  match related with
  | Some devs =>
      if 0 <? Z.of_nat (length devs) then scanRelated newCore d devs
      else Some None
  | None => Some None
  end.

(** ** The remaining operations of CoreAudioIODevice *)

(** The methods that dereference [internal] fault on a null [internal]. *)
Definition getOutputChannelNames (f : CoreAudioIODevice) : option (list string) :=
  d ← internal f;
  Some (outChanNames d).

Definition getInputChannelNames (f : CoreAudioIODevice) : option (list string) :=
  d ← internal f;
  match inputDevice d with
  | Some s => Some (inChanNames s)
  | None => Some (inChanNames d)
  end.

(** ** The remaining operations of CoreAudioIODeviceType *)




Definition getDeviceNames (t : CoreAudioIODeviceType) (wantInputNames : bool)
  : list string :=
  if wantInputNames then inputDeviceNames t else outputDeviceNames t.

(** [for (int i = ids.size(); --i >= 0;) if (ids[i] == deviceID) return i;]
    with [n] iterations left, followed by the [return 0] at the end of
    [getDefaultDeviceIndex]. *)
Fixpoint scanIdsDown (ids : list AudioDeviceID) (n : nat)
  (deviceID : AudioDeviceID) : Z :=
  match n with
  | O => 0
  | S n' =>
      if Array_get ids (Z.of_nat n') =? deviceID then Z.of_nat n'
      else scanIdsDown ids n' deviceID
  end.

(** [defaultDevice forInput] is the answer to
    [kAudioHardwarePropertyDefaultInputDevice] or
    [kAudioHardwarePropertyDefaultOutputDevice]. *)
Definition getDefaultDeviceIndex (defaultDevice : bool -> option AudioDeviceID)
  (t : CoreAudioIODeviceType) (forInput : bool) : Z :=
  match defaultDevice forInput with
  | Some deviceID =>
      if forInput then scanIdsDown (inputIds t) (length (inputIds t)) deviceID
      else scanIdsDown (outputIds t) (length (outputIds t)) deviceID
  | None => 0
  end.

(** [device] is [None] for a device of another class, on which the
    [dynamic_cast] gives the null pointer. *)
Definition getIndexOfDevice (device : option CoreAudioIODevice) (asInput : bool)
  : Z :=
  match device with
  | Some d => if asInput then inputIndex d else outputIndex d
  | None => -1
  end.

(** * The vocabulary of the properties *)

(** [r] is the first element of [sizes], in the order of the list, that
    is at least 512; 512 when there is none. *)
Definition firstUsable (sizes : list Z) (r : Z) : Prop :=
  (exists pre post, sizes = (pre ++ r :: post)%list
                    /\ Forall (fun x => x < 512) pre /\ 512 <= r)
  \/ (Forall (fun x => x < 512) sizes /\ r = 512).

(** [r] is the smallest element of [sizes] that is at least 512; 512 when
    there is none. *)
Definition smallestUsable (sizes : list Z) (r : Z) : Prop :=
  (In r sizes /\ 512 <= r /\ forall x, In x sizes -> 512 <= x -> r <= x)
  \/ ((forall x, In x sizes -> x < 512) /\ r = 512).

(** Two views of [n] float slots each, from [off1] and from [off2], do not
    overlap. *)
Definition viewsDisjoint (off1 off2 n : Z) : Prop :=
  off1 + n <= off2 \/ off2 + n <= off1.

(** The pointer of channel [c] of the device, the input channels first. *)
Definition channelPointer (d : CoreAudioInternal) (c : Z) : option pointer :=
  if c <? numInputChans d then arr_get (tempInputBuffers d) c
  else arr_get (tempOutputBuffers d) (c - numInputChans d).

(** Slot [j] of stream [s] of a buffer list holds [0.0f]. *)
Definition zeroAt (bl : list (list Z)) (s j : Z) : Prop :=
  arr_get (streamData bl s) j = Some 0.

(** The number of float slots of stream [s]. *)
Definition streamLen (bl : list (list Z)) (s : Z) : Z :=
  Z.of_nat (length (streamData bl s)).

(** The [n] slots of the channel that [info] routes exist in the buffer
    list. *)
Definition routeFits (n : Z) (info : CallbackDetailsForChannel)
  (bl : list (list Z)) : Prop :=
  0 <= streamNum info < Z.of_nat (length bl)
  /\ forall k, 0 <= k < n ->
       0 <= dataOffsetSamples info + k * dataStrideSamples info
         < streamLen bl (streamNum info).

(** The entries of the output routing table from [numOutputChannelInfos]
    on are as [zeromem] left them. *)
Definition outputTailCleared (d : CoreAudioInternal) : Prop :=
  forall i info, numOutputChannelInfos d <= i ->
    arr_get (outputChannelInfo d) i = Some info -> dataStrideSamples info = 0.

(** The members that only the control operations write. *)
Definition sameControl (d d' : CoreAudioInternal) : Prop :=
  error d' = error d /\ callback d' = callback d
  /\ inputDevice d' = inputDevice d /\ isSlaveDevice d' = isSlaveDevice d
  /\ deviceID d' = deviceID d /\ started d' = started d
  /\ numInputChans d' = numInputChans d /\ numOutputChans d' = numOutputChans d
  /\ callbacksAllowed d' = callbacksAllowed d
  /\ activeInputChans d' = activeInputChans d
  /\ activeOutputChans d' = activeOutputChans d.

(** The members that [fillInChannelInfo] does not write: all but the
    channel names and the two routing tables with their counts. *)
Definition sameButRouting (d d' : CoreAudioInternal) : Prop :=
  sameControl d d'
  /\ sampleRate d' = sampleRate d /\ bufferSize d' = bufferSize d
  /\ sampleRates d' = sampleRates d /\ bufferSizes d' = bufferSizes d
  /\ audioBuffer d' = audioBuffer d
  /\ tempInputBuffers d' = tempInputBuffers d
  /\ tempOutputBuffers d' = tempOutputBuffers d
  /\ timerRunning d' = timerRunning d.

(** What one refresh reads as the rate and the size: the values of the
    OS where the reads succeed, the values it had where they fail; for
    the device id 0 nothing is read. *)
Definition observe (v : OSView) (id : Z) (cur : Q * Z) : Q * Z :=
  if id =? 0 then cur
  else (match os_NominalSampleRate v with Some sr => sr | None => fst cur end,
        match os_BufferFrameSize v with
        | Some framesPerBuf => to_int framesPerBuf
        | None => snd cur
        end).

(** The number of channels of a stream configuration. *)
Definition totalChannels (streams : list Z) : Z :=
  fold_right (fun nch acc => Z.of_nat (Z.to_nat nch) + acc) 0 streams.

(** An answer of the OS that the fixed tables of the device can take: no
    more than [maxNumChans] channels in a direction, and no empty block of
    buffer-size ranges. *)
Definition viewFits (v : OSView) : Prop :=
  os_BufferFrameSizeRange v <> Some []
  /\ forall input streams,
       os_StreamConfiguration v input = Some streams ->
       totalChannels streams <= maxNumChans.

(** The state of the loops of [fillInChannelInfo]: no more active channels
    than channels, and the two tables at their size. *)
Definition fillInv (st : Z * Z * CoreAudioInternal) : Prop :=
  0 <= snd (fst st) <= fst (fst st)
  /\ Z.of_nat (length (inputChannelInfo (snd st))) = maxNumChans
  /\ Z.of_nat (length (outputChannelInfo (snd st))) = maxNumChans.

(** The part of [stop] that concerns the device itself. *)
Definition stopLocal (os : OS) (leaveInterruptRunning : bool) (now : nat)
  (d : CoreAudioInternal) : nat * CoreAudioInternal :=
  let d := set_callback None d in
  if started d && negb (deviceID d =? 0) && negb leaveInterruptRunning
  then (waitUntilStopped os (deviceID d) 40 now, set_started false d)
  else (now, d).

(** What [stop] changes in the device itself: [callback], [started] and the
    slave. *)
Definition sameButBinding (d d' : CoreAudioInternal) : Prop :=
  error d' = error d /\ isSlaveDevice d' = isSlaveDevice d
  /\ deviceID d' = deviceID d
  /\ numInputChans d' = numInputChans d /\ numOutputChans d' = numOutputChans d
  /\ callbacksAllowed d' = callbacksAllowed d
  /\ activeInputChans d' = activeInputChans d
  /\ activeOutputChans d' = activeOutputChans d
  /\ inChanNames d' = inChanNames d /\ outChanNames d' = outChanNames d
  /\ sampleRate d' = sampleRate d /\ bufferSize d' = bufferSize d
  /\ sampleRates d' = sampleRates d /\ bufferSizes d' = bufferSizes d
  /\ timerRunning d' = timerRunning d.

(** Every device of the chain has seen no more than [maxNumChans] channels
    in a direction at its last refresh. *)
Fixpoint chainFits (d : CoreAudioInternal) : Prop :=
  Z.of_nat (length (inChanNames d)) <= maxNumChans
  /\ Z.of_nat (length (outChanNames d)) <= maxNumChans
  /\ match inputDevice d with
     | Some s => chainFits s
     | None => True
     end.

(** The test of the polling loop on a pair of rate and size. *)
Definition matches (newSampleRate : Q) (bufferSizeSamples : Z) (obs : Q * Z)
  : bool :=
  Qeq_bool (fst obs) newSampleRate && (bufferSizeSamples =? snd obs).

(** What [n] polls, 100 ms apart and the first at time [t], read as rate
    and size of device [id] one after the other, from the values [cur]
    that the device holds before. *)
Fixpoint pollTrace (os : OS) (id : Z) (n : nat) (t : nat) (cur : Q * Z)
  : list (Q * Z) :=
  match n with
  | O => []
  | S n' =>
      let o := observe (os id t) id cur in
      o :: pollTrace os id n' (t + 100)%nat o
  end.

(** The steps of [reopen] before the polling loop. *)
Definition reopenPrefix (os : OS) (inputChannels outputChannels : Z)
  (now : nat) (d : CoreAudioInternal) : nat * CoreAudioInternal :=
  let d := set_error "" d in
  let d := set_callbacksAllowed false d in
  let d := set_timerRunning false d in
  let '(now, d) := stop os false now d in
  let d := set_activeInputChans inputChannels d in
  let d := set_activeOutputChans outputChannels d in
  let d := set_activeInputChans
             (truncateMask (activeInputChans d)
                (Z.of_nat (length (inChanNames d)))) d in
  let d := set_activeOutputChans
             (truncateMask (activeOutputChans d)
                (Z.of_nat (length (outChanNames d)))) d in
  let d := set_numInputChans (countNumberOfSetBits (activeInputChans d)) d in
  let d := set_numOutputChans (countNumberOfSetBits (activeOutputChans d)) d in
  (now, d).

(** The time at which the polling of [reopen] begins. *)
Definition reopenStart (os : OS) (now : nat) (d : CoreAudioInternal) : nat :=
  fst (stop os false now
         (set_timerRunning false (set_callbacksAllowed false (set_error "" d)))).

(** The three tests of [reopen] that follow the polling loop. *)
Definition afterPolling (changed : bool) (d : CoreAudioInternal)
  : CoreAudioInternal :=
  let d := if changed then d
           else set_error "Couldn't change sample rate/buffer size" d in
  let d := if Z.of_nat (length (sampleRates d)) =? 0
           then set_error "Device has no available sample-rates" d else d in
  let d := if Z.of_nat (length (bufferSizes d)) =? 0
           then set_error "Device has no available buffer-sizes" d else d in
  d.

(** The part of [start] that concerns the device itself. *)
Definition startLocal (os : OS) (now : nat) (cb : option AudioIODeviceCallback)
  (d : CoreAudioInternal) : CoreAudioInternal :=
  let d :=
    if negb (started d) then
      let d := set_callback None d in
      if negb (deviceID d =? 0)
         && os_AddIOProc (os (deviceID d) now)
         && os_Start (os (deviceID d) now)
      then set_started true d else d
    else d in
  if started d then set_callback cb d else d.

(** No device of the chain has the client with identity [c] bound. *)
Fixpoint noClient (c : nat) (d : CoreAudioInternal) : Prop :=
  (forall cb, callback d = Some cb -> cb_id cb <> c)
  /\ match inputDevice d with
     | Some s => noClient c s
     | None => True
     end.

(** The actions that do not hand the client [c] to the device again. *)
Definition allowed (c : nat) (a : Action) : Prop :=
  match a with
  | ActStart (Some cb) => cb_id cb <> c
  | _ => True
  end.

(** The core of the facade, if it has one, has no client [c] bound. *)
Definition facadeNoClient (c : nat) (f : CoreAudioIODevice) : Prop :=
  match internal f with
  | Some d => noClient c d
  | None => True
  end.

(** The entries of the output routing table from index [a] on have the
    stride 0. *)
Definition outputTailFrom (a : Z) (d : CoreAudioInternal) : Prop :=
  forall i info, a <= i ->
    arr_get (outputChannelInfo d) i = Some info -> dataStrideSamples info = 0.

(** The state of the loops of [fillInChannelInfo (false)]. *)
Definition fillOutputInv (st : Z * Z * CoreAudioInternal) : Prop :=
  0 <= snd (fst st)
  /\ outputTailFrom (snd (fst st)) (snd st)
  /\ (0 < snd (fst st) -> numOutputChannelInfos (snd st) = snd (fst st))
  /\ (snd (fst st) = 0 -> outputTailFrom 0 (snd st)).

(** Logical input channel [i] is routed by [info] and written to the
    [bufferSize] float slots from [off] of the temporary buffer, which lie
    in a buffer of [len] slots; the samples it reads exist in the buffer
    list of the OS. *)
Definition inputChannelMapped (d : CoreAudioInternal) (ind : list (list Z))
  (len : Z) (i : Z) (info : CallbackDetailsForChannel) (off : Z) : Prop :=
  arr_get (inputChannelInfo d) i = Some info
  /\ arr_get (tempInputBuffers d) (sourceChannelNum info) = Some (Some off)
  /\ 0 <= off /\ off + bufferSize d <= len
  /\ (dataStrideSamples info <> 0 -> routeFits (bufferSize d) info ind).

(** Every device of the chain satisfies [P]. *)
Fixpoint chainAll (P : CoreAudioInternal -> Prop) (d : CoreAudioInternal)
  : Prop :=
  P d /\ match inputDevice d with
         | Some s => chainAll P s
         | None => True
         end.

(** The [started] flags along the chain, the master first. *)
Fixpoint chainStarted (d : CoreAudioInternal) : list bool :=
  started d :: match inputDevice d with
               | Some s => chainStarted s
               | None => []
               end.

(** The number of devices of the chain whose interrupt [stop (false)] has
    to stop: those that are started and have an id other than 0. *)
Fixpoint runningDevices (d : CoreAudioInternal) : nat :=
  let rest := match inputDevice d with
              | Some s => runningDevices s
              | None => O
              end in
  if started d && negb (deviceID d =? 0) then S rest else rest.

(** The names that [fillInChannelInfo] gives to [n] channels, the first of
    which has the number [first]: the prefix and the number. *)
Definition channelNames (prefix : string) (first n : Z) : list string :=
  map (fun k => prefix +:+ pretty k) (seqZ first n).

(** The names of the channels of a stream configuration; none when the
    configuration cannot be read. *)
Definition namesOfConfiguration (prefix : string) (cfg : option (list Z))
  : list string :=
  match cfg with
  | Some streams => channelNames prefix 1 (totalChannels streams)
  | None => []
  end.

(** The routing table and the mask of active channels of a direction. *)
Definition infoTable (input : bool) (d : CoreAudioInternal)
  : list CallbackDetailsForChannel :=
  if input then inputChannelInfo d else outputChannelInfo d.

Definition activeChans (input : bool) (d : CoreAudioInternal) : Z :=
  if input then activeInputChans d else activeOutputChans d.

(** The number of channels of the streams before stream [s]. *)
Definition channelsBefore (streams : list Z) (s : Z) : Z :=
  totalChannels (take (Z.to_nat s) streams).

(** Entry [k] of a routing table routes an active channel of the stream
    configuration: the channel [sourceChannelNum] is active, it is channel
    [dataOffsetSamples] of stream [streamNum], and the stride is the number
    of channels of that stream. *)
Definition wellRouted (streams : list Z) (mask : Z) (k : Z)
  (info : CallbackDetailsForChannel) : Prop :=
  BitArray_get mask (sourceChannelNum info) = true
  /\ k <= sourceChannelNum info
  /\ exists nch, arr_get streams (streamNum info) = Some nch
       /\ dataStrideSamples info = nch
       /\ 0 <= dataOffsetSamples info < nch
       /\ sourceChannelNum info
          = channelsBefore streams (streamNum info) + dataOffsetSamples info.

(** The state of the loops of [fillInChannelInfo] on the table [tbl] of
    its direction, when [c] channels have been seen and [a] of them were
    active. *)
Definition routeInv (streams : list Z) (mask : Z) (c a : Z)
  (tbl : list CallbackDetailsForChannel) : Prop :=
  0 <= a <= c
  /\ (forall k info, 0 <= k < a -> arr_get tbl k = Some info ->
        wellRouted streams mask k info /\ sourceChannelNum info < c
        /\ dataStrideSamples info <> 0)
  /\ (forall k info, a <= k -> arr_get tbl k = Some info ->
        dataStrideSamples info = 0)
  /\ (forall k1 k2 i1 i2, 0 <= k1 < k2 -> k2 < a ->
        arr_get tbl k1 = Some i1 -> arr_get tbl k2 = Some i2 ->
        sourceChannelNum i1 < sourceChannelNum i2)
  /\ (forall c', 0 <= c' < c -> BitArray_get mask c' = true ->
        exists k info, 0 <= k < a /\ arr_get tbl k = Some info
                       /\ sourceChannelNum info = c').

(** The table routes the active channels of the configuration, and only
    them: the entries with a stride other than 0 are well routed, they
    come in the order of the channels, and every active channel of the
    configuration has one. *)
Definition routesActiveChannels (streams : list Z) (mask : Z)
  (tbl : list CallbackDetailsForChannel) : Prop :=
  (forall k info, arr_get tbl k = Some info -> dataStrideSamples info <> 0 ->
     wellRouted streams mask k info
     /\ sourceChannelNum info < totalChannels streams)
  /\ (forall k1 k2 i1 i2, k1 < k2 ->
        arr_get tbl k1 = Some i1 -> arr_get tbl k2 = Some i2 ->
        dataStrideSamples i1 <> 0 -> dataStrideSamples i2 <> 0 ->
        sourceChannelNum i1 < sourceChannelNum i2)
  /\ (forall c, 0 <= c < totalChannels streams -> BitArray_get mask c = true ->
        exists k info, arr_get tbl k = Some info /\ sourceChannelNum info = c
                       /\ dataStrideSamples info <> 0).

(** The slot of the buffer list that sample [k] of the channel routed by
    [info] has: the stream and the index in its data. *)
Definition slotOf (info : CallbackDetailsForChannel) (k : Z) : Z * Z :=
  (streamNum info, dataOffsetSamples info + k * dataStrideSamples info).

(** Two routed channels share no slot in [n] samples. *)
Definition routesApart (n : Z) (info1 info2 : CallbackDetailsForChannel)
  : Prop :=
  forall k1 k2, 0 <= k1 < n -> 0 <= k2 < n -> slotOf info1 k1 <> slotOf info2 k2.

(** Logical output channel [j] is routed by [info], its view is the
    [bufferSize] float slots from [off] of the temporary buffer, which lie
    in a buffer of [len] slots, and the slots it writes exist in the buffer
    list of the OS. *)
Definition outputChannelMapped (d : CoreAudioInternal) (outd : list (list Z))
  (len : Z) (j : Z) (info : CallbackDetailsForChannel) (off : Z) : Prop :=
  arr_get (outputChannelInfo d) j = Some info
  /\ arr_get (tempOutputBuffers d) j = Some (Some off)
  /\ 0 <= off /\ off + bufferSize d <= len
  /\ (dataStrideSamples info <> 0 -> routeFits (bufferSize d) info outd).

(** The device has input channels and no output channels. *)
Definition isInputOnly (d : CoreAudioInternal) : bool :=
  (0 <? Z.of_nat (length (inChanNames d)))
  && (Z.of_nat (length (outChanNames d)) =? 0).

(** The number of channel names of the device, both directions. *)
Definition namedChannels (d : CoreAudioInternal) : Z :=
  Z.of_nat (length (inChanNames d)) + Z.of_nat (length (outChanNames d)).

(** The candidate [c] ends the search of [getRelatedDevice] for [d]: one of
    the two is an input-only device and the other is not, or one of the two
    has no channel names at all. *)
Definition acceptsRelated (d c : CoreAudioInternal) : Prop :=
  isInputOnly d <> isInputOnly c \/ namedChannels d = 0 \/ namedChannels c = 0.



(** The device has no client, and is not started unless its id is 0. *)
Definition isIdle (x : CoreAudioInternal) : Prop :=
  callback x = None /\ (started x = true -> deviceID x = 0).

(** The refresh of a timer shot of [d] reads a buffer size or a sample
    rate other than [d] holds. *)
Definition seesChange (os : OS) (now : nat) (d : CoreAudioInternal) : Prop :=
  bufferSize d
  <> snd (observe (os (deviceID d) now) (deviceID d) (sampleRate d, bufferSize d))
  \/ ~ (sampleRate d
        == fst (observe (os (deviceID d) now) (deviceID d)
                  (sampleRate d, bufferSize d)))%Q.

(** * Devices to try the operations on *)

(** A device whose two ranges of buffer sizes come with the larger one
    first. *)
Definition twoRangeView : OSView :=
  {| os_NominalSampleRate := Some (44100 # 1)%Q;
     os_BufferFrameSize := Some 2048;
     os_BufferFrameSizeRange :=
       Some [((2048 # 1)%Q, (2048 # 1)%Q); ((512 # 1)%Q, (512 # 1)%Q)];
     os_AvailableNominalSampleRates := Some [((44100 # 1)%Q, (48000 # 1)%Q)];
     os_Latency := fun _ => Some 0;
     os_StreamConfiguration := fun input => if input then None else Some [2];
     os_DeviceIsRunning := Some 0;
     os_DataSources := fun _ => None;
     os_DataSource := fun _ => None;
     os_AddIOProc := true;
     os_Start := true |}.

Definition twoRangeOS : OS := fun _ _ => twoRangeView.

Definition twoRangeDevice : option CoreAudioIODevice :=
  CoreAudioIODevice_new (new_CoreAudioInternal twoRangeOS 0) "out" 0 (-1) 1 0.

(** The core of that device and the facade around it. *)
Definition twoRangeCore : CoreAudioInternal :=
  default (initialCore 1) (new_CoreAudioInternal twoRangeOS 0 1).

Definition twoRangeFacade : CoreAudioIODevice :=
  {| deviceName := "out"; inputIndex := -1; outputIndex := 0;
     internal := Some twoRangeCore; isOpen_ := false; isStarted := false;
     lastError := "" |}.

(** A device with one input and one output channel. *)
Definition oneInOneOut : CoreAudioInternal :=
  set_numOutputChans 1 (set_numInputChans 1 (initialCore 1)).

(** A device with the two data sources 10 and 20, the second of which is
    the current one. *)
Definition twoSourcesView : OSView :=
  {| os_NominalSampleRate := Some (44100 # 1)%Q;
     os_BufferFrameSize := Some 512;
     os_BufferFrameSizeRange := Some [((32 # 1)%Q, (4096 # 1)%Q)];
     os_AvailableNominalSampleRates := Some [((44100 # 1)%Q, (48000 # 1)%Q)];
     os_Latency := fun _ => Some 0;
     os_StreamConfiguration := fun _ => Some [2];
     os_DeviceIsRunning := Some 0;
     os_DataSources := fun _ => Some [10; 20];
     os_DataSource := fun _ => Some 20;
     os_AddIOProc := true;
     os_Start := true |}.

(** A registry that has scanned one input and one output device. *)
Definition micAndSpeakers : CoreAudioIODeviceType :=
  {| inputDeviceNames := ["Mic"]; outputDeviceNames := ["Speakers"];
     inputIds := [41]; outputIds := [42]; hasScanned := true |}.

(** A way of making cores in which the device with id 2 cannot be
    opened. *)
Definition failingInput (id : Z) : option CoreAudioInternal :=
  if id =? 2 then Some (set_error "can't open device" (initialCore id))
  else Some (initialCore id).

(** A device with one stream of two channels in each direction, buffers
    of 4 frames at 44100 Hz, that accepts every request. *)
Definition stereoView : OSView :=
  {| os_NominalSampleRate := Some (44100 # 1)%Q;
     os_BufferFrameSize := Some 4;
     os_BufferFrameSizeRange := Some [((4 # 1)%Q, (4096 # 1)%Q)];
     os_AvailableNominalSampleRates := Some [((44100 # 1)%Q, (48000 # 1)%Q)];
     os_Latency := fun _ => Some 10;
     os_StreamConfiguration := fun _ => Some [2];
     os_DeviceIsRunning := Some 0;
     os_DataSources := fun _ => None;
     os_DataSource := fun _ => None;
     os_AddIOProc := true;
     os_Start := true |}.

Definition stereoOS (id : Z) (t : nat) : OSView := stereoView.

(** The stereo device after the OS has gone to buffers of 8 frames. *)
Definition stereoView8 : OSView :=
  {| os_NominalSampleRate := Some (44100 # 1)%Q;
     os_BufferFrameSize := Some 8;
     os_BufferFrameSizeRange := Some [((4 # 1)%Q, (4096 # 1)%Q)];
     os_AvailableNominalSampleRates := Some [((44100 # 1)%Q, (48000 # 1)%Q)];
     os_Latency := fun _ => Some 10;
     os_StreamConfiguration := fun _ => Some [2];
     os_DeviceIsRunning := Some 0;
     os_DataSources := fun _ => None;
     os_DataSource := fun _ => None;
     os_AddIOProc := true;
     os_Start := true |}.

Definition stereoOS8 (id : Z) (t : nat) : OSView := stereoView8.

(** A client that copies its input channels to its output channels. *)
Definition passThrough : AudioIODeviceCallback :=
  {| cb_id := 7; cb_io := fun ins _ _ => ins |}.

(** The core of device 1, as constructed. *)
Definition stereoCore : CoreAudioInternal :=
  default (initialCore 1) (new_CoreAudioInternal stereoOS 0 1).

(** [stereoCore] reopened with the given masks at 44100 Hz and 4 frames,
    then started with the client. *)
Definition startedStereo (inputChannels outputChannels : Z) : CoreAudioInternal :=
  match reopen stereoOS inputChannels outputChannels (44100 # 1)%Q 4 0 stereoCore with
  | Some (now, d, _) => fst (start stereoOS now (Some passThrough) d)
  | None => stereoCore
  end.

(** [stereoCore] reopened with both channels of both directions, not
    started. *)
Definition openedStereo : CoreAudioInternal :=
  match reopen stereoOS 3 3 (44100 # 1)%Q 4 0 stereoCore with
  | Some (_, d, _) => d
  | None => stereoCore
  end.

(** The facade of output device 1 and input device 2, opened with both
    channels of both directions and started with the client. *)
Definition startedPair : option CoreAudioIODevice :=
  f ← CoreAudioIODevice_new (new_CoreAudioInternal stereoOS 0) "pair" 2 0 1 0;
  '(now, f, _) ← open stereoOS 3 3 (44100 # 1)%Q 4 0 f;
  Some (fst (facade_start stereoOS now (Some passThrough) f)).

(** The OS goes to buffers of 8 frames after 400 ms: the request for 8
    frames succeeds at the fifth poll. *)
Definition lateOS (id : Z) (t : nat) : OSView :=
  if (t <? 400)%nat then stereoView else stereoView8.

(** The slave of the started pair. *)
Definition startedPairSlave : CoreAudioInternal :=
  match startedPair with
  | Some f =>
      match internal f with
      | Some d => default (initialCore 2) (inputDevice d)
      | None => initialCore 2
      end
  | None => initialCore 2
  end.

(** The pair before it is started. *)
Definition openedPair : option CoreAudioIODevice :=
  f ← CoreAudioIODevice_new (new_CoreAudioInternal stereoOS 0) "pair" 2 0 1 0;
  '(_, f, _) ← open stereoOS 3 3 (44100 # 1)%Q 4 0 f;
  Some f.

(** The master of the opened pair and its slave. *)
Definition openedPairMaster : CoreAudioInternal :=
  match openedPair with
  | Some f => default (initialCore 1) (internal f)
  | None => initialCore 1
  end.

Definition openedPairSlave : CoreAudioInternal :=
  default (initialCore 2) (inputDevice openedPairMaster).

(** The facade of the started stereo device. *)
Definition startedFacade : CoreAudioIODevice :=
  {| deviceName := "stereo"; inputIndex := 0; outputIndex := 0;
     internal := Some (startedStereo 3 3); isOpen_ := true; isStarted := true;
     lastError := "" |}.

(** The stereo device with both channels of both directions marked as
    active, before and after a refresh. *)
Definition stereoActive : CoreAudioInternal :=
  set_activeOutputChans 3 (set_activeInputChans 3 (initialCore 1)).

Definition stereoRouted : CoreAudioInternal :=
  default (initialCore 1) (updateDetailsFromDevice stereoView stereoActive).

(** One buffer of the stereo device: four frames of two interleaved
    channels, and the routing and the views that the device has for them
    after it has been opened with both channels of both directions. *)
Definition stereoFrames : list (list Z) := [[10; 20; 11; 21; 12; 22; 13; 23]].

Definition stereoSilence : list (list Z) := [[0; 0; 0; 0; 0; 0; 0; 0]].

Definition stereoInfo (i : Z) : CallbackDetailsForChannel :=
  if i =? 0 then mkInfo 0 0 0 2 else mkInfo 1 0 1 2.

Definition stereoInOff (i : Z) : Z := i * 4.

Definition stereoOutOff (j : Z) : Z := 8 + j * 4.

(** What the callback returns for that buffer. *)
Definition stereoPlayed
  : CoreAudioInternal * list (list Z) * list ClientEvent :=
  default (startedStereo 3 3, [], [])
    (audioCallback stereoFrames stereoSilence (startedStereo 3 3)).

(** The master of the started pair. *)
Definition startedPairMaster : CoreAudioInternal :=
  match startedPair with
  | Some f => default (initialCore 1) (internal f)
  | None => initialCore 1
  end.

(** Names for the two sources of [twoSourcesView]. *)
Definition twoSourceNames (input : bool) (t : Z) : option string :=
  if t =? 10 then Some "Line In" else Some "Microphone".

(** A device for which every read of the OS fails. *)
Definition deadView : OSView :=
  {| os_NominalSampleRate := None;
     os_BufferFrameSize := None;
     os_BufferFrameSizeRange := None;
     os_AvailableNominalSampleRates := None;
     os_Latency := fun _ => None;
     os_StreamConfiguration := fun _ => None;
     os_DeviceIsRunning := None;
     os_DataSources := fun _ => None;
     os_DataSource := fun _ => None;
     os_AddIOProc := false;
     os_Start := false |}.

Definition deadOS (id : Z) (t : nat) : OSView := deadView.

(** A microphone: one input channel, no outputs. *)
Definition micView : OSView :=
  {| os_NominalSampleRate := Some (44100 # 1)%Q;
     os_BufferFrameSize := Some 512;
     os_BufferFrameSizeRange := Some [((32 # 1)%Q, (4096 # 1)%Q)];
     os_AvailableNominalSampleRates := Some [((44100 # 1)%Q, (48000 # 1)%Q)];
     os_Latency := fun _ => Some 0;
     os_StreamConfiguration := fun input => if input then Some [1] else None;
     os_DeviceIsRunning := Some 0;
     os_DataSources := fun _ => None;
     os_DataSource := fun _ => None;
     os_AddIOProc := true;
     os_Start := true |}.

(** An OS with the microphone as device 2; every other id is an output
    device. *)
Definition micAndOutputOS (id : Z) (t : nat) : OSView :=
  if id =? 2 then micView else twoRangeView.

(** The stereo device when the OS refuses to start its I/O proc. *)
Definition refusingView : OSView :=
  {| os_NominalSampleRate := Some (44100 # 1)%Q;
     os_BufferFrameSize := Some 4;
     os_BufferFrameSizeRange := Some [((4 # 1)%Q, (4096 # 1)%Q)];
     os_AvailableNominalSampleRates := Some [((44100 # 1)%Q, (48000 # 1)%Q)];
     os_Latency := fun _ => Some 10;
     os_StreamConfiguration := fun _ => Some [2];
     os_DeviceIsRunning := Some 0;
     os_DataSources := fun _ => None;
     os_DataSource := fun _ => None;
     os_AddIOProc := true;
     os_Start := false |}.

Definition refusingOS (id : Z) (t : nat) : OSView := refusingView.

(** The device that the registry of one microphone and one pair of
    speakers makes for the two. *)
Definition micAndSpeakersDevice : CoreAudioIODevice :=
  {| deviceName := "Speakers"; inputIndex := 0; outputIndex := 0;
     internal := Some (set_inputDevice
                         (Some (set_isSlaveDevice true (initialCore 41)))
                         (initialCore 42));
     isOpen_ := false; isStarted := false; lastError := "" |}.

(** The facade of the started pair. *)
Definition startedPairFacade : CoreAudioIODevice :=
  default startedFacade startedPair.

(** * Properties *)

(** ** Arrays and machine integers *)

Lemma to_int_small (z : Z) : - 2 ^ 31 <= z < 2 ^ 31 -> to_int z = z.
Proof.
  intros Hz. unfold to_int, int_bits.
  change (2 ^ (32 - 1)) with (2 ^ 31). change (2 ^ 32) with (2 * 2 ^ 31).
  destruct (Z_lt_le_dec z 0) as [Hneg | Hpos].
  - replace (z mod (2 * 2 ^ 31)) with (z + 2 * 2 ^ 31).
    + destruct (Z.ltb_spec (z + 2 * 2 ^ 31) (2 ^ 31)); lia.
    + apply Z.mod_unique with (q := -1); lia.
  - rewrite Z.mod_small by lia.
    destruct (Z.ltb_spec z (2 ^ 31)); lia.
Qed.

Lemma to_size_t_small (z : Z) : 0 <= z < 2 ^ 32 -> to_size_t z = z.
Proof. intros Hz. unfold to_size_t, size_t_bits. apply Z.mod_small. lia. Qed.

Lemma arr_get_Some {A : Type} (a : list A) (i : Z) (x : A) :
  arr_get a i = Some x <-> 0 <= i /\ a !! Z.to_nat i = Some x.
Proof.
  unfold arr_get. destruct (Z.leb_spec 0 i).
  - split; [intros H1; split; [lia | exact H1] | intros [_ H1]; exact H1].
  - split; [discriminate | intros [H0 _]; lia].
Qed.

Lemma arr_get_lt {A : Type} (a : list A) (i : Z) (x : A) :
  arr_get a i = Some x -> 0 <= i < Z.of_nat (length a).
Proof.
  intros [H0 H1]%arr_get_Some. apply lookup_lt_Some in H1. lia.
Qed.

Lemma arr_set_Some {A : Type} (a : list A) (i : Z) (v : A) :
  0 <= i < Z.of_nat (length a) ->
  arr_set a i v = Some (<[Z.to_nat i := v]> a).
Proof.
  intros Hi. unfold arr_set.
  destruct (Z.leb_spec 0 i); destruct (Z.ltb_spec i (Z.of_nat (length a)));
    simpl; try lia; reflexivity.
Qed.

Lemma arr_set_inv {A : Type} (a a' : list A) (i : Z) (v : A) :
  arr_set a i v = Some a' ->
  0 <= i < Z.of_nat (length a) /\ a' = <[Z.to_nat i := v]> a.
Proof.
  unfold arr_set.
  destruct (Z.leb_spec 0 i); destruct (Z.ltb_spec i (Z.of_nat (length a)));
    simpl; intros H1; try discriminate.
  injection H1 as <-. split; [lia | reflexivity].
Qed.

Lemma arr_set_length {A : Type} (a a' : list A) (i : Z) (v : A) :
  arr_set a i v = Some a' -> length a' = length a.
Proof. intros [_ ->]%arr_set_inv. apply length_insert. Qed.

Lemma arr_get_set_eq {A : Type} (a a' : list A) (i : Z) (v : A) :
  arr_set a i v = Some a' -> arr_get a' i = Some v.
Proof.
  intros [Hi ->]%arr_set_inv. apply arr_get_Some. split; [lia |].
  apply list_lookup_insert_eq. lia.
Qed.

Lemma arr_get_set_ne {A : Type} (a a' : list A) (i j : Z) (v : A) :
  arr_set a i v = Some a' -> i <> j -> arr_get a' j = arr_get a j.
Proof.
  intros [Hi ->]%arr_set_inv Hne. unfold arr_get.
  destruct (Z.leb_spec 0 j); [| reflexivity].
  apply list_lookup_insert_ne. lia.
Qed.

(** ** getDefaultBufferSize *)

Lemma Array_get_app_middle (pre post : list Z) (x : Z) :
  Array_get (pre ++ x :: post) (Z.of_nat (length pre)) = x.
Proof.
  unfold Array_get, arr_get.
  destruct (Z.leb_spec 0 (Z.of_nat (length pre))); [| lia].
  rewrite Nat2Z.id. rewrite list_lookup_middle by reflexivity. reflexivity.
Qed.

Lemma firstUsableSize_suffix (suf pre : list Z) :
  Forall (fun x => x < 512) pre ->
  firstUsable (pre ++ suf)
    (firstUsableSize (length suf) (Z.of_nat (length pre)) (pre ++ suf)).
Proof.
  revert pre. induction suf as [| x suf IH]; intros pre Hpre.
  - simpl. right. rewrite app_nil_r. split; [assumption | reflexivity].
  - cbn [length firstUsableSize]. rewrite Array_get_app_middle.
    destruct (Z.leb_spec 512 x) as [Hx | Hx].
    + left. exists pre, suf. auto.
    + specialize (IH (pre ++ [x])%list).
      rewrite <- app_assoc in IH. cbn [app] in IH.
      rewrite length_app in IH. cbn [length] in IH.
      replace (Z.of_nat (length pre + 1)) with (Z.of_nat (length pre) + 1)
        in IH by lia.
      apply IH. apply Forall_app. split; [assumption |].
      constructor; [assumption | constructor].
Qed.

Lemma firstUsable_sorted (sizes : list Z) (r : Z) :
  StronglySorted Z.le sizes -> firstUsable sizes r -> smallestUsable sizes r.
Proof.
  intros Hs [(pre & post & -> & Hpre & Hr) | [Hall ->]].
  - left. split; [apply in_or_app; right; left; reflexivity |].
    split; [assumption |].
    intros x Hx Hx512. apply in_app_or in Hx as [Hx | [<- | Hx]].
    + rewrite Forall_forall in Hpre.
      assert (x < 512) by (apply Hpre, list_elem_of_In; assumption). lia.
    + lia.
    + assert (Hs' : StronglySorted Z.le (r :: post)).
      { clear - Hs. induction pre as [| y pre IH]; [assumption |].
        apply IH. inversion Hs; assumption. }
      inversion Hs' as [| ? ? _ Hle]; subst.
      rewrite List.Forall_forall in Hle. apply Hle. assumption.
  - right. split; [| reflexivity].
    intros x Hx. rewrite Forall_forall in Hall.
    apply Hall, list_elem_of_In. assumption.
Qed.

(** C10, as amended.  [getDefaultBufferSize] returns the first element of
    the list of available buffer sizes, in the order of the list, that is
    at least 512, and 512 when no element is; on a list in ascending order
    this is the smallest such element. *)
Theorem getDefaultBufferSize_first_usable (f : CoreAudioIODevice)
  (d : CoreAudioInternal) :
  internal f = Some d ->
  exists r, getDefaultBufferSize f = Some r
            /\ firstUsable (bufferSizes d) r
            /\ (StronglySorted Z.le (bufferSizes d) ->
                smallestUsable (bufferSizes d) r).
Proof.
  intros Hint. unfold getDefaultBufferSize. rewrite Hint. cbn [mbind option_bind].
  eexists. split; [reflexivity |].
  pose proof (firstUsableSize_suffix (bufferSizes d) [] (List.Forall_nil _)) as Hfirst.
  cbn [app length] in Hfirst. change (Z.of_nat 0) with 0 in Hfirst.
  split; [exact Hfirst |].
  intros Hs. apply firstUsable_sorted; assumption.
Qed.

Lemma twoRangeDevice_constructed : twoRangeDevice = Some twoRangeFacade.
Proof. vm_compute. reflexivity. Qed.

Lemma twoRangeCore_sizes : bufferSizes twoRangeCore = [2048; 512].
Proof. vm_compute. reflexivity. Qed.

Lemma getDefaultBufferSize_first_usable_witness :
  twoRangeDevice = Some twoRangeFacade
  /\ exists r, getDefaultBufferSize twoRangeFacade = Some r
               /\ firstUsable (bufferSizes twoRangeCore) r.
Proof.
  split; [exact twoRangeDevice_constructed |].
  destruct (getDefaultBufferSize_first_usable twoRangeFacade twoRangeCore eq_refl)
    as (r & Hr & Hfirst & _).
  exists r. auto.
Defined.

(** C10 fails as stated: the list that [updateDetailsFromDevice] builds for
    this device is [2048; 512], and the default is 2048 although 512 is
    available. *)
Lemma getDefaultBufferSize_not_smallest :
  twoRangeDevice = Some twoRangeFacade
  /\ bufferSizes twoRangeCore = [2048; 512]
  /\ getDefaultBufferSize twoRangeFacade = Some 2048
  /\ ~ smallestUsable (bufferSizes twoRangeCore) 2048.
Proof.
  split; [exact twoRangeDevice_constructed |].
  split; [exact twoRangeCore_sizes |].
  split; [vm_compute; reflexivity |].
  rewrite twoRangeCore_sizes. intros [(_ & _ & Hmin) | (Hall & _)].
  - specialize (Hmin 512). cbn [In] in Hmin. lia.
  - specialize (Hall 2048). cbn [In] in Hall. lia.
Qed.

(** ** setTempBufferSize *)

Lemma assignViews_spec (numSamples : Z) (n : nat) :
  forall (i count : Z) (tbl : list pointer),
    0 <= i -> 0 <= count -> 0 <= numSamples ->
    i + Z.of_nat n <= Z.of_nat (length tbl) ->
    (count + Z.of_nat n) * numSamples < 2 ^ 31 ->
    exists tbl',
      assignViews n i count numSamples tbl = Some (tbl', count + Z.of_nat n)
      /\ length tbl' = length tbl
      /\ (forall k, i <= k < i + Z.of_nat n ->
            arr_get tbl' k = Some (Some ((count + (k - i)) * numSamples)))
      /\ (forall k, ~ i <= k < i + Z.of_nat n -> arr_get tbl' k = arr_get tbl k).
Proof.
  induction n as [| n IH]; intros i count tbl Hi Hc Hn Hlen Hov.
  - exists tbl. cbn [assignViews]. change (Z.of_nat 0) with 0.
    rewrite Z.add_0_r.
    split; [reflexivity |]. split; [reflexivity |].
    split; [intros k Hk; lia | intros k _; reflexivity].
  - cbn [assignViews].
    assert (Hsmall : to_int (count * numSamples) = count * numSamples).
    { apply to_int_small. nia. }
    rewrite Hsmall.
    destruct (arr_set tbl i (Some (count * numSamples))) as [tbl1 |] eqn:Hset;
      [| rewrite arr_set_Some in Hset by lia; discriminate].
    cbn [mbind option_bind].
    pose proof (arr_set_length _ _ _ _ Hset) as Hlen1.
    destruct (IH (i + 1) (count + 1) tbl1) as (tbl' & Hrun & Hlen' & Hin & Hout);
      try lia; try nia.
    exists tbl'. rewrite Hrun.
    split; [f_equal; f_equal; lia |].
    split; [congruence |].
    split.
    + intros k Hk. destruct (Z.eq_dec k i) as [-> | Hne].
      * rewrite Hout by lia. rewrite (arr_get_set_eq _ _ _ _ Hset).
        do 2 f_equal. lia.
      * rewrite Hin by lia. do 2 f_equal. lia.
    + intros k Hk. rewrite Hout by lia.
      apply (arr_get_set_ne _ _ _ _ _ Hset). lia.
Qed.

Lemma nullTable_length : Z.of_nat (length nullTable) = maxNumChans.
Proof. reflexivity. Qed.

Lemma nullTable_get (k : Z) :
  0 <= k < maxNumChans -> arr_get nullTable k = Some None.
Proof.
  intros Hk. apply arr_get_Some. split; [lia |].
  unfold nullTable. apply lookup_replicate. split; [reflexivity |].
  unfold maxNumChans in *. lia.
Qed.

Lemma tempBufferBytes_small (numChannels numSamples : Z) :
  0 <= numChannels -> 0 <= numSamples ->
  32 + numChannels * numSamples * sizeof_float < 2 ^ 31 ->
  tempBufferBytes numChannels numSamples
  = 32 + numChannels * numSamples * sizeof_float.
Proof.
  intros Hc Hs Hov. unfold tempBufferBytes, sizeof_float in *.
  rewrite to_int_small by nia.
  rewrite (to_size_t_small (numChannels * numSamples)) by nia.
  apply to_size_t_small. nia.
Qed.

(** C9, as amended.  [setTempBufferSize] allocates one block of
    32 + (numInputChans + numOutputChans) * bufferSize * sizeof (float)
    bytes, that is 8 + (numInputChans + numOutputChans) * bufferSize float
    slots.  Channel [c] (input channels first, then output channels) is
    given the [bufferSize] slots from [c * bufferSize]: the first view starts
    at slot 0, the 8 spare slots follow the last view, the views lie in the
    block and no two of them overlap.  The entries of the two pointer
    tables above the channel counts are null. *)
Theorem setTempBufferSize_layout (d : CoreAudioInternal) (numSamples : Z) :
  0 <= numInputChans d <= maxNumChans ->
  0 <= numOutputChans d <= maxNumChans ->
  0 < numSamples ->
  32 + (numInputChans d + numOutputChans d) * numSamples * sizeof_float < 2 ^ 31 ->
  exists d',
    setTempBufferSize (numInputChans d + numOutputChans d) numSamples d = Some d'
    /\ numInputChans d' = numInputChans d
    /\ numOutputChans d' = numOutputChans d
    /\ Z.of_nat (length (audioBuffer d')) * sizeof_float
       = 32 + (numInputChans d + numOutputChans d) * numSamples * sizeof_float
    /\ (forall c, 0 <= c < numInputChans d + numOutputChans d ->
          channelPointer d' c = Some (Some (c * numSamples)))
    /\ (forall c off, 0 <= c < numInputChans d + numOutputChans d ->
          channelPointer d' c = Some (Some off) ->
          0 <= off
          /\ off + numSamples + 8 <= Z.of_nat (length (audioBuffer d')))
    /\ (forall c1 c2 off1 off2,
          0 <= c1 < numInputChans d + numOutputChans d ->
          0 <= c2 < numInputChans d + numOutputChans d ->
          c1 <> c2 ->
          channelPointer d' c1 = Some (Some off1) ->
          channelPointer d' c2 = Some (Some off2) ->
          viewsDisjoint off1 off2 numSamples)
    /\ (forall i, numInputChans d <= i < maxNumChans ->
          arr_get (tempInputBuffers d') i = Some None)
    /\ (forall j, numOutputChans d <= j < maxNumChans ->
          arr_get (tempOutputBuffers d') j = Some None).
Proof.
  intros Hin Hout Hn Hov.
  set (numIn := numInputChans d) in *. set (numOut := numOutputChans d) in *.
  assert (Hbytes := tempBufferBytes_small (numIn + numOut) numSamples).
  unfold sizeof_float in *.
  destruct (assignViews_spec numSamples (Z.to_nat numIn) 0 0 nullTable)
    as (tin & Htin & Hlin & Hgin & Hnin);
    try lia; try (rewrite nullTable_length; lia); try nia.
  destruct (assignViews_spec numSamples (Z.to_nat numOut) 0 (0 + Z.of_nat (Z.to_nat numIn))
              nullTable)
    as (tout & Htout & Hlout & Hgout & Hnout);
    try lia; try (rewrite nullTable_length; lia); try nia.
  rewrite !Z2Nat.id in * by lia.
  eexists. split.
  { unfold setTempBufferSize. cbn [numInputChans numOutputChans set_audioBuffer].
    fold numIn numOut. rewrite Htin. cbn [mbind option_bind].
    rewrite Htout. cbn [mbind option_bind]. reflexivity. }
  cbn [numInputChans numOutputChans audioBuffer tempInputBuffers
         tempOutputBuffers set_audioBuffer set_tempInputBuffers
         set_tempOutputBuffers channelPointer].
  fold numIn numOut. unfold sizeof_float.
  assert (Hslots : Z.of_nat (length (replicate
            (Z.to_nat (tempBufferBytes (numIn + numOut) numSamples / 4)) 0))
          = 8 + (numIn + numOut) * numSamples).
  { rewrite length_replicate, Hbytes by nia.
    replace (32 + (numIn + numOut) * numSamples * 4)
      with ((8 + (numIn + numOut) * numSamples) * 4) by lia.
    rewrite Z.div_mul by lia. rewrite Z2Nat.id by nia. reflexivity. }
  assert (Hptr : forall c, 0 <= c < numIn + numOut ->
            channelPointer
              (set_tempOutputBuffers tout
                 (set_tempInputBuffers tin
                    (set_audioBuffer
                       (replicate (Z.to_nat (tempBufferBytes (numIn + numOut) numSamples / 4)) 0)
                       d))) c
            = Some (Some (c * numSamples))).
  { intros c Hc. unfold channelPointer.
    cbn [numInputChans tempInputBuffers tempOutputBuffers set_audioBuffer
           set_tempInputBuffers set_tempOutputBuffers].
    fold numIn. destruct (Z.ltb_spec c numIn).
    - rewrite Hgin by lia. do 2 f_equal. lia.
    - rewrite Hgout by lia. do 2 f_equal. lia. }
  split; [reflexivity |]. split; [reflexivity |].
  split; [rewrite Hslots; lia |].
  split; [exact Hptr |].
  split.
  { intros c off Hc Hoff. rewrite Hptr in Hoff by assumption.
    injection Hoff as <-. rewrite Hslots. nia. }
  split.
  { intros c1 c2 off1 off2 Hc1 Hc2 Hne H1 H2.
    rewrite Hptr in H1, H2 by assumption.
    injection H1 as <-. injection H2 as <-. unfold viewsDisjoint. nia. }
  split.
  - intros i Hi. rewrite Hnin by lia. apply nullTable_get. lia.
  - intros j Hj. rewrite Hnout by lia. apply nullTable_get. lia.
Qed.

Lemma setTempBufferSize_layout_witness :
  exists d',
    setTempBufferSize 2 4 oneInOneOut = Some d'
    /\ Z.of_nat (length (audioBuffer d')) * sizeof_float = 32 + 2 * 4 * sizeof_float
    /\ channelPointer d' 0 = Some (Some 0)
    /\ channelPointer d' 1 = Some (Some 4).
Proof.
  destruct (setTempBufferSize_layout oneInOneOut 4)
    as (d' & Hset & _ & _ & Hlen & Hptr & _);
    [vm_compute; split; discriminate | vm_compute; split; discriminate
    | lia | vm_compute; reflexivity |].
  exists d'. split; [exact Hset |]. split; [exact Hlen |].
  split; [apply (Hptr 0) | apply (Hptr 1)]; vm_compute; split; congruence.
Defined.

(** C9 fails as stated: for one input and one output channel of 4 samples
    the block has 16 float slots, not 32 + 2 * 4 = 40, and the first view
    starts at slot 0 of the block, not after 32 slots. *)
Lemma setTempBufferSize_not_32_slots :
  exists d',
    setTempBufferSize 2 4 oneInOneOut = Some d'
    /\ Z.of_nat (length (audioBuffer d')) = 16
    /\ Z.of_nat (length (audioBuffer d')) <> 32 + (1 + 1) * 4
    /\ arr_get (tempInputBuffers d') 0 = Some (Some 0)
    /\ arr_get (tempInputBuffers d') 0 <> Some (Some 32).
Proof.
  eexists. split; [vm_compute; reflexivity |].
  repeat split; vm_compute; congruence.
Qed.

(** ** getCurrentSourceIndex *)

Lemma scanSources_no_match (n : nat) (i num : Z) (types : list Z)
  (beyond cur result : Z) :
  (typesAt types beyond num =? cur) = false ->
  scanSources n i num types beyond cur result = result.
Proof.
  intros Htest. revert i. induction n as [| n IH]; intros i; cbn [scanSources].
  - reflexivity.
  - rewrite Htest. apply IH.
Qed.

Lemma scanSources_first_or_none (n : nat) (i num : Z) (types : list Z)
  (beyond cur result : Z) :
  scanSources n i num types beyond cur result = i
  \/ scanSources n i num types beyond cur result = result.
Proof.
  destruct (typesAt types beyond num =? cur) eqn:Htest.
  - destruct n as [| n]; cbn [scanSources]; [right; reflexivity |].
    rewrite Htest. left. reflexivity.
  - right. apply scanSources_no_match. exact Htest.
Qed.

(** Whatever the device and the OS: the result is -1 or 0, because the
    test of the loop does not read [types[i]]. *)
Lemma getCurrentSourceIndex_range (v : OSView) (beyond : Z) (input : bool)
  (d : CoreAudioInternal) :
  getCurrentSourceIndex v beyond input d = -1
  \/ getCurrentSourceIndex v beyond input d = 0.
Proof.
  unfold getCurrentSourceIndex.
  destruct (deviceID d =? 0); [left; reflexivity |].
  destruct (os_DataSource v input) as [cur |]; [| left; reflexivity].
  destruct (getAllDataSourcesForDevice v (deviceID d) input) as [types |];
    [| left; reflexivity].
  destruct (scanSources_first_or_none (Z.to_nat (Z.of_nat (length types))) 0
              (Z.of_nat (length types)) types beyond cur (-1)) as [H1 | H1];
    rewrite H1; auto.
Qed.

Lemma getCurrentSourceIndex_unreadable (v : OSView) (beyond : Z) (input : bool)
  (d : CoreAudioInternal) :
  deviceID d = 0 \/ os_DataSource v input = None
  \/ os_DataSources v input = None ->
  getCurrentSourceIndex v beyond input d = -1.
Proof.
  unfold getCurrentSourceIndex, getAllDataSourcesForDevice.
  intros [H1 | [H1 | H1]].
  - rewrite H1. reflexivity.
  - rewrite H1. destruct (deviceID d =? 0); reflexivity.
  - rewrite H1. destruct (deviceID d =? 0); [reflexivity |].
    destruct (os_DataSource v input); reflexivity.
Qed.

(** C7, the code at the failing input.  The current source of the device
    is element 1 of the list of the OS; whatever lies behind the block of
    source ids, [getCurrentSourceIndex] does not return 1: it returns 0
    when the word behind the block equals the current id, -1 otherwise. *)
Theorem getCurrentSourceIndex_misses_current (beyond : Z) :
  typesAt [10; 20] beyond 1 = 20
  /\ getCurrentSourceIndex twoSourcesView beyond true (initialCore 1) <> 1
  /\ getCurrentSourceIndex twoSourcesView beyond true (initialCore 1)
     = if beyond =? 20 then 0 else -1.
Proof.
  split; [reflexivity |].
  assert (Hval : getCurrentSourceIndex twoSourcesView beyond true (initialCore 1)
                 = if beyond =? 20 then 0 else -1).
  { change (getCurrentSourceIndex twoSourcesView beyond true (initialCore 1))
      with (scanSources 2 0 2 [10; 20] beyond 20 (-1)).
    cbn [scanSources]. change (typesAt [10; 20] beyond 2) with beyond.
    destruct (beyond =? 20); reflexivity. }
  split; [| exact Hval].
  rewrite Hval. destruct (beyond =? 20); discriminate.
Qed.

(** ** createDevice *)

(** For every table and every pair of names: the null pointer comes back
    exactly when the identifier [index] holds a negative value. *)
Lemma createDevice_null_iff (index : Z)
  (newCore : Z -> option CoreAudioInternal) (t : CoreAudioIODeviceType)
  (outputDeviceName inputDeviceName : string) :
  createDevice index newCore t outputDeviceName inputDeviceName = Some None
  <-> index < 0.
Proof.
  unfold createDevice. destruct (Z.leb_spec 0 index) as [Hge | Hlt].
  - split; [| lia].
    destruct (CoreAudioIODevice_new _ _ _ _ _ _); cbn; discriminate.
  - split; [lia | reflexivity].
Qed.

(** C6, the code at the failing input.  With a non-negative [index], two
    names that the tables do not have give a device (whose core could not
    be opened) instead of the null pointer; with a negative [index], two
    names that the tables have give the null pointer. *)
Theorem createDevice_ignores_names (index : Z) :
  indexOf (inputDeviceNames micAndSpeakers) "Line" = -1
  /\ indexOf (outputDeviceNames micAndSpeakers) "Phones" = -1
  /\ indexOf (inputDeviceNames micAndSpeakers) "Mic" = 0
  /\ indexOf (outputDeviceNames micAndSpeakers) "Speakers" = 0
  /\ if 0 <=? index
     then createDevice index (new_CoreAudioInternal twoRangeOS 0)
            micAndSpeakers "Phones" "Line"
          = Some (Some {| deviceName := "Phones"; inputIndex := -1;
                          outputIndex := -1; internal := None;
                          isOpen_ := false; isStarted := false;
                          lastError := "can't open device" |})
     else createDevice index (new_CoreAudioInternal twoRangeOS 0)
            micAndSpeakers "Speakers" "Mic"
          = Some None.
Proof.
  repeat (split; [reflexivity |]).
  unfold createDevice. destruct (0 <=? index); reflexivity.
Qed.

(** ** The constructor of the facade *)

(** With two different ids other than 0 and a master that has opened
    without error, the core made for the input id is attached as the slave
    and [lastError] is empty: the test that follows the construction of the
    slave reads the [error] of the master.  (A core of this file reports an
    error for the id 0 only, so the slave made here has none.) *)
Lemma CoreAudioIODevice_new_attaches_slave
  (newCore : Z -> option CoreAudioInternal) (name : string)
  (inputDeviceId inputIndex_ outputDeviceId outputIndex_ : Z)
  (master slave : CoreAudioInternal) :
  outputDeviceId <> 0 -> outputDeviceId <> inputDeviceId ->
  inputDeviceId <> 0 ->
  newCore outputDeviceId = Some master -> error master = "" ->
  newCore inputDeviceId = Some slave ->
  CoreAudioIODevice_new newCore name inputDeviceId inputIndex_
    outputDeviceId outputIndex_
  = Some {| deviceName := name; inputIndex := inputIndex_;
            outputIndex := outputIndex_;
            internal := Some (set_inputDevice
                                (Some (set_isSlaveDevice true slave)) master);
            isOpen_ := false; isStarted := false; lastError := "" |}.
Proof.
  intros Hout Hne Hin Hmaster Herr Hslave. unfold CoreAudioIODevice_new.
  destruct (Z.eqb_spec outputDeviceId 0); [contradiction |].
  destruct (Z.eqb_spec outputDeviceId inputDeviceId); [contradiction |].
  destruct (Z.eqb_spec inputDeviceId 0); [contradiction |].
  cbn [orb negb]. rewrite Hmaster. cbn [mbind option_bind].
  rewrite Hslave. cbn [mbind option_bind]. rewrite Herr. reflexivity.
Qed.

(** Where the master cannot be opened, no core is kept and [lastError] is
    the master's. *)
Lemma CoreAudioIODevice_new_master_fails
  (newCore : Z -> option CoreAudioInternal) (name : string)
  (inputDeviceId inputIndex_ outputDeviceId outputIndex_ : Z)
  (master : CoreAudioInternal) :
  outputDeviceId <> 0 -> outputDeviceId <> inputDeviceId ->
  newCore outputDeviceId = Some master -> error master <> "" ->
  CoreAudioIODevice_new newCore name inputDeviceId inputIndex_
    outputDeviceId outputIndex_
  = Some {| deviceName := name; inputIndex := inputIndex_;
            outputIndex := outputIndex_; internal := None;
            isOpen_ := false; isStarted := false;
            lastError := error master |}.
Proof.
  intros Hout Hne Hmaster Herr. unfold CoreAudioIODevice_new.
  destruct (Z.eqb_spec outputDeviceId 0); [contradiction |].
  destruct (Z.eqb_spec outputDeviceId inputDeviceId); [contradiction |].
  cbn [orb]. rewrite Hmaster. cbn [mbind option_bind]. unfold isNotEmpty.
  destruct (String.eqb_spec (error master) ""); [contradiction |].
  reflexivity.
Qed.

(** ** audioCallback without a client *)

Lemma zeroOut_spec (n : nat) :
  forall (dest stride : Z) (block : list Z),
    (forall k, 0 <= k < Z.of_nat n ->
       0 <= dest + k * stride < Z.of_nat (length block)) ->
    exists block',
      zeroOut n dest stride block = Some block'
      /\ length block' = length block
      /\ (forall k, 0 <= k < Z.of_nat n ->
            arr_get block' (dest + k * stride) = Some 0)
      /\ (forall j, arr_get block j = Some 0 -> arr_get block' j = Some 0).
Proof.
  induction n as [| n IH]; intros dest stride block Hfit.
  - exists block. cbn [zeroOut]. repeat split; auto. intros k Hk. lia.
  - cbn [zeroOut].
    assert (H0 : 0 <= dest < Z.of_nat (length block)).
    { specialize (Hfit 0). lia. }
    destruct (arr_set block dest 0) as [block1 |] eqn:Hset;
      [| rewrite arr_set_Some in Hset by lia; discriminate].
    cbn [mbind option_bind].
    pose proof (arr_set_length _ _ _ _ Hset) as Hlen1.
    destruct (IH (dest + stride) stride block1) as (block' & Hrun & Hlen & Hz & Hkeep).
    { intros k Hk. rewrite Hlen1. specialize (Hfit (k + 1)). lia. }
    exists block'. split; [exact Hrun |]. split; [congruence |]. split.
    + intros k Hk. destruct (Z.eq_dec k 0) as [-> | Hne].
      * apply Hkeep. rewrite Z.mul_0_l, Z.add_0_r.
        apply (arr_get_set_eq _ _ _ _ Hset).
      * specialize (Hz (k - 1)).
        replace (dest + stride + (k - 1) * stride) with (dest + k * stride)
          in Hz by lia.
        apply Hz. lia.
    + intros j Hj. apply Hkeep.
      destruct (Z.eq_dec dest j) as [<- | Hne].
      * apply (arr_get_set_eq _ _ _ _ Hset).
      * rewrite (arr_get_set_ne _ _ _ _ _ Hset) by assumption. exact Hj.
Qed.

Lemma streamData_set_eq (bl bl' : list (list Z)) (s : Z) (block : list Z) :
  arr_set bl s block = Some bl' -> streamData bl' s = block.
Proof.
  intros Hset. unfold streamData. rewrite (arr_get_set_eq _ _ _ _ Hset).
  reflexivity.
Qed.

Lemma streamData_set_ne (bl bl' : list (list Z)) (s s' : Z) (block : list Z) :
  arr_set bl s block = Some bl' -> s <> s' -> streamData bl' s' = streamData bl s'.
Proof.
  intros Hset Hne. unfold streamData.
  rewrite (arr_get_set_ne _ _ _ _ _ Hset) by assumption. reflexivity.
Qed.

(** What silencing one channel does to a buffer list. *)
Lemma clearOutputChannel_spec (i : Z) (d : CoreAudioInternal)
  (bl : list (list Z)) (info : CallbackDetailsForChannel) :
  arr_get (outputChannelInfo d) i = Some info ->
  (dataStrideSamples info <> 0 -> routeFits (bufferSize d) info bl) ->
  exists bl',
    clearOutputChannel i d bl = Some bl'
    /\ length bl' = length bl
    /\ (forall s, streamLen bl' s = streamLen bl s)
    /\ (forall s j, zeroAt bl s j -> zeroAt bl' s j)
    /\ (dataStrideSamples info <> 0 ->
        forall k, 0 <= k < bufferSize d ->
          zeroAt bl' (streamNum info)
            (dataOffsetSamples info + k * dataStrideSamples info)).
Proof.
  intros Hinfo Hfit. unfold clearOutputChannel. rewrite Hinfo.
  cbn [mbind option_bind].
  destruct (Z.eqb_spec (dataStrideSamples info) 0) as [Hz | Hnz]; cbn [negb].
  - exists bl. repeat split; auto. intros Hne. contradiction.
  - destruct (Hfit Hnz) as [Hs Hslots]. unfold withStream.
    destruct (arr_get bl (streamNum info)) as [block |] eqn:Hblock.
    2:{ unfold arr_get in Hblock.
        destruct (Z.leb_spec 0 (streamNum info)); [| lia].
        apply lookup_ge_None in Hblock. lia. }
    assert (Hsd : streamData bl (streamNum info) = block).
    { unfold streamData. rewrite Hblock. reflexivity. }
    destruct (zeroOut_spec (Z.to_nat (bufferSize d)) (dataOffsetSamples info)
                (dataStrideSamples info) block)
      as (block' & Hrun & Hlen & Hzero & Hkeep).
    { intros k Hk. specialize (Hslots k). unfold streamLen in Hslots.
      rewrite Hsd in Hslots. apply Hslots. lia. }
    rewrite Hrun. cbn [mbind option_bind].
    destruct (arr_set bl (streamNum info) block') as [bl' |] eqn:Hset;
      [| rewrite arr_set_Some in Hset by lia; discriminate].
    exists bl'. split; [reflexivity |].
    split; [apply (arr_set_length _ _ _ _ Hset) |].
    split.
    { intros s. unfold streamLen.
      destruct (Z.eq_dec (streamNum info) s) as [<- | Hne].
      - rewrite (streamData_set_eq _ _ _ _ Hset), Hsd. congruence.
      - rewrite (streamData_set_ne _ _ _ _ _ Hset) by assumption. reflexivity. }
    split.
    { intros s j Hj. unfold zeroAt in *.
      destruct (Z.eq_dec (streamNum info) s) as [<- | Hne].
      - rewrite (streamData_set_eq _ _ _ _ Hset). apply Hkeep.
        rewrite <- Hsd. exact Hj.
      - rewrite (streamData_set_ne _ _ _ _ _ Hset) by assumption. exact Hj. }
    intros _ k Hk. unfold zeroAt.
    rewrite (streamData_set_eq _ _ _ _ Hset). apply Hzero. lia.
Qed.

Lemma routeFits_shape (n : Z) (info : CallbackDetailsForChannel)
  (bl bl' : list (list Z)) :
  length bl' = length bl -> (forall s, streamLen bl' s = streamLen bl s) ->
  routeFits n info bl -> routeFits n info bl'.
Proof.
  intros Hlen Hshape [Hs Hslots]. split; [lia |].
  intros k Hk. rewrite Hshape. apply Hslots. exact Hk.
Qed.

Lemma clearOutputChannels_spec (d : CoreAudioInternal) (n : nat) :
  forall bl : list (list Z),
    Z.of_nat n <= Z.of_nat (length (outputChannelInfo d)) ->
    (forall i info, 0 <= i < Z.of_nat n ->
       arr_get (outputChannelInfo d) i = Some info ->
       dataStrideSamples info <> 0 -> routeFits (bufferSize d) info bl) ->
    exists bl',
      clearOutputChannels n d bl = Some bl'
      /\ length bl' = length bl
      /\ (forall s, streamLen bl' s = streamLen bl s)
      /\ (forall s j, zeroAt bl s j -> zeroAt bl' s j)
      /\ (forall i info k, 0 <= i < Z.of_nat n ->
            arr_get (outputChannelInfo d) i = Some info ->
            dataStrideSamples info <> 0 -> 0 <= k < bufferSize d ->
            zeroAt bl' (streamNum info)
              (dataOffsetSamples info + k * dataStrideSamples info)).
Proof.
  induction n as [| n IH]; intros bl Hn Hfit.
  - exists bl. cbn [clearOutputChannels]. repeat split; auto.
    intros i info k Hi. lia.
  - cbn [clearOutputChannels].
    destruct (arr_get (outputChannelInfo d) (Z.of_nat n)) as [info |] eqn:Hinfo.
    2:{ unfold arr_get in Hinfo. destruct (Z.leb_spec 0 (Z.of_nat n)); [| lia].
        apply lookup_ge_None in Hinfo. lia. }
    destruct (clearOutputChannel_spec (Z.of_nat n) d bl info Hinfo)
      as (bl1 & Hrun1 & Hlen1 & Hshape1 & Hkeep1 & Hzero1).
    { intros Hnz. apply (Hfit (Z.of_nat n)); [lia | assumption | assumption]. }
    rewrite Hrun1. cbn [mbind option_bind].
    destruct (IH bl1) as (bl' & Hrun & Hlen & Hshape & Hkeep & Hzero).
    { lia. }
    { intros i info' Hi Hinfo' Hnz.
      apply (routeFits_shape _ _ bl); [assumption | assumption |].
      apply (Hfit i); [lia | assumption | assumption]. }
    exists bl'. split; [exact Hrun |]. split; [congruence |].
    split; [intros s; rewrite Hshape; apply Hshape1 |].
    split; [intros s j Hj; apply Hkeep, Hkeep1, Hj |].
    intros i info' k Hi Hinfo' Hnz Hk.
    destruct (Z.eq_dec i (Z.of_nat n)) as [-> | Hne].
    + rewrite Hinfo in Hinfo'. injection Hinfo' as <-.
      apply Hkeep. apply Hzero1; assumption.
    + apply (Hzero i); try assumption. lia.
Qed.

Lemma jmin_spec (a b : Z) : jmin a b = Z.min a b.
Proof. unfold jmin. destruct (Z.ltb_spec b a); lia. Qed.

(** C3.  When [audioCallback] runs without a client, it returns, tells no
    client anything, leaves the device as it is, and afterwards every
    sample slot of every output channel that it visits (the channels below
    [jmin (numOutputChans, numOutputChannelInfos)]) whose routing entry has
    a stride other than 0 holds [0.0f]: the slots at
    [dataOffsetSamples + k * dataStrideSamples], [0 <= k < bufferSize], of
    stream [streamNum].  Entries with stride 0 are skipped.  Where the
    table is cleared from [numOutputChannelInfos] on, this covers every
    channel below [numOutputChans]. *)
Theorem audioCallback_no_client_silence (d : CoreAudioInternal)
  (inInputData outOutputData : list (list Z)) :
  callback d = None ->
  jmin (numOutputChans d) (numOutputChannelInfos d)
    <= Z.of_nat (length (outputChannelInfo d)) ->
  (forall i info,
     0 <= i < jmin (numOutputChans d) (numOutputChannelInfos d) ->
     arr_get (outputChannelInfo d) i = Some info ->
     dataStrideSamples info <> 0 ->
     routeFits (bufferSize d) info outOutputData) ->
  exists out,
    audioCallback inInputData outOutputData d = Some (d, out, [])
    /\ (forall i info k,
          0 <= i < jmin (numOutputChans d) (numOutputChannelInfos d) ->
          arr_get (outputChannelInfo d) i = Some info ->
          dataStrideSamples info <> 0 -> 0 <= k < bufferSize d ->
          zeroAt out (streamNum info)
            (dataOffsetSamples info + k * dataStrideSamples info))
    /\ (outputTailCleared d ->
        forall i info k,
          0 <= i < numOutputChans d ->
          arr_get (outputChannelInfo d) i = Some info ->
          dataStrideSamples info <> 0 -> 0 <= k < bufferSize d ->
          zeroAt out (streamNum info)
            (dataOffsetSamples info + k * dataStrideSamples info)).
Proof.
  intros Hcb Hlen Hfit. unfold audioCallback. rewrite Hcb.
  set (m := jmin (numOutputChans d) (numOutputChannelInfos d)) in *.
  destruct (Z_lt_le_dec m 0) as [Hneg | Hpos].
  - replace (Z.to_nat m) with O by lia. cbn [clearOutputChannels].
    exists outOutputData. cbn [mbind option_bind].
    split; [reflexivity |]. split.
    + intros i info k Hi. lia.
    + intros Htail i info k Hi Hinfo Hnz Hk. exfalso.
      pose proof (jmin_spec (numOutputChans d) (numOutputChannelInfos d)).
      fold m in H. apply Hnz. apply (Htail i); [lia | assumption].
  - destruct (clearOutputChannels_spec d (Z.to_nat m) outOutputData)
      as (out & Hrun & _ & _ & _ & Hzero).
    { rewrite Z2Nat.id by lia. exact Hlen. }
    { intros i info Hi. apply Hfit. lia. }
    exists out. rewrite Hrun. cbn [mbind option_bind].
    split; [reflexivity |]. split.
    + intros i info k Hi. apply Hzero. lia.
    + intros Htail i info k Hi Hinfo Hnz Hk.
      destruct (Z_lt_le_dec i (numOutputChannelInfos d)) as [Hlt | Hge].
      * apply (Hzero i); try assumption.
        pose proof (jmin_spec (numOutputChans d) (numOutputChannelInfos d)).
        fold m in H. lia.
      * exfalso. apply Hnz. apply (Htail i); assumption.
Qed.

(** ** What updateDetailsFromDevice leaves alone *)

Lemma sameControl_refl (d : CoreAudioInternal) : sameControl d d.
Proof. unfold sameControl. repeat split; reflexivity. Qed.

Lemma sameControl_trans (d1 d2 d3 : CoreAudioInternal) :
  sameControl d1 d2 -> sameControl d2 d3 -> sameControl d1 d3.
Proof.
  unfold sameControl.
  intros (?&?&?&?&?&?&?&?&?&?&?) (?&?&?&?&?&?&?&?&?&?&?).
  repeat split; congruence.
Qed.

Ltac same_control := unfold sameControl; cbn; repeat split; reflexivity.

Lemma sameButRouting_refl (d : CoreAudioInternal) : sameButRouting d d.
Proof.
  unfold sameButRouting. split; [apply sameControl_refl |].
  repeat split; reflexivity.
Qed.

Lemma sameButRouting_trans (d1 d2 d3 : CoreAudioInternal) :
  sameButRouting d1 d2 -> sameButRouting d2 d3 -> sameButRouting d1 d3.
Proof.
  unfold sameButRouting.
  intros (Hc1&?&?&?&?&?&?&?&?) (Hc2&?&?&?&?&?&?&?&?).
  split; [exact (sameControl_trans _ _ _ Hc1 Hc2) |].
  repeat split; congruence.
Qed.

Ltac same_but_routing :=
  unfold sameButRouting; split; [same_control | cbn; repeat split; reflexivity].

Create HintDb frames discriminated.

#[local] Hint Resolve sameControl_refl sameButRouting_refl : frames.

Lemma setTempBufferSize_sameControl (numChannels numSamples : Z)
  (d d' : CoreAudioInternal) :
  setTempBufferSize numChannels numSamples d = Some d' ->
  sameControl d d' /\ sampleRate d' = sampleRate d
  /\ bufferSize d' = bufferSize d.
Proof.
  unfold setTempBufferSize. intros Hrun.
  destruct (assignViews _ 0 0 _ _) as [[tin count] |]; [| discriminate].
  cbn [mbind option_bind] in Hrun.
  destruct (assignViews _ 0 count _ _) as [[tout count'] |]; [| discriminate].
  cbn [mbind option_bind] in Hrun. injection Hrun as <-.
  split; [same_control | split; reflexivity].
Qed.

Lemma fillOneChannel_frame (input : bool) (i j nch : Z)
  (st st' : Z * Z * CoreAudioInternal) :
  fillOneChannel input i j nch st = Some st' ->
  sameButRouting (snd st) (snd st').
Proof.
  destruct st as [[chanNum activeChans] d]. unfold fillOneChannel.
  destruct input.
  - destruct (BitArray_get (activeInputChans d) chanNum).
    + destruct (arr_set (inputChannelInfo d) activeChans _); [| discriminate].
      cbn [mbind option_bind]. intros Hrun. injection Hrun as <-.
      same_but_routing.
    + cbn [mbind option_bind]. intros Hrun. injection Hrun as <-.
      same_but_routing.
  - destruct (BitArray_get (activeOutputChans d) chanNum).
    + destruct (arr_set (outputChannelInfo d) activeChans _); [| discriminate].
      cbn [mbind option_bind]. intros Hrun. injection Hrun as <-.
      same_but_routing.
    + cbn [mbind option_bind]. intros Hrun. injection Hrun as <-.
      same_but_routing.
Qed.

Lemma fillStream_frame (input : bool) (i nch : Z) (n : nat) :
  forall (j : Z) (st st' : Z * Z * CoreAudioInternal),
    fillStream input i nch n j st = Some st' ->
    sameButRouting (snd st) (snd st').
Proof.
  induction n as [| n IH]; intros j st st'; cbn [fillStream].
  - intros Hrun. injection Hrun as <-. auto with frames.
  - destruct (fillOneChannel input i j nch st) as [st1 |] eqn:H1; [| discriminate].
    cbn [mbind option_bind]. intros Hrun.
    eapply sameButRouting_trans;
      [eapply fillOneChannel_frame; eassumption | eapply IH; eassumption].
Qed.

Lemma fillStreams_frame (input : bool) (streams : list Z) :
  forall (i : Z) (st st' : Z * Z * CoreAudioInternal),
    fillStreams input streams i st = Some st' ->
    sameButRouting (snd st) (snd st').
Proof.
  induction streams as [| nch rest IH]; intros i st st'; cbn [fillStreams].
  - intros Hrun. injection Hrun as <-. auto with frames.
  - destruct (fillStream input i nch (Z.to_nat nch) 0 st) as [st1 |] eqn:H1;
      [| discriminate].
    cbn [mbind option_bind]. intros Hrun.
    eapply sameButRouting_trans;
      [eapply fillStream_frame; eassumption | eapply IH; eassumption].
Qed.

Lemma fillInChannelInfo_frame (v : OSView) (input : bool)
  (d d' : CoreAudioInternal) :
  fillInChannelInfo v input d = Some d' -> sameButRouting d d'.
Proof.
  unfold fillInChannelInfo.
  destruct (os_StreamConfiguration v input) as [streams |].
  - destruct (fillStreams input streams 0 (0, 0, d)) as [[[c a] d1] |] eqn:H1;
      [| discriminate].
    cbn [mbind option_bind]. intros Hrun. injection Hrun as <-.
    apply (fillStreams_frame _ _ _ _ _ H1).
  - intros Hrun. injection Hrun as <-. auto with frames.
Qed.

Lemma updateDetailsFromDevice_frame (v : OSView) (d d' : CoreAudioInternal) :
  updateDetailsFromDevice v d = Some d' ->
  sameControl d d'
  /\ (sampleRate d', bufferSize d')
     = observe v (deviceID d) (sampleRate d, bufferSize d).
Proof.
  unfold updateDetailsFromDevice, observe.
  cbn [deviceID set_timerRunning].
  destruct (deviceID d =? 0) eqn:Hid.
  { intros Hrun. injection Hrun as <-. split; [same_control | reflexivity]. }
  set (d1 := match os_NominalSampleRate v with
             | Some sr => set_sampleRate sr (set_timerRunning false d)
             | None => set_timerRunning false d
             end).
  assert (H1 : sameControl d d1
               /\ sampleRate d1 = match os_NominalSampleRate v with
                                  | Some sr => sr | None => sampleRate d end
               /\ bufferSize d1 = bufferSize d).
  { subst d1. destruct (os_NominalSampleRate v);
      (split; [same_control | split; reflexivity]). }
  destruct H1 as (Hc1 & Hsr1 & Hbs1). clearbody d1.
  destruct (match os_BufferFrameSize v with
            | Some framesPerBuf => _
            | None => Some d1
            end) as [d2 |] eqn:H2; [| discriminate].
  assert (H2' : sameControl d1 d2 /\ sampleRate d2 = sampleRate d1
                /\ bufferSize d2 = match os_BufferFrameSize v with
                                   | Some n => to_int n | None => bufferSize d1 end).
  { destruct (os_BufferFrameSize v) as [n |].
    - cbn [bufferSize set_bufferSize numInputChans numOutputChans] in H2.
      destruct (0 <? to_int n).
      + destruct (setTempBufferSize_sameControl _ _ _ _ H2) as (Hs & Hr & Hb).
        split; [eapply sameControl_trans; [| exact Hs]; same_control |].
        split; [rewrite Hr; reflexivity | rewrite Hb; reflexivity].
      + injection H2 as <-. split; [same_control | split; reflexivity].
    - injection H2 as <-. split; [apply sameControl_refl | split; reflexivity]. }
  destruct H2' as (Hc2 & Hsr2 & Hbs2). clear H2.
  cbn [mbind option_bind].
  destruct (buildBufferSizes (os_BufferFrameSizeRange v) (bufferSize d2))
    as [sizes |]; [| discriminate].
  cbn [mbind option_bind].
  match goal with
  | |- (fillInChannelInfo v true ?x ≫= _) = _ -> _ => set (d3 := x)
  end.
  assert (H3 : sameControl d2 d3 /\ sampleRate d3 = sampleRate d2
               /\ bufferSize d3 = bufferSize d2).
  { subst d3. split; [same_control | split; reflexivity]. }
  destruct H3 as (Hc3 & Hsr3 & Hbs3). clearbody d3.
  destruct (fillInChannelInfo v true d3) as [d4 |] eqn:H4; [| discriminate].
  cbn [mbind option_bind]. intros H5.
  destruct (fillInChannelInfo_frame _ _ _ _ H4) as (Hc4 & Hsr4 & Hbs4 & _).
  destruct (fillInChannelInfo_frame _ _ _ _ H5) as (Hc5 & Hsr5 & Hbs5 & _).
  split.
  { apply (sameControl_trans _ d1); [exact Hc1 |].
    apply (sameControl_trans _ d2); [exact Hc2 |].
    apply (sameControl_trans _ d3); [exact Hc3 |].
    apply (sameControl_trans _ d4); [exact Hc4 | exact Hc5]. }
  rewrite Hsr5, Hsr4, Hsr3, Hsr2, Hsr1, Hbs5, Hbs4, Hbs3, Hbs2, Hbs1.
  reflexivity.
Qed.

(** ** When updateDetailsFromDevice returns *)

Lemma assignViews_total (numSamples : Z) (n : nat) :
  forall (i count : Z) (tbl : list (option Z)),
    0 <= i -> i + Z.of_nat n <= Z.of_nat (length tbl) ->
    exists r, assignViews n i count numSamples tbl = Some r.
Proof.
  induction n as [| n IH]; intros i count tbl Hi Hlen; cbn [assignViews].
  - eexists. reflexivity.
  - destruct (arr_set tbl i (Some (to_int (count * numSamples)))) as [tbl1 |]
      eqn:Hset; [| rewrite arr_set_Some in Hset by lia; discriminate].
    cbn [mbind option_bind]. apply IH; [lia |].
    rewrite (arr_set_length _ _ _ _ Hset). lia.
Qed.

Lemma setTempBufferSize_total (numChannels numSamples : Z)
  (d : CoreAudioInternal) :
  numInputChans d <= maxNumChans -> numOutputChans d <= maxNumChans ->
  exists d', setTempBufferSize numChannels numSamples d = Some d'.
Proof.
  intros Hin Hout. unfold setTempBufferSize.
  cbn [numInputChans numOutputChans set_audioBuffer].
  destruct (assignViews_total numSamples (Z.to_nat (numInputChans d)) 0 0 nullTable)
    as [[tin count] Htin];
    [lia | rewrite nullTable_length; unfold maxNumChans in *; lia |].
  rewrite Htin. cbn [mbind option_bind].
  destruct (assignViews_total numSamples (Z.to_nat (numOutputChans d)) 0 count
              nullTable)
    as [[tout count'] Htout];
    [lia | rewrite nullTable_length; unfold maxNumChans in *; lia |].
  rewrite Htout. cbn [mbind option_bind]. eexists. reflexivity.
Qed.

Lemma fillOneChannel_total (input : bool) (i j nch : Z)
  (st : Z * Z * CoreAudioInternal) :
  fillInv st -> fst (fst st) < maxNumChans ->
  exists st', fillOneChannel input i j nch st = Some st'
              /\ fillInv st' /\ fst (fst st') = fst (fst st) + 1.
Proof.
  destruct st as [[chanNum activeChans] d]. unfold fillInv. cbn [fst snd].
  intros (Ha & Hli & Hlo) Hc. unfold fillOneChannel.
  destruct input.
  - destruct (BitArray_get (activeInputChans d) chanNum).
    + destruct (arr_set (inputChannelInfo d) activeChans _) as [tbl |] eqn:Hset;
        [| rewrite arr_set_Some in Hset by lia; discriminate].
      cbn [mbind option_bind]. eexists. split; [reflexivity |].
      cbn. rewrite (arr_set_length _ _ _ _ Hset). repeat split; lia.
    + cbn [mbind option_bind]. eexists. split; [reflexivity |].
      cbn. repeat split; lia.
  - destruct (BitArray_get (activeOutputChans d) chanNum).
    + destruct (arr_set (outputChannelInfo d) activeChans _) as [tbl |] eqn:Hset;
        [| rewrite arr_set_Some in Hset by lia; discriminate].
      cbn [mbind option_bind]. eexists. split; [reflexivity |].
      cbn. rewrite (arr_set_length _ _ _ _ Hset). repeat split; lia.
    + cbn [mbind option_bind]. eexists. split; [reflexivity |].
      cbn. repeat split; lia.
Qed.

Lemma fillStream_total (input : bool) (i nch : Z) (n : nat) :
  forall (j : Z) (st : Z * Z * CoreAudioInternal),
    fillInv st -> fst (fst st) + Z.of_nat n <= maxNumChans ->
    exists st', fillStream input i nch n j st = Some st'
                /\ fillInv st' /\ fst (fst st') = fst (fst st) + Z.of_nat n.
Proof.
  induction n as [| n IH]; intros j st Hinv Hc; cbn [fillStream].
  - exists st. split; [reflexivity |]. split; [assumption | lia].
  - destruct (fillOneChannel_total input i j nch st Hinv) as (st1 & H1 & Hinv1 & Hc1);
      [lia |].
    rewrite H1. cbn [mbind option_bind].
    destruct (IH (j + 1) st1 Hinv1) as (st' & Hrun & Hinv' & Hc'); [lia |].
    exists st'. split; [exact Hrun |]. split; [assumption | lia].
Qed.

Lemma totalChannels_nonneg (streams : list Z) : 0 <= totalChannels streams.
Proof.
  induction streams as [| nch rest IH]; [reflexivity |].
  change (totalChannels (nch :: rest))
    with (Z.of_nat (Z.to_nat nch) + totalChannels rest).
  lia.
Qed.

Lemma fillStreams_total (input : bool) (streams : list Z) :
  forall (i : Z) (st : Z * Z * CoreAudioInternal),
    fillInv st -> fst (fst st) + totalChannels streams <= maxNumChans ->
    exists st', fillStreams input streams i st = Some st' /\ fillInv st'.
Proof.
  induction streams as [| nch rest IH]; intros i st Hinv Hc; cbn [fillStreams].
  - exists st. split; [reflexivity | assumption].
  - change (totalChannels (nch :: rest))
      with (Z.of_nat (Z.to_nat nch) + totalChannels rest) in Hc.
    pose proof (totalChannels_nonneg rest) as Hrest.
    destruct (fillStream_total input i nch (Z.to_nat nch) 0 st Hinv)
      as (st1 & H1 & Hinv1 & Hc1); [lia |].
    rewrite H1. cbn [mbind option_bind]. apply IH; [assumption | lia].
Qed.

Lemma fillInChannelInfo_total (v : OSView) (input : bool)
  (d : CoreAudioInternal) :
  viewFits v ->
  Z.of_nat (length (inputChannelInfo d)) = maxNumChans ->
  Z.of_nat (length (outputChannelInfo d)) = maxNumChans ->
  exists d', fillInChannelInfo v input d = Some d'
             /\ Z.of_nat (length (inputChannelInfo d')) = maxNumChans
             /\ Z.of_nat (length (outputChannelInfo d')) = maxNumChans.
Proof.
  intros [_ Hfit] Hli Hlo. unfold fillInChannelInfo.
  destruct (os_StreamConfiguration v input) as [streams |] eqn:Hs.
  - destruct (fillStreams_total input streams 0 (0, 0, d))
      as ([[c a] d'] & Hrun & (_ & Hli' & Hlo')).
    { unfold fillInv. cbn [fst snd]. repeat split; try assumption; lia. }
    { cbn [fst]. specialize (Hfit input streams Hs). lia. }
    rewrite Hrun. cbn [mbind option_bind]. exists d'. auto.
  - exists d. auto.
Qed.

Lemma buildBufferSizes_total (ranges : option (list (Q * Q))) (bufferSize : Z) :
  ranges <> Some [] -> exists sizes, buildBufferSizes ranges bufferSize = Some sizes.
Proof.
  intros Hne. unfold buildBufferSizes. destruct ranges as [[| r0 rs] |].
  - contradiction.
  - cbn [head mbind option_bind]. eexists. reflexivity.
  - cbn [mbind option_bind]. eexists. reflexivity.
Qed.

Lemma updateDetailsFromDevice_total (v : OSView) (d : CoreAudioInternal) :
  viewFits v ->
  numInputChans d <= maxNumChans -> numOutputChans d <= maxNumChans ->
  exists d', updateDetailsFromDevice v d = Some d'.
Proof.
  intros Hfit Hin Hout. unfold updateDetailsFromDevice.
  cbn [deviceID set_timerRunning].
  destruct (deviceID d =? 0); [eexists; reflexivity |].
  set (d1 := match os_NominalSampleRate v with
             | Some sr => set_sampleRate sr (set_timerRunning false d)
             | None => set_timerRunning false d
             end).
  assert (H1 : numInputChans d1 = numInputChans d
               /\ numOutputChans d1 = numOutputChans d).
  { subst d1. destruct (os_NominalSampleRate v); split; reflexivity. }
  destruct H1 as [Hin1 Hout1]. clearbody d1.
  match goal with
  | |- exists _, (?X ≫= _) = _ => assert (H2 : exists d2, X = Some d2)
  end.
  { destruct (os_BufferFrameSize v) as [n |]; [| eexists; reflexivity].
    destruct (0 <? bufferSize (set_bufferSize (to_int n) d1));
      [| eexists; reflexivity].
    apply setTempBufferSize_total; cbn [numInputChans numOutputChans set_bufferSize];
      lia. }
  destruct H2 as [d2 H2]. rewrite H2. cbn [mbind option_bind].
  destruct (buildBufferSizes_total (os_BufferFrameSizeRange v) (bufferSize d2))
    as [sizes Hsizes]; [apply Hfit |].
  rewrite Hsizes. cbn [mbind option_bind].
  match goal with
  | |- exists _, (fillInChannelInfo v true ?x ≫= _) = _ => set (d3 := x)
  end.
  destruct (fillInChannelInfo_total v true d3 Hfit) as (d4 & H4 & Hli & Hlo);
    [reflexivity | reflexivity |].
  rewrite H4. cbn [mbind option_bind].
  destruct (fillInChannelInfo_total v false d4 Hfit Hli Hlo) as (d5 & H5 & _).
  exists d5. exact H5.
Qed.

(** ** The masks *)

Lemma Pos_countBits_bound (p : positive) :
  forall n, 0 <= n -> Z.pos p < 2 ^ n -> Pos_countBits p <= n.
Proof.
  induction p as [q IH | q IH |]; intros n Hn Hlt; cbn [Pos_countBits].
  - destruct (Z.eq_dec n 0) as [-> | Hne]; [cbn in Hlt; lia |].
    replace n with (Z.succ (n - 1)) in Hlt by lia.
    rewrite Z.pow_succ_r in Hlt by lia.
    specialize (IH (n - 1)). lia.
  - destruct (Z.eq_dec n 0) as [-> | Hne]; [cbn in Hlt; lia |].
    replace n with (Z.succ (n - 1)) in Hlt by lia.
    rewrite Z.pow_succ_r in Hlt by lia.
    specialize (IH (n - 1)). lia.
  - destruct (Z.eq_dec n 0) as [-> | Hne]; [cbn in Hlt; lia | lia].
Qed.

Lemma countNumberOfSetBits_bound (b n : Z) :
  0 <= n -> b < 2 ^ n -> countNumberOfSetBits b <= n.
Proof.
  intros Hn Hlt. destruct b as [| p | p]; cbn [countNumberOfSetBits]; try lia.
  apply Pos_countBits_bound; assumption.
Qed.

Lemma truncateMask_bound (b n : Z) : 0 <= n -> truncateMask b n < 2 ^ n.
Proof.
  intros Hn. assert (Hpow : 0 < 2 ^ n) by (apply Z.pow_pos_nonneg; lia).
  unfold truncateMask, setRange_false, clearRange, getHighestBit.
  destruct (Z.ltb_spec 0 b) as [Hb | Hb].
  2:{ destruct ((0 <? -1 + 1 - n) && (0 <=? n)) eqn:Hc; [| lia].
      apply andb_prop in Hc as [Hc _]. apply Z.ltb_lt in Hc. lia. }
  destruct (Z.ltb_spec 0 (Z.log2 b + 1 - n)) as [Hnum | Hnum];
    destruct (Z.leb_spec 0 n); try lia; cbn [andb].
  - set (m := Z.land b (Z.lnot (Z.shiftl (Z.ones (Z.log2 b + 1 - n)) n))).
    assert (Hm0 : 0 <= m) by (apply Z.land_nonneg; left; lia).
    destruct (Z.eq_dec m 0) as [-> | Hmne]; [lia |].
    apply Z.log2_lt_pow2; [lia |].
    destruct (Z_lt_le_dec (Z.log2 m) n) as [Hlt | Hge]; [exact Hlt | exfalso].
    assert (Hbit : Z.testbit m (Z.log2 m) = true) by (apply Z.bit_log2; lia).
    subst m. rewrite Z.land_spec, Z.lnot_spec in Hbit by lia.
    set (k := Z.log2 (Z.land b (Z.lnot (Z.shiftl (Z.ones (Z.log2 b + 1 - n)) n))))
      in *.
    rewrite Z.shiftl_spec in Hbit by lia.
    apply andb_prop in Hbit as [Hbk Hclr].
    destruct (Z_lt_le_dec (Z.log2 b) k) as [Habove | Hbelow].
    + rewrite Z.bits_above_log2 in Hbk by lia. discriminate.
    + rewrite Z.ones_spec_low in Hclr by lia. discriminate.
  - apply Z.log2_lt_pow2; lia.
Qed.

Lemma countNumberOfSetBits_truncateMask (b n : Z) :
  0 <= n -> countNumberOfSetBits (truncateMask b n) <= n.
Proof.
  intros Hn. apply countNumberOfSetBits_bound; [assumption |].
  apply truncateMask_bound. assumption.
Qed.

(** ** The chain of slave devices *)

Lemma depth_unfold (d : CoreAudioInternal) :
  depth d = match inputDevice d with
            | Some s => S (depth s)
            | None => O
            end.
Proof. destruct d. reflexivity. Qed.

(** Induction along the chain: from the slave to its master. *)
Lemma chain_ind (P : CoreAudioInternal -> Prop) :
  (forall d, (forall s, inputDevice d = Some s -> P s) -> P d) ->
  forall d, P d.
Proof.
  intros Hstep.
  assert (Hn : forall n d, (depth d <= n)%nat -> P d).
  { induction n as [| n IH]; intros d Hd; apply Hstep; intros s Hs;
      rewrite depth_unfold, Hs in Hd.
    - lia.
    - apply IH. lia. }
  intros d. apply (Hn (depth d)). lia.
Qed.

Lemma stop_unfold (os : OS) (leave : bool) (now : nat) (d : CoreAudioInternal) :
  stop os leave now d
  = match inputDevice d with
    | Some s =>
        (fst (stop os leave (fst (stopLocal os leave now d)) s),
         set_inputDevice
           (Some (snd (stop os leave (fst (stopLocal os leave now d)) s)))
           (snd (stopLocal os leave now d)))
    | None => stopLocal os leave now d
    end.
Proof.
  destruct d as [e il ol ai ao inn onn srs bss cb idev sl tr id st sr bs ab ni no
                   ca nii noi ii oi ti to].
  unfold stopLocal. cbn [stop inputDevice started deviceID set_callback].
  destruct (st && negb (id =? 0) && negb leave); destruct idev as [s |];
    cbn [fst snd]; try reflexivity;
    match goal with
    | |- context [stop os leave ?t s] => destruct (stop os leave t s); reflexivity
    end.
Qed.

Lemma stopLocal_spec (os : OS) (leave : bool) (now : nat) (d : CoreAudioInternal) :
  sameButBinding d (snd (stopLocal os leave now d))
  /\ callback (snd (stopLocal os leave now d)) = None
  /\ inputDevice (snd (stopLocal os leave now d)) = inputDevice d
  /\ started (snd (stopLocal os leave now d))
     = started d && ((deviceID d =? 0) || leave).
Proof.
  unfold stopLocal. cbn [started deviceID set_callback].
  destruct (started d) eqn:Hst; destruct (deviceID d =? 0); destruct leave;
    cbn [andb orb negb snd];
    (split; [unfold sameButBinding; cbn; repeat split; reflexivity |]);
    (split; [reflexivity |]); (split; [reflexivity |]); cbn; auto.
Qed.

Lemma stop_spec (os : OS) (leave : bool) (d : CoreAudioInternal) :
  forall now,
    sameButBinding d (snd (stop os leave now d))
    /\ callback (snd (stop os leave now d)) = None
    /\ started (snd (stop os leave now d))
       = started d && ((deviceID d =? 0) || leave)
    /\ depth (snd (stop os leave now d)) = depth d
    /\ match inputDevice d with
       | Some s => inputDevice (snd (stop os leave now d))
                   = Some (snd (stop os leave (fst (stopLocal os leave now d)) s))
       | None => inputDevice (snd (stop os leave now d)) = None
                 /\ fst (stop os leave now d) = fst (stopLocal os leave now d)
       end.
Proof.
  induction d as [d IH] using chain_ind. intros now.
  rewrite stop_unfold.
  destruct (stopLocal_spec os leave now d) as (Hsame & Hcb & Hidev & Hst).
  destruct (inputDevice d) as [s |] eqn:Hs.
  - cbn [snd fst]. split.
    { unfold sameButBinding in *. cbn. exact Hsame. }
    split; [exact Hcb |]. split; [exact Hst |]. split; [| reflexivity].
    rewrite depth_unfold. cbn [inputDevice set_inputDevice].
    rewrite (depth_unfold d), Hs. f_equal.
    apply (IH s eq_refl).
  - split; [exact Hsame |]. split; [exact Hcb |]. split; [exact Hst |].
    split; [| split; [congruence | reflexivity]].
    rewrite depth_unfold, Hidev. rewrite (depth_unfold d), Hs. reflexivity.
Qed.

Lemma chainFits_unfold (d : CoreAudioInternal) :
  chainFits d
  <-> Z.of_nat (length (inChanNames d)) <= maxNumChans
      /\ Z.of_nat (length (outChanNames d)) <= maxNumChans
      /\ match inputDevice d with
         | Some s => chainFits s
         | None => True
         end.
Proof. destruct d. reflexivity. Qed.

Lemma stop_chainFits (os : OS) (leave : bool) (d : CoreAudioInternal) :
  forall now, chainFits d -> chainFits (snd (stop os leave now d)).
Proof.
  induction d as [d IH] using chain_ind. intros now Hfit.
  apply chainFits_unfold in Hfit as (Hin & Hout & Hslave).
  destruct (stop_spec os leave d now) as (Hsame & _ & _ & _ & Hidev).
  destruct Hsame as (_&_&_&_&_&_&_&_&Hinn&Honn&_).
  apply chainFits_unfold. rewrite Hinn, Honn.
  split; [assumption |]. split; [assumption |].
  destruct (inputDevice d) as [s |] eqn:Hs.
  - rewrite Hidev. apply (IH s eq_refl). exact Hslave.
  - destruct Hidev as [-> _]. exact I.
Qed.

(** ** reopen *)

Section Reopen.

(** The OS, which fits the fixed tables at every moment, and the arguments
    of [reopen]. *)
Variable os : Z -> nat -> OSView.
Hypothesis os_fits : forall id t, viewFits (os id t).
Variables inputChannels outputChannels : Z.
Variable newSampleRate : Q.
Variable bufferSizeSamples : Z.

Lemma waitForChange_spec (n : nat) :
  forall (t : nat) (d : CoreAudioInternal),
    numInputChans d <= maxNumChans -> numOutputChans d <= maxNumChans ->
    exists t' d' changed,
      waitForChange os newSampleRate bufferSizeSamples n t d
      = Some (t', d', changed)
      /\ sameControl d d'
      /\ (changed = true ->
          matches newSampleRate bufferSizeSamples (sampleRate d', bufferSize d')
          = true
          /\ exists k, (k < n)%nat /\ t' = (t + 100 * k)%nat
               /\ pollTrace os (deviceID d) n t (sampleRate d, bufferSize d) !! k
                  = Some (sampleRate d', bufferSize d')
               /\ forall j o, (j < k)%nat ->
                    pollTrace os (deviceID d) n t (sampleRate d, bufferSize d) !! j
                    = Some o ->
                    matches newSampleRate bufferSizeSamples o = false)
      /\ (changed = false ->
          t' = (t + 100 * n)%nat
          /\ Forall (fun o => matches newSampleRate bufferSizeSamples o = false)
               (pollTrace os (deviceID d) n t (sampleRate d, bufferSize d))).
Proof.
  induction n as [| n IH]; intros t d Hin Hout.
  - exists t, d, false. cbn [waitForChange pollTrace].
    split; [reflexivity |]. split; [apply sameControl_refl |].
    split; [discriminate |]. intros _. split; [lia | constructor].
  - cbn [waitForChange pollTrace].
    destruct (updateDetailsFromDevice_total (os (deviceID d) t) d
                (os_fits _ _) Hin Hout) as [d1 H1].
    rewrite H1. cbn [mbind option_bind].
    destruct (updateDetailsFromDevice_frame _ _ _ H1) as [Hc1 Hobs].
    pose proof Hc1 as (_&_&_&_&Hid1&_&Hin1&Hout1&_).
    rewrite <- Hobs.
    change (Qeq_bool (sampleRate d1) newSampleRate
            && (bufferSizeSamples =? bufferSize d1))
      with (matches newSampleRate bufferSizeSamples (sampleRate d1, bufferSize d1)).
    destruct (matches newSampleRate bufferSizeSamples (sampleRate d1, bufferSize d1))
      eqn:Hm.
    + exists t, d1, true. split; [reflexivity |]. split; [exact Hc1 |].
      split; [| discriminate]. intros _. split; [exact Hm |].
      exists O. split; [lia |]. split; [lia |]. split; [reflexivity |].
      intros j o Hj. lia.
    + destruct (IH (t + 100)%nat d1) as (t' & d' & changed & Hrun & Hc & Hyes & Hno).
      { lia. }
      { lia. }
      rewrite Hid1 in Hyes, Hno.
      exists t', d', changed. split; [exact Hrun |].
      split; [exact (sameControl_trans _ _ _ Hc1 Hc) |]. split.
      * intros Hch. destruct (Hyes Hch) as (Hm' & k & Hk & Ht & Hnth & Hbefore).
        split; [exact Hm' |]. exists (S k).
        split; [lia |]. split; [lia |]. split; [exact Hnth |].
        intros j o Hj Hjo. destruct j as [| j].
        -- cbn in Hjo. injection Hjo as <-. exact Hm.
        -- apply (Hbefore j); [lia | exact Hjo].
      * intros Hch. destruct (Hno Hch) as [Ht Hall]. split; [lia |].
        constructor; [exact Hm | exact Hall].
Qed.

Lemma reopen_rec_unfold (fuel : nat) (now : nat) (d : CoreAudioInternal) :
  reopen_rec fuel os inputChannels outputChannels newSampleRate
    bufferSizeSamples now d
  = ('(now, d, changed) ←
       waitForChange os newSampleRate bufferSizeSamples 30
         (fst (reopenPrefix os inputChannels outputChannels now d))
         (snd (reopenPrefix os inputChannels outputChannels now d));
     let d := afterPolling changed d in
     '(now, d) ←
       match inputDevice d with
       | Some s =>
           if String.eqb (error d) "" then
             match fuel with
             | S fuel' =>
                 '(now, s, err) ←
                   reopen_rec fuel' os inputChannels outputChannels
                     newSampleRate bufferSizeSamples now s;
                 Some (now, set_error err (set_inputDevice (Some s) d))
             | O => None
             end
           else Some (now, d)
       | None => Some (now, d)
       end;
     Some (now, set_callbacksAllowed true d, error (set_callbacksAllowed true d))).
Proof.
  unfold reopenPrefix.
  destruct (stop os false now
              (set_timerRunning false
                 (set_callbacksAllowed false (set_error "" d)))) as [t0 d0] eqn:Hstop.
  destruct fuel; cbn [reopen_rec]; rewrite Hstop; reflexivity.
Qed.

Lemma reopenPrefix_spec (now : nat) (d : CoreAudioInternal) :
  chainFits d ->
  fst (reopenPrefix os inputChannels outputChannels now d) = reopenStart os now d
  /\ error (snd (reopenPrefix os inputChannels outputChannels now d)) = ""
  /\ deviceID (snd (reopenPrefix os inputChannels outputChannels now d))
     = deviceID d
  /\ sampleRate (snd (reopenPrefix os inputChannels outputChannels now d))
     = sampleRate d
  /\ bufferSize (snd (reopenPrefix os inputChannels outputChannels now d))
     = bufferSize d
  /\ numInputChans (snd (reopenPrefix os inputChannels outputChannels now d))
     <= maxNumChans
  /\ numOutputChans (snd (reopenPrefix os inputChannels outputChannels now d))
     <= maxNumChans
  /\ match inputDevice d with
     | Some s =>
         exists s', inputDevice
                      (snd (reopenPrefix os inputChannels outputChannels now d))
                    = Some s'
                    /\ depth s' = depth s /\ chainFits s'
     | None => inputDevice
                 (snd (reopenPrefix os inputChannels outputChannels now d))
               = None
     end.
Proof.
  intros Hfit. unfold reopenPrefix, reopenStart.
  set (d0 := set_timerRunning false (set_callbacksAllowed false (set_error "" d))).
  assert (Hfit0 : chainFits d0).
  { apply chainFits_unfold. apply chainFits_unfold in Hfit. exact Hfit. }
  destruct (stop_spec os false d0 now) as (Hsame & _ & _ & _ & Hidev).
  pose proof (stop_chainFits os false d0 now Hfit0) as Hfit1.
  destruct (stop os false now d0) as [t0 d1]. cbn [fst snd] in *.
  destruct Hsame as (He&_&Hid&_&_&_&_&_&Hinn&Honn&Hsr&Hbs&_).
  apply chainFits_unfold in Hfit as (Hlin & Hlout & Hslave).
  split; [reflexivity |]. split; [exact He |]. split; [exact Hid |].
  split; [exact Hsr |]. split; [exact Hbs |].
  cbn [numInputChans numOutputChans activeInputChans activeOutputChans
         inChanNames outChanNames inputDevice
         set_numInputChans set_numOutputChans set_activeInputChans
         set_activeOutputChans].
  rewrite Hinn, Honn. cbn [inChanNames outChanNames d0 set_timerRunning
                              set_callbacksAllowed set_error].
  split.
  { etransitivity; [apply countNumberOfSetBits_truncateMask; lia | exact Hlin]. }
  split.
  { etransitivity; [apply countNumberOfSetBits_truncateMask; lia | exact Hlout]. }
  change (inputDevice d0) with (inputDevice d) in Hidev.
  destruct (inputDevice d) as [s |].
  - eexists. split; [exact Hidev |].
    split; [apply stop_spec | apply stop_chainFits; exact Hslave].
  - apply Hidev.
Qed.

Lemma afterPolling_spec (changed : bool) (d : CoreAudioInternal) :
  error d = "" ->
  inputDevice (afterPolling changed d) = inputDevice d
  /\ deviceID (afterPolling changed d) = deviceID d
  /\ sampleRate (afterPolling changed d) = sampleRate d
  /\ bufferSize (afterPolling changed d) = bufferSize d
  /\ sampleRates (afterPolling changed d) = sampleRates d
  /\ bufferSizes (afterPolling changed d) = bufferSizes d
  /\ (error (afterPolling changed d) = "" -> changed = true)
  /\ (changed = false -> sampleRates d <> [] -> bufferSizes d <> [] ->
      error (afterPolling changed d) = "Couldn't change sample rate/buffer size").
Proof.
  intros He. unfold afterPolling.
  assert (Hnil : forall (A : Type) (l : list A),
             (Z.of_nat (length l) =? 0) = true -> l = []).
  { intros A l Hl. apply Z.eqb_eq in Hl. destruct l; [reflexivity | cbn in Hl; lia]. }
  destruct changed;
    repeat match goal with
           | |- context [if ?c then _ else _] => destruct c eqn:?
           end;
    cbn [inputDevice deviceID sampleRate bufferSize sampleRates bufferSizes
           error set_error] in *;
    repeat split; try reflexivity; try assumption; try discriminate;
    intros; try discriminate;
    repeat match goal with
           | H : (Z.of_nat (length _) =? 0) = true |- _ => apply Hnil in H
           end;
    try congruence.
Qed.

Lemma Forall_no_match (tr : list (Q * Z)) (k : nat) (o : Q * Z) :
  Forall (fun o => matches newSampleRate bufferSizeSamples o = false) tr ->
  tr !! k = Some o -> matches newSampleRate bufferSizeSamples o = true -> False.
Proof.
  intros Hall Hk Hm. rewrite Forall_lookup in Hall.
  specialize (Hall k o Hk). cbn in Hall. congruence.
Qed.

(** What [reopen] returns; the recursion on the slave is run with enough
    fuel for the chain. *)
Lemma reopen_rec_spec :
  forall (fuel : nat) (now : nat) (d : CoreAudioInternal),
    (depth d <= fuel)%nat -> chainFits d ->
    exists now' d' err,
      reopen_rec fuel os inputChannels outputChannels newSampleRate
        bufferSizeSamples now d = Some (now', d', err)
      /\ error d' = err /\ deviceID d' = deviceID d
      /\ (err = "" ->
          matches newSampleRate bufferSizeSamples (sampleRate d', bufferSize d')
          = true
          /\ exists k, (k < 30)%nat
               /\ pollTrace os (deviceID d) 30 (reopenStart os now d)
                    (sampleRate d, bufferSize d) !! k
                  = Some (sampleRate d', bufferSize d')
               /\ forall j o, (j < k)%nat ->
                    pollTrace os (deviceID d) 30 (reopenStart os now d)
                      (sampleRate d, bufferSize d) !! j = Some o ->
                    matches newSampleRate bufferSizeSamples o = false)
      /\ (Forall (fun o => matches newSampleRate bufferSizeSamples o = false)
            (pollTrace os (deviceID d) 30 (reopenStart os now d)
               (sampleRate d, bufferSize d)) ->
          sampleRates d' <> [] -> bufferSizes d' <> [] ->
          err = "Couldn't change sample rate/buffer size"
          /\ now' = (reopenStart os now d + 3000)%nat)
      /\ (inputDevice d = None ->
          exists k, (k <= 30)%nat /\ now' = (reopenStart os now d + 100 * k)%nat).
Proof.
  intros fuel.
  induction fuel as [fuel IH] using lt_wf_ind. intros now d Hdepth Hfit.
  rewrite reopen_rec_unfold.
  destruct (reopenPrefix_spec now d Hfit)
    as (Ht0 & He & Hid & Hsr & Hbs & Hin & Hout & Hslave).
  set (dp := snd (reopenPrefix os inputChannels outputChannels now d)) in *.
  rewrite Ht0. set (t0 := reopenStart os now d) in *.
  destruct (waitForChange_spec 30 t0 dp)
    as (t1 & dl & changed & Hrun & Hc & Hyes & Hno);
    [exact Hin | exact Hout |].
  rewrite Hid, Hsr, Hbs in Hyes, Hno.
  set (tr := pollTrace os (deviceID d) 30 t0 (sampleRate d, bufferSize d)) in *.
  rewrite Hrun. cbn [mbind option_bind].
  destruct Hc as (Hel & _ & Hidevl & _ & Hidl & _).
  rewrite He in Hel.
  destruct (afterPolling_spec changed dl Hel)
    as (Hidev & Hide & Hsre & Hbse & Hsrs & Hbss & Hempty & Hfailed).
  set (de := afterPolling changed dl) in *.
  assert (Hconv : changed = true ->
            matches newSampleRate bufferSizeSamples (sampleRate de, bufferSize de)
            = true
            /\ exists k, (k < 30)%nat
                 /\ tr !! k = Some (sampleRate de, bufferSize de)
                 /\ forall j o, (j < k)%nat -> tr !! j = Some o ->
                      matches newSampleRate bufferSizeSamples o = false).
  { intros Hch. destruct (Hyes Hch) as (Hm & k & Hk & _ & Hnth & Hbefore).
    rewrite Hsre, Hbse. split; [exact Hm |]. exists k. auto. }
  assert (Hfail : Forall (fun o => matches newSampleRate bufferSizeSamples o = false) tr ->
            sampleRates de <> [] -> bufferSizes de <> [] ->
            error de = "Couldn't change sample rate/buffer size"
            /\ t1 = (t0 + 3000)%nat).
  { intros Hall Hrs Hbz. destruct changed.
    - exfalso. destruct (Hyes eq_refl) as (Hm & k & _ & _ & Hnth & _).
      exact (Forall_no_match _ _ _ Hall Hnth Hm).
    - destruct (Hno eq_refl) as [Ht1 _]. split; [| lia].
      apply Hfailed; [reflexivity | congruence | congruence]. }
  assert (Htime : exists k, (k <= 30)%nat /\ t1 = (t0 + 100 * k)%nat).
  { destruct changed.
    - destruct (Hyes eq_refl) as (_ & k & Hk & Ht1 & _). exists k. split; [lia | exact Ht1].
    - destruct (Hno eq_refl) as [Ht1 _]. exists 30%nat. split; [lia | exact Ht1]. }
  assert (Hdone : exists now' d' err,
            Some (t1, set_callbacksAllowed true de,
                  error (set_callbacksAllowed true de)) = Some (now', d', err)
            /\ error d' = err /\ deviceID d' = deviceID d
            /\ (err = "" ->
                matches newSampleRate bufferSizeSamples (sampleRate d', bufferSize d')
                = true
                /\ exists k, (k < 30)%nat
                     /\ tr !! k = Some (sampleRate d', bufferSize d')
                     /\ forall j o, (j < k)%nat -> tr !! j = Some o ->
                          matches newSampleRate bufferSizeSamples o = false)
            /\ (Forall (fun o => matches newSampleRate bufferSizeSamples o = false) tr ->
                sampleRates d' <> [] -> bufferSizes d' <> [] ->
                err = "Couldn't change sample rate/buffer size"
                /\ now' = (t0 + 3000)%nat)
            /\ (inputDevice d = None ->
                exists k, (k <= 30)%nat /\ now' = (t0 + 100 * k)%nat)).
  { eexists. eexists. eexists. split; [reflexivity |].
    cbn [error deviceID sampleRate bufferSize sampleRates bufferSizes
           set_callbacksAllowed].
    split; [reflexivity |]. split; [congruence |].
    split; [intros Hempty'; apply Hconv, Hempty, Hempty' |].
    split; [exact Hfail |]. intros _. exact Htime. }
  destruct (inputDevice d) as [s |] eqn:Hs.
  - destruct Hslave as (s' & Hs' & Hdepth' & Hfit').
    rewrite Hidev, Hidevl. fold dp. rewrite Hs'.
    destruct (String.eqb_spec (error de) "") as [Hok | Hbad]; [| exact Hdone].
    rewrite depth_unfold, Hs in Hdepth.
    destruct fuel as [| fuel]; [lia |].
    destruct (IH fuel (Nat.lt_succ_diag_r fuel) t1 s') as (now2 & s2 & err2 & Hrun2 & _);
      [lia | exact Hfit' |].
    rewrite Hrun2. cbn [mbind option_bind].
    eexists. eexists. eexists. split; [reflexivity |].
    cbn [error deviceID sampleRate bufferSize sampleRates bufferSizes
           set_callbacksAllowed set_error set_inputDevice].
    split; [reflexivity |]. split; [congruence |].
    split; [intros _; apply Hconv, Hempty, Hok |].
    split; [| intros Hn; discriminate].
    intros Hall Hrs Hbz. exfalso.
    destruct (Hfail Hall Hrs Hbz) as [Herr _]. rewrite Hok in Herr. discriminate.
  - rewrite Hidev, Hidevl. fold dp. rewrite Hslave. exact Hdone.
Qed.

(** The same at the facade: [open] with a size above 0 returns, and when
    the error it returns is empty [getCurrentSampleRate] and
    [getCurrentBufferSizeSamples] give the requested rate and size. *)
Lemma open_reaches_request (now : nat) (f : CoreAudioIODevice)
  (d : CoreAudioInternal) :
  internal f = Some d -> 0 < bufferSizeSamples -> chainFits d ->
  exists now' f' err,
    open os inputChannels outputChannels newSampleRate bufferSizeSamples now f
    = Some (now', f', err)
    /\ lastError f' = err
    /\ (err = "" ->
        (getCurrentSampleRate f' == newSampleRate)%Q
        /\ getCurrentBufferSizeSamples f' = bufferSizeSamples).
Proof.
  intros Hint Hpos Hfit. unfold open. cbn [internal set_isOpen_].
  destruct (Z.leb_spec bufferSizeSamples 0); [lia |].
  cbn [mbind option_bind]. rewrite Hint. cbn [mbind option_bind]. unfold reopen.
  destruct (reopen_rec_spec (depth d) now d (le_n _) Hfit)
    as (now' & d' & err & Hrun & Herr & _ & Hok & _).
  rewrite Hrun. cbn [mbind option_bind].
  eexists. eexists. eexists. split; [reflexivity |].
  cbn [lastError set_lastError]. split; [reflexivity |].
  rewrite Herr. intros Hempty. destruct (Hok Hempty) as (Hm & _).
  unfold getCurrentSampleRate, getCurrentBufferSizeSamples, getSampleRate,
    getBufferSize.
  cbn [internal set_internal set_lastError].
  unfold matches in Hm. cbn [fst snd] in Hm.
  apply andb_prop in Hm as [Hrate Hsize].
  split; [apply Qeq_bool_iff; exact Hrate |].
  apply Z.eqb_eq in Hsize. symmetry. exact Hsize.
Qed.

End Reopen.

Lemma stereoView_fits : viewFits stereoView.
Proof.
  split; [discriminate |].
  intros input streams Hs. cbn in Hs. injection Hs as <-. vm_compute. discriminate.
Qed.

Lemma stereoCore_constructed :
  new_CoreAudioInternal stereoOS 0 1 = Some stereoCore.
Proof. vm_compute. reflexivity. Qed.

Lemma stereoCore_fits : chainFits stereoCore.
Proof. vm_compute. repeat split; discriminate. Qed.

(** The OS keeps buffers of 4 frames: a request for 8 frames is given up
    after 30 polls, 3000 ms later. *)
Example reopen_without_convergence :
  exists d',
    reopen stereoOS 3 3 (44100 # 1)%Q 8 0 stereoCore
    = Some (3000%nat, d', "Couldn't change sample rate/buffer size")
    /\ getBufferSize d' = 4.
Proof. eexists. split; [vm_compute; reflexivity | reflexivity]. Qed.

Example reopen_after_four_polls :
  exists d',
    reopen lateOS 3 3 (44100 # 1)%Q 8 0 stereoCore = Some (400%nat, d', "")
    /\ getBufferSize d' = 8.
Proof. eexists. split; [vm_compute; reflexivity | reflexivity]. Qed.

(** ** audioCallback with a client *)

Lemma copyIn_null (n : nat) (src stride : Z) (block buf : list Z) :
  (0 < n)%nat -> copyIn n None src stride block buf = None.
Proof.
  intros Hn. destruct n as [| n]; [lia |]. cbn [copyIn].
  destruct (arr_get block src); reflexivity.
Qed.

(** C1, the code where the claim fails.  A client is bound, there is no
    slave, and the routing entry of the last logical input channel names a
    source channel whose entry of [tempInputBuffers] is null (every source
    channel number from [numInputChans] on is in that case after
    [setTempBufferSize]): [audioCallback] stores through the null pointer,
    whatever the buffers of the OS hold. *)
Theorem audioCallback_faults_on_unmapped_source (d : CoreAudioInternal)
  (cb : AudioIODeviceCallback) (info : CallbackDetailsForChannel)
  (inInputData outOutputData : list (list Z)) :
  callback d = Some cb -> inputDevice d = None ->
  0 < numInputChans d -> 0 < bufferSize d ->
  arr_get (inputChannelInfo d) (numInputChans d - 1) = Some info ->
  dataStrideSamples info <> 0 ->
  arr_get (tempInputBuffers d) (sourceChannelNum info) = Some None ->
  audioCallback inInputData outOutputData d = None.
Proof.
  intros Hcb Hidev Hn Hbs Hinfo Hstride Hnull.
  unfold audioCallback. rewrite Hcb, Hidev.
  destruct (Z.to_nat (numInputChans d)) as [| n] eqn:Hnat; [lia |].
  cbn [readInputChannels]. unfold readInputChannel.
  replace (Z.of_nat n) with (numInputChans d - 1) by lia.
  rewrite Hinfo. cbn [mbind option_bind]. rewrite Hnull. cbn [mbind option_bind].
  destruct (Z.eqb_spec (dataStrideSamples info) 0); [contradiction |].
  cbn [negb]. rewrite copyIn_null by lia. reflexivity.
Qed.

Lemma audioCallback_faults_on_unmapped_source_witness :
  activeInputChans (startedStereo 2 3) = 2
  /\ numInputChans (startedStereo 2 3) = 1
  /\ arr_get (inputChannelInfo (startedStereo 2 3)) 0 = Some (mkInfo 1 0 1 2)
  /\ audioCallback [[10; 20; 11; 21; 12; 22; 13; 23]] [[0; 0; 0; 0; 0; 0; 0; 0]]
       (startedStereo 2 3) = None.
Proof.
  split; [vm_compute; reflexivity |]. split; [vm_compute; reflexivity |].
  split; [vm_compute; reflexivity |].
  apply (audioCallback_faults_on_unmapped_source (startedStereo 2 3) passThrough
           (mkInfo 1 0 1 2)); vm_compute; congruence.
Defined.

(** With every channel active the same call succeeds and the two input
    channels arrive deinterleaved. *)
Example audioCallback_dense_mask :
  exists d out,
    audioCallback [[10; 20; 11; 21; 12; 22; 13; 23]] [[0; 0; 0; 0; 0; 0; 0; 0]]
      (startedStereo 3 3)
    = Some (d, out, [IOCallback 7 [[10; 11; 12; 13]; [20; 21; 22; 23]] 4])
    /\ out = [[10; 20; 11; 21; 12; 22; 13; 23]].
Proof. eexists. eexists. split; vm_compute; reflexivity. Qed.

Lemma audioCallback_no_client_silence_witness :
  callback openedStereo = None
  /\ exists out,
       audioCallback [] [[5; 6; 7; 8; 9; 10; 11; 12]] openedStereo
       = Some (openedStereo, out, [])
       /\ zeroAt out 0 0 /\ zeroAt out 0 7.
Proof.
  split; [vm_compute; reflexivity |].
  destruct (audioCallback_no_client_silence openedStereo []
              [[5; 6; 7; 8; 9; 10; 11; 12]]) as (out & Hrun & Hzero & _).
  - vm_compute. reflexivity.
  - vm_compute. discriminate.
  - intros i info Hi Hinfo Hstride.
    change (jmin (numOutputChans openedStereo) (numOutputChannelInfos openedStereo))
      with 2 in Hi.
    assert (Hcases : i = 0 \/ i = 1) by lia.
    destruct Hcases as [-> | ->]; vm_compute in Hinfo; injection Hinfo as <-;
      (split; [vm_compute; split; congruence |]);
      intros k Hk; change (bufferSize openedStereo) with 4 in Hk;
      cbn [dataOffsetSamples dataStrideSamples streamNum];
      change (streamLen [[5; 6; 7; 8; 9; 10; 11; 12]] 0) with 8; lia.
  - exists out. split; [exact Hrun |]. split.
    + apply (Hzero 0 (mkInfo 0 0 0 2) 0);
        [vm_compute; split; congruence | vm_compute; reflexivity
        | cbn; lia | vm_compute; split; congruence].
    + apply (Hzero 1 (mkInfo 1 0 1 2) 3);
        [vm_compute; split; congruence | vm_compute; reflexivity
        | cbn; lia | vm_compute; split; congruence].
Defined.

(** ** start *)

Lemma start_unfold (os : OS) (now : nat) (cb : option AudioIODeviceCallback)
  (d : CoreAudioInternal) :
  start os now cb d
  = match inputDevice d with
    | Some s =>
        if started (startLocal os now cb d)
        then (set_inputDevice (Some (fst (start os now cb s)))
                (startLocal os now cb d),
              snd (start os now cb s))
        else (startLocal os now cb d, false)
    | None => (startLocal os now cb d, started (startLocal os now cb d))
    end.
Proof.
  destruct d as [e il ol ai ao inn onn srs bss c idev sl tr id st sr bs ab ni no
                   ca nii noi ii oi ti to].
  unfold startLocal.
  cbn [start inputDevice started deviceID set_callback set_started negb].
  destruct idev as [s |]; [| reflexivity].
  match goal with
  | |- (if started ?x then _ else _) = _ => destruct (started x)
  end; [| reflexivity].
  destruct (start os now cb s); reflexivity.
Qed.

Lemma startLocal_spec (os : OS) (now : nat) (cb : option AudioIODeviceCallback)
  (d : CoreAudioInternal) :
  callback (startLocal os now cb d)
  = (if started (startLocal os now cb d) then cb
     else if started d then callback d else None)
  /\ inputDevice (startLocal os now cb d) = inputDevice d
  /\ isSlaveDevice (startLocal os now cb d) = isSlaveDevice d
  /\ deviceID (startLocal os now cb d) = deviceID d
  /\ (started d = true -> started (startLocal os now cb d) = true)
  /\ (started d = false ->
      started (startLocal os now cb d)
      = negb (deviceID d =? 0) && os_AddIOProc (os (deviceID d) now)
        && os_Start (os (deviceID d) now)).
Proof.
  unfold startLocal. cbn [deviceID set_callback].
  destruct (started d) eqn:Hst; cbn [negb].
  - rewrite Hst. cbn. rewrite Hst.
    repeat split; try reflexivity; intros; congruence.
  - destruct (negb (deviceID d =? 0) && os_AddIOProc (os (deviceID d) now)
              && os_Start (os (deviceID d) now)) eqn:Hos;
      cbn; rewrite ?Hst; cbn; rewrite ?Hst;
      repeat split; try reflexivity; intros; congruence.
Qed.

(** What [audioCallback] does on a slave that has a client bound: it reads
    its input channels and returns. *)
Lemma audioCallback_slave (s : CoreAudioInternal) (cb : AudioIODeviceCallback)
  (inInputData outOutputData : list (list Z)) :
  callback s = Some cb -> inputDevice s = None -> isSlaveDevice s = true ->
  audioCallback inInputData outOutputData s
  = (buf ← readInputChannels inInputData (Z.to_nat (numInputChans s)) s
             (audioBuffer s);
     Some (set_audioBuffer buf s, outOutputData, [])).
Proof.
  intros Hcb Hidev Hslave. unfold audioCallback. rewrite Hcb, Hidev.
  destruct (readInputChannels inInputData (Z.to_nat (numInputChans s)) s
              (audioBuffer s)) as [buf |]; [| reflexivity].
  cbn [mbind option_bind isSlaveDevice set_audioBuffer].
  rewrite Hslave. reflexivity.
Qed.

(** C4 fails as stated: after [start] on the pair of device 1 (output) and
    device 2 (input) the slave is started and has the client, and its I/O
    proc leaves the output buffer as it found it. *)
Lemma start_slave_client_is_set :
  option_map (fun f => option_map inputDevice (internal f)) startedPair
  = Some (Some (Some startedPairSlave))
  /\ started startedPairSlave = true
  /\ option_map cb_id (callback startedPairSlave) = Some 7%nat
  /\ callback startedPairSlave <> None
  /\ option_map (fun r => (snd (fst r), snd r))
       (audioCallback [[10; 20; 11; 21; 12; 22; 13; 23]]
          [[5; 6; 7; 8; 9; 10; 11; 12]] startedPairSlave)
     = Some ([[5; 6; 7; 8; 9; 10; 11; 12]], [])
  /\ ~ zeroAt [[5; 6; 7; 8; 9; 10; 11; 12]] 0 0.
Proof.
  split; [vm_compute; reflexivity |]. split; [vm_compute; reflexivity |].
  split; [vm_compute; reflexivity |].
  split; [vm_compute; discriminate |].
  split; [vm_compute; reflexivity |]. vm_compute. discriminate.
Qed.

(** ** Who is called back *)

Section ClientBinding.

(** The OS and the identity of a client. *)
Variable os : Z -> nat -> OSView.
Variable c : nat.

Lemma noClient_unfold (d : CoreAudioInternal) :
  noClient c d
  <-> (forall cb, callback d = Some cb -> cb_id cb <> c)
      /\ match inputDevice d with
         | Some s => noClient c s
         | None => True
         end.
Proof. destruct d. reflexivity. Qed.

Lemma noClient_frame (d d' : CoreAudioInternal) :
  callback d' = callback d -> inputDevice d' = inputDevice d ->
  noClient c d -> noClient c d'.
Proof.
  intros Hcb Hidev H. apply noClient_unfold. apply noClient_unfold in H.
  rewrite Hcb, Hidev. exact H.
Qed.

Lemma noClient_sameControl (d d' : CoreAudioInternal) :
  sameControl d d' -> noClient c d -> noClient c d'.
Proof.
  intros (_ & Hcb & Hidev & _). apply noClient_frame; assumption.
Qed.

Lemma stop_noClient (leave : bool) (d : CoreAudioInternal) :
  forall now, noClient c (snd (stop os leave now d)).
Proof.
  induction d as [d IH] using chain_ind. intros now.
  destruct (stop_spec os leave d now) as (_ & Hcb & _ & _ & Hidev).
  apply noClient_unfold. rewrite Hcb. split; [discriminate |].
  destruct (inputDevice d) as [s |].
  - rewrite Hidev. apply (IH s eq_refl).
  - destruct Hidev as [-> _]. exact I.
Qed.

Lemma start_noClient (now : nat) (cb : option AudioIODeviceCallback)
  (d : CoreAudioInternal) :
  (forall cb', cb = Some cb' -> cb_id cb' <> c) ->
  noClient c d -> noClient c (fst (start os now cb d)).
Proof.
  intros Hcb. induction d as [d IH] using chain_ind. intros Hd.
  apply noClient_unfold in Hd as [Hown Hslave].
  rewrite start_unfold.
  destruct (startLocal_spec os now cb d) as (Hcb' & Hidev' & _).
  assert (Hlocal : forall cb', callback (startLocal os now cb d) = Some cb' ->
                     cb_id cb' <> c).
  { intros cb' H'. rewrite Hcb' in H'.
    destruct (started (startLocal os now cb d)); [apply Hcb; exact H' |].
    destruct (started d); [apply Hown; exact H' | discriminate]. }
  destruct (inputDevice d) as [s |] eqn:Hs.
  - destruct (started (startLocal os now cb d)); cbn [fst].
    + apply noClient_unfold. cbn [callback inputDevice set_inputDevice].
      split; [exact Hlocal |]. apply (IH s eq_refl). exact Hslave.
    + apply noClient_unfold. rewrite Hidev'. split; [exact Hlocal | exact Hslave].
  - cbn [fst]. apply noClient_unfold. rewrite Hidev'. split; [exact Hlocal | exact I].
Qed.

Lemma waitForChange_frame (newSampleRate : Q) (bufferSizeSamples : Z)
  (n : nat) :
  forall (t t' : nat) (d d' : CoreAudioInternal) (changed : bool),
    waitForChange os newSampleRate bufferSizeSamples n t d = Some (t', d', changed) ->
    sameControl d d'.
Proof.
  induction n as [| n IH]; intros t t' d d' changed; cbn [waitForChange].
  - intros H. injection H as <- <- <-. apply sameControl_refl.
  - destruct (updateDetailsFromDevice (os (deviceID d) t) d) as [d1 |] eqn:H1;
      [| discriminate].
    cbn [mbind option_bind].
    destruct (updateDetailsFromDevice_frame _ _ _ H1) as [Hc1 _].
    destruct (Qeq_bool (sampleRate d1) newSampleRate
              && (bufferSizeSamples =? bufferSize d1)).
    + intros H. injection H as <- <- <-. exact Hc1.
    + intros H. apply (sameControl_trans _ _ _ Hc1). apply (IH _ _ _ _ _ H).
Qed.

Lemma afterPolling_frame (changed : bool) (d : CoreAudioInternal) :
  callback (afterPolling changed d) = callback d
  /\ inputDevice (afterPolling changed d) = inputDevice d.
Proof.
  unfold afterPolling.
  destruct changed;
    repeat match goal with
           | |- context [if ?c then _ else _] => destruct c
           end; split; reflexivity.
Qed.

Lemma reopenPrefix_noClient (inputChannels outputChannels : Z)
  (now : nat) (d : CoreAudioInternal) :
  noClient c (snd (reopenPrefix os inputChannels outputChannels now d)).
Proof.
  unfold reopenPrefix.
  pose proof (stop_noClient false
                (set_timerRunning false
                   (set_callbacksAllowed false (set_error "" d))) now) as H.
  destruct (stop os false now _) as [t0 d0]. cbn [snd] in *.
  eapply noClient_frame; [| | exact H]; reflexivity.
Qed.

Lemma reopen_rec_noClient (inputChannels outputChannels : Z)
  (newSampleRate : Q) (bufferSizeSamples : Z) (fuel : nat) :
  forall (now now' : nat) (d d' : CoreAudioInternal) (err : string),
    reopen_rec fuel os inputChannels outputChannels newSampleRate
      bufferSizeSamples now d = Some (now', d', err) ->
    noClient c d'.
Proof.
  induction fuel as [| fuel IH]; intros now now' d d' err;
    rewrite reopen_rec_unfold;
    pose proof (reopenPrefix_noClient inputChannels outputChannels now d) as Hp;
    destruct (waitForChange os newSampleRate bufferSizeSamples 30 _ _)
      as [[[t1 dl] changed] |] eqn:Hloop; try discriminate;
    cbn [mbind option_bind];
    pose proof (noClient_sameControl _ _ (waitForChange_frame _ _ _ _ _ _ _ _ Hloop) Hp)
      as Hl;
    destruct (afterPolling_frame changed dl) as [Hcbe Hideve];
    pose proof (noClient_frame dl _ Hcbe Hideve Hl) as He;
    set (de := afterPolling changed dl) in *;
    destruct (inputDevice de) as [s |] eqn:Hs.
  - destruct (error de =? "")%string; [discriminate |].
    cbn [mbind option_bind]. intros H. injection H as <- <- <-.
    eapply noClient_frame; [| | exact He]; reflexivity.
  - cbn [mbind option_bind]. intros H. injection H as <- <- <-.
    eapply noClient_frame; [| | exact He]; reflexivity.
  - destruct (error de =? "")%string.
    + destruct (reopen_rec fuel os inputChannels outputChannels newSampleRate
                  bufferSizeSamples t1 s) as [[[t2 s2] err2] |] eqn:Hrec;
        [| discriminate].
      cbn [mbind option_bind]. intros H. injection H as <- <- <-.
      apply noClient_unfold.
      cbn [callback inputDevice set_callbacksAllowed set_error set_inputDevice].
      apply noClient_unfold in He as [Hown _].
      split; [exact Hown | apply (IH _ _ _ _ _ Hrec)].
    + cbn [mbind option_bind]. intros H. injection H as <- <- <-.
      eapply noClient_frame; [| | exact He]; reflexivity.
  - cbn [mbind option_bind]. intros H. injection H as <- <- <-.
    eapply noClient_frame; [| | exact He]; reflexivity.
Qed.

Lemma timerCallback_noClient (now now' : nat) (d d' : CoreAudioInternal) :
  timerCallback os now d = Some (now', d') -> noClient c d -> noClient c d'.
Proof.
  unfold timerCallback. cbn [deviceID sampleRate bufferSize set_timerRunning].
  destruct (updateDetailsFromDevice (os (deviceID d) now) (set_timerRunning false d))
    as [d1 |] eqn:H1; [| discriminate].
  cbn [mbind option_bind].
  destruct (updateDetailsFromDevice_frame _ _ _ H1) as [Hc1 _].
  destruct (negb (bufferSize d =? bufferSize d1)
            || negb (Qeq_bool (sampleRate d) (sampleRate d1))).
  - pose proof (stop_noClient false (set_callbacksAllowed false d1) now) as Hs.
    destruct (stop os false now (set_callbacksAllowed false d1)) as [t1 d2].
    cbn [snd] in Hs.
    destruct (updateDetailsFromDevice (os (deviceID d2) t1) d2) as [d3 |] eqn:H3;
      [| discriminate].
    cbn [mbind option_bind]. intros H _. injection H as <- <-.
    destruct (updateDetailsFromDevice_frame _ _ _ H3) as [Hc3 _].
    eapply noClient_frame; [| | exact (noClient_sameControl _ _ Hc3 Hs)];
      reflexivity.
  - intros H Hd. injection H as <- <-.
    apply (noClient_sameControl _ _ Hc1).
    eapply noClient_frame; [| | exact Hd]; reflexivity.
Qed.

Lemma audioCallback_frame (inInputData outOutputData : list (list Z))
  (d d' : CoreAudioInternal) (out : list (list Z)) (evs : list ClientEvent) :
  audioCallback inInputData outOutputData d = Some (d', out, evs) ->
  callback d' = callback d /\ inputDevice d' = inputDevice d
  /\ forall e, In e evs ->
       exists cb, callback d = Some cb /\ eventClient e = cb_id cb.
Proof.
  unfold audioCallback. destruct (callback d) as [cb |] eqn:Hcb.
  - destruct (match inputDevice d with
              | Some _ => Some d
              | None => _
              end) as [d1 |] eqn:H1; [| discriminate].
    cbn [mbind option_bind].
    assert (Hd1 : callback d1 = callback d /\ inputDevice d1 = inputDevice d
                  /\ isSlaveDevice d1 = isSlaveDevice d).
    { destruct (inputDevice d) as [s |] eqn:Hs.
      - injection H1 as <-. auto.
      - destruct (readInputChannels _ _ _ _) as [buf |]; [| discriminate].
        cbn [mbind option_bind] in H1. injection H1 as <-.
        cbn. rewrite Hs. auto. }
    destruct Hd1 as (Hcb1 & Hidev1 & _).
    destruct (isSlaveDevice d1); cbn [negb].
    + intros H. injection H as <- <- <-.
      split; [congruence |]. split; [congruence |]. intros e [].
    + destruct (callClient cb _ d1) as [[buf ev] |] eqn:Hcall; [| discriminate].
      cbn [mbind option_bind].
      destruct (writeOutputChannels _ _ _) as [out' |]; [| discriminate].
      cbn [mbind option_bind]. intros H. injection H as <- <- <-.
      cbn [callback inputDevice set_audioBuffer].
      split; [congruence |]. split; [congruence |].
      intros e [<- | []]. exists cb. split; [reflexivity |].
      unfold callClient in Hcall.
      destruct (writeViews _ _ _); [| discriminate].
      cbn [mbind option_bind] in Hcall. injection Hcall as <- <-. reflexivity.
  - destruct (clearOutputChannels _ _ _) as [out' |]; [| discriminate].
    cbn [mbind option_bind]. intros H. injection H as <- <- <-.
    split; [assumption |]. split; [reflexivity |]. intros e [].
Qed.

Lemma step_noClient (now now' : nat) (f f' : CoreAudioIODevice) (a : Action)
  (evs : list ClientEvent) :
  allowed c a -> facadeNoClient c f ->
  step os now f a = Some (now', f', evs) ->
  facadeNoClient c f' /\ Forall (fun e => eventClient e <> c) evs.
Proof.
  intros Ha Hf. unfold facadeNoClient in *. destruct a; cbn [step].
  - (* start *)
    unfold facade_start. destruct (internal f) as [d |] eqn:Hd.
    + destruct (isStarted f); cbn [negb].
      * intros H. injection H as <- <- <-. rewrite Hd. split; [exact Hf | constructor].
      * intros H. injection H as <- <- <-. cbn [internal set_internal]. split.
        -- apply start_noClient; [| exact Hf].
           intros cb' ->. exact Ha.
        -- destruct cb as [cb' |]; [| constructor].
           constructor; [exact Ha | constructor].
    + intros H. injection H as <- <- <-. rewrite Hd. split; [exact I | constructor].
  - (* stop *)
    unfold facade_stop. destruct (internal f) as [d |] eqn:Hd.
    + destruct (isStarted f).
      * pose proof (stop_noClient true d now) as Hs.
        destruct (stop os true now d) as [t1 d1]. cbn [snd] in Hs.
        intros H. injection H as <- <- <-. cbn [internal set_internal set_isStarted].
        split; [exact Hs |].
        apply noClient_unfold in Hf as [Hown _].
        destruct (callback d) as [cb |]; [| constructor].
        constructor; [apply Hown; reflexivity | constructor].
      * intros H. injection H as <- <- <-. rewrite Hd. split; [exact Hf | constructor].
    + intros H. injection H as <- <- <-. rewrite Hd. split; [exact I | constructor].
  - (* isPlaying *)
    unfold isPlaying. destruct (internal f) as [d |] eqn:Hd; [| discriminate].
    cbn [mbind option_bind]. intros H. injection H as <- <- <-.
    split; [| constructor].
    destruct (callback d); cbn [internal set_isStarted]; rewrite Hd; exact Hf.
  - (* open *)
    unfold open. cbn [internal set_isOpen_].
    destruct (if bufferSizeSamples <=? 0 then _ else _) as [n |]; [| discriminate].
    cbn [mbind option_bind].
    destruct (internal f) as [d |] eqn:Hd; [| discriminate].
    cbn [mbind option_bind]. unfold reopen.
    destruct (reopen_rec _ _ _ _ _ _ _ _) as [[[t1 d1] err] |] eqn:Hrec;
      [| discriminate].
    cbn [mbind option_bind]. intros H. injection H as <- <- <-.
    cbn [internal set_internal set_lastError]. split; [| constructor].
    apply (reopen_rec_noClient _ _ _ _ _ _ _ _ _ _ Hrec).
  - (* close *)
    intros H. injection H as <- <- <-. split; [exact Hf | constructor].
  - (* deviceDetailsChanged *)
    destruct (internal f) as [d |] eqn:Hd; [| discriminate].
    cbn [mbind option_bind]. intros H. injection H as <- <- <-.
    cbn [internal set_internal]. split; [| constructor].
    unfold deviceDetailsChanged.
    destruct (callbacksAllowed d); [| exact Hf].
    eapply noClient_frame; [| | exact Hf]; reflexivity.
  - (* timer *)
    destruct (internal f) as [d |] eqn:Hd; [| discriminate].
    cbn [mbind option_bind].
    destruct (timerCallback os now d) as [[t1 d1] |] eqn:Ht; [| discriminate].
    cbn [mbind option_bind]. intros H. injection H as <- <- <-.
    cbn [internal set_internal]. split; [| constructor].
    apply (timerCallback_noClient _ _ _ _ Ht Hf).
  - (* the I/O proc of the master *)
    destruct (internal f) as [d |] eqn:Hd; [| discriminate].
    cbn [mbind option_bind].
    destruct (audioCallback inInputData outOutputData d) as [[[d1 out] evs1] |]
      eqn:Hcall; [| discriminate].
    cbn [mbind option_bind]. intros H. injection H as <- <- <-.
    cbn [internal set_internal].
    destruct (audioCallback_frame _ _ _ _ _ _ Hcall) as (Hcb & Hidev & Hevs).
    split; [apply (noClient_frame d); assumption |].
    apply noClient_unfold in Hf as [Hown _].
    apply List.Forall_forall. intros e He.
    destruct (Hevs e He) as (cb & Hcbd & ->). apply Hown. exact Hcbd.
  - (* the I/O proc of the slave *)
    destruct (internal f) as [d |] eqn:Hd; [| discriminate].
    cbn [mbind option_bind].
    destruct (inputDevice d) as [s |] eqn:Hs; [| discriminate].
    cbn [mbind option_bind].
    destruct (audioCallback inInputData outOutputData s) as [[[s1 out] evs1] |]
      eqn:Hcall; [| discriminate].
    cbn [mbind option_bind]. intros H. injection H as <- <- <-.
    cbn [internal set_internal].
    destruct (audioCallback_frame _ _ _ _ _ _ Hcall) as (Hcb & Hidev & Hevs).
    apply noClient_unfold in Hf as [Hown Hslave]. rewrite Hs in Hslave.
    split.
    + apply noClient_unfold. cbn [callback inputDevice set_inputDevice].
      split; [exact Hown |]. apply (noClient_frame s); assumption.
    + apply noClient_unfold in Hslave as [Hown' _].
      apply List.Forall_forall. intros e He.
      destruct (Hevs e He) as (cb & Hcbd & ->). apply Hown'. exact Hcbd.
  - (* deviceDetailsChanged of the slave *)
    destruct (internal f) as [d |] eqn:Hd; [| discriminate].
    cbn [mbind option_bind].
    destruct (inputDevice d) as [s |] eqn:Hs; [| discriminate].
    cbn [mbind option_bind]. intros H. injection H as <- <- <-.
    cbn [internal set_internal]. split; [| constructor].
    apply noClient_unfold in Hf as [Hown Hslave]. rewrite Hs in Hslave.
    apply noClient_unfold. cbn [callback inputDevice set_inputDevice].
    split; [exact Hown |]. unfold deviceDetailsChanged.
    destruct (callbacksAllowed s); [| exact Hslave].
    eapply noClient_frame; [| | exact Hslave]; reflexivity.
  - (* the timer of the slave *)
    destruct (internal f) as [d |] eqn:Hd; [| discriminate].
    cbn [mbind option_bind].
    destruct (inputDevice d) as [s |] eqn:Hs; [| discriminate].
    cbn [mbind option_bind].
    destruct (timerCallback os now s) as [[t1 s1] |] eqn:Ht; [| discriminate].
    cbn [mbind option_bind]. intros H. injection H as <- <- <-.
    cbn [internal set_internal]. split; [| constructor].
    apply noClient_unfold in Hf as [Hown Hslave]. rewrite Hs in Hslave.
    apply noClient_unfold. cbn [callback inputDevice set_inputDevice].
    split; [exact Hown |]. apply (timerCallback_noClient _ _ _ _ Ht Hslave).
Qed.

Lemma run_noClient (acts : list Action) :
  forall (now : nat) (f : CoreAudioIODevice),
    Forall (allowed c) acts -> facadeNoClient c f ->
    Forall (fun e => eventClient e <> c) (fst (run os now f acts)).
Proof.
  induction acts as [| a rest IH]; intros now f Hacts Hf; cbn [run].
  - constructor.
  - inversion Hacts as [| ? ? Ha Hrest]; subst.
    destruct (step os now f a) as [[[now' f'] evs] |] eqn:Hstep; [| constructor].
    destruct (step_noClient _ _ _ _ _ _ Ha Hf Hstep) as [Hf' Hevs].
    specialize (IH now' f' Hrest Hf').
    destruct (run os now' f' rest) as [evs' r]. cbn [fst] in *.
    apply Forall_app. split; assumption.
Qed.

End ClientBinding.

(** ** The timer after a change of the device *)

Lemma stereoView8_fits : viewFits stereoView8.
Proof.
  split; [discriminate |].
  intros input streams Hs. cbn in Hs. injection Hs as <-. vm_compute. discriminate.
Qed.

(** ** The constructor of the core *)

(** The constructor reports an error for the device id 0 and for no
    other. *)
Lemma new_CoreAudioInternal_error (os : OS) (now : nat) (id : Z)
  (d : CoreAudioInternal) :
  new_CoreAudioInternal os now id = Some d ->
  error d = if id =? 0 then "can't open device" else "".
Proof.
  unfold new_CoreAudioInternal. cbn [deviceID initialCore].
  destruct (id =? 0).
  - intros H. injection H as <-. reflexivity.
  - intros H. destruct (updateDetailsFromDevice_frame _ _ _ H) as [(He & _) _].
    exact He.
Qed.

(** So with the cores that the source constructs, a facade for two
    different ids other than 0 has its slave attached and no error. *)
Lemma CoreAudioIODevice_new_pair (os : OS) (now : nat) (name : string)
  (inputDeviceId inputIndex_ outputDeviceId outputIndex_ : Z)
  (f : CoreAudioIODevice) :
  outputDeviceId <> 0 -> outputDeviceId <> inputDeviceId ->
  inputDeviceId <> 0 ->
  CoreAudioIODevice_new (new_CoreAudioInternal os now) name inputDeviceId
    inputIndex_ outputDeviceId outputIndex_ = Some f ->
  lastError f = ""
  /\ exists d s, internal f = Some d /\ inputDevice d = Some s
                 /\ isSlaveDevice s = true /\ error d = "" /\ error s = "".
Proof.
  intros Hout Hne Hin. unfold CoreAudioIODevice_new.
  destruct (Z.eqb_spec outputDeviceId 0); [contradiction |].
  destruct (Z.eqb_spec outputDeviceId inputDeviceId); [contradiction |].
  destruct (Z.eqb_spec inputDeviceId 0); [contradiction |].
  cbn [orb negb].
  destruct (new_CoreAudioInternal os now outputDeviceId) as [master |] eqn:Hm;
    [| discriminate].
  cbn [mbind option_bind].
  pose proof (new_CoreAudioInternal_error _ _ _ _ Hm) as Hem.
  destruct (Z.eqb_spec outputDeviceId 0); [contradiction |].
  rewrite Hem. cbn [isNotEmpty String.eqb negb].
  destruct (new_CoreAudioInternal os now inputDeviceId) as [slave |] eqn:Hsl;
    [| discriminate].
  cbn [mbind option_bind].
  pose proof (new_CoreAudioInternal_error _ _ _ _ Hsl) as Hes.
  destruct (Z.eqb_spec inputDeviceId 0); [contradiction |].
  intros H. injection H as <-. cbn [lastError internal].
  split; [reflexivity |]. eexists. eexists.
  split; [reflexivity |]. split; [reflexivity |].
  repeat split; assumption.
Qed.

(** ** The routing table after a refresh *)

Lemma fillOneChannel_output_inv (i j nch : Z) (st st' : Z * Z * CoreAudioInternal) :
  fillOneChannel false i j nch st = Some st' ->
  fillOutputInv st -> fillOutputInv st'.
Proof.
  destruct st as [[chanNum activeChans] d]. unfold fillOneChannel, fillOutputInv.
  cbn [fst snd]. intros Hrun (Ha & Htail & Hnum & Hzero).
  destruct (BitArray_get (activeOutputChans d) chanNum).
  - destruct (arr_set (outputChannelInfo d) activeChans _) as [tbl |] eqn:Hset;
      [| discriminate].
    cbn [mbind option_bind] in Hrun. injection Hrun as <-. cbn [fst snd].
    split; [lia |]. split.
    + intros k info Hk. unfold outputTailFrom in Htail.
      cbn [outputChannelInfo set_outChanNames set_numOutputChannelInfos
             set_outputChannelInfo].
      rewrite (arr_get_set_ne _ _ _ _ _ Hset) by lia. apply Htail. lia.
    + split; [intros _; reflexivity | lia].
  - cbn [mbind option_bind] in Hrun. injection Hrun as <-. cbn [fst snd].
    split; [exact Ha |]. split; [exact Htail |]. split; [exact Hnum | exact Hzero].
Qed.

Lemma fillStream_output_inv (i nch : Z) (n : nat) :
  forall (j : Z) (st st' : Z * Z * CoreAudioInternal),
    fillStream false i nch n j st = Some st' ->
    fillOutputInv st -> fillOutputInv st'.
Proof.
  induction n as [| n IH]; intros j st st'; cbn [fillStream].
  - intros H. injection H as <-. auto.
  - destruct (fillOneChannel false i j nch st) as [st1 |] eqn:H1; [| discriminate].
    cbn [mbind option_bind]. intros H Hinv.
    apply (IH _ _ _ H). apply (fillOneChannel_output_inv _ _ _ _ _ H1 Hinv).
Qed.

Lemma fillStreams_output_inv (streams : list Z) :
  forall (i : Z) (st st' : Z * Z * CoreAudioInternal),
    fillStreams false streams i st = Some st' ->
    fillOutputInv st -> fillOutputInv st'.
Proof.
  induction streams as [| nch rest IH]; intros i st st'; cbn [fillStreams].
  - intros H. injection H as <-. auto.
  - destruct (fillStream false i nch (Z.to_nat nch) 0 st) as [st1 |] eqn:H1;
      [| discriminate].
    cbn [mbind option_bind]. intros H Hinv.
    apply (IH _ _ _ H). apply (fillStream_output_inv _ _ _ _ _ _ H1 Hinv).
Qed.

Lemma outputTailFrom_cleared (a : Z) (d : CoreAudioInternal) :
  outputTailFrom a d -> (0 < a -> numOutputChannelInfos d = a) ->
  (a = 0 -> outputTailFrom 0 d) -> 0 <= a -> outputTailCleared d.
Proof.
  intros Htail Hnum Hzero Ha i info Hi Hinfo.
  destruct (Z.eq_dec a 0) as [-> | Hne].
  - apply (Hzero eq_refl i); [| exact Hinfo].
    apply arr_get_lt in Hinfo. lia.
  - apply (Htail i); [| exact Hinfo]. rewrite Hnum in Hi by lia. exact Hi.
Qed.

(** The input direction does not touch the output table. *)
Lemma fillOneChannel_input_keeps_output (i j nch : Z)
  (st st' : Z * Z * CoreAudioInternal) :
  fillOneChannel true i j nch st = Some st' ->
  outputChannelInfo (snd st') = outputChannelInfo (snd st).
Proof.
  destruct st as [[chanNum activeChans] d]. unfold fillOneChannel.
  destruct (BitArray_get (activeInputChans d) chanNum).
  - destruct (arr_set (inputChannelInfo d) activeChans _); [| discriminate].
    cbn [mbind option_bind]. intros H. injection H as <-. reflexivity.
  - cbn [mbind option_bind]. intros H. injection H as <-. reflexivity.
Qed.

Lemma fillStream_input_keeps_output (i nch : Z) (n : nat) :
  forall (j : Z) (st st' : Z * Z * CoreAudioInternal),
    fillStream true i nch n j st = Some st' ->
    outputChannelInfo (snd st') = outputChannelInfo (snd st).
Proof.
  induction n as [| n IH]; intros j st st'; cbn [fillStream].
  - intros H. injection H as <-. reflexivity.
  - destruct (fillOneChannel true i j nch st) as [st1 |] eqn:H1; [| discriminate].
    cbn [mbind option_bind]. intros H.
    rewrite (IH _ _ _ H). apply (fillOneChannel_input_keeps_output _ _ _ _ _ H1).
Qed.

Lemma fillStreams_input_keeps_output (streams : list Z) :
  forall (i : Z) (st st' : Z * Z * CoreAudioInternal),
    fillStreams true streams i st = Some st' ->
    outputChannelInfo (snd st') = outputChannelInfo (snd st).
Proof.
  induction streams as [| nch rest IH]; intros i st st'; cbn [fillStreams].
  - intros H. injection H as <-. reflexivity.
  - destruct (fillStream true i nch (Z.to_nat nch) 0 st) as [st1 |] eqn:H1;
      [| discriminate].
    cbn [mbind option_bind]. intros H.
    rewrite (IH _ _ _ H). apply (fillStream_input_keeps_output _ _ _ _ _ _ H1).
Qed.

Lemma zeroInfoTable_stride (i : Z) (info : CallbackDetailsForChannel) :
  arr_get zeroInfoTable i = Some info -> dataStrideSamples info = 0.
Proof.
  intros [_ H]%arr_get_Some. unfold zeroInfoTable in H.
  apply lookup_replicate in H as [-> _]. reflexivity.
Qed.

(** Every refresh of a device with an id other than 0 leaves the output
    routing table cleared from [numOutputChannelInfos] on; for the id 0
    the table is as it was. *)
Lemma updateDetailsFromDevice_outputTailCleared (v : OSView)
  (d d' : CoreAudioInternal) :
  updateDetailsFromDevice v d = Some d' ->
  (deviceID d = 0 -> outputTailCleared d) -> outputTailCleared d'.
Proof.
  unfold updateDetailsFromDevice. cbn [deviceID set_timerRunning].
  destruct (Z.eqb_spec (deviceID d) 0) as [Hz | Hnz].
  { intros H Hd. injection H as <-. exact (Hd Hz). }
  destruct (match os_BufferFrameSize v with
            | Some framesPerBuf => _
            | None => _
            end) as [d2 |]; [| discriminate].
  cbn [mbind option_bind].
  destruct (buildBufferSizes _ _) as [sizes |]; [| discriminate].
  cbn [mbind option_bind].
  match goal with
  | |- (fillInChannelInfo v true ?x ≫= _) = _ -> _ => set (d3 := x)
  end.
  assert (H3 : outputChannelInfo d3 = zeroInfoTable) by reflexivity.
  clearbody d3.
  destruct (fillInChannelInfo v true d3) as [d4 |] eqn:H4; [| discriminate].
  cbn [mbind option_bind]. intros H5 _.
  assert (H4' : outputChannelInfo d4 = zeroInfoTable).
  { unfold fillInChannelInfo in H4.
    destruct (os_StreamConfiguration v true) as [streams |].
    - destruct (fillStreams true streams 0 (0, 0, d3)) as [[[c a] dx] |] eqn:Hf;
        [| discriminate].
      cbn [mbind option_bind] in H4. injection H4 as <-.
      rewrite <- H3. apply (fillStreams_input_keeps_output _ _ _ _ Hf).
    - injection H4 as <-. exact H3. }
  assert (Hall : outputTailFrom 0 d4).
  { intros i info _ Hinfo. rewrite H4' in Hinfo.
    apply (zeroInfoTable_stride _ _ Hinfo). }
  unfold fillInChannelInfo in H5.
  destruct (os_StreamConfiguration v false) as [streams |].
  - destruct (fillStreams false streams 0 (0, 0, d4)) as [[[c a] dx] |] eqn:Hf;
      [| discriminate].
    cbn [mbind option_bind] in H5. injection H5 as <-.
    assert (Hinv : fillOutputInv (c, a, dx)).
    { apply (fillStreams_output_inv _ _ _ _ Hf). unfold fillOutputInv.
      cbn [fst snd]. split; [lia |]. split; [exact Hall |].
      split; [lia | intros _; exact Hall]. }
    destruct Hinv as (Ha & Htail & Hnum & Hzero). cbn [fst snd] in *.
    apply (outputTailFrom_cleared a); assumption.
  - injection H5 as <-. intros i info Hi Hinfo.
    apply (Hall i); [| exact Hinfo]. apply arr_get_lt in Hinfo. lia.
Qed.

(** ** The input loop of audioCallback *)

Lemma copyIn_spec (stride : Z) (block : list Z) (n : nat) :
  forall (off src : Z) (buf : list Z),
    0 <= off -> off + Z.of_nat n <= Z.of_nat (length buf) ->
    (forall k, 0 <= k < Z.of_nat n ->
       0 <= src + k * stride < Z.of_nat (length block)) ->
    exists buf',
      copyIn n (Some off) src stride block buf = Some buf'
      /\ length buf' = length buf
      /\ (forall k, 0 <= k < Z.of_nat n ->
            arr_get buf' (off + k) = arr_get block (src + k * stride))
      /\ (forall j, ~ off <= j < off + Z.of_nat n ->
            arr_get buf' j = arr_get buf j).
Proof.
  induction n as [| n IH]; intros off src buf Hoff Hlen Hfit.
  - exists buf. cbn [copyIn]. split; [reflexivity |]. split; [reflexivity |].
    split; [intros k Hk; lia | intros j _; reflexivity].
  - cbn [copyIn].
    destruct (arr_get block src) as [v |] eqn:Hv.
    2:{ specialize (Hfit 0). unfold arr_get in Hv.
        destruct (Z.leb_spec 0 src); [| lia].
        apply lookup_ge_None in Hv. lia. }
    cbn [mbind option_bind store].
    destruct (arr_set buf off v) as [buf1 |] eqn:Hset;
      [| rewrite arr_set_Some in Hset by lia; discriminate].
    cbn [mbind option_bind ptr_add].
    pose proof (arr_set_length _ _ _ _ Hset) as Hlen1.
    destruct (IH (off + 1) (src + stride) buf1) as (buf' & Hrun & Hlen' & Hin & Hout).
    { lia. }
    { rewrite Hlen1. lia. }
    { intros k Hk. specialize (Hfit (k + 1)). lia. }
    exists buf'. split; [exact Hrun |]. split; [congruence |]. split.
    + intros k Hk. destruct (Z.eq_dec k 0) as [-> | Hne].
      * rewrite Z.add_0_r, Z.mul_0_l, Z.add_0_r. rewrite Hout by lia.
        rewrite (arr_get_set_eq _ _ _ _ Hset). symmetry. exact Hv.
      * specialize (Hin (k - 1)).
        replace (off + 1 + (k - 1)) with (off + k) in Hin by lia.
        replace (src + stride + (k - 1) * stride) with (src + k * stride)
          in Hin by lia.
        apply Hin. lia.
    + intros j Hj. rewrite Hout by lia.
      apply (arr_get_set_ne _ _ _ _ _ Hset). lia.
Qed.

(** The input loop is a deinterleave into the views that the routing
    entries name: where the first [n] logical channels are mapped to views
    that do not overlap, the loop returns, and the view of every channel
    with a stride other than 0 holds that channel's samples of the OS
    buffer; what lies outside the views is as it was. *)
Lemma readInputChannels_deinterleaves (d : CoreAudioInternal)
  (ind : list (list Z)) (infoOf : Z -> CallbackDetailsForChannel)
  (offOf : Z -> Z) (n : nat) :
  forall buf : list Z,
    0 <= bufferSize d ->
    (forall i, 0 <= i < Z.of_nat n ->
       inputChannelMapped d ind (Z.of_nat (length buf)) i (infoOf i) (offOf i)) ->
    (forall i j, 0 <= i < Z.of_nat n -> 0 <= j < Z.of_nat n -> i <> j ->
       viewsDisjoint (offOf i) (offOf j) (bufferSize d)) ->
    exists buf',
      readInputChannels ind n d buf = Some buf'
      /\ length buf' = length buf
      /\ (forall i k, 0 <= i < Z.of_nat n ->
            dataStrideSamples (infoOf i) <> 0 -> 0 <= k < bufferSize d ->
            arr_get buf' (offOf i + k)
            = arr_get (streamData ind (streamNum (infoOf i)))
                (dataOffsetSamples (infoOf i) + k * dataStrideSamples (infoOf i)))
      /\ (forall j, (forall i, 0 <= i < Z.of_nat n ->
                       ~ offOf i <= j < offOf i + bufferSize d) ->
            arr_get buf' j = arr_get buf j).
Proof.
  induction n as [| n IH]; intros buf Hbs Hmap Hdisj.
  - exists buf. cbn [readInputChannels]. split; [reflexivity |].
    split; [reflexivity |]. split; [intros i k Hi; lia | intros j _; reflexivity].
  - cbn [readInputChannels]. unfold readInputChannel.
    destruct (Hmap (Z.of_nat n)) as (Hinfo & Hdest & Hoff & Hlen & Hfit); [lia |].
    rewrite Hinfo. cbn [mbind option_bind]. rewrite Hdest. cbn [mbind option_bind].
    assert (Hstep : exists buf1,
               (if negb (dataStrideSamples (infoOf (Z.of_nat n)) =? 0)
                then copyIn (Z.to_nat (bufferSize d)) (Some (offOf (Z.of_nat n)))
                       (dataOffsetSamples (infoOf (Z.of_nat n)))
                       (dataStrideSamples (infoOf (Z.of_nat n)))
                       (streamData ind (streamNum (infoOf (Z.of_nat n)))) buf
                else Some buf) = Some buf1
               /\ length buf1 = length buf
               /\ (dataStrideSamples (infoOf (Z.of_nat n)) <> 0 ->
                   forall k, 0 <= k < bufferSize d ->
                     arr_get buf1 (offOf (Z.of_nat n) + k)
                     = arr_get (streamData ind (streamNum (infoOf (Z.of_nat n))))
                         (dataOffsetSamples (infoOf (Z.of_nat n))
                          + k * dataStrideSamples (infoOf (Z.of_nat n))))
               /\ (forall j, ~ offOf (Z.of_nat n) <= j
                               < offOf (Z.of_nat n) + bufferSize d ->
                     arr_get buf1 j = arr_get buf j)).
    { destruct (Z.eqb_spec (dataStrideSamples (infoOf (Z.of_nat n))) 0) as [Hz | Hnz];
        cbn [negb].
      - exists buf. split; [reflexivity |]. split; [reflexivity |].
        split; [intros Hne; contradiction | intros j _; reflexivity].
      - destruct (Hfit Hnz) as [_ Hslots].
        destruct (copyIn_spec (dataStrideSamples (infoOf (Z.of_nat n)))
                    (streamData ind (streamNum (infoOf (Z.of_nat n))))
                    (Z.to_nat (bufferSize d)) (offOf (Z.of_nat n))
                    (dataOffsetSamples (infoOf (Z.of_nat n))) buf)
          as (buf1 & Hrun & Hlen1 & Hin & Hout).
        { exact Hoff. }
        { rewrite Z2Nat.id by lia. exact Hlen. }
        { intros k Hk. apply Hslots. lia. }
        exists buf1. split; [exact Hrun |]. split; [exact Hlen1 |].
        split.
        + intros _ k Hk. apply Hin. lia.
        + intros j Hj. apply Hout. rewrite Z2Nat.id by lia. exact Hj. }
    destruct Hstep as (buf1 & Hrun1 & Hlen1 & Hin1 & Hout1).
    rewrite Hrun1. cbn [mbind option_bind].
    destruct (IH buf1 Hbs) as (buf' & Hrun & Hlen' & Hin & Hout).
    { intros i Hi. rewrite Hlen1. apply Hmap. lia. }
    { intros i j Hi Hj. apply Hdisj; lia. }
    exists buf'. split; [exact Hrun |]. split; [congruence |]. split.
    + intros i k Hi Hnz Hk. destruct (Z.eq_dec i (Z.of_nat n)) as [-> | Hne].
      * rewrite Hout; [apply Hin1; assumption |].
        intros i' Hi'. destruct (Hdisj (Z.of_nat n) i') as [Hd | Hd]; lia.
      * apply Hin; [lia | assumption | assumption].
    + intros j Hj. rewrite Hout.
      * apply Hout1. apply Hj. lia.
      * intros i Hi. apply Hj. lia.
Qed.

(** ** Stopping and starting a chain of devices *)

Lemma chainAll_unfold (P : CoreAudioInternal -> Prop) (d : CoreAudioInternal) :
  chainAll P d
  <-> P d /\ match inputDevice d with
             | Some s => chainAll P s
             | None => True
             end.
Proof. destruct d. reflexivity. Qed.

Lemma chainStarted_unfold (d : CoreAudioInternal) :
  chainStarted d = started d :: match inputDevice d with
                                | Some s => chainStarted s
                                | None => []
                                end.
Proof. destruct d. reflexivity. Qed.

Lemma runningDevices_unfold (d : CoreAudioInternal) :
  runningDevices d
  = let rest := match inputDevice d with
                | Some s => runningDevices s
                | None => O
                end in
    if started d && negb (deviceID d =? 0) then S rest else rest.
Proof. destruct d. reflexivity. Qed.

Lemma chainAll_impl (P Q : CoreAudioInternal -> Prop) :
  (forall x, P x -> Q x) -> forall d, chainAll P d -> chainAll Q d.
Proof.
  intros HPQ. induction d as [d IH] using chain_ind. intros H.
  apply chainAll_unfold in H as [Hd Hs]. apply chainAll_unfold.
  split; [apply HPQ; exact Hd |].
  destruct (inputDevice d) as [s |]; [apply (IH s eq_refl); exact Hs | exact I].
Qed.

(** The members of the device itself after [stop], and its slave. *)
Lemma stop_members (os : OS) (leave : bool) (now : nat) (d : CoreAudioInternal) :
  callback (snd (stop os leave now d)) = None
  /\ started (snd (stop os leave now d))
     = started d && ((deviceID d =? 0) || leave)
  /\ deviceID (snd (stop os leave now d)) = deviceID d
  /\ inputDevice (snd (stop os leave now d))
     = match inputDevice d with
       | Some s => Some (snd (stop os leave (fst (stopLocal os leave now d)) s))
       | None => None
       end.
Proof.
  destruct (stop_spec os leave d now) as (Hsame & Hcb & Hst & _ & Hidev).
  split; [exact Hcb |]. split; [exact Hst |].
  split; [apply Hsame |].
  destruct (inputDevice d); [exact Hidev | apply Hidev].
Qed.

Lemma stop_chain_idle (os : OS) (d : CoreAudioInternal) :
  forall now,
    chainAll (fun x => callback x = None /\ (started x = true -> deviceID x = 0))
      (snd (stop os false now d)).
Proof. induction d as [d IH] using chain_ind. intros now.
  destruct (stop_members os false now d) as (Hcb & Hst & Hid & Hidev).
  apply chainAll_unfold. rewrite Hidev. split.
  - split; [exact Hcb |]. rewrite Hst, Hid. rewrite orb_false_r.
    intros H. apply andb_true_iff in H as [_ H]. apply Z.eqb_eq. exact H.
  - destruct (inputDevice d) as [s |]; [apply (IH s eq_refl) | exact I].
Qed.

(** X1 (stop): after [stop (false)] no device of the chain has a client
    bound, and no device of the chain is started unless its id is 0 (for
    which the OS is never asked). *)
Theorem stop_leaves_chain_idle (os : OS) (now : nat) (d : CoreAudioInternal) :
  chainAll (fun x => callback x = None /\ (started x = true -> deviceID x = 0))
    (snd (stop os false now d)).
Proof. apply stop_chain_idle. Qed.

Lemma waitUntilStopped_bounds (os : OS) (id : Z) (n : nat) :
  forall now, (0 < n)%nat ->
    (now + 50 <= waitUntilStopped os id n now <= now + 50 * n)%nat.
Proof.
  induction n as [| n IH]; intros now Hn; [lia |].
  cbn [waitUntilStopped].
  destruct (_ =? 0); [lia |].
  destruct n as [| n']; [cbn [waitUntilStopped]; lia |].
  specialize (IH (now + 50)%nat ltac:(lia)). lia.
Qed.

Lemma stopLocal_time (os : OS) (leave : bool) (now : nat) (d : CoreAudioInternal) :
  fst (stopLocal os leave now d)
  = if started d && negb (deviceID d =? 0) && negb leave
    then waitUntilStopped os (deviceID d) 40 now else now.
Proof.
  unfold stopLocal. cbn [started deviceID set_callback].
  destruct (started d && negb (deviceID d =? 0) && negb leave); reflexivity.
Qed.

Lemma stop_time (os : OS) (leave : bool) (now : nat) (d : CoreAudioInternal) :
  fst (stop os leave now d)
  = match inputDevice d with
    | Some s => fst (stop os leave (fst (stopLocal os leave now d)) s)
    | None => fst (stopLocal os leave now d)
    end.
Proof. rewrite stop_unfold. destruct (inputDevice d); reflexivity. Qed.

(** X2 (stop): [stop (false)] sleeps between 50 ms and 2000 ms for every
    device of the chain that is started with an id other than 0 (40 polls
    of [DeviceIsRunning], 50 ms apart, left at the first that reads 0), and
    no time for the others. *)
Theorem stop_waits_per_running_device (os : OS) (now : nat)
  (d : CoreAudioInternal) :
  (now + 50 * runningDevices d <= fst (stop os false now d)
   <= now + 2000 * runningDevices d)%nat.
Proof.
  revert now. induction d as [d IH] using chain_ind. intros now.
  rewrite stop_time, runningDevices_unfold, stopLocal_time.
  rewrite andb_true_r. cbv zeta.
  destruct (started d && negb (deviceID d =? 0)).
  - pose proof (waitUntilStopped_bounds os (deviceID d) 40 now ltac:(lia)) as Hw.
    destruct (inputDevice d) as [s |]; [| lia].
    specialize (IH s eq_refl (waitUntilStopped os (deviceID d) 40 now)). lia.
  - destruct (inputDevice d) as [s |]; [| lia].
    specialize (IH s eq_refl now). lia.
Qed.

Lemma stop_leave_running (os : OS) (d : CoreAudioInternal) :
  forall now,
    fst (stop os true now d) = now
    /\ chainStarted (snd (stop os true now d)) = chainStarted d
    /\ chainAll (fun x => callback x = None) (snd (stop os true now d)).
Proof.
  induction d as [d IH] using chain_ind. intros now.
  destruct (stop_members os true now d) as (Hcb & Hst & Hid & Hidev).
  rewrite stop_time, stopLocal_time in *. rewrite andb_false_r in *.
  rewrite (chainStarted_unfold (snd _)), (chainStarted_unfold d).
  rewrite chainAll_unfold, Hidev, Hst, orb_true_r, andb_true_r.
  destruct (inputDevice d) as [s |].
  - destruct (IH s eq_refl now) as (Ht & Hch & Hall).
    split; [exact Ht |]. split; [f_equal; exact Hch |].
    split; [exact Hcb | exact Hall].
  - split; [reflexivity |]. split; [reflexivity |]. split; [exact Hcb | exact I].
Qed.

(** X3 (stop): [stop (true)], the form that the facade uses, returns at
    once, unbinds the client of every device of the chain and leaves every
    device as started as it was: the interrupts keep running. *)
Theorem stop_leave_running_keeps_started (os : OS) (now : nat)
  (d : CoreAudioInternal) :
  fst (stop os true now d) = now
  /\ chainStarted (snd (stop os true now d)) = chainStarted d
  /\ chainAll (fun x => callback x = None) (snd (stop os true now d)).
Proof. apply stop_leave_running. Qed.

Lemma set_callback_same (d : CoreAudioInternal) :
  callback d = None -> set_callback None d = d.
Proof. destruct d. cbn. intros ->. reflexivity. Qed.

Lemma set_inputDevice_same (d : CoreAudioInternal) (s : CoreAudioInternal) :
  inputDevice d = Some s -> set_inputDevice (Some s) d = d.
Proof. destruct d. cbn. intros ->. reflexivity. Qed.

Lemma stop_idle (os : OS) (leave : bool) (d : CoreAudioInternal) :
  forall now,
    chainAll (fun x => callback x = None /\ (started x = true -> deviceID x = 0)) d ->
    stop os leave now d = (now, d).
Proof.
  induction d as [d IH] using chain_ind. intros now H.
  apply chainAll_unfold in H as [[Hcb Hst] Hs].
  assert (Hl : stopLocal os leave now d = (now, d)).
  { unfold stopLocal. rewrite (set_callback_same d Hcb).
    destruct (started d) eqn:Hsd; [| reflexivity].
    rewrite (Hst eq_refl). reflexivity. }
  rewrite stop_unfold, Hl. cbn [fst snd].
  destruct (inputDevice d) as [s |] eqn:Hidev; [| reflexivity].
  rewrite (IH s eq_refl now Hs). cbn [fst snd].
  rewrite (set_inputDevice_same d s Hidev). reflexivity.
Qed.

(** X4 (stop): stopping twice is stopping once.  A [stop], in either form
    and at any later time, of a chain that [stop (false)] has stopped
    changes nothing and takes no time. *)
Theorem stop_twice_is_stop_once (os os' : OS) (leave : bool) (now t : nat)
  (d : CoreAudioInternal) :
  stop os' leave t (snd (stop os false now d)) = (t, snd (stop os false now d)).
Proof. apply stop_idle. apply stop_chain_idle. Qed.

(** X5 (start): [start] returns [true] exactly when, after it, every device
    of the chain is started and has the client [cb] bound. *)
Theorem start_true_iff_chain_started (os : OS) (now : nat)
  (cb : option AudioIODeviceCallback) (d : CoreAudioInternal) :
  snd (start os now cb d) = true
  <-> chainAll (fun x => started x = true /\ callback x = cb)
        (fst (start os now cb d)).
Proof.
  induction d as [d IH] using chain_ind.
  rewrite start_unfold.
  destruct (startLocal_spec os now cb d) as (Hcb & Hidev & _).
  destruct (inputDevice d) as [s |] eqn:Hs.
  - destruct (started (startLocal os now cb d)) eqn:Hst; cbn [fst snd].
    + rewrite chainAll_unfold. cbn [started callback inputDevice set_inputDevice].
      rewrite (IH s eq_refl). rewrite Hst. tauto.
    + rewrite chainAll_unfold. rewrite Hst. split; [discriminate |].
      intros [[H _] _]. discriminate.
  - cbn [fst snd]. rewrite chainAll_unfold, Hidev.
    destruct (started (startLocal os now cb d)); [tauto |].
    split; [discriminate |]. intros [[H _] _]. discriminate.
Qed.

Lemma start_refused_aux (os : OS) (now : nat) (cb : option AudioIODeviceCallback)
  (d : CoreAudioInternal) :
  started d = false ->
  deviceID d = 0 \/ os_AddIOProc (os (deviceID d) now) = false
  \/ os_Start (os (deviceID d) now) = false ->
  start os now cb d = (set_callback None d, false).
Proof.
  intros Hst Hno.
  assert (Hl : startLocal os now cb d = set_callback None d).
  { unfold startLocal. rewrite Hst. cbn [negb deviceID set_callback].
    assert (Hc : negb (deviceID d =? 0) && os_AddIOProc (os (deviceID d) now)
                 && os_Start (os (deviceID d) now) = false).
    { destruct Hno as [H | [H | H]]; rewrite H; cbn;
        rewrite ?andb_false_r; reflexivity. }
    rewrite Hc. cbn [started set_callback]. rewrite Hst. reflexivity. }
  rewrite start_unfold, Hl. cbn [started set_callback]. rewrite Hst.
  destruct (inputDevice d); reflexivity.
Qed.

(** X6 (start): on a device that is not started and that has the id 0, or
    whose I/O proc the OS refuses to add or to start, [start] returns
    [false], leaves the device not started and without client (a client
    bound before is unbound), and does not start the slave. *)
Theorem start_refused (os : OS) (now : nat) (cb : option AudioIODeviceCallback)
  (d : CoreAudioInternal) :
  started d = false ->
  deviceID d = 0 \/ os_AddIOProc (os (deviceID d) now) = false
  \/ os_Start (os (deviceID d) now) = false ->
  start os now cb d = (set_callback None d, false).
Proof. apply start_refused_aux. Qed.

Lemma start_refused_witness :
  start stereoOS 0 (Some passThrough) (initialCore 0)
  = (set_callback None (initialCore 0), false).
Proof.
  apply (start_refused stereoOS 0%nat (Some passThrough) (initialCore 0)).
  - reflexivity.
  - left. reflexivity.
Defined.

(** ** The lists of buffer sizes and sample rates after a refresh *)

(** The lists that a refresh of a device with an id other than 0 leaves
    are those built from the answers of the OS and from the rate and the
    size that the device has after the refresh. *)
Lemma updateDetailsFromDevice_lists (v : OSView) (d d' : CoreAudioInternal) :
  updateDetailsFromDevice v d = Some d' -> deviceID d <> 0 ->
  buildBufferSizes (os_BufferFrameSizeRange v) (bufferSize d')
  = Some (bufferSizes d')
  /\ sampleRates d'
     = buildSampleRates (os_AvailableNominalSampleRates v) (sampleRate d').
Proof.
  unfold updateDetailsFromDevice. cbn [deviceID set_timerRunning].
  intros H Hid. destruct (Z.eqb_spec (deviceID d) 0) as [| _]; [contradiction |].
  revert H.
  destruct (match os_BufferFrameSize v with
            | Some framesPerBuf => _
            | None => _
            end) as [d2 |]; [| discriminate].
  cbn [mbind option_bind].
  destruct (buildBufferSizes _ _) as [sizes |] eqn:Hsizes; [| discriminate].
  cbn [mbind option_bind].
  match goal with
  | |- (fillInChannelInfo v true ?x ≫= _) = _ -> _ => set (d3 := x)
  end.
  assert (H3 : bufferSize d3 = bufferSize d2 /\ bufferSizes d3 = sizes
               /\ sampleRate d3 = sampleRate d2
               /\ sampleRates d3
                  = buildSampleRates (os_AvailableNominalSampleRates v)
                      (sampleRate d2))
    by (repeat split; reflexivity).
  clearbody d3. destruct H3 as (Hbs & Hbss & Hsr & Hsrs).
  destruct (fillInChannelInfo v true d3) as [d4 |] eqn:H4; [| discriminate].
  cbn [mbind option_bind]. intros H5.
  destruct (fillInChannelInfo_frame _ _ _ _ H4)
    as (_ & Hsr4 & Hbs4 & Hsrs4 & Hbss4 & _).
  destruct (fillInChannelInfo_frame _ _ _ _ H5)
    as (_ & Hsr5 & Hbs5 & Hsrs5 & Hbss5 & _).
  split.
  - rewrite Hbs5, Hbs4, Hbs, Hbss5, Hbss4, Hbss. exact Hsizes.
  - rewrite Hsrs5, Hsrs4, Hsrs, Hsr5, Hsr4, Hsr. reflexivity.
Qed.

Lemma existsb_eqb_In (x : Z) (a : list Z) :
  existsb (Z.eqb x) a = true <-> In x a.
Proof.
  rewrite existsb_exists. split.
  - intros (y & Hy & He). apply Z.eqb_eq in He. subst y. exact Hy.
  - intros H. exists x. split; [exact H | apply Z.eqb_refl].
Qed.

Lemma addIfNotAlreadyThere_In (x y : Z) (a : list Z) :
  In y (addIfNotAlreadyThere x a) <-> In y a \/ y = x.
Proof.
  unfold addIfNotAlreadyThere, Array_add.
  destruct (existsb (Z.eqb x) a) eqn:He.
  - apply existsb_eqb_In in He. split; [tauto |]. intros [H | ->]; assumption.
  - rewrite in_app_iff. cbn [In]. intuition congruence.
Qed.

Lemma addIfNotAlreadyThere_NoDup (x : Z) (a : list Z) :
  NoDup a -> NoDup (addIfNotAlreadyThere x a).
Proof.
  intros Ha. unfold addIfNotAlreadyThere, Array_add.
  destruct (existsb (Z.eqb x) a) eqn:He; [exact Ha |].
  apply NoDup_app. split; [exact Ha |]. split.
  - intros y Hy Hx. apply list_elem_of_singleton in Hx. subst y.
    apply list_elem_of_In, existsb_eqb_In in Hy. congruence.
  - apply NoDup_singleton.
Qed.

Lemma inAnyRange_true (i : Z) (ranges : list (Q * Q)) :
  inAnyRange i ranges = true <-> exists r, In r ranges /\ inRange i r = true.
Proof.
  unfold inAnyRange. rewrite existsb_exists. split.
  - intros (r & Hr & Hi). exists r. split; [apply in_rev; exact Hr | exact Hi].
  - intros (r & Hr & Hi). exists r. split; [apply in_rev in Hr; exact Hr | exact Hi].
Qed.

(** The loop over the grid, on any part [grid] of it. *)
Lemma addGrid_fold (ranges : list (Q * Q)) (grid : list Z) :
  forall sizes : list Z,
    NoDup sizes ->
    NoDup (fold_left
             (fun acc i => if inAnyRange i ranges
                           then addIfNotAlreadyThere i acc else acc)
             grid sizes)
    /\ forall y,
         In y (fold_left
                 (fun acc i => if inAnyRange i ranges
                               then addIfNotAlreadyThere i acc else acc)
                 grid sizes)
         <-> In y sizes \/ (In y grid /\ inAnyRange y ranges = true).
Proof.
  induction grid as [| g grid IH]; intros sizes Hnd; cbn [fold_left].
  - split; [exact Hnd |]. intros y. cbn [In]. tauto.
  - destruct (inAnyRange g ranges) eqn:Hg.
    + destruct (IH _ (addIfNotAlreadyThere_NoDup g sizes Hnd)) as [H1 H2].
      split; [exact H1 |]. intros y. rewrite H2, addIfNotAlreadyThere_In.
      cbn [In]. split.
      * intros [[H | ->] | H]; [tauto | | tauto]. right. split; [left; reflexivity | exact Hg].
      * intros [H | [[<- | H] Hy]]; tauto.
    + destruct (IH _ Hnd) as [H1 H2]. split; [exact H1 |].
      intros y. rewrite H2. cbn [In]. split; [tauto |].
      intros [H | [[<- | H] Hy]]; [tauto | congruence | tauto].
Qed.

Lemma bufferSizeGrid_In (y : Z) :
  In y bufferSizeGrid <-> exists k, 1 <= k <= 255 /\ y = 32 * k.
Proof.
  unfold bufferSizeGrid. rewrite in_map_iff. split.
  - intros (k & <- & Hk). apply in_seq in Hk. exists (Z.of_nat k). lia.
  - intros (k & Hk & ->). exists (Z.to_nat k). split; [lia |].
    apply in_seq. lia.
Qed.

(** The sizes that [buildBufferSizes] lists. *)
Lemma buildBufferSizes_spec (ranges : option (list (Q * Q))) (bufferSize : Z)
  (sizes : list Z) :
  buildBufferSizes ranges bufferSize = Some sizes ->
  NoDup sizes
  /\ (0 < bufferSize -> In bufferSize sizes)
  /\ (forall r0 rs, ranges = Some (r0 :: rs) ->
        forall x, In x sizes
                  <-> x = Q_to_int (fst r0)
                      \/ (0 < bufferSize /\ x = bufferSize)
                      \/ exists k, 1 <= k <= 255 /\ x = 32 * k
                           /\ exists r, In r (r0 :: rs) /\ inRange x r = true)
  /\ (ranges = None -> sizes = if 0 <? bufferSize then [bufferSize] else []).
Proof.
  unfold buildBufferSizes. destruct ranges as [[| r0 rs] |]; cbn [head mbind option_bind].
  - discriminate.
  - unfold addGridSizes, Array_add. cbn [app].
    destruct (addGrid_fold (r0 :: rs) bufferSizeGrid [Q_to_int (fst r0)])
      as [Hnd Hin]; [apply NoDup_singleton |].
    set (grid := fold_left _ bufferSizeGrid [Q_to_int (fst r0)]) in *.
    assert (Hchar : forall x, In x grid
              <-> x = Q_to_int (fst r0)
                  \/ exists k, 1 <= k <= 255 /\ x = 32 * k
                       /\ exists r, In r (r0 :: rs) /\ inRange x r = true).
    { intros x. rewrite Hin. cbn [In]. rewrite bufferSizeGrid_In, inAnyRange_true.
      split.
      - intros [[<- | []] | [(k & Hk & ->) Hr]]; [left; reflexivity |].
        right. exists k. tauto.
      - intros [-> | (k & Hk & -> & Hr)]; [left; left; reflexivity |].
        right. split; [exists k; tauto | exact Hr]. }
    assert (Hne : grid <> []).
    { intros He. specialize (Hchar (Q_to_int (fst r0))). rewrite He in Hchar.
      cbn [In] in Hchar. tauto. }
    destruct (Z.ltb_spec 0 bufferSize) as [Hpos | Hnpos].
    + assert (Hlen : (Z.of_nat (length (addIfNotAlreadyThere bufferSize grid)) =? 0)
                     = false).
      { apply Z.eqb_neq. intros Hl.
        assert (Hl' : length (addIfNotAlreadyThere bufferSize grid) = O) by lia.
        apply length_zero_iff_nil in Hl'.
        assert (In bufferSize (addIfNotAlreadyThere bufferSize grid))
          by (apply addIfNotAlreadyThere_In; right; reflexivity).
        rewrite Hl' in H. exact H. }
      rewrite Hlen. cbn [andb]. intros H. injection H as <-.
      split; [apply addIfNotAlreadyThere_NoDup; exact Hnd |].
      split; [intros _; apply addIfNotAlreadyThere_In; right; reflexivity |].
      split; [| discriminate].
      intros r0' rs' Heq x. injection Heq as <- <-.
      rewrite addIfNotAlreadyThere_In, Hchar. split.
      * intros [[H | H] | H]; [tauto | tauto |]. right. left. tauto.
      * intros [H | [[_ H] | H]]; tauto.
    + rewrite andb_false_r. intros H. injection H as <-.
      split; [exact Hnd |]. split; [lia |]. split; [| discriminate].
      intros r0' rs' Heq x. injection Heq as <- <-. rewrite Hchar.
      split; [tauto |]. intros [H | [[H _] | H]]; [tauto | lia | tauto].
  - cbn [length Z.of_nat Z.eqb andb]. unfold Array_add. cbn [app].
    destruct (Z.ltb_spec 0 bufferSize) as [Hpos | Hnpos];
      intros H; injection H as <-.
    + split; [apply NoDup_singleton |]. split; [intros _; left; reflexivity |].
      split; [discriminate | reflexivity].
    + split; [apply NoDup_nil; exact I |]. split; [lia |].
      split; [discriminate | reflexivity].
Qed.

Lemma Q_to_int_in_range (x : Q) :
  - 2 ^ 31 <= Q_truncate x < 2 ^ 31 -> Q_to_int x = Q_truncate x.
Proof.
  intros H. unfold Q_to_int, int_bits. cbv zeta.
  change (2 ^ (32 - 1)) with (2 ^ 31).
  destruct (Z.leb_spec (- 2 ^ 31) (Q_truncate x)); [| lia].
  destruct (Z.ltb_spec (Q_truncate x) (2 ^ 31)); [reflexivity | lia].
Qed.

(** X7 (updateDetailsFromDevice): after a refresh of a device with an id
    other than 0 the list of buffer sizes has no duplicates and holds the
    current buffer size whenever that is positive.  When the OS gives
    ranges and the minimum of the first range, truncated towards zero, is
    in the [int] range, the list holds exactly that truncated minimum, the
    current size if positive, and the multiples of 32 from 32 to 8160 that
    lie in one of the ranges; when the ranges cannot be read it holds the
    current size alone. *)
Theorem updateDetailsFromDevice_bufferSizes (v : OSView)
  (d d' : CoreAudioInternal) :
  updateDetailsFromDevice v d = Some d' -> deviceID d <> 0 ->
  NoDup (bufferSizes d')
  /\ (0 < bufferSize d' -> In (bufferSize d') (bufferSizes d'))
  /\ (forall r0 rs, os_BufferFrameSizeRange v = Some (r0 :: rs) ->
        - 2 ^ 31 <= Q_truncate (fst r0) < 2 ^ 31 ->
        forall x, In x (bufferSizes d')
                  <-> x = Q_truncate (fst r0)
                      \/ (0 < bufferSize d' /\ x = bufferSize d')
                      \/ exists k, 1 <= k <= 255 /\ x = 32 * k
                           /\ exists r, In r (r0 :: rs) /\ inRange x r = true)
  /\ (os_BufferFrameSizeRange v = None ->
      bufferSizes d' = if 0 <? bufferSize d' then [bufferSize d'] else []).
Proof.
  intros H Hid. destruct (updateDetailsFromDevice_lists v d d' H Hid) as [Hb _].
  destruct (buildBufferSizes_spec _ _ _ Hb) as (Hnd & Hcur & Hranges & Hnone).
  split; [exact Hnd |]. split; [exact Hcur |]. split; [| exact Hnone].
  intros r0 rs Hrs Hfit x. rewrite (Hranges r0 rs Hrs x).
  rewrite (Q_to_int_in_range _ Hfit). reflexivity.
Qed.

Lemma twoRangeCore_refreshed :
  updateDetailsFromDevice twoRangeView (initialCore 1) = Some twoRangeCore.
Proof. vm_compute. reflexivity. Qed.

Lemma updateDetailsFromDevice_bufferSizes_witness :
  updateDetailsFromDevice twoRangeView (initialCore 1) = Some twoRangeCore
  /\ NoDup (bufferSizes twoRangeCore)
  /\ (0 < bufferSize twoRangeCore ->
      In (bufferSize twoRangeCore) (bufferSizes twoRangeCore))
  /\ (In 512 (bufferSizes twoRangeCore)
      <-> 512 = Q_truncate (2048 # 1)
          \/ (0 < bufferSize twoRangeCore /\ 512 = bufferSize twoRangeCore)
          \/ exists k, 1 <= k <= 255 /\ 512 = 32 * k
               /\ exists r, In r [((2048 # 1)%Q, (2048 # 1)%Q);
                                   ((512 # 1)%Q, (512 # 1)%Q)]
                            /\ inRange 512 r = true).
Proof.
  split; [exact twoRangeCore_refreshed |].
  destruct (updateDetailsFromDevice_bufferSizes twoRangeView (initialCore 1)
              twoRangeCore twoRangeCore_refreshed) as (Hnd & Hin & Hranges & _).
  - cbn. lia.
  - split; [exact Hnd |]. split; [exact Hin |].
    apply (Hranges ((2048 # 1)%Q, (2048 # 1)%Q) [((512 # 1)%Q, (512 # 1)%Q)]).
    + reflexivity.
    + vm_compute. split; [discriminate | reflexivity].
Defined.

Lemma rateInRange_true (rate : Q) (r : Q * Q) :
  rateInRange rate r = true <-> (fst r - 2 <= rate <= snd r + 2)%Q.
Proof.
  unfold rateInRange. rewrite andb_true_iff, !Qle_bool_iff. reflexivity.
Qed.

Lemma Qle_bool_false (x y : Q) : Qle_bool x y = false <-> (y < x)%Q.
Proof.
  split.
  - intros H. apply Qnot_le_lt. intros Hle. apply Qle_bool_iff in Hle. congruence.
  - intros H. destruct (Qle_bool x y) eqn:He; [| reflexivity].
    apply Qle_bool_iff in He. apply Qlt_not_le in H. contradiction.
Qed.

(** The rates that [buildSampleRates] lists. *)
Lemma buildSampleRates_spec (ranges : option (list (Q * Q))) (sampleRate : Q) :
  (forall x, In x (buildSampleRates ranges sampleRate) ->
     (In x possibleRates
      /\ exists rs r, ranges = Some rs /\ In r rs
                      /\ (fst r - 2 <= x <= snd r + 2)%Q)
     \/ (buildSampleRates ranges sampleRate = [sampleRate]
         /\ x = sampleRate /\ (0 < sampleRate)%Q))
  /\ (forall rs x r, ranges = Some rs -> In x possibleRates -> In r rs ->
        (fst r - 2 <= x <= snd r + 2)%Q ->
        In x (buildSampleRates ranges sampleRate))
  /\ ((0 < sampleRate)%Q -> buildSampleRates ranges sampleRate <> []).
Proof.
  unfold buildSampleRates.
  set (rates := match ranges with
                | Some rs => filter _ possibleRates
                | None => []
                end).
  assert (Hrates : forall x, In x rates
            <-> In x possibleRates
                /\ exists rs r, ranges = Some rs /\ In r rs
                                /\ (fst r - 2 <= x <= snd r + 2)%Q).
  { intros x. subst rates. destruct ranges as [rs |].
    - rewrite <- list_elem_of_In, list_elem_of_filter, list_elem_of_In.
      rewrite existsb_exists. split.
      + intros [(r & Hr & Hin) Hx]. split; [exact Hx |].
        exists rs, r. split; [reflexivity |].
        split; [apply in_rev; exact Hr | apply rateInRange_true; exact Hin].
      + intros [Hx (rs' & r & Heq & Hr & Hin)]. injection Heq as <-.
        split; [| exact Hx]. exists r.
        split; [apply in_rev in Hr; exact Hr | apply rateInRange_true; exact Hin].
    - cbn [In]. split; [tauto |]. intros [_ (rs & r & Heq & _)]. discriminate. }
  clearbody rates.
  destruct rates as [| r0 rates'].
  - cbn [length Z.of_nat Z.eqb andb]. unfold Array_add. cbn [app].
    destruct (Qle_bool sampleRate 0) eqn:Hle; cbn [negb].
    + split; [intros x []|]. split.
      * intros rs x r H1 H2 H3 H4. apply (Hrates x). eauto 6.
      * intros Hpos. apply Qle_bool_iff in Hle. apply Qlt_not_le in Hpos.
        contradiction.
    + apply Qle_bool_false in Hle. split.
      * intros x [<- | []]. right. auto.
      * split; [| discriminate].
        intros rs x r H1 H2 H3 H4. exfalso. apply (Hrates x). eauto 6.
  - replace (Z.of_nat (length (r0 :: rates')) =? 0) with false
      by (symmetry; apply Z.eqb_neq; cbn [length]; lia).
    cbn [andb]. split.
    + intros x Hx. left. apply Hrates. exact Hx.
    + split; [| discriminate].
      intros rs x r H1 H2 H3 H4. apply Hrates. eauto 6.
Qed.

(** X8 (updateDetailsFromDevice): after a refresh of a device with an id
    other than 0, the list of sample rates holds exactly the rates of
    44100, 48000, 88200, 96000, 176400 and 192000 that lie within 2 Hz of
    one of the ranges of the OS; only when there is no such rate (or the
    ranges cannot be read) and the current rate is positive does it hold
    the current rate alone.  So the list is not empty when the current
    rate is positive. *)
Theorem updateDetailsFromDevice_sampleRates (v : OSView)
  (d d' : CoreAudioInternal) :
  updateDetailsFromDevice v d = Some d' -> deviceID d <> 0 ->
  (forall x, In x (sampleRates d') ->
     (In x possibleRates
      /\ exists rs r, os_AvailableNominalSampleRates v = Some rs /\ In r rs
                      /\ (fst r - 2 <= x <= snd r + 2)%Q)
     \/ (sampleRates d' = [sampleRate d'] /\ x = sampleRate d'
         /\ (0 < sampleRate d')%Q))
  /\ (forall rs x r, os_AvailableNominalSampleRates v = Some rs ->
        In x possibleRates -> In r rs -> (fst r - 2 <= x <= snd r + 2)%Q ->
        In x (sampleRates d'))
  /\ ((0 < sampleRate d')%Q -> sampleRates d' <> []).
Proof.
  intros H Hid. destruct (updateDetailsFromDevice_lists v d d' H Hid) as [_ ->].
  apply buildSampleRates_spec.
Qed.

Lemma updateDetailsFromDevice_sampleRates_witness :
  updateDetailsFromDevice twoRangeView (initialCore 1) = Some twoRangeCore
  /\ ((0 < sampleRate twoRangeCore)%Q -> sampleRates twoRangeCore <> []).
Proof.
  split; [exact twoRangeCore_refreshed |].
  destruct (updateDetailsFromDevice_sampleRates twoRangeView (initialCore 1)
              twoRangeCore twoRangeCore_refreshed) as (_ & _ & Hne).
  - cbn. lia.
  - exact Hne.
Defined.

(** ** The channel names after a refresh *)

Lemma channelNames_app (prefix : string) (first n1 n2 : Z) :
  0 <= n1 -> 0 <= n2 ->
  channelNames prefix first (n1 + n2)
  = (channelNames prefix first n1 ++ channelNames prefix (first + n1) n2)%list.
Proof.
  intros H1 H2. unfold channelNames. rewrite seqZ_app by assumption.
  apply map_app.
Qed.

Lemma channelNames_one (prefix : string) (first : Z) :
  channelNames prefix first 1 = [prefix +:+ pretty first].
Proof. reflexivity. Qed.

Lemma channelNames_zero (prefix : string) (first : Z) :
  channelNames prefix first 0 = [].
Proof. reflexivity. Qed.

Lemma fillOneChannel_names (input : bool) (i j nch : Z)
  (st st' : Z * Z * CoreAudioInternal) :
  fillOneChannel input i j nch st = Some st' ->
  fst (fst st') = fst (fst st) + 1
  /\ inChanNames (snd st')
     = (if input
        then (inChanNames (snd st)
              ++ channelNames "input " (fst (fst st) + 1) 1)%list
        else inChanNames (snd st))
  /\ outChanNames (snd st')
     = (if input then outChanNames (snd st)
        else (outChanNames (snd st)
              ++ channelNames "output " (fst (fst st) + 1) 1)%list).
Proof.
  destruct st as [[chanNum activeChans] d]. unfold fillOneChannel.
  rewrite !channelNames_one. cbn [fst snd]. destruct input.
  - destruct (BitArray_get (activeInputChans d) chanNum).
    + destruct (arr_set (inputChannelInfo d) activeChans _); [| discriminate].
      cbn [mbind option_bind]. intros H. injection H as <-.
      repeat split; reflexivity.
    + cbn [mbind option_bind]. intros H. injection H as <-.
      repeat split; reflexivity.
  - destruct (BitArray_get (activeOutputChans d) chanNum).
    + destruct (arr_set (outputChannelInfo d) activeChans _); [| discriminate].
      cbn [mbind option_bind]. intros H. injection H as <-.
      repeat split; reflexivity.
    + cbn [mbind option_bind]. intros H. injection H as <-.
      repeat split; reflexivity.
Qed.

Lemma fillStream_names (input : bool) (i nch : Z) (n : nat) :
  forall (j : Z) (st st' : Z * Z * CoreAudioInternal),
    fillStream input i nch n j st = Some st' ->
    fst (fst st') = fst (fst st) + Z.of_nat n
    /\ inChanNames (snd st')
       = (if input
          then (inChanNames (snd st)
                ++ channelNames "input " (fst (fst st) + 1) (Z.of_nat n))%list
          else inChanNames (snd st))
    /\ outChanNames (snd st')
       = (if input then outChanNames (snd st)
          else (outChanNames (snd st)
                ++ channelNames "output " (fst (fst st) + 1) (Z.of_nat n))%list).
Proof.
  induction n as [| n IH]; intros j st st'; cbn [fillStream].
  - intros H. injection H as <-. rewrite !channelNames_zero, !app_nil_r.
    split; [cbn; lia |]. destruct input; split; reflexivity.
  - destruct (fillOneChannel input i j nch st) as [st1 |] eqn:H1; [| discriminate].
    cbn [mbind option_bind]. intros H.
    destruct (fillOneChannel_names _ _ _ _ _ _ H1) as (Hc1 & Hi1 & Ho1).
    destruct (IH _ _ _ H) as (Hc & Hi & Ho).
    split; [lia |]. rewrite Hi, Ho, Hi1, Ho1, Hc1.
    replace (Z.of_nat (S n)) with (1 + Z.of_nat n) by lia.
    rewrite !channelNames_app by lia.
    destruct input; rewrite <- ?app_assoc; split; reflexivity.
Qed.

Lemma totalChannels_cons (nch : Z) (rest : list Z) :
  totalChannels (nch :: rest) = Z.of_nat (Z.to_nat nch) + totalChannels rest.
Proof. reflexivity. Qed.

Lemma fillStreams_names (input : bool) (streams : list Z) :
  forall (i : Z) (st st' : Z * Z * CoreAudioInternal),
    fillStreams input streams i st = Some st' ->
    fst (fst st') = fst (fst st) + totalChannels streams
    /\ inChanNames (snd st')
       = (if input
          then (inChanNames (snd st)
                ++ channelNames "input " (fst (fst st) + 1)
                     (totalChannels streams))%list
          else inChanNames (snd st))
    /\ outChanNames (snd st')
       = (if input then outChanNames (snd st)
          else (outChanNames (snd st)
                ++ channelNames "output " (fst (fst st) + 1)
                     (totalChannels streams))%list).
Proof.
  induction streams as [| nch rest IH]; intros i st st'; cbn [fillStreams].
  - intros H. injection H as <-.
    change (totalChannels []) with 0. rewrite !channelNames_zero, !app_nil_r.
    split; [lia |]. destruct input; split; reflexivity.
  - destruct (fillStream input i nch (Z.to_nat nch) 0 st) as [st1 |] eqn:H1;
      [| discriminate].
    cbn [mbind option_bind]. intros H.
    destruct (fillStream_names _ _ _ _ _ _ _ H1) as (Hc1 & Hi1 & Ho1).
    destruct (IH _ _ _ H) as (Hc & Hi & Ho).
    rewrite totalChannels_cons. pose proof (totalChannels_nonneg rest) as Hnn.
    split; [lia |]. rewrite Hi, Ho, Hi1, Ho1, Hc1.
    rewrite !channelNames_app by lia.
    replace (fst (fst st) + Z.of_nat (Z.to_nat nch) + 1)
      with (fst (fst st) + 1 + Z.of_nat (Z.to_nat nch)) by lia.
    destruct input; rewrite <- ?app_assoc; split; reflexivity.
Qed.

Lemma fillInChannelInfo_names (v : OSView) (input : bool)
  (d d' : CoreAudioInternal) :
  fillInChannelInfo v input d = Some d' ->
  inChanNames d'
  = (if input
     then (inChanNames d
           ++ namesOfConfiguration "input " (os_StreamConfiguration v true))%list
     else inChanNames d)
  /\ outChanNames d'
     = (if input then outChanNames d
        else (outChanNames d
              ++ namesOfConfiguration "output "
                   (os_StreamConfiguration v false))%list).
Proof.
  unfold fillInChannelInfo, namesOfConfiguration.
  destruct input.
  - destruct (os_StreamConfiguration v true) as [streams |].
    + destruct (fillStreams true streams 0 (0, 0, d)) as [[[c a] d1] |] eqn:H1;
        [| discriminate].
      cbn [mbind option_bind]. intros H. injection H as <-.
      destruct (fillStreams_names _ _ _ _ _ H1) as (_ & Hi & Ho).
      cbn [fst snd] in Hi, Ho. split; assumption.
    + intros H. injection H as <-. rewrite app_nil_r. split; reflexivity.
  - destruct (os_StreamConfiguration v false) as [streams |].
    + destruct (fillStreams false streams 0 (0, 0, d)) as [[[c a] d1] |] eqn:H1;
        [| discriminate].
      cbn [mbind option_bind]. intros H. injection H as <-.
      destruct (fillStreams_names _ _ _ _ _ H1) as (_ & Hi & Ho).
      cbn [fst snd] in Hi, Ho. split; assumption.
    + intros H. injection H as <-. rewrite app_nil_r. split; reflexivity.
Qed.

Lemma updateDetailsFromDevice_names (v : OSView) (d d' : CoreAudioInternal) :
  updateDetailsFromDevice v d = Some d' -> deviceID d <> 0 ->
  inChanNames d' = namesOfConfiguration "input " (os_StreamConfiguration v true)
  /\ outChanNames d'
     = namesOfConfiguration "output " (os_StreamConfiguration v false).
Proof.
  unfold updateDetailsFromDevice. cbn [deviceID set_timerRunning].
  intros H Hid. destruct (Z.eqb_spec (deviceID d) 0) as [| _]; [contradiction |].
  revert H.
  destruct (match os_BufferFrameSize v with
            | Some framesPerBuf => _
            | None => _
            end) as [d2 |]; [| discriminate].
  cbn [mbind option_bind].
  destruct (buildBufferSizes _ _) as [sizes |]; [| discriminate].
  cbn [mbind option_bind].
  match goal with
  | |- (fillInChannelInfo v true ?x ≫= _) = _ -> _ => set (d3 := x)
  end.
  assert (H3 : inChanNames d3 = [] /\ outChanNames d3 = [])
    by (split; reflexivity).
  clearbody d3. destruct H3 as (Hi3 & Ho3).
  destruct (fillInChannelInfo v true d3) as [d4 |] eqn:H4; [| discriminate].
  cbn [mbind option_bind]. intros H5.
  destruct (fillInChannelInfo_names _ _ _ _ H4) as (Hi4 & Ho4).
  destruct (fillInChannelInfo_names _ _ _ _ H5) as (Hi5 & Ho5).
  rewrite Hi5, Hi4, Hi3, Ho5, Ho4, Ho3. split; reflexivity.
Qed.

(** X9 (fillInChannelInfo, updateDetailsFromDevice): after a refresh of a
    device with an id other than 0 the input channels are named
    ["input 1"], ["input 2"], ... and the output channels ["output 1"],
    ["output 2"], ...: one name for every channel of every stream of the
    configuration that the OS gives for the direction, whatever the masks
    of active channels are, and no name when the configuration cannot be
    read. *)
Theorem updateDetailsFromDevice_channel_names (v : OSView)
  (d d' : CoreAudioInternal) :
  updateDetailsFromDevice v d = Some d' -> deviceID d <> 0 ->
  inChanNames d' = namesOfConfiguration "input " (os_StreamConfiguration v true)
  /\ outChanNames d'
     = namesOfConfiguration "output " (os_StreamConfiguration v false)
  /\ (forall streams k,
        os_StreamConfiguration v true = Some streams ->
        0 <= k < totalChannels streams ->
        arr_get (inChanNames d') k = Some ("input " +:+ pretty (k + 1)))
  /\ (forall streams,
        os_StreamConfiguration v true = Some streams ->
        Z.of_nat (length (inChanNames d')) = totalChannels streams).
Proof.
  intros H Hid. destruct (updateDetailsFromDevice_names v d d' H Hid) as [Hi Ho].
  split; [exact Hi |]. split; [exact Ho |].
  rewrite Hi. split.
  - intros streams k -> Hk. unfold namesOfConfiguration, channelNames.
    apply arr_get_Some. split; [lia |].
    rewrite list_lookup_fmap, lookup_seqZ_lt by lia. cbn.
    do 3 f_equal. lia.
  - intros streams ->. unfold namesOfConfiguration, channelNames.
    rewrite length_map, length_seqZ. pose proof (totalChannels_nonneg streams).
    lia.
Qed.

Lemma updateDetailsFromDevice_channel_names_witness :
  updateDetailsFromDevice stereoView (initialCore 1) = Some stereoCore
  /\ inChanNames stereoCore
     = namesOfConfiguration "input " (os_StreamConfiguration stereoView true).
Proof.
  assert (H : updateDetailsFromDevice stereoView (initialCore 1) = Some stereoCore)
    by (vm_compute; reflexivity).
  split; [exact H |].
  destruct (updateDetailsFromDevice_channel_names stereoView (initialCore 1)
              stereoCore H) as (Hi & _).
  - cbn. lia.
  - exact Hi.
Defined.

(** ** The routing tables after a refresh *)

Lemma routeInv_skip (streams : list Z) (mask c a : Z)
  (tbl : list CallbackDetailsForChannel) :
  routeInv streams mask c a tbl -> BitArray_get mask c = false ->
  routeInv streams mask (c + 1) a tbl.
Proof.
  intros (Hac & Hwell & Htail & Hmono & Hall) Hbit.
  split; [lia |]. split.
  { intros k info Hk Hget. destruct (Hwell k info Hk Hget) as (H1 & H2 & H3).
    split; [exact H1 |]. split; [lia | exact H3]. }
  split; [exact Htail |]. split; [exact Hmono |].
  intros c' Hc' Hb. apply Hall; [| exact Hb].
  assert (c' <> c) by (intros ->; congruence). lia.
Qed.

Lemma routeInv_add (streams : list Z) (mask c a : Z)
  (tbl tbl' : list CallbackDetailsForChannel)
  (info : CallbackDetailsForChannel) :
  routeInv streams mask c a tbl -> arr_set tbl a info = Some tbl' ->
  sourceChannelNum info = c -> dataStrideSamples info <> 0 ->
  wellRouted streams mask a info ->
  routeInv streams mask (c + 1) (a + 1) tbl'.
Proof.
  intros (Hac & Hwell & Htail & Hmono & Hall) Hset Hsrc Hstride Hinfo.
  pose proof (arr_get_set_eq _ _ _ _ Hset) as Hnew.
  assert (Hold : forall k, k <> a -> arr_get tbl' k = arr_get tbl k).
  { intros k Hk. apply (arr_get_set_ne _ _ _ _ _ Hset). lia. }
  split; [lia |]. split.
  { intros k i Hk Hget. destruct (Z.eq_dec k a) as [-> | Hne].
    - rewrite Hnew in Hget. injection Hget as <-.
      split; [exact Hinfo |]. split; [lia | exact Hstride].
    - rewrite Hold in Hget by exact Hne.
      destruct (Hwell k i ltac:(lia) Hget) as (H1 & H2 & H3).
      split; [exact H1 |]. split; [lia | exact H3]. }
  split.
  { intros k i Hk Hget. rewrite Hold in Hget by lia.
    apply (Htail k i); [lia | exact Hget]. }
  split.
  { intros k1 k2 i1 i2 Hk1 Hk2 Hg1 Hg2.
    rewrite Hold in Hg1 by lia.
    destruct (Z.eq_dec k2 a) as [-> | Hne].
    - rewrite Hnew in Hg2. injection Hg2 as <-.
      destruct (Hwell k1 i1 ltac:(lia) Hg1) as (_ & H2 & _). lia.
    - rewrite Hold in Hg2 by exact Hne.
      apply (Hmono k1 k2 i1 i2); [lia | lia | exact Hg1 | exact Hg2]. }
  intros c' Hc' Hb. destruct (Z.eq_dec c' c) as [-> | Hne].
  - exists a, info. split; [lia |]. split; [exact Hnew | exact Hsrc].
  - destruct (Hall c' ltac:(lia) Hb) as (k & i & Hk & Hget & Hs).
    exists k, i. split; [lia |]. split; [| exact Hs].
    rewrite Hold by lia. exact Hget.
Qed.

Lemma totalChannels_app (pre post : list Z) :
  totalChannels (pre ++ post) = totalChannels pre + totalChannels post.
Proof.
  induction pre as [| x pre IH]; [reflexivity |].
  change ((x :: pre) ++ post)%list with (x :: (pre ++ post))%list.
  rewrite !totalChannels_cons, IH. lia.
Qed.

Lemma channelsBefore_middle (pre post : list Z) (nch : Z) :
  channelsBefore (pre ++ nch :: post) (Z.of_nat (length pre)) = totalChannels pre.
Proof.
  unfold channelsBefore. rewrite Nat2Z.id, take_app_length. reflexivity.
Qed.

Lemma arr_get_middle {A : Type} (pre post : list A) (x : A) :
  arr_get (pre ++ x :: post) (Z.of_nat (length pre)) = Some x.
Proof.
  apply arr_get_Some. split; [lia |]. rewrite Nat2Z.id.
  apply list_lookup_middle. reflexivity.
Qed.

(** The entry that the loop writes for channel [j] of the stream that
    follows the streams [pre]. *)
Lemma newEntry_wellRouted (pre post : list Z) (nch j mask c a : Z) :
  0 <= j < nch -> nch < 2 ^ 31 -> c = totalChannels pre + j -> a <= c ->
  BitArray_get mask c = true ->
  wellRouted (pre ++ nch :: post) mask a
    (mkInfo c (Z.of_nat (length pre)) (to_int j) (to_int nch))
  /\ dataStrideSamples (mkInfo c (Z.of_nat (length pre)) (to_int j) (to_int nch))
     <> 0.
Proof.
  intros Hj Hn Hc Ha Hbit.
  rewrite (to_int_small j), (to_int_small nch) by lia.
  cbn [dataStrideSamples]. split; [| lia].
  split; [exact Hbit |]. split; [exact Ha |].
  exists nch. cbn [streamNum dataStrideSamples dataOffsetSamples sourceChannelNum].
  rewrite arr_get_middle, channelsBefore_middle. auto.
Qed.

Lemma fillOneChannel_route (input : bool) (pre post : list Z) (nch j : Z)
  (st st' : Z * Z * CoreAudioInternal) :
  0 <= j < nch -> nch < 2 ^ 31 ->
  fst (fst st) = totalChannels pre + j ->
  fillOneChannel input (Z.of_nat (length pre)) j nch st = Some st' ->
  routeInv (pre ++ nch :: post) (activeChans input (snd st))
    (fst (fst st)) (snd (fst st)) (infoTable input (snd st)) ->
  routeInv (pre ++ nch :: post) (activeChans input (snd st'))
    (fst (fst st')) (snd (fst st')) (infoTable input (snd st'))
  /\ activeChans input (snd st') = activeChans input (snd st)
  /\ infoTable (negb input) (snd st') = infoTable (negb input) (snd st).
Proof.
  destruct st as [[c a] d]. cbn [fst snd]. intros Hj Hn Hc Hrun Hinv.
  assert (Hac : a <= c) by (destruct Hinv as [? _]; lia).
  unfold fillOneChannel in Hrun. destruct input; cbn [activeChans infoTable negb] in *.
  - destruct (BitArray_get (activeInputChans d) c) eqn:Hbit.
    + destruct (arr_set (inputChannelInfo d) a _) as [tbl |] eqn:Hset;
        [| discriminate].
      cbn [mbind option_bind] in Hrun. injection Hrun as <-. cbn [fst snd].
      split; [| split; reflexivity].
      destruct (newEntry_wellRouted pre post nch j (activeInputChans d) c a
                  Hj Hn Hc Hac Hbit) as [Hw Hs].
      apply (routeInv_add _ _ _ _ _ _ _ Hinv Hset eq_refl Hs Hw).
    + cbn [mbind option_bind] in Hrun. injection Hrun as <-. cbn [fst snd].
      split; [| split; reflexivity].
      apply (routeInv_skip _ _ _ _ _ Hinv Hbit).
  - destruct (BitArray_get (activeOutputChans d) c) eqn:Hbit.
    + destruct (arr_set (outputChannelInfo d) a _) as [tbl |] eqn:Hset;
        [| discriminate].
      cbn [mbind option_bind] in Hrun. injection Hrun as <-. cbn [fst snd].
      split; [| split; reflexivity].
      destruct (newEntry_wellRouted pre post nch j (activeOutputChans d) c a
                  Hj Hn Hc Hac Hbit) as [Hw Hs].
      apply (routeInv_add _ _ _ _ _ _ _ Hinv Hset eq_refl Hs Hw).
    + cbn [mbind option_bind] in Hrun. injection Hrun as <-. cbn [fst snd].
      split; [| split; reflexivity].
      apply (routeInv_skip _ _ _ _ _ Hinv Hbit).
Qed.

Lemma fillStream_route (input : bool) (pre post : list Z) (nch : Z) (n : nat) :
  forall (j : Z) (st st' : Z * Z * CoreAudioInternal),
    0 <= j -> j + Z.of_nat n <= nch -> nch < 2 ^ 31 ->
    fst (fst st) = totalChannels pre + j ->
    fillStream input (Z.of_nat (length pre)) nch n j st = Some st' ->
    routeInv (pre ++ nch :: post) (activeChans input (snd st))
      (fst (fst st)) (snd (fst st)) (infoTable input (snd st)) ->
    routeInv (pre ++ nch :: post) (activeChans input (snd st'))
      (fst (fst st')) (snd (fst st')) (infoTable input (snd st'))
    /\ activeChans input (snd st') = activeChans input (snd st)
    /\ infoTable (negb input) (snd st') = infoTable (negb input) (snd st)
    /\ fst (fst st') = fst (fst st) + Z.of_nat n.
Proof.
  induction n as [| n IH]; intros j st st' Hj Hjn Hn Hc; cbn [fillStream].
  - intros H. injection H as <-. intros Hinv.
    split; [exact Hinv |]. split; [reflexivity |]. split; [reflexivity | lia].
  - destruct (fillOneChannel input _ j nch st) as [st1 |] eqn:H1; [| discriminate].
    cbn [mbind option_bind]. intros H Hinv.
    destruct (fillOneChannel_route input pre post nch j st st1 ltac:(lia) Hn Hc
                H1 Hinv) as (Hinv1 & Hm1 & Ho1).
    destruct (fillOneChannel_names _ _ _ _ _ _ H1) as (Hc1 & _).
    destruct (IH (j + 1) st1 st' ltac:(lia) ltac:(lia) Hn ltac:(lia) H Hinv1)
      as (Hinv' & Hm' & Ho' & Hc').
    split; [exact Hinv' |]. split; [congruence |]. split; [congruence | lia].
Qed.

Lemma fillStreams_route (input : bool) (rest : list Z) :
  forall (pre : list Z) (st st' : Z * Z * CoreAudioInternal),
    Forall (fun nch => nch < 2 ^ 31) rest ->
    fst (fst st) = totalChannels pre ->
    fillStreams input rest (Z.of_nat (length pre)) st = Some st' ->
    routeInv (pre ++ rest) (activeChans input (snd st))
      (fst (fst st)) (snd (fst st)) (infoTable input (snd st)) ->
    routeInv (pre ++ rest) (activeChans input (snd st'))
      (fst (fst st')) (snd (fst st')) (infoTable input (snd st'))
    /\ activeChans input (snd st') = activeChans input (snd st)
    /\ infoTable (negb input) (snd st') = infoTable (negb input) (snd st)
    /\ fst (fst st') = totalChannels (pre ++ rest).
Proof.
  induction rest as [| nch rest IH]; intros pre st st' Hsmall Hc;
    cbn [fillStreams].
  - intros H. injection H as <-. intros Hinv. rewrite app_nil_r in *.
    split; [exact Hinv |]. split; [reflexivity |]. split; [reflexivity | exact Hc].
  - destruct (fillStream input _ nch (Z.to_nat nch) 0 st) as [st1 |] eqn:H1;
      [| discriminate].
    cbn [mbind option_bind]. intros H Hinv.
    apply Forall_cons in Hsmall as [Hn Hsmall].
    assert (Hst1 : routeInv (pre ++ nch :: rest) (activeChans input (snd st1))
                     (fst (fst st1)) (snd (fst st1)) (infoTable input (snd st1))
                   /\ activeChans input (snd st1) = activeChans input (snd st)
                   /\ infoTable (negb input) (snd st1)
                      = infoTable (negb input) (snd st)
                   /\ fst (fst st1) = fst (fst st) + Z.of_nat (Z.to_nat nch)).
    { destruct (Z.le_gt_cases nch 0) as [Hle | Hgt].
      - replace (Z.to_nat nch) with O in * by lia. cbn [fillStream] in H1.
        injection H1 as <-. split; [exact Hinv |]. split; [reflexivity |].
        split; [reflexivity | lia].
      - apply (fillStream_route input pre rest nch (Z.to_nat nch) 0 st st1);
          [lia | lia | exact Hn | lia | exact H1 | exact Hinv]. }
    destruct Hst1 as (Hinv1 & Hm1 & Ho1 & Hc1).
    assert (Heq : (pre ++ nch :: rest)%list = ((pre ++ [nch]) ++ rest)%list)
      by (rewrite <- app_assoc; reflexivity).
    rewrite Heq in *.
    assert (Hc1' : fst (fst st1) = totalChannels (pre ++ [nch])).
    { rewrite totalChannels_app, totalChannels_cons.
      change (totalChannels []) with 0. lia. }
    assert (Hlen : Z.of_nat (length pre) + 1 = Z.of_nat (length (pre ++ [nch]))).
    { rewrite length_app. cbn [length]. lia. }
    rewrite Hlen in H.
    destruct (IH (pre ++ [nch])%list st1 st' Hsmall Hc1' H Hinv1)
      as (Hinv' & Hm' & Ho' & Hc').
    split; [exact Hinv' |]. split; [congruence |]. split; [congruence | exact Hc'].
Qed.

Lemma routeInv_final (streams : list Z) (mask a : Z)
  (tbl : list CallbackDetailsForChannel) :
  routeInv streams mask (totalChannels streams) a tbl ->
  routesActiveChannels streams mask tbl.
Proof.
  intros (Hac & Hwell & Htail & Hmono & Hall).
  assert (Hlt : forall k info, arr_get tbl k = Some info ->
                  dataStrideSamples info <> 0 -> 0 <= k < a).
  { intros k info Hget Hs. pose proof (arr_get_lt _ _ _ Hget).
    destruct (Z.lt_ge_cases k a) as [| Hge]; [lia |].
    exfalso. apply Hs. apply (Htail k info Hge Hget). }
  split.
  { intros k info Hget Hs. destruct (Hwell k info (Hlt _ _ Hget Hs) Hget)
      as (H1 & H2 & _). split; assumption. }
  split.
  { intros k1 k2 i1 i2 Hk Hg1 Hg2 Hs1 Hs2.
    pose proof (Hlt _ _ Hg1 Hs1). pose proof (Hlt _ _ Hg2 Hs2).
    apply (Hmono k1 k2 i1 i2); [lia | lia | exact Hg1 | exact Hg2]. }
  intros c Hc Hb. destruct (Hall c Hc Hb) as (k & info & Hk & Hget & Hs).
  exists k, info. split; [exact Hget |]. split; [exact Hs |].
  apply (Hwell k info Hk Hget).
Qed.

(** One run of [fillInChannelInfo] on a cleared table of its direction. *)
Lemma fillInChannelInfo_route (v : OSView) (input : bool)
  (d d' : CoreAudioInternal) (streams : list Z) :
  os_StreamConfiguration v input = Some streams ->
  Forall (fun nch => nch < 2 ^ 31) streams ->
  infoTable input d = zeroInfoTable ->
  fillInChannelInfo v input d = Some d' ->
  routesActiveChannels streams (activeChans input d) (infoTable input d').
Proof.
  intros Hcfg Hsmall Hzero. unfold fillInChannelInfo. rewrite Hcfg.
  destruct (fillStreams input streams 0 (0, 0, d)) as [[[c a] d1] |] eqn:H1;
    [| discriminate].
  cbn [mbind option_bind]. intros H. injection H as <-.
  destruct (fillStreams_route input streams [] (0, 0, d) (c, a, d1) Hsmall
              eq_refl H1) as (Hinv & Hm & _ & Hc).
  - cbn [fst snd app]. split; [lia |]. split; [intros; lia |].
    split; [| split; intros; lia].
    intros k info _ Hget. rewrite Hzero in Hget.
    apply (zeroInfoTable_stride k info Hget).
  - cbn [fst snd app] in *. rewrite Hm, Hc in Hinv.
    apply (routeInv_final _ _ _ _ Hinv).
Qed.

Lemma fillOneChannel_keeps_other (input : bool) (i j nch : Z)
  (st st' : Z * Z * CoreAudioInternal) :
  fillOneChannel input i j nch st = Some st' ->
  infoTable (negb input) (snd st') = infoTable (negb input) (snd st).
Proof.
  destruct st as [[c a] d]. unfold fillOneChannel.
  destruct input; cbn [negb infoTable snd].
  - destruct (BitArray_get (activeInputChans d) c);
      [destruct (arr_set (inputChannelInfo d) a _); [| discriminate] |];
      cbn [mbind option_bind]; intros H; injection H as <-; reflexivity.
  - destruct (BitArray_get (activeOutputChans d) c);
      [destruct (arr_set (outputChannelInfo d) a _); [| discriminate] |];
      cbn [mbind option_bind]; intros H; injection H as <-; reflexivity.
Qed.

Lemma fillStream_keeps_other (input : bool) (i nch : Z) (n : nat) :
  forall (j : Z) (st st' : Z * Z * CoreAudioInternal),
    fillStream input i nch n j st = Some st' ->
    infoTable (negb input) (snd st') = infoTable (negb input) (snd st).
Proof.
  induction n as [| n IH]; intros j st st'; cbn [fillStream].
  - intros H. injection H as <-. reflexivity.
  - destruct (fillOneChannel input i j nch st) as [st1 |] eqn:H1; [| discriminate].
    cbn [mbind option_bind]. intros H.
    rewrite (IH _ _ _ H). apply (fillOneChannel_keeps_other _ _ _ _ _ _ H1).
Qed.

Lemma fillStreams_keeps_other (input : bool) (streams : list Z) :
  forall (i : Z) (st st' : Z * Z * CoreAudioInternal),
    fillStreams input streams i st = Some st' ->
    infoTable (negb input) (snd st') = infoTable (negb input) (snd st).
Proof.
  induction streams as [| nch rest IH]; intros i st st'; cbn [fillStreams].
  - intros H. injection H as <-. reflexivity.
  - destruct (fillStream input i nch (Z.to_nat nch) 0 st) as [st1 |] eqn:H1;
      [| discriminate].
    cbn [mbind option_bind]. intros H.
    rewrite (IH _ _ _ H). apply (fillStream_keeps_other _ _ _ _ _ _ _ H1).
Qed.

Lemma fillInChannelInfo_keeps_other (v : OSView) (input : bool)
  (d d' : CoreAudioInternal) :
  fillInChannelInfo v input d = Some d' ->
  infoTable (negb input) d' = infoTable (negb input) d.
Proof.
  unfold fillInChannelInfo.
  destruct (os_StreamConfiguration v input) as [streams |].
  - destruct (fillStreams input streams 0 (0, 0, d)) as [[[c a] d1] |] eqn:H1;
      [| discriminate].
    cbn [mbind option_bind]. intros H. injection H as <-.
    apply (fillStreams_keeps_other _ _ _ _ _ H1).
  - intros H. injection H as <-. reflexivity.
Qed.

(** X10 (fillInChannelInfo, updateDetailsFromDevice): after a refresh of a
    device with an id other than 0, the routing table of a direction whose
    stream configuration the OS gives routes exactly the active channels
    of that configuration.  Every entry with a stride other than 0 is for
    a channel whose bit is set in the mask, names the stream of the
    channel, has the position of the channel in its stream as offset and
    the number of channels of the stream as stride; the entries come in
    the order of the channels; and every channel of the configuration
    whose bit is set has an entry. *)
Theorem updateDetailsFromDevice_routes_active_channels (v : OSView)
  (input : bool) (d d' : CoreAudioInternal) (streams : list Z) :
  updateDetailsFromDevice v d = Some d' -> deviceID d <> 0 ->
  os_StreamConfiguration v input = Some streams ->
  Forall (fun nch => nch < 2 ^ 31) streams ->
  routesActiveChannels streams (activeChans input d) (infoTable input d').
Proof.
  unfold updateDetailsFromDevice. cbn [deviceID set_timerRunning].
  intros H Hid Hcfg Hsmall.
  destruct (Z.eqb_spec (deviceID d) 0) as [| _]; [contradiction |].
  revert H.
  destruct (match os_BufferFrameSize v with
            | Some framesPerBuf => _
            | None => _
            end) as [d2 |] eqn:H2; [| discriminate].
  cbn [mbind option_bind].
  destruct (buildBufferSizes _ _) as [sizes |]; [| discriminate].
  cbn [mbind option_bind].
  match goal with
  | |- (fillInChannelInfo v true ?x ≫= _) = _ -> _ => set (d3 := x)
  end.
  assert (H3 : inputChannelInfo d3 = zeroInfoTable
               /\ outputChannelInfo d3 = zeroInfoTable
               /\ activeInputChans d3 = activeInputChans d2
               /\ activeOutputChans d3 = activeOutputChans d2)
    by (repeat split; reflexivity).
  clearbody d3. destruct H3 as (Hi3 & Ho3 & Hmi3 & Hmo3).
  assert (Hm2 : activeInputChans d2 = activeInputChans d
                /\ activeOutputChans d2 = activeOutputChans d).
  { destruct (os_BufferFrameSize v) as [framesPerBuf |].
    - cbn [bufferSize set_bufferSize set_sampleRate] in H2.
      destruct (0 <? _) in H2.
      + apply setTempBufferSize_sameControl in H2 as [Hsame _].
        destruct Hsame as (_ & _ & _ & _ & _ & _ & _ & _ & _ & Hmi & Hmo).
        rewrite Hmi, Hmo. destruct (os_NominalSampleRate v); split; reflexivity.
      + injection H2 as <-. destruct (os_NominalSampleRate v); split; reflexivity.
    - injection H2 as <-. destruct (os_NominalSampleRate v); split; reflexivity. }
  destruct Hm2 as [Hmi2 Hmo2].
  destruct (fillInChannelInfo v true d3) as [d4 |] eqn:H4; [| discriminate].
  cbn [mbind option_bind]. intros H5.
  pose proof (fillInChannelInfo_keeps_other _ _ _ _ H4) as Hk4.
  pose proof (fillInChannelInfo_keeps_other _ _ _ _ H5) as Hk5.
  cbn [negb infoTable] in Hk4, Hk5.
  destruct (fillInChannelInfo_frame _ _ _ _ H4) as (Hsame4 & _).
  destruct Hsame4 as (_ & _ & _ & _ & _ & _ & _ & _ & _ & Hmi4 & Hmo4).
  destruct input; cbn [infoTable activeChans].
  - rewrite Hk5, <- Hmi2, <- Hmi3.
    apply (fillInChannelInfo_route v true d3 d4 streams Hcfg Hsmall Hi3 H4).
  - rewrite <- Hmo2, <- Hmo3, <- Hmo4.
    apply (fillInChannelInfo_route v false d4 d' streams Hcfg Hsmall); [| exact H5].
    cbn [infoTable]. rewrite Hk4. exact Ho3.
Qed.

Lemma stereoRouted_refreshed :
  updateDetailsFromDevice stereoView stereoActive = Some stereoRouted.
Proof. vm_compute. reflexivity. Qed.

Lemma updateDetailsFromDevice_routes_active_channels_witness :
  updateDetailsFromDevice stereoView stereoActive = Some stereoRouted
  /\ routesActiveChannels [2] (activeChans false stereoActive)
       (infoTable false stereoRouted).
Proof.
  split; [exact stereoRouted_refreshed |].
  apply (updateDetailsFromDevice_routes_active_channels stereoView false
           stereoActive stereoRouted [2] stereoRouted_refreshed).
  - cbn. lia.
  - reflexivity.
  - repeat constructor.
Defined.

(** ** What the audio callback leaves alone *)

Lemma store_length (buf buf' : list Z) (p : option Z) (v : Z) :
  store buf p v = Some buf' -> length buf' = length buf.
Proof. destruct p as [off |]; [apply arr_set_length | discriminate]. Qed.

Lemma copyIn_length (n : nat) :
  forall (dest : option Z) (src stride : Z) (block buf buf' : list Z),
    copyIn n dest src stride block buf = Some buf' -> length buf' = length buf.
Proof.
  induction n as [| n IH]; intros dest src stride block buf buf'; cbn [copyIn].
  - intros H. injection H as <-. reflexivity.
  - destruct (arr_get block src) as [v |]; [| discriminate].
    cbn [mbind option_bind].
    destruct (store buf dest v) as [buf1 |] eqn:H1; [| discriminate].
    cbn [mbind option_bind]. intros H.
    rewrite (IH _ _ _ _ _ _ H). apply (store_length _ _ _ _ H1).
Qed.

Lemma readInputChannels_length (ind : list (list Z)) (d : CoreAudioInternal)
  (n : nat) :
  forall buf buf' : list Z,
    readInputChannels ind n d buf = Some buf' -> length buf' = length buf.
Proof.
  induction n as [| n IH]; intros buf buf'; cbn [readInputChannels].
  - intros H. injection H as <-. reflexivity.
  - destruct (readInputChannel ind (Z.of_nat n) d buf) as [buf1 |] eqn:H1;
      [| discriminate].
    cbn [mbind option_bind]. intros H. rewrite (IH _ _ H).
    unfold readInputChannel in H1.
    destruct (arr_get (inputChannelInfo d) (Z.of_nat n)) as [info |];
      [| discriminate].
    cbn [mbind option_bind] in H1.
    destruct (arr_get (tempInputBuffers d) (sourceChannelNum info)) as [dest |];
      [| discriminate].
    cbn [mbind option_bind] in H1.
    destruct (negb (dataStrideSamples info =? 0)).
    + apply (copyIn_length _ _ _ _ _ _ _ H1).
    + injection H1 as <-. reflexivity.
Qed.

Lemma writeView_length (vals : list Z) :
  forall (p : option Z) (buf buf' : list Z),
    writeView vals p buf = Some buf' -> length buf' = length buf.
Proof.
  induction vals as [| v vals IH]; intros p buf buf'; cbn [writeView].
  - intros H. injection H as <-. reflexivity.
  - destruct (store buf p v) as [buf1 |] eqn:H1; [| discriminate].
    cbn [mbind option_bind]. intros H.
    rewrite (IH _ _ _ H). apply (store_length _ _ _ _ H1).
Qed.

Lemma writeViews_length (chans : list (list Z)) :
  forall (tbl : list (option Z)) (buf buf' : list Z),
    writeViews chans tbl buf = Some buf' -> length buf' = length buf.
Proof.
  induction chans as [| vals chans IH]; intros tbl buf buf'; cbn [writeViews].
  - intros H. injection H as <-. reflexivity.
  - destruct tbl as [| p tbl]; [intros H; injection H as <-; reflexivity |].
    destruct (writeView vals p buf) as [buf1 |] eqn:H1; [| discriminate].
    cbn [mbind option_bind]. intros H.
    rewrite (IH _ _ _ H). apply (writeView_length _ _ _ _ H1).
Qed.

Lemma copyOut_length (n : nat) :
  forall (src : option Z) (dest stride : Z) (buf block block' : list Z),
    copyOut n src dest stride buf block = Some block' ->
    length block' = length block.
Proof.
  induction n as [| n IH]; intros src dest stride buf block block'; cbn [copyOut].
  - intros H. injection H as <-. reflexivity.
  - destruct (load buf src) as [v |]; [| discriminate].
    cbn [mbind option_bind].
    destruct (arr_set block dest v) as [block1 |] eqn:H1; [| discriminate].
    cbn [mbind option_bind]. intros H.
    rewrite (IH _ _ _ _ _ _ H). apply (arr_set_length _ _ _ _ H1).
Qed.

Lemma zeroOut_length (n : nat) :
  forall (dest stride : Z) (block block' : list Z),
    zeroOut n dest stride block = Some block' -> length block' = length block.
Proof.
  induction n as [| n IH]; intros dest stride block block'; cbn [zeroOut].
  - intros H. injection H as <-. reflexivity.
  - destruct (arr_set block dest 0) as [block1 |] eqn:H1; [| discriminate].
    cbn [mbind option_bind]. intros H.
    rewrite (IH _ _ _ _ H). apply (arr_set_length _ _ _ _ H1).
Qed.

(** The buffer list after the data of one stream has been rewritten in
    place has the shape it had. *)
Lemma withStream_shape (bl bl' : list (list Z)) (s : Z)
  (f : list Z -> option (list Z)) :
  (forall block block', f block = Some block' -> length block' = length block) ->
  withStream bl s f = Some bl' ->
  length bl' = length bl /\ forall s', streamLen bl' s' = streamLen bl s'.
Proof.
  intros Hf. unfold withStream.
  destruct (arr_get bl s) as [block |] eqn:Hblock.
  - destruct (f block) as [block' |] eqn:Hrun; [| discriminate].
    cbn [mbind option_bind]. intros Hset.
    split; [apply (arr_set_length _ _ _ _ Hset) |].
    intros s'. unfold streamLen.
    destruct (Z.eq_dec s s') as [<- | Hne].
    + rewrite (streamData_set_eq _ _ _ _ Hset). unfold streamData.
      rewrite Hblock. rewrite (Hf _ _ Hrun). reflexivity.
    + rewrite (streamData_set_ne _ _ _ _ _ Hset) by assumption. reflexivity.
  - destruct (f []); [| discriminate].
    cbn [mbind option_bind]. intros H. injection H as <-. split; reflexivity.
Qed.

Lemma writeOutputChannels_shape (d : CoreAudioInternal) (n : nat) :
  forall bl bl' : list (list Z),
    writeOutputChannels n d bl = Some bl' ->
    length bl' = length bl /\ forall s, streamLen bl' s = streamLen bl s.
Proof.
  induction n as [| n IH]; intros bl bl'; cbn [writeOutputChannels].
  - intros H. injection H as <-. split; reflexivity.
  - destruct (writeOutputChannel (Z.of_nat n) d bl) as [bl1 |] eqn:H1;
      [| discriminate].
    cbn [mbind option_bind]. intros H. destruct (IH _ _ H) as [Hl Hs].
    assert (H1' : length bl1 = length bl
                  /\ forall s, streamLen bl1 s = streamLen bl s).
    { unfold writeOutputChannel in H1.
      destruct (arr_get (outputChannelInfo d) (Z.of_nat n)) as [info |];
        [| discriminate].
      cbn [mbind option_bind] in H1.
      destruct (arr_get (tempOutputBuffers d) (Z.of_nat n)) as [src |];
        [| discriminate].
      cbn [mbind option_bind] in H1.
      destruct (negb (dataStrideSamples info =? 0)).
      - apply (withStream_shape _ _ _ _ (copyOut_length _ _ _ _ _) H1).
      - injection H1 as <-. split; reflexivity. }
    destruct H1' as [Hl1 Hs1].
    split; [congruence |]. intros s. rewrite Hs. apply Hs1.
Qed.

Lemma clearOutputChannels_shape (d : CoreAudioInternal) (n : nat) :
  forall bl bl' : list (list Z),
    clearOutputChannels n d bl = Some bl' ->
    length bl' = length bl /\ forall s, streamLen bl' s = streamLen bl s.
Proof.
  induction n as [| n IH]; intros bl bl'; cbn [clearOutputChannels].
  - intros H. injection H as <-. split; reflexivity.
  - destruct (clearOutputChannel (Z.of_nat n) d bl) as [bl1 |] eqn:H1;
      [| discriminate].
    cbn [mbind option_bind]. intros H. destruct (IH _ _ H) as [Hl Hs].
    assert (H1' : length bl1 = length bl
                  /\ forall s, streamLen bl1 s = streamLen bl s).
    { unfold clearOutputChannel in H1.
      destruct (arr_get (outputChannelInfo d) (Z.of_nat n)) as [info |];
        [| discriminate].
      cbn [mbind option_bind] in H1.
      destruct (negb (dataStrideSamples info =? 0)).
      - apply (withStream_shape _ _ _ _ (zeroOut_length _ _ _) H1).
      - injection H1 as <-. split; reflexivity. }
    destruct H1' as [Hl1 Hs1].
    split; [congruence |]. intros s. rewrite Hs. apply Hs1.
Qed.

Lemma set_audioBuffer_same (d : CoreAudioInternal) :
  set_audioBuffer (audioBuffer d) d = d.
Proof. destruct d. reflexivity. Qed.

Lemma set_audioBuffer_twice (b b' : list Z) (d : CoreAudioInternal) :
  set_audioBuffer b (set_audioBuffer b' d) = set_audioBuffer b d.
Proof. destruct d. reflexivity. Qed.

(** X11 (audioCallback): the callback changes nothing of the device but
    the contents of the temporary audio buffer, whose size it keeps, and
    it keeps the number of streams of the output buffer list and the size
    of each.  Without a client the temporary buffer is not written
    either, and a slave does not write the output buffer list. *)
Theorem audioCallback_writes_only_buffers
  (inInputData outOutputData out : list (list Z)) (d d' : CoreAudioInternal)
  (evs : list ClientEvent) :
  audioCallback inInputData outOutputData d = Some (d', out, evs) ->
  d' = set_audioBuffer (audioBuffer d') d
  /\ length (audioBuffer d') = length (audioBuffer d)
  /\ length out = length outOutputData
  /\ (forall s, streamLen out s = streamLen outOutputData s)
  /\ (callback d = None -> d' = d)
  /\ (callback d <> None -> isSlaveDevice d = true -> out = outOutputData).
Proof.
  unfold audioCallback. destruct (callback d) as [cb |].
  - destruct (match inputDevice d with
              | Some _ => Some d
              | None => _
              end) as [d1 |] eqn:H1; [| discriminate].
    cbn [mbind option_bind].
    assert (Hd1 : d1 = set_audioBuffer (audioBuffer d1) d
                  /\ length (audioBuffer d1) = length (audioBuffer d)).
    { destruct (inputDevice d).
      - injection H1 as <-. rewrite set_audioBuffer_same. split; reflexivity.
      - destruct (readInputChannels _ _ d (audioBuffer d)) as [buf |] eqn:Hr;
          [| discriminate].
        cbn [mbind option_bind] in H1. injection H1 as <-.
        cbn [audioBuffer set_audioBuffer].
        split; [reflexivity | apply (readInputChannels_length _ _ _ _ _ Hr)]. }
    destruct Hd1 as [Hd1 Hlen1].
    assert (Hslave : isSlaveDevice d1 = isSlaveDevice d)
      by (rewrite Hd1; destruct d; reflexivity).
    rewrite Hslave. destruct (isSlaveDevice d); cbn [negb].
    + intros H. injection H as <- <- <-.
      split; [exact Hd1 |]. split; [exact Hlen1 |]. split; [reflexivity |].
      split; [reflexivity |]. split; [discriminate | reflexivity].
    + destruct (callClient cb _ d1) as [[buf ev] |] eqn:Hc; [| discriminate].
      cbn [mbind option_bind].
      destruct (writeOutputChannels _ _ outOutputData) as [out' |] eqn:Hw;
        [| discriminate].
      cbn [mbind option_bind]. intros H. injection H as <- <- <-.
      unfold callClient in Hc.
      destruct (writeViews _ (tempOutputBuffers d1) (audioBuffer d1))
        as [buf2 |] eqn:Hv; [| discriminate].
      cbn [mbind option_bind] in Hc. injection Hc as <- <-.
      cbn [audioBuffer set_audioBuffer].
      destruct (writeOutputChannels_shape _ _ _ _ Hw) as [Hl Hs].
      split; [rewrite Hd1 at 1; apply set_audioBuffer_twice |].
      split; [rewrite (writeViews_length _ _ _ _ Hv); exact Hlen1 |].
      split; [exact Hl |]. split; [exact Hs |].
      split; [discriminate | intros _; discriminate].
  - destruct (clearOutputChannels _ d outOutputData) as [out' |] eqn:Hc;
      [| discriminate].
    cbn [mbind option_bind]. intros H. injection H as <- <- <-.
    destruct (clearOutputChannels_shape _ _ _ _ Hc) as [Hl Hs].
    split; [symmetry; apply set_audioBuffer_same |]. split; [reflexivity |].
    split; [exact Hl |]. split; [exact Hs |]. split; [reflexivity |].
    intros Hn. contradiction.
Qed.

(** ** The audio callback with a client *)

Lemma writeView_spec (vals : list Z) :
  forall (off : Z) (buf : list Z),
    0 <= off -> off + Z.of_nat (length vals) <= Z.of_nat (length buf) ->
    exists buf',
      writeView vals (Some off) buf = Some buf'
      /\ length buf' = length buf
      /\ (forall (k : nat) v, vals !! k = Some v ->
            arr_get buf' (off + Z.of_nat k) = Some v)
      /\ (forall p, ~ off <= p < off + Z.of_nat (length vals) ->
            arr_get buf' p = arr_get buf p).
Proof.
  induction vals as [| v vals IH]; intros off buf Hoff Hlen.
  - exists buf. cbn [writeView]. split; [reflexivity |]. split; [reflexivity |].
    split; [intros k w Hk; discriminate | intros p _; reflexivity].
  - cbn [writeView store]. cbn [length] in Hlen.
    destruct (arr_set buf off v) as [buf1 |] eqn:Hset;
      [| rewrite arr_set_Some in Hset by lia; discriminate].
    cbn [mbind option_bind ptr_add].
    pose proof (arr_set_length _ _ _ _ Hset) as Hl1.
    destruct (IH (off + 1) buf1 ltac:(lia) ltac:(lia))
      as (buf' & Hrun & Hl & Hval & Hkeep).
    exists buf'. split; [exact Hrun |]. split; [congruence |]. split.
    + intros [| k] w Hk.
      * cbn in Hk. injection Hk as <-. rewrite Hkeep by lia.
        replace (off + Z.of_nat 0) with off by lia.
        apply (arr_get_set_eq _ _ _ _ Hset).
      * cbn in Hk. replace (off + Z.of_nat (S k)) with (off + 1 + Z.of_nat k) by lia.
        apply Hval. exact Hk.
    + intros p Hp. cbn [length] in Hp. rewrite Hkeep by lia.
      apply (arr_get_set_ne _ _ _ _ _ Hset). lia.
Qed.

Lemma writeViews_spec (n : Z) (chans : list (list Z)) :
  forall (tbl : list (option Z)) (buf : list Z),
    (forall (j : nat) vals, chans !! j = Some vals ->
       Z.of_nat (length vals) <= n
       /\ exists off, tbl !! j = Some (Some off) /\ 0 <= off
                      /\ off + n <= Z.of_nat (length buf)) ->
    (forall (j1 j2 : nat) off1 off2, j1 <> j2 ->
       (j1 < length chans)%nat -> (j2 < length chans)%nat ->
       tbl !! j1 = Some (Some off1) -> tbl !! j2 = Some (Some off2) ->
       viewsDisjoint off1 off2 n) ->
    exists buf',
      writeViews chans tbl buf = Some buf'
      /\ length buf' = length buf
      /\ (forall (j k : nat) vals v off,
            chans !! j = Some vals -> vals !! k = Some v ->
            tbl !! j = Some (Some off) ->
            arr_get buf' (off + Z.of_nat k) = Some v)
      /\ (forall p,
            (forall (j : nat) off, (j < length chans)%nat ->
               tbl !! j = Some (Some off) -> ~ off <= p < off + n) ->
            arr_get buf' p = arr_get buf p).
Proof.
  induction chans as [| vals chans IH]; intros tbl buf Hmap Hdisj.
  - exists buf. cbn [writeViews]. split; [reflexivity |]. split; [reflexivity |].
    split; [intros j k vals v off Hj; discriminate | intros p _; reflexivity].
  - destruct (Hmap O vals eq_refl) as (Hlen0 & off0 & Htbl0 & Hoff0 & Hfit0).
    destruct tbl as [| p0 tbl]; [discriminate |].
    cbn in Htbl0. injection Htbl0 as ->.
    cbn [writeViews].
    destruct (writeView_spec vals off0 buf Hoff0 ltac:(lia))
      as (buf1 & Hrun1 & Hl1 & Hval1 & Hkeep1).
    rewrite Hrun1. cbn [mbind option_bind].
    destruct (IH tbl buf1) as (buf' & Hrun & Hl & Hval & Hkeep).
    { intros j vs Hj. destruct (Hmap (S j) vs Hj) as (H1 & off & H2 & H3 & H4).
      split; [exact H1 |]. exists off. rewrite Hl1. auto. }
    { intros j1 j2 off1 off2 Hne Hj1 Hj2 H1 H2.
      apply (Hdisj (S j1) (S j2)); [lia | cbn [length]; lia | cbn [length]; lia
                                   | exact H1 | exact H2]. }
    exists buf'. split; [exact Hrun |]. split; [congruence |]. split.
    + intros [| j] k vs v off Hj Hk Ht.
      * cbn in Hj, Ht. injection Hj as <-. injection Ht as <-.
        rewrite Hkeep; [apply Hval1; exact Hk |].
        intros j off Hjl Ht Hin.
        pose proof (Hdisj O (S j) off0 off ltac:(lia) ltac:(cbn [length]; lia)
                      ltac:(cbn [length]; lia) eq_refl Ht) as Hd.
        apply lookup_lt_Some in Hk. unfold viewsDisjoint in Hd. lia.
      * cbn in Hj, Ht. apply (Hval j k vs v off Hj Hk Ht).
    + intros p Hp. rewrite Hkeep.
      * apply Hkeep1. intros Hin.
        apply (Hp O off0); [cbn [length]; lia | reflexivity | lia].
      * intros j off Hjl Ht. apply (Hp (S j) off); [cbn [length]; lia | exact Ht].
Qed.

Lemma copyOut_spec (stride : Z) (buf : list Z) (n : nat) :
  forall (off dest : Z) (block : list Z),
    stride <> 0 -> 0 <= off -> off + Z.of_nat n <= Z.of_nat (length buf) ->
    (forall k, 0 <= k < Z.of_nat n ->
       0 <= dest + k * stride < Z.of_nat (length block)) ->
    exists block',
      copyOut n (Some off) dest stride buf block = Some block'
      /\ length block' = length block
      /\ (forall k, 0 <= k < Z.of_nat n ->
            arr_get block' (dest + k * stride) = arr_get buf (off + k))
      /\ (forall p, (forall k, 0 <= k < Z.of_nat n -> p <> dest + k * stride) ->
            arr_get block' p = arr_get block p).
Proof.
  induction n as [| n IH]; intros off dest block Hs Hoff Hlen Hfit.
  - exists block. cbn [copyOut]. split; [reflexivity |]. split; [reflexivity |].
    split; [intros k Hk; lia | intros p _; reflexivity].
  - cbn [copyOut load].
    destruct (arr_get buf off) as [v |] eqn:Hv.
    2:{ unfold arr_get in Hv. destruct (Z.leb_spec 0 off); [| lia].
        apply lookup_ge_None in Hv. lia. }
    cbn [mbind option_bind].
    destruct (arr_set block dest v) as [block1 |] eqn:Hset.
    2:{ specialize (Hfit 0 ltac:(lia)). rewrite arr_set_Some in Hset by lia.
        discriminate. }
    cbn [mbind option_bind ptr_add].
    pose proof (arr_set_length _ _ _ _ Hset) as Hl1.
    destruct (IH (off + 1) (dest + stride) block1 Hs ltac:(lia) ltac:(lia))
      as (block' & Hrun & Hl & Hval & Hkeep).
    { intros k Hk. rewrite Hl1. specialize (Hfit (k + 1) ltac:(lia)).
      replace (dest + stride + k * stride) with (dest + (k + 1) * stride) by lia.
      exact Hfit. }
    exists block'. split; [exact Hrun |]. split; [congruence |]. split.
    + intros k Hk. destruct (Z.eq_dec k 0) as [-> | Hne].
      * replace (dest + 0 * stride) with dest by lia.
        replace (off + 0) with off by lia.
        rewrite Hkeep; [rewrite Hv; apply (arr_get_set_eq _ _ _ _ Hset) |].
        intros k' Hk' Heq. nia.
      * specialize (Hval (k - 1) ltac:(lia)).
        replace (dest + stride + (k - 1) * stride) with (dest + k * stride)
          in Hval by lia.
        replace (off + 1 + (k - 1)) with (off + k) in Hval by lia. exact Hval.
    + intros p Hp. rewrite Hkeep.
      * apply (arr_get_set_ne _ _ _ _ _ Hset). specialize (Hp 0 ltac:(lia)). lia.
      * intros k Hk. specialize (Hp (k + 1) ltac:(lia)).
        replace (dest + stride + k * stride) with (dest + (k + 1) * stride) by lia.
        exact Hp.
Qed.

Lemma writeOutputChannel_spec (i : Z) (d : CoreAudioInternal)
  (bl : list (list Z)) (info : CallbackDetailsForChannel) (off : Z) :
  0 <= bufferSize d ->
  outputChannelMapped d bl (Z.of_nat (length (audioBuffer d))) i info off ->
  exists bl',
    writeOutputChannel i d bl = Some bl'
    /\ length bl' = length bl
    /\ (forall s, streamLen bl' s = streamLen bl s)
    /\ (dataStrideSamples info <> 0 ->
        forall k, 0 <= k < bufferSize d ->
          arr_get (streamData bl' (fst (slotOf info k))) (snd (slotOf info k))
          = arr_get (audioBuffer d) (off + k))
    /\ (forall s p,
          (dataStrideSamples info <> 0 ->
           forall k, 0 <= k < bufferSize d -> (s, p) <> slotOf info k) ->
          arr_get (streamData bl' s) p = arr_get (streamData bl s) p).
Proof.
  intros Hbs (Hinfo & Hptr & Hoff & Hlen & Hfit). unfold writeOutputChannel.
  rewrite Hinfo. cbn [mbind option_bind]. rewrite Hptr. cbn [mbind option_bind].
  destruct (Z.eqb_spec (dataStrideSamples info) 0) as [Hz | Hnz]; cbn [negb].
  - exists bl. split; [reflexivity |]. split; [reflexivity |].
    split; [reflexivity |]. split; [intros Hne; contradiction |].
    intros s p _. reflexivity.
  - destruct (Hfit Hnz) as [Hs Hslots]. unfold withStream.
    destruct (arr_get bl (streamNum info)) as [block |] eqn:Hblock.
    2:{ unfold arr_get in Hblock.
        destruct (Z.leb_spec 0 (streamNum info)); [| lia].
        apply lookup_ge_None in Hblock. lia. }
    assert (Hsd : streamData bl (streamNum info) = block).
    { unfold streamData. rewrite Hblock. reflexivity. }
    destruct (copyOut_spec (dataStrideSamples info) (audioBuffer d)
                (Z.to_nat (bufferSize d)) off (dataOffsetSamples info) block
                Hnz Hoff ltac:(lia))
      as (block' & Hrun & Hl & Hval & Hkeep).
    { intros k Hk. specialize (Hslots k). unfold streamLen in Hslots.
      rewrite Hsd in Hslots. apply Hslots. lia. }
    rewrite Hrun. cbn [mbind option_bind].
    destruct (arr_set bl (streamNum info) block') as [bl' |] eqn:Hset;
      [| rewrite arr_set_Some in Hset by lia; discriminate].
    exists bl'. split; [reflexivity |].
    split; [apply (arr_set_length _ _ _ _ Hset) |].
    split.
    { intros s. unfold streamLen.
      destruct (Z.eq_dec (streamNum info) s) as [<- | Hne].
      - rewrite (streamData_set_eq _ _ _ _ Hset), Hsd. congruence.
      - rewrite (streamData_set_ne _ _ _ _ _ Hset) by assumption. reflexivity. }
    split.
    { intros _ k Hk. unfold slotOf. cbn [fst snd].
      rewrite (streamData_set_eq _ _ _ _ Hset). apply Hval. lia. }
    intros s p Hp.
    destruct (Z.eq_dec (streamNum info) s) as [<- | Hne].
    + rewrite (streamData_set_eq _ _ _ _ Hset), Hsd. apply Hkeep.
      intros k Hk Heq. apply (Hp Hnz k ltac:(lia)). unfold slotOf. congruence.
    + rewrite (streamData_set_ne _ _ _ _ _ Hset) by assumption. reflexivity.
Qed.

Lemma outputChannelMapped_shape (d : CoreAudioInternal) (bl bl' : list (list Z))
  (len i : Z) (info : CallbackDetailsForChannel) (off : Z) :
  length bl' = length bl -> (forall s, streamLen bl' s = streamLen bl s) ->
  outputChannelMapped d bl len i info off ->
  outputChannelMapped d bl' len i info off.
Proof.
  intros Hl Hs (H1 & H2 & H3 & H4 & H5).
  split; [exact H1 |]. split; [exact H2 |]. split; [exact H3 |].
  split; [exact H4 |]. intros Hnz.
  apply (routeFits_shape _ _ bl); [exact Hl | exact Hs | exact (H5 Hnz)].
Qed.

Lemma writeOutputChannels_spec (d : CoreAudioInternal)
  (infoOf : Z -> CallbackDetailsForChannel) (offOf : Z -> Z) (n : nat) :
  forall bl : list (list Z),
    0 <= bufferSize d ->
    (forall i, 0 <= i < Z.of_nat n ->
       outputChannelMapped d bl (Z.of_nat (length (audioBuffer d))) i
         (infoOf i) (offOf i)) ->
    (forall i j, 0 <= i < Z.of_nat n -> 0 <= j < Z.of_nat n -> i <> j ->
       dataStrideSamples (infoOf i) <> 0 -> dataStrideSamples (infoOf j) <> 0 ->
       routesApart (bufferSize d) (infoOf i) (infoOf j)) ->
    exists bl',
      writeOutputChannels n d bl = Some bl'
      /\ length bl' = length bl
      /\ (forall s, streamLen bl' s = streamLen bl s)
      /\ (forall i k, 0 <= i < Z.of_nat n ->
            dataStrideSamples (infoOf i) <> 0 -> 0 <= k < bufferSize d ->
            arr_get (streamData bl' (fst (slotOf (infoOf i) k)))
              (snd (slotOf (infoOf i) k))
            = arr_get (audioBuffer d) (offOf i + k))
      /\ (forall s p,
            (forall i k, 0 <= i < Z.of_nat n ->
               dataStrideSamples (infoOf i) <> 0 -> 0 <= k < bufferSize d ->
               (s, p) <> slotOf (infoOf i) k) ->
            arr_get (streamData bl' s) p = arr_get (streamData bl s) p).
Proof.
  induction n as [| n IH]; intros bl Hbs Hmap Hapart.
  - exists bl. cbn [writeOutputChannels]. split; [reflexivity |].
    split; [reflexivity |]. split; [reflexivity |].
    split; [intros i k Hi; lia | intros s p _; reflexivity].
  - cbn [writeOutputChannels].
    destruct (writeOutputChannel_spec (Z.of_nat n) d bl (infoOf (Z.of_nat n))
                (offOf (Z.of_nat n)) Hbs (Hmap (Z.of_nat n) ltac:(lia)))
      as (bl1 & Hrun1 & Hl1 & Hs1 & Hval1 & Hkeep1).
    rewrite Hrun1. cbn [mbind option_bind].
    destruct (IH bl1 Hbs) as (bl' & Hrun & Hl & Hs & Hval & Hkeep).
    { intros i Hi. apply (outputChannelMapped_shape d bl bl1); [exact Hl1 | exact Hs1 |].
      apply Hmap. lia. }
    { intros i j Hi Hj. apply Hapart; lia. }
    exists bl'. split; [exact Hrun |]. split; [congruence |].
    split; [intros s; rewrite Hs; apply Hs1 |]. split.
    + intros i k Hi Hnz Hk. destruct (Z.eq_dec i (Z.of_nat n)) as [-> | Hne].
      * rewrite Hkeep; [apply Hval1; assumption |].
        intros j k' Hj Hnzj Hk' Heq.
        apply (Hapart (Z.of_nat n) j ltac:(lia) ltac:(lia) ltac:(lia) Hnz Hnzj
                 k k' Hk Hk').
        rewrite <- Heq. destruct (slotOf (infoOf (Z.of_nat n)) k). reflexivity.
      * apply Hval; [lia | assumption | assumption].
    + intros s p Hp. rewrite Hkeep.
      * apply Hkeep1. intros Hnz k Hk.
        apply (Hp (Z.of_nat n) k ltac:(lia) Hnz Hk).
      * intros i k Hi. apply Hp. lia.
Qed.

Lemma channelView_get (buf : list Z) (off n k : Z) :
  0 <= off -> 0 <= k < n ->
  arr_get (channelView buf (Some off) n) k = arr_get buf (off + k).
Proof.
  intros Hoff Hk. unfold channelView.
  destruct (Z.leb_spec 0 off); [| lia].
  unfold arr_get.
  destruct (Z.leb_spec 0 k); [| lia]. destruct (Z.leb_spec 0 (off + k)); [| lia].
  rewrite lookup_take_lt by lia. rewrite lookup_drop. f_equal. lia.
Qed.

Lemma channelViews_get (buf : list Z) (tbl : list (option Z)) (nch n i : Z)
  (p : option Z) :
  0 <= i < nch -> arr_get tbl i = Some p ->
  arr_get (channelViews buf tbl nch n) i = Some (channelView buf p n).
Proof.
  intros Hi Hp. apply arr_get_Some in Hp as [_ Hp]. apply arr_get_Some.
  split; [lia |]. unfold channelViews.
  rewrite list_lookup_fmap, lookup_take_lt by lia. rewrite Hp. reflexivity.
Qed.

(** What the client has written through the pointer of channel [j]. *)
Lemma written_get (res : list (list Z)) (nch n j k : Z) (chan : list Z) (v : Z) :
  0 <= j < nch -> 0 <= k < n ->
  arr_get res j = Some chan -> arr_get chan k = Some v ->
  exists vals,
    map (take (Z.to_nat n)) (take (Z.to_nat nch) res) !! Z.to_nat j = Some vals
    /\ vals !! Z.to_nat k = Some v.
Proof.
  intros Hj Hk Hchan Hv. apply arr_get_Some in Hchan as [_ Hchan].
  apply arr_get_Some in Hv as [_ Hv].
  exists (take (Z.to_nat n) chan). split.
  - rewrite list_lookup_fmap, lookup_take_lt by lia. rewrite Hchan. reflexivity.
  - rewrite lookup_take_lt by lia. exact Hv.
Qed.

Lemma written_inv (res : list (list Z)) (nch n : Z) (j : nat) (vals : list Z) :
  0 <= n ->
  map (take (Z.to_nat n)) (take (Z.to_nat nch) res) !! j = Some vals ->
  Z.of_nat (length vals) <= n /\ 0 <= Z.of_nat j < nch.
Proof.
  intros Hn H. rewrite list_lookup_fmap in H.
  destruct (take (Z.to_nat nch) res !! j) as [chan |] eqn:Hc; [| discriminate].
  cbn in H. injection H as <-. apply lookup_take_Some in Hc as [_ Hj].
  rewrite length_take. lia.
Qed.

Lemma written_length (res : list (list Z)) (nch n : Z) (j : nat) :
  (j < length (map (take (Z.to_nat n)) (take (Z.to_nat nch) res)))%nat ->
  0 <= Z.of_nat j < nch.
Proof. rewrite length_map, length_take. lia. Qed.

(** The second half of the callback of a device that is no slave: the
    call of the client and the loop over the output channels. *)
Lemma audioCallback_output_stage (d : CoreAudioInternal)
  (cb : AudioIODeviceCallback) (ins outd : list (list Z))
  (outInfo : Z -> CallbackDetailsForChannel) (outOff : Z -> Z) :
  0 <= bufferSize d ->
  (forall j, 0 <= j < numOutputChans d ->
     outputChannelMapped d outd (Z.of_nat (length (audioBuffer d))) j
       (outInfo j) (outOff j)) ->
  (forall i j, 0 <= i < numOutputChans d -> 0 <= j < numOutputChans d -> i <> j ->
     viewsDisjoint (outOff i) (outOff j) (bufferSize d)) ->
  (forall i j, 0 <= i < numOutputChans d -> 0 <= j < numOutputChans d -> i <> j ->
     dataStrideSamples (outInfo i) <> 0 -> dataStrideSamples (outInfo j) <> 0 ->
     routesApart (bufferSize d) (outInfo i) (outInfo j)) ->
  exists buf2 out outs,
    callClient cb ins d = Some (buf2, IOCallback (cb_id cb) ins (bufferSize d))
    /\ writeOutputChannels (Z.to_nat (numOutputChans d)) (set_audioBuffer buf2 d)
         outd = Some out
    /\ (forall j k chan v, 0 <= j < numOutputChans d ->
          dataStrideSamples (outInfo j) <> 0 -> 0 <= k < bufferSize d ->
          arr_get (cb_io cb ins outs (bufferSize d)) j = Some chan ->
          arr_get chan k = Some v ->
          arr_get (streamData out (fst (slotOf (outInfo j) k)))
            (snd (slotOf (outInfo j) k)) = Some v)
    /\ (forall s p,
          (forall j k, 0 <= j < numOutputChans d ->
             dataStrideSamples (outInfo j) <> 0 -> 0 <= k < bufferSize d ->
             (s, p) <> slotOf (outInfo j) k) ->
          arr_get (streamData out s) p = arr_get (streamData outd s) p).
Proof.
  intros Hbs Hout Houtdisj Hapart. unfold callClient.
  set (outs := channelViews (audioBuffer d) (tempOutputBuffers d)
                 (numOutputChans d) (bufferSize d)).
  set (written := map (take (Z.to_nat (bufferSize d)))
                    (take (Z.to_nat (numOutputChans d))
                       (cb_io cb ins outs (bufferSize d)))).
  assert (Hptr : forall j, 0 <= j < numOutputChans d ->
            tempOutputBuffers d !! Z.to_nat j = Some (Some (outOff j))).
  { intros j Hj. destruct (Hout j Hj) as (_ & Hp & _).
    apply arr_get_Some in Hp. apply Hp. }
  destruct (writeViews_spec (bufferSize d) written (tempOutputBuffers d)
              (audioBuffer d))
    as (buf2 & Hrun2 & Hlen2 & Hval2 & _).
  { intros j vals Hj. destruct (written_inv _ _ _ _ _ Hbs Hj) as [Hl Hjr].
    split; [exact Hl |]. exists (outOff (Z.of_nat j)).
    destruct (Hout _ Hjr) as (_ & _ & Hoff & Hfit & _).
    split; [rewrite <- (Nat2Z.id j) at 1; apply Hptr; exact Hjr |].
    split; [exact Hoff | exact Hfit]. }
  { intros j1 j2 off1 off2 Hne Hj1 Hj2 H1 H2.
    apply written_length in Hj1, Hj2.
    pose proof (Hptr _ Hj1) as H1'. pose proof (Hptr _ Hj2) as H2'.
    rewrite Nat2Z.id in H1', H2'.
    assert (off1 = outOff (Z.of_nat j1)) by congruence.
    assert (off2 = outOff (Z.of_nat j2)) by congruence. subst off1 off2.
    apply Houtdisj; lia. }
  rewrite Hrun2. cbn [mbind option_bind].
  set (d2 := set_audioBuffer buf2 d).
  destruct (writeOutputChannels_spec d2 outInfo outOff
              (Z.to_nat (numOutputChans d)) outd)
    as (out & Hrun3 & _ & _ & Hval3 & Hkeep3).
  { exact Hbs. }
  { intros j Hj. destruct (Hout j ltac:(lia)) as (H1 & H2 & H3 & H4 & H5).
    split; [exact H1 |]. split; [exact H2 |]. split; [exact H3 |].
    split; [| exact H5].
    subst d2. cbn [audioBuffer set_audioBuffer bufferSize].
    rewrite Hlen2. exact H4. }
  { intros i j Hi Hj. apply Hapart; lia. }
  exists buf2, out, outs. split; [reflexivity |]. split; [exact Hrun3 |]. split.
  { intros j k chan v Hj Hnz Hk Hchan Hv.
    destruct (written_get _ _ _ _ _ _ _ Hj Hk Hchan Hv) as (vals & Hvals & Hvk).
    rewrite (Hval3 j k ltac:(lia) Hnz Hk).
    subst d2. cbn [audioBuffer set_audioBuffer].
    pose proof (Hval2 _ _ _ _ _ Hvals Hvk (Hptr j Hj)) as H.
    rewrite Z2Nat.id in H by lia. exact H. }
  intros s p Hp. apply Hkeep3. intros j k Hj. apply Hp. lia.
Qed.

(** The views of the input channels after the loop over the input
    channels, for a device whose channel [i] has the source channel [i]. *)
Lemma inputViews_deinterleaved (d : CoreAudioInternal) (ind : list (list Z))
  (inInfo : Z -> CallbackDetailsForChannel) (inOff : Z -> Z) :
  0 <= bufferSize d ->
  (forall i, 0 <= i < numInputChans d ->
     inputChannelMapped d ind (Z.of_nat (length (audioBuffer d))) i
       (inInfo i) (inOff i)
     /\ sourceChannelNum (inInfo i) = i) ->
  (forall i j, 0 <= i < numInputChans d -> 0 <= j < numInputChans d -> i <> j ->
     viewsDisjoint (inOff i) (inOff j) (bufferSize d)) ->
  exists buf1,
    readInputChannels ind (Z.to_nat (numInputChans d)) d (audioBuffer d)
    = Some buf1
    /\ length buf1 = length (audioBuffer d)
    /\ forall i k, 0 <= i < numInputChans d ->
         dataStrideSamples (inInfo i) <> 0 -> 0 <= k < bufferSize d ->
         exists chan,
           arr_get (channelViews buf1 (tempInputBuffers d) (numInputChans d)
                      (bufferSize d)) i = Some chan
           /\ arr_get chan k
              = arr_get (streamData ind (fst (slotOf (inInfo i) k)))
                  (snd (slotOf (inInfo i) k)).
Proof.
  intros Hbs Hin Hindisj.
  destruct (readInputChannels_deinterleaves d ind inInfo inOff
              (Z.to_nat (numInputChans d)) (audioBuffer d) Hbs)
    as (buf1 & Hrun1 & Hlen1 & Hval1 & _).
  { intros i Hi. apply Hin. lia. }
  { intros i j Hi Hj. apply Hindisj; lia. }
  exists buf1. split; [exact Hrun1 |]. split; [exact Hlen1 |].
  intros i k Hi Hnz Hk. destruct (Hin i Hi) as [(_ & Hp & Hoff & _) Hsrc].
  rewrite Hsrc in Hp.
  exists (channelView buf1 (Some (inOff i)) (bufferSize d)). split.
  - apply (channelViews_get _ _ _ _ _ _ Hi Hp).
  - rewrite channelView_get by assumption. apply Hval1; [lia | exact Hnz | exact Hk].
Qed.

(** X12 (audioCallback): the audio path of a device that has a client
    bound, has no input device of its own and is not itself a slave, with a
    buffer size that is not negative.  Assume that entry [i] of the input
    routing table is for the source channel [i] (the active input channels
    are the first ones), that every active channel of either direction has
    its view inside the temporary buffer, that the views of a direction do
    not overlap, that the slots routed with a stride other than 0 exist in
    the buffer lists of the OS, and that two output channels share no slot.
    Then the callback completes; the client is called once with the input
    channels de-interleaved from the input buffer list (sample [k] of
    channel [i] is the slot of sample [k] that the routing entry [i]
    names); every sample that the client leaves in an output channel is
    written to the slot that the routing entry of the channel names; and
    the slots of the output buffer list that no entry names are left as
    they were. *)
Theorem audioCallback_client_round_trip (d : CoreAudioInternal)
  (cb : AudioIODeviceCallback) (ind outd : list (list Z))
  (inInfo outInfo : Z -> CallbackDetailsForChannel) (inOff outOff : Z -> Z) :
  callback d = Some cb -> inputDevice d = None -> isSlaveDevice d = false ->
  0 <= bufferSize d ->
  (forall i, 0 <= i < numInputChans d ->
     inputChannelMapped d ind (Z.of_nat (length (audioBuffer d))) i
       (inInfo i) (inOff i)
     /\ sourceChannelNum (inInfo i) = i) ->
  (forall i j, 0 <= i < numInputChans d -> 0 <= j < numInputChans d -> i <> j ->
     viewsDisjoint (inOff i) (inOff j) (bufferSize d)) ->
  (forall j, 0 <= j < numOutputChans d ->
     outputChannelMapped d outd (Z.of_nat (length (audioBuffer d))) j
       (outInfo j) (outOff j)) ->
  (forall i j, 0 <= i < numOutputChans d -> 0 <= j < numOutputChans d -> i <> j ->
     viewsDisjoint (outOff i) (outOff j) (bufferSize d)) ->
  (forall i j, 0 <= i < numOutputChans d -> 0 <= j < numOutputChans d -> i <> j ->
     dataStrideSamples (outInfo i) <> 0 -> dataStrideSamples (outInfo j) <> 0 ->
     routesApart (bufferSize d) (outInfo i) (outInfo j)) ->
  exists d' out ins outs,
    audioCallback ind outd d
    = Some (d', out, [IOCallback (cb_id cb) ins (bufferSize d)])
    /\ (forall i k, 0 <= i < numInputChans d ->
          dataStrideSamples (inInfo i) <> 0 -> 0 <= k < bufferSize d ->
          exists chan,
            arr_get ins i = Some chan
            /\ arr_get chan k
               = arr_get (streamData ind (fst (slotOf (inInfo i) k)))
                   (snd (slotOf (inInfo i) k)))
    /\ (forall j k chan v, 0 <= j < numOutputChans d ->
          dataStrideSamples (outInfo j) <> 0 -> 0 <= k < bufferSize d ->
          arr_get (cb_io cb ins outs (bufferSize d)) j = Some chan ->
          arr_get chan k = Some v ->
          arr_get (streamData out (fst (slotOf (outInfo j) k)))
            (snd (slotOf (outInfo j) k)) = Some v)
    /\ (forall s p,
          (forall j k, 0 <= j < numOutputChans d ->
             dataStrideSamples (outInfo j) <> 0 -> 0 <= k < bufferSize d ->
             (s, p) <> slotOf (outInfo j) k) ->
          arr_get (streamData out s) p = arr_get (streamData outd s) p).
Proof.
  intros Hcb Hidev Hslave Hbs Hin Hindisj Hout Houtdisj Hapart.
  unfold audioCallback. rewrite Hcb, Hidev.
  destruct (inputViews_deinterleaved d ind inInfo inOff Hbs Hin Hindisj)
    as (buf1 & Hrun1 & Hlen1 & Hins).
  rewrite Hrun1. cbn [mbind option_bind].
  cbn [isSlaveDevice inputDevice set_audioBuffer audioBuffer tempInputBuffers
         numInputChans bufferSize].
  rewrite Hslave, Hidev. cbn [negb].
  set (ins := channelViews buf1 (tempInputBuffers d) (numInputChans d)
                (bufferSize d)) in *.
  destruct (audioCallback_output_stage (set_audioBuffer buf1 d) cb ins outd
              outInfo outOff Hbs)
    as (buf2 & out & outs & Hrun2 & Hrun3 & Hval & Hkeep).
  { intros j Hj. destruct (Hout j Hj) as (H1 & H2 & H3 & H4 & H5).
    split; [exact H1 |]. split; [exact H2 |]. split; [exact H3 |].
    split; [| exact H5].
    cbn [audioBuffer set_audioBuffer bufferSize]. rewrite Hlen1. exact H4. }
  { exact Houtdisj. }
  { exact Hapart. }
  rewrite Hrun2. cbn [mbind option_bind].
  cbn [numOutputChans set_audioBuffer] in Hrun3 |- *.
  rewrite Hrun3. cbn [mbind option_bind].
  exists (set_audioBuffer buf2 (set_audioBuffer buf1 d)), out, ins, outs.
  split; [reflexivity |]. split; [exact Hins |]. split; [exact Hval | exact Hkeep].
Qed.

Lemma stereoInfo_fits (i : Z) (bl : list (list Z)) :
  length bl = 1%nat -> streamLen bl 0 = 8 -> 0 <= i < 2 ->
  routeFits 4 (stereoInfo i) bl.
Proof.
  intros Hl Hs Hi. assert (Hcases : i = 0 \/ i = 1) by lia.
  destruct Hcases as [-> | ->]; (split; [cbn; lia |]); intros k Hk; cbn;
    rewrite Hs; lia.
Qed.

Lemma startedStereo_inputs (i : Z) :
  0 <= i < numInputChans (startedStereo 3 3) ->
  inputChannelMapped (startedStereo 3 3) stereoFrames
    (Z.of_nat (length (audioBuffer (startedStereo 3 3)))) i (stereoInfo i)
    (stereoInOff i)
  /\ sourceChannelNum (stereoInfo i) = i.
Proof.
  intros Hi. change (numInputChans (startedStereo 3 3)) with 2 in Hi.
  assert (Hcases : i = 0 \/ i = 1) by lia.
  destruct Hcases as [-> | ->]; (split; [| reflexivity]);
    (split; [vm_compute; reflexivity |]); (split; [vm_compute; reflexivity |]);
    (split; [vm_compute; discriminate |]); (split; [vm_compute; discriminate |]);
    intros _; change (bufferSize (startedStereo 3 3)) with 4;
    apply stereoInfo_fits; try reflexivity; lia.
Qed.

Lemma startedStereo_outputs (j : Z) :
  0 <= j < numOutputChans (startedStereo 3 3) ->
  outputChannelMapped (startedStereo 3 3) stereoSilence
    (Z.of_nat (length (audioBuffer (startedStereo 3 3)))) j (stereoInfo j)
    (stereoOutOff j).
Proof.
  intros Hj. change (numOutputChans (startedStereo 3 3)) with 2 in Hj.
  assert (Hcases : j = 0 \/ j = 1) by lia.
  destruct Hcases as [-> | ->];
    (split; [vm_compute; reflexivity |]); (split; [vm_compute; reflexivity |]);
    (split; [vm_compute; discriminate |]); (split; [vm_compute; discriminate |]);
    intros _; change (bufferSize (startedStereo 3 3)) with 4;
    apply stereoInfo_fits; try reflexivity; lia.
Qed.

Lemma stereoInfo_apart (i j : Z) :
  0 <= i < 2 -> 0 <= j < 2 -> i <> j ->
  routesApart 4 (stereoInfo i) (stereoInfo j).
Proof.
  intros Hi Hj Hne k1 k2 Hk1 Hk2 Heq.
  assert (Hi' : i = 0 \/ i = 1) by lia. assert (Hj' : j = 0 \/ j = 1) by lia.
  destruct Hi' as [-> | ->], Hj' as [-> | ->]; try lia;
    unfold slotOf in Heq; cbn in Heq; injection Heq as Heq; lia.
Qed.

Lemma audioCallback_client_round_trip_witness :
  exists d' out ins,
    audioCallback stereoFrames stereoSilence (startedStereo 3 3)
    = Some (d', out,
            [IOCallback (cb_id passThrough) ins (bufferSize (startedStereo 3 3))]).
Proof.
  destruct (audioCallback_client_round_trip (startedStereo 3 3) passThrough
              stereoFrames stereoSilence stereoInfo stereoInfo
              stereoInOff stereoOutOff)
    as (d' & out & ins & outs & Hrun & _).
  - vm_compute. reflexivity.
  - vm_compute. reflexivity.
  - vm_compute. reflexivity.
  - vm_compute. discriminate.
  - exact startedStereo_inputs.
  - intros i j Hi Hj Hne. change (numInputChans (startedStereo 3 3)) with 2 in Hi, Hj.
    change (bufferSize (startedStereo 3 3)) with 4.
    unfold viewsDisjoint, stereoInOff. lia.
  - exact startedStereo_outputs.
  - intros i j Hi Hj Hne. change (numOutputChans (startedStereo 3 3)) with 2 in Hi, Hj.
    change (bufferSize (startedStereo 3 3)) with 4.
    unfold viewsDisjoint, stereoOutOff. lia.
  - intros i j Hi Hj Hne _ _.
    change (numOutputChans (startedStereo 3 3)) with 2 in Hi, Hj.
    change (bufferSize (startedStereo 3 3)) with 4.
    apply stereoInfo_apart; assumption.
  - exists d', out, ins. exact Hrun.
Defined.

Lemma audioCallback_writes_only_buffers_witness :
  audioCallback stereoFrames stereoSilence (startedStereo 3 3)
  = Some (fst (fst stereoPlayed), snd (fst stereoPlayed), snd stereoPlayed)
  /\ length (audioBuffer (fst (fst stereoPlayed)))
     = length (audioBuffer (startedStereo 3 3))
  /\ length (snd (fst stereoPlayed)) = length stereoSilence.
Proof.
  assert (H : audioCallback stereoFrames stereoSilence (startedStereo 3 3)
              = Some (fst (fst stereoPlayed), snd (fst stereoPlayed),
                      snd stereoPlayed)) by (vm_compute; reflexivity).
  split; [exact H |].
  destruct (audioCallback_writes_only_buffers _ _ _ _ _ _ H)
    as (_ & Hb & Hl & _).
  split; [exact Hb | exact Hl].
Defined.

(** X13 (audioCallback): the audio path of a pair: a master that is not a
    slave, with a client and the slave as its input device, and a slave
    with a client and no input device, both with the same buffer size,
    which is not negative.  Assume that entry [i] of the input routing
    table of the slave is for the source channel [i] (its active input
    channels are the first ones), that every active input channel of the
    slave and every active output channel of the master has its view
    inside the temporary buffer of its device, that the views of a
    direction do not overlap, that the slots routed with a stride other
    than 0 exist in the buffer lists of the OS, and that two output
    channels share no slot.  Then the callback of the slave copies the
    input channels from the buffer list of the input device to the views
    of the slave and calls nobody; the next callback of the master hands
    these views to the client as its input channels, whatever the buffer
    list of the master's own inputs holds, and writes what the client
    leaves in the output channels to the buffer list of the output
    device, leaving the slots that no entry names as they were. *)
Theorem audioCallback_pair_input_from_slave (d s : CoreAudioInternal)
  (cb cbs : AudioIODeviceCallback) (ind_s out_s ind_m outd : list (list Z))
  (inInfo outInfo : Z -> CallbackDetailsForChannel) (inOff outOff : Z -> Z) :
  callback s = Some cbs -> inputDevice s = None -> isSlaveDevice s = true ->
  callback d = Some cb -> inputDevice d = Some s -> isSlaveDevice d = false ->
  bufferSize d = bufferSize s -> 0 <= bufferSize s ->
  (forall i, 0 <= i < numInputChans s ->
     inputChannelMapped s ind_s (Z.of_nat (length (audioBuffer s))) i
       (inInfo i) (inOff i)
     /\ sourceChannelNum (inInfo i) = i) ->
  (forall i j, 0 <= i < numInputChans s -> 0 <= j < numInputChans s -> i <> j ->
     viewsDisjoint (inOff i) (inOff j) (bufferSize s)) ->
  (forall j, 0 <= j < numOutputChans d ->
     outputChannelMapped d outd (Z.of_nat (length (audioBuffer d))) j
       (outInfo j) (outOff j)) ->
  (forall i j, 0 <= i < numOutputChans d -> 0 <= j < numOutputChans d -> i <> j ->
     viewsDisjoint (outOff i) (outOff j) (bufferSize d)) ->
  (forall i j, 0 <= i < numOutputChans d -> 0 <= j < numOutputChans d -> i <> j ->
     dataStrideSamples (outInfo i) <> 0 -> dataStrideSamples (outInfo j) <> 0 ->
     routesApart (bufferSize d) (outInfo i) (outInfo j)) ->
  exists s',
    audioCallback ind_s out_s s = Some (s', out_s, [])
    /\ exists d' out ins outs,
         audioCallback ind_m outd (set_inputDevice (Some s') d)
         = Some (d', out, [IOCallback (cb_id cb) ins (bufferSize d)])
         /\ (forall i k, 0 <= i < numInputChans s ->
               dataStrideSamples (inInfo i) <> 0 -> 0 <= k < bufferSize s ->
               exists chan,
                 arr_get ins i = Some chan
                 /\ arr_get chan k
                    = arr_get (streamData ind_s (fst (slotOf (inInfo i) k)))
                        (snd (slotOf (inInfo i) k)))
         /\ (forall j k chan v, 0 <= j < numOutputChans d ->
               dataStrideSamples (outInfo j) <> 0 -> 0 <= k < bufferSize d ->
               arr_get (cb_io cb ins outs (bufferSize d)) j = Some chan ->
               arr_get chan k = Some v ->
               arr_get (streamData out (fst (slotOf (outInfo j) k)))
                 (snd (slotOf (outInfo j) k)) = Some v)
         /\ (forall s0 p,
               (forall j k, 0 <= j < numOutputChans d ->
                  dataStrideSamples (outInfo j) <> 0 -> 0 <= k < bufferSize d ->
                  (s0, p) <> slotOf (outInfo j) k) ->
               arr_get (streamData out s0) p = arr_get (streamData outd s0) p).
Proof.
  intros Hcbs Hidevs Hslaves Hcb Hidev Hslave Hsame Hbs Hin Hindisj Hout
    Houtdisj Hapart.
  destruct (inputViews_deinterleaved s ind_s inInfo inOff Hbs Hin Hindisj)
    as (buf1 & Hrun1 & Hlen1 & Hins).
  exists (set_audioBuffer buf1 s). split.
  { rewrite (audioCallback_slave s cbs ind_s out_s Hcbs Hidevs Hslaves), Hrun1.
    reflexivity. }
  unfold audioCallback.
  cbn [callback inputDevice isSlaveDevice set_inputDevice mbind option_bind].
  rewrite Hcb, Hslave. cbn [negb].
  cbn [audioBuffer tempInputBuffers numInputChans bufferSize set_audioBuffer
         set_inputDevice].
  rewrite <- Hsame in Hins.
  set (ins := channelViews buf1 (tempInputBuffers s) (numInputChans s)
                (bufferSize d)) in *.
  destruct (audioCallback_output_stage
              (set_inputDevice (Some (set_audioBuffer buf1 s)) d) cb ins outd
              outInfo outOff)
    as (buf2 & out & outs & Hrun2 & Hrun3 & Hval & Hkeep).
  { cbn [bufferSize set_inputDevice]. rewrite Hsame. exact Hbs. }
  { exact Hout. }
  { exact Houtdisj. }
  { exact Hapart. }
  cbn [bufferSize set_inputDevice numOutputChans] in Hrun2, Hrun3, Hval, Hkeep.
  rewrite Hrun2. cbn [mbind option_bind].
  cbn [numOutputChans set_audioBuffer set_inputDevice] in Hrun3 |- *.
  rewrite Hrun3. cbn [mbind option_bind].
  eexists _, out, ins, outs.
  split; [reflexivity |]. split; [| split; [exact Hval | exact Hkeep]].
  intros i k Hi Hnz Hk. apply Hins; [exact Hi | exact Hnz |].
  rewrite Hsame. exact Hk.
Qed.

Lemma startedPairSlave_inputs (i : Z) :
  0 <= i < numInputChans startedPairSlave ->
  inputChannelMapped startedPairSlave stereoFrames
    (Z.of_nat (length (audioBuffer startedPairSlave))) i (stereoInfo i)
    (stereoInOff i)
  /\ sourceChannelNum (stereoInfo i) = i.
Proof.
  intros Hi. change (numInputChans startedPairSlave) with 2 in Hi.
  assert (Hcases : i = 0 \/ i = 1) by lia.
  destruct Hcases as [-> | ->]; (split; [| reflexivity]);
    (split; [vm_compute; reflexivity |]); (split; [vm_compute; reflexivity |]);
    (split; [vm_compute; discriminate |]); (split; [vm_compute; discriminate |]);
    intros _; change (bufferSize startedPairSlave) with 4;
    apply stereoInfo_fits; try reflexivity; lia.
Qed.

Lemma startedPairMaster_outputs (j : Z) :
  0 <= j < numOutputChans startedPairMaster ->
  outputChannelMapped startedPairMaster stereoSilence
    (Z.of_nat (length (audioBuffer startedPairMaster))) j (stereoInfo j)
    (stereoOutOff j).
Proof.
  intros Hj. change (numOutputChans startedPairMaster) with 2 in Hj.
  assert (Hcases : j = 0 \/ j = 1) by lia.
  destruct Hcases as [-> | ->];
    (split; [vm_compute; reflexivity |]); (split; [vm_compute; reflexivity |]);
    (split; [vm_compute; discriminate |]); (split; [vm_compute; discriminate |]);
    intros _; change (bufferSize startedPairMaster) with 4;
    apply stereoInfo_fits; try reflexivity; lia.
Qed.

Lemma audioCallback_pair_input_from_slave_witness :
  exists s',
    audioCallback stereoFrames [] startedPairSlave = Some (s', [], [])
    /\ exists d' out ins,
         audioCallback [] stereoSilence
           (set_inputDevice (Some s') startedPairMaster)
         = Some (d', out,
                 [IOCallback (cb_id passThrough) ins
                    (bufferSize startedPairMaster)]).
Proof.
  destruct (audioCallback_pair_input_from_slave startedPairMaster
              startedPairSlave passThrough passThrough stereoFrames []
              [] stereoSilence stereoInfo stereoInfo stereoInOff stereoOutOff)
    as (s' & Hs & d' & out & ins & outs & Hrun & _).
  - vm_compute. reflexivity.
  - vm_compute. reflexivity.
  - vm_compute. reflexivity.
  - vm_compute. reflexivity.
  - vm_compute. reflexivity.
  - vm_compute. reflexivity.
  - vm_compute. reflexivity.
  - vm_compute. discriminate.
  - exact startedPairSlave_inputs.
  - intros i j Hi Hj Hne. change (numInputChans startedPairSlave) with 2 in Hi, Hj.
    change (bufferSize startedPairSlave) with 4.
    unfold viewsDisjoint, stereoInOff. lia.
  - exact startedPairMaster_outputs.
  - intros i j Hi Hj Hne. change (numOutputChans startedPairMaster) with 2 in Hi, Hj.
    change (bufferSize startedPairMaster) with 4.
    unfold viewsDisjoint, stereoOutOff. lia.
  - intros i j Hi Hj Hne _ _.
    change (numOutputChans startedPairMaster) with 2 in Hi, Hj.
    change (bufferSize startedPairMaster) with 4.
    apply stereoInfo_apart; assumption.
  - exists s'. split; [exact Hs |]. exists d', out, ins. exact Hrun.
Defined.

(** ** Data sources *)

Lemma to_unsigned_nonneg (z : Z) : 0 <= z < 2 ^ 32 -> to_unsigned z = z.
Proof. intros H. unfold to_unsigned, int_bits. apply Z.mod_small. exact H. Qed.

Lemma to_unsigned_neg (z : Z) : - 2 ^ 31 <= z < 0 -> to_unsigned z = z + 2 ^ 32.
Proof.
  intros H. unfold to_unsigned, int_bits. symmetry.
  apply (Z.mod_unique z (2 ^ 32) (-1) (z + 2 ^ 32)); lia.
Qed.

Lemma setCurrentSourceIndex_in_range_aux (v : OSView) (index : Z) (input : bool)
  (d : CoreAudioInternal) (types : list Z) :
  deviceID d <> 0 -> os_DataSources v input = Some types ->
  Z.of_nat (length types) < 2 ^ 31 -> - 2 ^ 31 <= index < 2 ^ 31 ->
  setCurrentSourceIndex v index input d = Some (arr_get types index).
Proof.
  intros Hid Htypes Hlen Hindex. unfold setCurrentSourceIndex, getAllDataSourcesForDevice.
  destruct (Z.eqb_spec (deviceID d) 0) as [| _]; [contradiction |].
  rewrite Htypes. rewrite (to_unsigned_nonneg (Z.of_nat (length types))) by lia.
  destruct (Z.lt_ge_cases index 0) as [Hneg | Hpos].
  - rewrite to_unsigned_neg by lia.
    destruct (Z.ltb_spec (index + 2 ^ 32) (Z.of_nat (length types))); [lia |].
    unfold arr_get. destruct (Z.leb_spec 0 index); [lia | reflexivity].
  - rewrite to_unsigned_nonneg by lia.
    destruct (Z.ltb_spec index (Z.of_nat (length types))) as [Hlt | Hge].
    + destruct (arr_get types index) as [t |] eqn:Ht; [reflexivity |].
      unfold arr_get in Ht. destruct (Z.leb_spec 0 index); [| lia].
      apply lookup_ge_None in Ht. lia.
    + unfold arr_get. destruct (Z.leb_spec 0 index); [| reflexivity].
      rewrite (proj2 (lookup_ge_None types (Z.to_nat index))) by lia.
      reflexivity.
Qed.

(** X14 (setCurrentSourceIndex): for an [int] index and a device with an
    id other than 0 whose sources the OS lists, the function asks the OS
    for the source at position [index] of the list when the index is in
    the list, and for nothing when the index is negative or beyond the
    list; it never reads outside the list. *)
Theorem setCurrentSourceIndex_in_range (v : OSView) (index : Z) (input : bool)
  (d : CoreAudioInternal) (types : list Z) :
  deviceID d <> 0 -> os_DataSources v input = Some types ->
  Z.of_nat (length types) < 2 ^ 31 -> - 2 ^ 31 <= index < 2 ^ 31 ->
  setCurrentSourceIndex v index input d = Some (arr_get types index).
Proof. apply setCurrentSourceIndex_in_range_aux. Qed.

Lemma setCurrentSourceIndex_in_range_witness :
  setCurrentSourceIndex twoSourcesView 1 true (initialCore 1)
  = Some (arr_get [10; 20] 1)
  /\ setCurrentSourceIndex twoSourcesView (-1) true (initialCore 1)
     = Some (arr_get [10; 20] (-1)).
Proof.
  split.
  - apply (setCurrentSourceIndex_in_range twoSourcesView 1 true (initialCore 1)
             [10; 20]); [cbn; lia | reflexivity | cbn; lia | lia].
  - apply (setCurrentSourceIndex_in_range twoSourcesView (-1) true
             (initialCore 1) [10; 20]); [cbn; lia | reflexivity | cbn; lia | lia].
Defined.

(** The loop of [getSources] on the sources that remain. *)
Lemma getSources_fold (nameForID : Z -> option string) (types : list Z) :
  forall acc : list string,
    fold_left (fun s t => match nameForID t with
                          | Some name => Array_add name s
                          | None => s
                          end) types acc
    = (acc ++ omap nameForID types)%list.
Proof.
  induction types as [| t types IH]; intros acc; cbn [fold_left omap].
  - rewrite app_nil_r. reflexivity.
  - rewrite IH. unfold Array_add. cbn [list_omap]. destruct (nameForID t).
    + rewrite <- app_assoc. reflexivity.
    + reflexivity.
Qed.

Lemma omap_all_named (nameForID : Z -> option string) (types : list Z) :
  Forall (fun t => nameForID t <> None) types ->
  forall (i : nat) (name : string),
    omap nameForID types !! i = Some name ->
    exists t, types !! i = Some t /\ nameForID t = Some name.
Proof.
  induction types as [| t types IH]; intros Hall i name; cbn [omap list_omap].
  - discriminate.
  - apply Forall_cons in Hall as [Ht Hall].
    destruct (nameForID t) as [n |] eqn:Hn; [| contradiction].
    destruct i as [| i]; cbn.
    + intros H. injection H as <-. exists t. split; [reflexivity | exact Hn].
    + apply (IH Hall).
Qed.

(** X15 (getSources, setCurrentSourceIndex): when the OS gives a name for
    every source of the device, the names that [getSources] lists are in
    the order of the sources, and [setCurrentSourceIndex] with the position
    of a name in that list asks the OS for the source that has this
    name. *)
Theorem getSources_positions_select (v : OSView)
  (nameForID : bool -> Z -> option string) (input : bool)
  (d : CoreAudioInternal) (types : list Z) (i : Z) (name : string) :
  deviceID d <> 0 -> os_DataSources v input = Some types ->
  Z.of_nat (length types) < 2 ^ 31 ->
  Forall (fun t => nameForID input t <> None) types ->
  arr_get (getSources v nameForID input d) i = Some name ->
  exists t, setCurrentSourceIndex v i input d = Some (Some t)
            /\ nameForID input t = Some name.
Proof.
  intros Hid Htypes Hlen Hall Hget.
  unfold getSources, getAllDataSourcesForDevice in Hget.
  destruct (Z.eqb_spec (deviceID d) 0) as [| _]; [contradiction |].
  rewrite Htypes, getSources_fold in Hget. cbn [app] in Hget.
  apply arr_get_Some in Hget as [Hi Hget].
  destruct (omap_all_named _ _ Hall _ _ Hget) as (t & Ht & Hname).
  exists t. split; [| exact Hname].
  pose proof (lookup_lt_Some _ _ _ Ht) as Hlt.
  rewrite (setCurrentSourceIndex_in_range_aux v i input d types Hid Htypes Hlen)
    by lia.
  f_equal. apply arr_get_Some. split; [exact Hi | exact Ht].
Qed.

Lemma getSources_positions_select_witness :
  exists t, setCurrentSourceIndex twoSourcesView 1 true (initialCore 1)
            = Some (Some t)
            /\ twoSourceNames true t = Some "Microphone".
Proof.
  apply (getSources_positions_select twoSourcesView twoSourceNames true
           (initialCore 1) [10; 20] 1 "Microphone").
  - cbn. lia.
  - reflexivity.
  - cbn. lia.
  - repeat constructor; discriminate.
  - reflexivity.
Defined.

(** ** Construction and related devices *)

Lemma new_CoreAudioInternal_spec (os : OS) (now : nat) (id : Z) :
  viewFits (os id now) ->
  exists d,
    new_CoreAudioInternal os now id = Some d
    /\ error d = (if id =? 0 then "can't open device" else "")
    /\ deviceID d = id /\ callback d = None /\ started d = false
    /\ inputDevice d = None /\ isSlaveDevice d = false.
Proof.
  intros Hfit. unfold new_CoreAudioInternal. cbn [deviceID initialCore].
  destruct (id =? 0).
  - eexists. split; [reflexivity |]. repeat split; reflexivity.
  - destruct (updateDetailsFromDevice_total (os id now) (initialCore id) Hfit)
      as (d & Hd); [cbn; unfold maxNumChans; lia | cbn; unfold maxNumChans; lia |].
    exists d. split; [exact Hd |].
    destruct (updateDetailsFromDevice_frame _ _ _ Hd) as [Hsame _].
    destruct Hsame as (He & Hcb & Hidev & Hsl & Hid & Hst & _).
    rewrite He, Hcb, Hidev, Hsl, Hid, Hst. repeat split; reflexivity.
Qed.

(** X16 (CoreAudioInternal constructor): for an OS whose answers fit the
    tables of the device, the constructor completes for every id; it
    reports the error "can't open device" for the id 0 and no error for any
    other id, whatever the OS answers for it (also when every read fails).
    The new core has no client, is not started and has no slave. *)
Theorem new_CoreAudioInternal_error_only_for_id_0 (os : OS) (now : nat) (id : Z) :
  viewFits (os id now) ->
  exists d,
    new_CoreAudioInternal os now id = Some d
    /\ error d = (if id =? 0 then "can't open device" else "")
    /\ deviceID d = id /\ callback d = None /\ started d = false
    /\ inputDevice d = None /\ isSlaveDevice d = false.
Proof. apply new_CoreAudioInternal_spec. Qed.

Lemma deadView_fits : viewFits deadView.
Proof. split; [discriminate |]. intros input streams Hs. discriminate. Qed.

Lemma new_CoreAudioInternal_error_only_for_id_0_witness :
  exists d, new_CoreAudioInternal deadOS 0 5 = Some d /\ error d = "".
Proof.
  destruct (new_CoreAudioInternal_error_only_for_id_0 deadOS 0%nat 5 deadView_fits)
    as (d & Hd & He & _).
  exists d. split; [exact Hd | exact He].
Defined.

Lemma acceptsRelated_test (d c : CoreAudioInternal) :
  negb (Bool.eqb (isInputOnly d) (isInputOnly c))
  || (namedChannels d =? 0) || (namedChannels c =? 0) = true
  <-> acceptsRelated d c.
Proof.
  unfold acceptsRelated. rewrite !orb_true_iff, negb_true_iff, !Z.eqb_eq.
  destruct (isInputOnly d), (isInputOnly c); cbn; intuition congruence.
Qed.

Lemma scanRelated_spec (os : OS) (now : nat) (d : CoreAudioInternal)
  (devs : list Z) :
  (forall id, viewFits (os id now)) ->
  exists r,
    scanRelated (new_CoreAudioInternal os now) d devs = Some r
    /\ match r with
       | Some c =>
           exists pre post,
             devs = (pre ++ deviceID c :: post)%list
             /\ deviceID c <> deviceID d /\ deviceID c <> 0
             /\ new_CoreAudioInternal os now (deviceID c) = Some c
             /\ error c = "" /\ acceptsRelated d c
             /\ forall dev c', In dev pre -> dev <> deviceID d -> dev <> 0 ->
                  new_CoreAudioInternal os now dev = Some c' ->
                  ~ acceptsRelated d c'
       | None =>
           forall dev c', In dev devs -> dev <> deviceID d -> dev <> 0 ->
             new_CoreAudioInternal os now dev = Some c' -> ~ acceptsRelated d c'
       end.
Proof.
  intros Hfit. induction devs as [| dev devs IH]; cbn [scanRelated].
  - exists None. split; [reflexivity |]. intros dev c' [].
  - destruct IH as (r & Hr & Hspec).
    assert (Hskip : (dev = deviceID d \/ dev = 0) ->
              exists r',
                scanRelated (new_CoreAudioInternal os now) d devs = Some r'
                /\ match r' with
                   | Some c =>
                       exists pre post,
                         (dev :: devs)%list = (pre ++ deviceID c :: post)%list
                         /\ deviceID c <> deviceID d /\ deviceID c <> 0
                         /\ new_CoreAudioInternal os now (deviceID c) = Some c
                         /\ error c = "" /\ acceptsRelated d c
                         /\ forall dev0 c', In dev0 pre -> dev0 <> deviceID d ->
                              dev0 <> 0 ->
                              new_CoreAudioInternal os now dev0 = Some c' ->
                              ~ acceptsRelated d c'
                   | None =>
                       forall dev0 c', In dev0 (dev :: devs) ->
                         dev0 <> deviceID d -> dev0 <> 0 ->
                         new_CoreAudioInternal os now dev0 = Some c' ->
                         ~ acceptsRelated d c'
                   end).
    { intros Hself. exists r. split; [exact Hr |]. destruct r as [c |].
      - destruct Hspec as (pre & post & Hd & H1 & H2 & H3 & H4 & H5 & H6).
        exists (dev :: pre)%list, post. split; [rewrite Hd; reflexivity |].
        repeat (split; [assumption |]).
        intros dev0 c' [<- | Hin] Hn1 Hn2; [destruct Hself; contradiction |].
        apply H6; assumption.
      - intros dev0 c' [<- | Hin] Hn1 Hn2; [destruct Hself; contradiction |].
        apply Hspec; assumption. }
    destruct (Z.eqb_spec dev (deviceID d)) as [Hs | Hns]; cbn [negb andb];
      [apply Hskip; left; exact Hs |].
    destruct (Z.eqb_spec dev 0) as [Hz | Hnz]; cbn [negb];
      [apply Hskip; right; exact Hz |].
    destruct (new_CoreAudioInternal_spec os now dev (Hfit dev))
      as (c & Hc & He & Hid & _).
    rewrite Hc. cbn [mbind option_bind].
    destruct (Z.eqb_spec dev 0) as [| _]; [contradiction |].
    rewrite He. cbn [String.eqb].
    change (Z.of_nat (length (inChanNames d)) + Z.of_nat (length (outChanNames d)))
      with (namedChannels d).
    change (Z.of_nat (length (inChanNames c)) + Z.of_nat (length (outChanNames c)))
      with (namedChannels c).
    change ((0 <? Z.of_nat (length (inChanNames d)))
            && (Z.of_nat (length (outChanNames d)) =? 0)) with (isInputOnly d).
    change ((0 <? Z.of_nat (length (inChanNames c)))
            && (Z.of_nat (length (outChanNames c)) =? 0)) with (isInputOnly c).
    destruct (negb (Bool.eqb (isInputOnly d) (isInputOnly c))
              || (namedChannels d =? 0) || (namedChannels c =? 0)) eqn:Htest.
    + apply acceptsRelated_test in Htest.
      exists (Some c). split; [reflexivity |].
      exists [], devs. rewrite Hid. cbn [app].
      split; [reflexivity |]. split; [exact Hns |]. split; [exact Hnz |].
      split; [exact Hc |]. split; [exact He |]. split; [exact Htest |].
      intros dev0 c' [].
    + assert (Hno : ~ acceptsRelated d c).
      { intros Ha. apply acceptsRelated_test in Ha. congruence. }
      exists r. split; [exact Hr |]. destruct r as [c0 |].
      * destruct Hspec as (pre & post & Hd & H1 & H2 & H3 & H4 & H5 & H6).
        exists (dev :: pre)%list, post. split; [rewrite Hd; reflexivity |].
        repeat (split; [assumption |]).
        intros dev0 c' [<- | Hin] Hn1 Hn2 Hc'.
        -- rewrite Hc in Hc'. injection Hc' as <-. exact Hno.
        -- apply (H6 dev0 c'); assumption.
      * intros dev0 c' [<- | Hin] Hn1 Hn2 Hc'.
        -- rewrite Hc in Hc'. injection Hc' as <-. exact Hno.
        -- apply (Hspec dev0 c'); assumption.
Qed.

(** X17 (getRelatedDevice): for an OS whose answers fit the tables, the
    search completes.  A core that it returns is the one constructed for
    the first id of the list of related devices that is neither the id of
    the device nor 0 and for which one of the two devices is input-only
    and the other is not, or one of the two has no channel names at all;
    it has no error.  It returns the null pointer exactly when the device
    has the id 0, the list cannot be read, or no id of the list passes
    that test. *)
Theorem getRelatedDevice_first_match (os : OS) (now : nat)
  (related : option (list Z)) (d : CoreAudioInternal) :
  (forall id, viewFits (os id now)) ->
  exists r,
    getRelatedDevice related (new_CoreAudioInternal os now) d = Some r
    /\ match r with
       | Some c =>
           deviceID d <> 0
           /\ exists pre post,
                related = Some (pre ++ deviceID c :: post)%list
                /\ deviceID c <> deviceID d /\ deviceID c <> 0
                /\ new_CoreAudioInternal os now (deviceID c) = Some c
                /\ error c = "" /\ acceptsRelated d c
                /\ forall dev c', In dev pre -> dev <> deviceID d -> dev <> 0 ->
                     new_CoreAudioInternal os now dev = Some c' ->
                     ~ acceptsRelated d c'
       | None =>
           deviceID d = 0 \/ related = None
           \/ exists devs,
                related = Some devs
                /\ forall dev c', In dev devs -> dev <> deviceID d -> dev <> 0 ->
                     new_CoreAudioInternal os now dev = Some c' ->
                     ~ acceptsRelated d c'
       end.
Proof.
  intros Hfit. unfold getRelatedDevice.
  destruct (Z.eqb_spec (deviceID d) 0) as [Hz | Hnz].
  { exists None. split; [reflexivity | left; exact Hz]. }
  destruct related as [devs |].
  2:{ exists None. split; [reflexivity | right; left; reflexivity]. }
  destruct (Z.ltb_spec 0 (Z.of_nat (length devs))) as [Hpos | Hempty].
  - destruct (scanRelated_spec os now d devs Hfit) as (r & Hr & Hspec).
    exists r. split; [exact Hr |]. destruct r as [c |].
    + split; [exact Hnz |].
      destruct Hspec as (pre & post & Hd & Hrest). exists pre, post.
      split; [rewrite Hd; reflexivity | exact Hrest].
    + right. right. exists devs. split; [reflexivity | exact Hspec].
  - exists None. split; [reflexivity |]. right. right. exists devs.
    split; [reflexivity |]. destruct devs; [intros dev c' [] | cbn in Hempty; lia].
Qed.

Lemma micAndOutputOS_fits (id : Z) : viewFits (micAndOutputOS id 0).
Proof.
  unfold micAndOutputOS. destruct (id =? 2); (split; [discriminate |]);
    intros [|] streams Hs; cbn in Hs; try discriminate;
    injection Hs as <-; vm_compute; discriminate.
Qed.

Lemma getRelatedDevice_first_match_witness :
  exists r,
    getRelatedDevice (Some [1; 0; 2]) (new_CoreAudioInternal micAndOutputOS 0)
      twoRangeCore = Some r.
Proof.
  destruct (getRelatedDevice_first_match micAndOutputOS 0%nat (Some [1; 0; 2])
              twoRangeCore micAndOutputOS_fits) as (r & Hr & _).
  exists r. exact Hr.
Defined.

(** ** The facade: start, stop and what the client is told *)

(** X18 (CoreAudioIODevice::stop): [stop] returns at once.  If the facade
    is started it tells [audioDeviceStopped] to the client that the core
    has bound, if there is one, and to nobody else; it unbinds the client
    of every device of the chain and leaves every device as started as it
    was.  A second [stop] tells nothing and changes nothing. *)
Theorem facade_stop_tells_the_client_once (os : OS) (now : nat)
  (f : CoreAudioIODevice) :
  fst (fst (facade_stop os now f)) = now
  /\ snd (facade_stop os now f)
     = (if isStarted f
        then match internal f with
             | Some d => match callback d with
                         | Some c => [Stopped (cb_id c)]
                         | None => []
                         end
             | None => []
             end
        else [])
  /\ facade_stop os now (snd (fst (facade_stop os now f)))
     = (now, snd (fst (facade_stop os now f)), [])
  /\ (forall d, internal f = Some d -> isStarted f = true ->
        exists d1,
          internal (snd (fst (facade_stop os now f))) = Some d1
          /\ chainAll (fun x => callback x = None) d1
          /\ chainStarted d1 = chainStarted d).
Proof.
  unfold facade_stop at 1 2 4 5 6.
  destruct (internal f) as [d |] eqn:Hint.
  - destruct (isStarted f) eqn:Hst.
    + destruct (stop_leave_running os d now) as (Ht & Hch & Hall).
      destruct (stop os true now d) as [now1 d1]. cbn [fst snd] in *. subst now1.
      split; [reflexivity |]. split; [reflexivity |]. split.
      * unfold facade_stop. cbn [internal isStarted set_internal set_isStarted].
        reflexivity.
      * intros d0 Hd0 _. injection Hd0 as <-. exists d1.
        split; [reflexivity |]. split; [exact Hall | exact Hch].
    + cbn [fst snd]. split; [reflexivity |]. split; [reflexivity |]. split.
      * unfold facade_stop. rewrite Hint, Hst. reflexivity.
      * intros d0 _ Hd0. discriminate.
  - cbn [fst snd]. split; [reflexivity |].
    split; [destruct (isStarted f); reflexivity |]. split.
    + unfold facade_stop. rewrite Hint. reflexivity.
    + intros d0 Hd0. discriminate.
Qed.

(** X19 (CoreAudioIODevice::start): when the core cannot be started (its
    id is 0, or the OS refuses to add or to start the I/O proc), [start]
    has still told the client [audioDeviceAboutToStart] and marked the
    facade as started; no client is bound, [isPlaying] then answers
    [false] and resets the mark, and a [stop] tells the client nothing:
    the client gets no [audioDeviceStopped] for this start. *)
Theorem facade_start_refused (os : OS) (now : nat) (c : AudioIODeviceCallback)
  (f : CoreAudioIODevice) (d : CoreAudioInternal) :
  internal f = Some d -> isStarted f = false -> started d = false ->
  deviceID d = 0 \/ os_AddIOProc (os (deviceID d) now) = false
  \/ os_Start (os (deviceID d) now) = false ->
  exists f1,
    facade_start os now (Some c) f = (f1, [AboutToStart (cb_id c)])
    /\ isStarted f1 = true
    /\ internal f1 = Some (set_callback None d)
    /\ isPlaying f1 = Some (set_isStarted false f1, false)
    /\ snd (facade_stop os now f1) = [].
Proof.
  intros Hint Hst Hsd Hno. unfold facade_start. rewrite Hint, Hst. cbn [negb].
  rewrite (start_refused_aux os now (Some c) d Hsd Hno). cbn [fst].
  eexists. split; [reflexivity |].
  split; [reflexivity |]. split; [reflexivity |]. split.
  - unfold isPlaying. cbn [internal set_internal mbind option_bind callback
                             set_callback isStarted set_isStarted].
    reflexivity.
  - unfold facade_stop.
    cbn [internal set_internal isStarted set_isStarted callback set_callback].
    destruct (stop os true now (set_callback None d)). reflexivity.
Qed.

Lemma facade_start_refused_witness :
  exists f1,
    facade_start refusingOS 0 (Some passThrough) twoRangeFacade
    = (f1, [AboutToStart (cb_id passThrough)])
    /\ isStarted f1 = true
    /\ snd (facade_stop refusingOS 0 f1) = [].
Proof.
  destruct (facade_start_refused refusingOS 0%nat passThrough twoRangeFacade
              twoRangeCore) as (f1 & Hrun & Hst & _ & _ & Hstop).
  - reflexivity.
  - reflexivity.
  - vm_compute. reflexivity.
  - right. right. reflexivity.
  - exists f1. split; [exact Hrun |]. split; [exact Hst | exact Hstop].
Defined.

Lemma find_app_none {A : Type} (p : A -> bool) (l1 l2 : list A) :
  Forall (fun x => p x = false) l1 ->
  List.find p (l1 ++ l2) = List.find p l2.
Proof.
  induction l1 as [| x l1 IH]; intros H; [reflexivity |].
  apply Forall_cons in H as [Hx H]. cbn. rewrite Hx. apply IH. exact H.
Qed.

(** X20 (start, audioCallback): whatever the control thread, the I/O
    thread, the listeners and the timers do with a facade whose chain has
    not bound a client, the first thing that this client is told is
    [audioDeviceAboutToStart]: no I/O callback and no
    [audioDeviceStopped] reaches a client before it. *)
Theorem run_client_hears_AboutToStart_first (os : OS) (c : nat)
  (acts : list Action) :
  forall (now : nat) (f : CoreAudioIODevice) (e : ClientEvent),
    facadeNoClient c f ->
    List.find (fun e => Nat.eqb (eventClient e) c) (fst (run os now f acts))
    = Some e ->
    e = AboutToStart c.
Proof.
  induction acts as [| a rest IH]; intros now f e Hno; cbn [run].
  - cbn. discriminate.
  - destruct (step os now f a) as [[[now' f'] evs] |] eqn:Hstep;
      [| cbn; discriminate].
    destruct (run os now' f' rest) as [evs' r] eqn:Hrun. cbn [fst].
    assert (Hrest : forall f0 now0, facadeNoClient c f0 ->
              run os now0 f0 rest = (evs', r) ->
              List.find (fun e => Nat.eqb (eventClient e) c) evs' = Some e ->
              e = AboutToStart c).
    { intros f0 now0 Hf0 Hr Hfind. apply (IH now0 f0 e Hf0).
      rewrite Hr. exact Hfind. }
    assert (Hallowed : allowed c a ->
              List.find (fun e => Nat.eqb (eventClient e) c) (evs ++ evs')
              = Some e -> e = AboutToStart c).
    { intros Ha. destruct (step_noClient os c now now' f f' a evs Ha Hno Hstep)
        as [Hno' Hevs].
      rewrite find_app_none.
      - apply (Hrest f' now' Hno' Hrun).
      - apply Forall_forall. intros x Hx.
        rewrite Forall_forall in Hevs. apply Nat.eqb_neq. apply Hevs.
        exact Hx. }
    destruct a as [[cb |] | | | | | | | | | |]; try (apply Hallowed; exact I).
    destruct (Nat.eq_dec (cb_id cb) c) as [Heq | Hne]; [| apply Hallowed; exact Hne].
    cbn [step] in Hstep. unfold facade_start in Hstep.
    destruct (internal f) as [d |] eqn:Hint.
    + destruct (isStarted f); cbn [negb] in Hstep.
      * injection Hstep as <- <- <-. cbn [app]. apply (Hrest f now Hno Hrun).
      * injection Hstep as <- <- <-. cbn [app List.find eventClient].
        rewrite Heq, Nat.eqb_refl. intros H. injection H as <-. reflexivity.
    + injection Hstep as <- <- <-. cbn [app]. apply (Hrest f now Hno Hrun).
Qed.

Lemma run_client_hears_AboutToStart_first_witness :
  facadeNoClient 7 twoRangeFacade
  /\ forall e,
       List.find (fun e => Nat.eqb (eventClient e) 7)
         (fst (run twoRangeOS 0 twoRangeFacade
                 [ActStart (Some passThrough); ActStop]))
       = Some e ->
       e = AboutToStart 7.
Proof.
  assert (H : facadeNoClient 7 twoRangeFacade).
  { unfold facadeNoClient. cbn [internal twoRangeFacade].
    apply noClient_unfold. split.
    - intros cb Hcb. vm_compute in Hcb. discriminate.
    - replace (inputDevice twoRangeCore) with (@None CoreAudioInternal)
        by (vm_compute; reflexivity).
      exact I. }
  split; [exact H |]. intros e.
  apply (run_client_hears_AboutToStart_first twoRangeOS 7%nat
           [ActStart (Some passThrough); ActStop] 0%nat twoRangeFacade e H).
Defined.

(** ** The channel names of a pair *)

Lemma new_CoreAudioInternal_refresh (os : OS) (now : nat) (id : Z)
  (d : CoreAudioInternal) :
  id <> 0 -> new_CoreAudioInternal os now id = Some d ->
  updateDetailsFromDevice (os id now) (initialCore id) = Some d.
Proof.
  intros Hid. unfold new_CoreAudioInternal. cbn [deviceID initialCore].
  destruct (Z.eqb_spec id 0); [contradiction |]. auto.
Qed.

(** X21 (CoreAudioIODevice constructor, getInputChannelNames,
    getOutputChannelNames): a facade made for an output device and a
    different input device (both ids other than 0, the answers of the OS
    fitting the tables) is constructed, and it has the input channel names
    of the input device and the output channel names of the output device:
    ["input 1"], ... for the channels of the input configuration of the
    one and ["output 1"], ... for the channels of the output configuration
    of the other. *)
Theorem CoreAudioIODevice_new_pair_names (os : OS) (now : nat) (name : string)
  (inputDeviceId inputIndex_ outputDeviceId outputIndex_ : Z) :
  outputDeviceId <> 0 -> outputDeviceId <> inputDeviceId ->
  inputDeviceId <> 0 ->
  viewFits (os outputDeviceId now) -> viewFits (os inputDeviceId now) ->
  exists f,
    CoreAudioIODevice_new (new_CoreAudioInternal os now) name inputDeviceId
      inputIndex_ outputDeviceId outputIndex_ = Some f
    /\ getInputChannelNames f
       = Some (namesOfConfiguration "input "
                 (os_StreamConfiguration (os inputDeviceId now) true))
    /\ getOutputChannelNames f
       = Some (namesOfConfiguration "output "
                 (os_StreamConfiguration (os outputDeviceId now) false)).
Proof.
  intros Hout Hne Hin Hfo Hfi.
  destruct (new_CoreAudioInternal_spec os now outputDeviceId Hfo)
    as (master & Hm & Hem & Hidm & _).
  destruct (new_CoreAudioInternal_spec os now inputDeviceId Hfi)
    as (slave & Hs & Hes & Hids & _).
  destruct (Z.eqb_spec outputDeviceId 0) as [| _]; [contradiction |].
  destruct (Z.eqb_spec inputDeviceId 0) as [| _]; [contradiction |].
  pose proof (new_CoreAudioInternal_refresh _ _ _ _ Hout Hm) as Hrm.
  pose proof (new_CoreAudioInternal_refresh _ _ _ _ Hin Hs) as Hrs.
  destruct (updateDetailsFromDevice_names _ _ _ Hrm) as [_ Hnm];
    [cbn; exact Hout |].
  destruct (updateDetailsFromDevice_names _ _ _ Hrs) as [Hns _];
    [cbn; exact Hin |].
  unfold CoreAudioIODevice_new.
  destruct (Z.eqb_spec outputDeviceId 0) as [| _]; [contradiction |].
  destruct (Z.eqb_spec outputDeviceId inputDeviceId) as [| _]; [contradiction |].
  destruct (Z.eqb_spec inputDeviceId 0) as [| _]; [contradiction |].
  cbn [orb negb]. rewrite Hm. cbn [mbind option_bind]. rewrite Hem.
  cbn [isNotEmpty String.eqb negb]. rewrite Hs. cbn [mbind option_bind].
  eexists. split; [reflexivity |].
  unfold getInputChannelNames, getOutputChannelNames.
  cbn [internal mbind option_bind inputDevice set_inputDevice inChanNames
         outChanNames set_isSlaveDevice].
  rewrite Hns, Hnm. split; reflexivity.
Qed.

Lemma CoreAudioIODevice_new_pair_names_witness :
  exists f,
    CoreAudioIODevice_new (new_CoreAudioInternal micAndOutputOS 0) "pair" 2 0 1 0
    = Some f
    /\ getInputChannelNames f
       = Some (namesOfConfiguration "input "
                 (os_StreamConfiguration (micAndOutputOS 2 0) true)).
Proof.
  destruct (CoreAudioIODevice_new_pair_names micAndOutputOS 0%nat "pair" 2 0 1 0)
    as (f & Hf & Hin & _).
  - lia.
  - lia.
  - lia.
  - apply micAndOutputOS_fits.
  - apply micAndOutputOS_fits.
  - exists f. split; [exact Hf | exact Hin].
Defined.

(** ** The registry *)



Lemma scanIdsDown_spec (ids : list Z) (dev : Z) (n : nat) :
  (n <= length ids)%nat ->
  0 <= scanIdsDown ids n dev
  /\ (scanIdsDown ids n dev < Z.of_nat n \/ scanIdsDown ids n dev = 0)
  /\ ((exists k, (k < n)%nat /\ ids !! k = Some dev) ->
      arr_get ids (scanIdsDown ids n dev) = Some dev
      /\ forall k, scanIdsDown ids n dev < k < Z.of_nat n ->
           arr_get ids k <> Some dev)
  /\ ((forall k, (k < n)%nat -> ids !! k <> Some dev) ->
      scanIdsDown ids n dev = 0).
Proof.
  induction n as [| n IH]; intros Hn; cbn [scanIdsDown].
  - split; [lia |]. split; [right; reflexivity |]. split.
    + intros (k & Hk & _). lia.
    + intros _. reflexivity.
  - destruct (ids !! n) as [x |] eqn:Hx;
      [| apply lookup_ge_None in Hx; lia].
    assert (Hget : arr_get ids (Z.of_nat n) = Some x).
    { apply arr_get_Some. split; [lia |]. rewrite Nat2Z.id. exact Hx. }
    unfold Array_get. rewrite Hget.
    destruct (Z.eqb_spec x dev) as [-> | Hne].
    + split; [lia |]. split; [left; lia |]. split.
      * intros _. split; [exact Hget |]. intros k Hk. lia.
      * intros Hnone. exfalso. apply (Hnone n); [lia | exact Hx].
    + destruct (IH ltac:(lia)) as (H0 & Hlt & Hfound & Hnone).
      split; [exact H0 |]. split; [destruct Hlt; [left; lia | right; assumption] |].
      split.
      * intros (k & Hk & Hkd).
        assert (Hk' : (k < n)%nat).
        { destruct (Nat.eq_dec k n) as [-> | ]; [| lia]. congruence. }
        destruct (Hfound (ex_intro _ k (conj Hk' Hkd))) as [Hr Hlast].
        split; [exact Hr |]. intros k0 Hk0.
        destruct (Z.eq_dec k0 (Z.of_nat n)) as [-> | Hne0].
        -- rewrite Hget. congruence.
        -- apply Hlast. lia.
      * intros Hall. apply Hnone. intros k Hk. apply Hall. lia.
Qed.

(** X23 (getDefaultDeviceIndex): the result is never negative and, but
    for the value 0, is a position of the table of the direction.  When
    the default device of the OS is in the table, the result is the last
    position that holds it; when the default device cannot be read or is
    not in the table, the result is 0, the position of the first
    device. *)
Theorem getDefaultDeviceIndex_spec (defaultDevice : bool -> option Z)
  (t : CoreAudioIODeviceType) (forInput : bool) :
  0 <= getDefaultDeviceIndex defaultDevice t forInput
  /\ (getDefaultDeviceIndex defaultDevice t forInput
      < Z.of_nat (length (if forInput then inputIds t else outputIds t))
      \/ getDefaultDeviceIndex defaultDevice t forInput = 0)
  /\ (forall dev, defaultDevice forInput = Some dev ->
        In dev (if forInput then inputIds t else outputIds t) ->
        arr_get (if forInput then inputIds t else outputIds t)
          (getDefaultDeviceIndex defaultDevice t forInput) = Some dev
        /\ forall k, getDefaultDeviceIndex defaultDevice t forInput < k ->
             arr_get (if forInput then inputIds t else outputIds t) k
             <> Some dev)
  /\ (defaultDevice forInput = None
      \/ (exists dev, defaultDevice forInput = Some dev
                      /\ ~ In dev (if forInput then inputIds t else outputIds t)) ->
      getDefaultDeviceIndex defaultDevice t forInput = 0).
Proof.
  unfold getDefaultDeviceIndex.
  set (ids := if forInput then inputIds t else outputIds t).
  assert (Hres : match defaultDevice forInput with
                 | Some deviceID =>
                     if forInput
                     then scanIdsDown (inputIds t) (length (inputIds t)) deviceID
                     else scanIdsDown (outputIds t) (length (outputIds t)) deviceID
                 | None => 0
                 end
                 = match defaultDevice forInput with
                   | Some deviceID => scanIdsDown ids (length ids) deviceID
                   | None => 0
                   end).
  { subst ids. destruct (defaultDevice forInput), forInput; reflexivity. }
  rewrite Hres. clear Hres. clearbody ids.
  destruct (defaultDevice forInput) as [dev |].
  - destruct (scanIdsDown_spec ids dev (length ids) (le_n _))
      as (H0 & Hlt & Hfound & Hnone).
    split; [exact H0 |]. split; [exact Hlt |]. split.
    + intros dev' Heq Hin. injection Heq as <-.
      apply list_elem_of_In, list_elem_of_lookup in Hin as (k & Hk).
      pose proof (lookup_lt_Some _ _ _ Hk) as Hkl.
      destruct (Hfound (ex_intro _ k (conj Hkl Hk))) as [Hr Hlast].
      split; [exact Hr |]. intros k0 Hk0.
      destruct (Z.lt_ge_cases k0 (Z.of_nat (length ids))) as [Hin' | Hout].
      * apply Hlast. lia.
      * intros Hget. apply arr_get_lt in Hget. lia.
    + intros [Hn | (dev' & Heq & Hnin)]; [discriminate |].
      injection Heq as <-. apply Hnone. intros k _ Hk. apply Hnin.
      apply list_elem_of_In, list_elem_of_lookup. exists k. exact Hk.
  - split; [lia |]. split; [right; reflexivity |]. split; [discriminate |].
    intros _. reflexivity.
Qed.

Lemma indexOf_from_spec (names : list string) (s : string) :
  forall i,
    (In s names ->
     i <= indexOf_from names s i
     /\ names !! Z.to_nat (indexOf_from names s i - i) = Some s)
    /\ (~ In s names -> indexOf_from names s i = -1).
Proof.
  induction names as [| n names IH]; intros i; cbn [indexOf_from].
  - split; [intros [] | reflexivity].
  - destruct (String.eqb_spec n s) as [-> | Hne].
    + split; [| intros H; exfalso; apply H; left; reflexivity].
      intros _. split; [lia |]. replace (i - i) with 0 by lia. reflexivity.
    + destruct (IH (i + 1)) as [Hin Hnin]. split.
      * intros [Heq | H]; [contradiction |]. destruct (Hin H) as [Hle Hget].
        split; [lia |].
        replace (Z.to_nat (indexOf_from names s (i + 1) - i))
          with (S (Z.to_nat (indexOf_from names s (i + 1) - (i + 1)))) by lia.
        exact Hget.
      * intros H. apply Hnin. intros Hs. apply H. right. exact Hs.
Qed.

(** X24 (createDevice, getIndexOfDevice, getDeviceNames): a device that
    [createDevice] returns remembers the positions of the two names in the
    tables of the registry: [getIndexOfDevice] gives, for a name of the
    table, a position at which [getDeviceNames] has that name, and -1 for a
    name that the table does not have; for a device of another class it
    gives -1.  The device is named after the output device, and after the
    input device when the output name is empty. *)
Theorem createDevice_remembers_indices (index : Z)
  (newCore : Z -> option CoreAudioInternal) (t : CoreAudioIODeviceType)
  (outputDeviceName inputDeviceName : string) (dev : CoreAudioIODevice) :
  createDevice index newCore t outputDeviceName inputDeviceName
  = Some (Some dev) ->
  (In inputDeviceName (inputDeviceNames t) ->
   arr_get (getDeviceNames t true) (getIndexOfDevice (Some dev) true)
   = Some inputDeviceName)
  /\ (In outputDeviceName (outputDeviceNames t) ->
      arr_get (getDeviceNames t false) (getIndexOfDevice (Some dev) false)
      = Some outputDeviceName)
  /\ (~ In inputDeviceName (inputDeviceNames t) ->
      getIndexOfDevice (Some dev) true = -1)
  /\ (~ In outputDeviceName (outputDeviceNames t) ->
      getIndexOfDevice (Some dev) false = -1)
  /\ getIndexOfDevice None true = -1 /\ getIndexOfDevice None false = -1
  /\ deviceName dev
     = (if String.eqb outputDeviceName "" then inputDeviceName
        else outputDeviceName).
Proof.
  unfold createDevice. destruct (0 <=? index); [| discriminate].
  destruct (CoreAudioIODevice_new _ _ _ _ _ _) as [dev' |] eqn:Hnew;
    [| discriminate].
  cbn [mbind option_bind]. intros H. injection H as ->.
  assert (Hfields : inputIndex dev = indexOf (inputDeviceNames t) inputDeviceName
                    /\ outputIndex dev
                       = indexOf (outputDeviceNames t) outputDeviceName
                    /\ deviceName dev
                       = (if String.eqb outputDeviceName "" then inputDeviceName
                          else outputDeviceName)).
  { revert Hnew. unfold CoreAudioIODevice_new.
    match goal with
    | |- (?x ≫= _) = _ -> _ => destruct x as [[device err] |]
    end; cbn [mbind option_bind]; [| discriminate].
    intros Hnew. injection Hnew as <-. repeat split; reflexivity. }
  destruct Hfields as (Hi & Ho & Hn).
  cbn [getIndexOfDevice getDeviceNames]. rewrite Hi, Ho. unfold indexOf.
  destruct (indexOf_from_spec (inputDeviceNames t) inputDeviceName 0)
    as [Hin Hnin].
  destruct (indexOf_from_spec (outputDeviceNames t) outputDeviceName 0)
    as [Hout Hnout].
  split.
  { intros H. destruct (Hin H) as [Hle Hget]. apply arr_get_Some.
    split; [exact Hle |]. rewrite Z.sub_0_r in Hget. exact Hget. }
  split.
  { intros H. destruct (Hout H) as [Hle Hget]. apply arr_get_Some.
    split; [exact Hle |]. rewrite Z.sub_0_r in Hget. exact Hget. }
  split; [exact Hnin |]. split; [exact Hnout |].
  split; [reflexivity |]. split; [reflexivity | exact Hn].
Qed.

Lemma createDevice_remembers_indices_witness :
  createDevice 0 failingInput micAndSpeakers "Speakers" "Mic"
  = Some (Some micAndSpeakersDevice)
  /\ (In "Mic" (inputDeviceNames micAndSpeakers) ->
      arr_get (getDeviceNames micAndSpeakers true)
        (getIndexOfDevice (Some micAndSpeakersDevice) true) = Some "Mic").
Proof.
  assert (H : createDevice 0 failingInput micAndSpeakers "Speakers" "Mic"
              = Some (Some micAndSpeakersDevice)) by (vm_compute; reflexivity).
  split; [exact H |].
  apply (createDevice_remembers_indices 0 failingInput micAndSpeakers
           "Speakers" "Mic" micAndSpeakersDevice H).
Defined.

(** ** The device after reopen, and a timer shot without change *)

Lemma chainAll_frame (P : CoreAudioInternal -> Prop) (d d' : CoreAudioInternal) :
  (P d -> P d') -> inputDevice d' = inputDevice d ->
  chainAll P d -> chainAll P d'.
Proof.
  intros HP Hidev H. apply chainAll_unfold in H as [Hd Hs].
  apply chainAll_unfold. rewrite Hidev. split; [apply HP; exact Hd | exact Hs].
Qed.

Lemma isIdle_frame (d d' : CoreAudioInternal) :
  callback d' = callback d -> started d' = started d ->
  deviceID d' = deviceID d -> isIdle d -> isIdle d'.
Proof. unfold isIdle. intros -> -> ->. auto. Qed.

Lemma afterPolling_keeps (changed : bool) (d : CoreAudioInternal) :
  callback (afterPolling changed d) = callback d
  /\ started (afterPolling changed d) = started d
  /\ deviceID (afterPolling changed d) = deviceID d
  /\ inputDevice (afterPolling changed d) = inputDevice d
  /\ activeInputChans (afterPolling changed d) = activeInputChans d
  /\ activeOutputChans (afterPolling changed d) = activeOutputChans d
  /\ numInputChans (afterPolling changed d) = numInputChans d
  /\ numOutputChans (afterPolling changed d) = numOutputChans d.
Proof.
  unfold afterPolling.
  destruct changed;
    repeat match goal with
           | |- context [if ?c then _ else _] => destruct c
           end; repeat split; reflexivity.
Qed.

(** The device when the polling loop of [reopen] begins. *)
Lemma reopenPrefix_post (os : OS) (inputChannels outputChannels : Z)
  (now : nat) (d : CoreAudioInternal) :
  chainAll isIdle (snd (reopenPrefix os inputChannels outputChannels now d))
  /\ activeInputChans (snd (reopenPrefix os inputChannels outputChannels now d))
     = truncateMask inputChannels (Z.of_nat (length (inChanNames d)))
  /\ activeOutputChans (snd (reopenPrefix os inputChannels outputChannels now d))
     = truncateMask outputChannels (Z.of_nat (length (outChanNames d)))
  /\ numInputChans (snd (reopenPrefix os inputChannels outputChannels now d))
     = countNumberOfSetBits
         (truncateMask inputChannels (Z.of_nat (length (inChanNames d))))
  /\ numOutputChans (snd (reopenPrefix os inputChannels outputChannels now d))
     = countNumberOfSetBits
         (truncateMask outputChannels (Z.of_nat (length (outChanNames d)))).
Proof.
  unfold reopenPrefix.
  set (d0 := set_timerRunning false (set_callbacksAllowed false (set_error "" d))).
  pose proof (stop_chain_idle os d0 now) as Hidle.
  destruct (stop_spec os false d0 now) as (Hsame & _).
  destruct Hsame as (_ & _ & _ & _ & _ & _ & _ & _ & Hin & Hout & _).
  destruct (stop os false now d0) as [t1 d1]. cbn [snd] in *.
  cbn [activeInputChans activeOutputChans numInputChans numOutputChans
         inChanNames outChanNames set_activeInputChans set_activeOutputChans
         set_numInputChans set_numOutputChans].
  rewrite Hin, Hout. subst d0.
  cbn [inChanNames outChanNames set_timerRunning set_callbacksAllowed set_error].
  split; [| repeat split; reflexivity].
  eapply chainAll_frame; [| | exact Hidle]; [| reflexivity].
  apply isIdle_frame; reflexivity.
Qed.

Lemma reopen_rec_post (os : OS) (inputChannels outputChannels : Z)
  (newSampleRate : Q) (bufferSizeSamples : Z) (fuel : nat) :
  forall (now now' : nat) (d d' : CoreAudioInternal) (err : string),
    reopen_rec fuel os inputChannels outputChannels newSampleRate
      bufferSizeSamples now d = Some (now', d', err) ->
    chainAll isIdle d' /\ callbacksAllowed d' = true
    /\ activeInputChans d'
       = truncateMask inputChannels (Z.of_nat (length (inChanNames d)))
    /\ activeOutputChans d'
       = truncateMask outputChannels (Z.of_nat (length (outChanNames d)))
    /\ numInputChans d' = countNumberOfSetBits (activeInputChans d')
    /\ numOutputChans d' = countNumberOfSetBits (activeOutputChans d')
    /\ error d' = err.
Proof.
  induction fuel as [| fuel IH]; intros now now' d d' err;
    rewrite reopen_rec_unfold;
    destruct (reopenPrefix_post os inputChannels outputChannels now d)
      as (Hp & Hpi & Hpo & Hpni & Hpno);
    destruct (waitForChange os newSampleRate bufferSizeSamples 30 _ _)
      as [[[t1 dl] changed] |] eqn:Hloop; try discriminate;
    cbn [mbind option_bind];
    destruct (waitForChange_frame _ _ _ _ _ _ _ _ _ Hloop)
      as (_ & Hlcb & Hlidev & _ & Hlid & Hlst & Hlni & Hlno & _ & Hlai & Hlao);
    destruct (afterPolling_keeps changed dl)
      as (Hecb & Hest & Heid & Heidev & Heai & Heao & Heni & Heno);
    set (de := afterPolling changed dl) in *;
    assert (He : chainAll isIdle de)
      by (eapply chainAll_frame; [| | exact Hp];
          [apply isIdle_frame; congruence | congruence]);
    assert (Hmasks : activeInputChans de
                     = truncateMask inputChannels
                         (Z.of_nat (length (inChanNames d)))
                     /\ activeOutputChans de
                        = truncateMask outputChannels
                            (Z.of_nat (length (outChanNames d)))
                     /\ numInputChans de
                        = countNumberOfSetBits (activeInputChans de)
                     /\ numOutputChans de
                        = countNumberOfSetBits (activeOutputChans de))
      by (repeat split; congruence);
    destruct Hmasks as (Hmi & Hmo & Hni & Hno);
    assert (Hplain : forall t,
              Some (t, set_callbacksAllowed true de,
                    error (set_callbacksAllowed true de))
              = Some (now', d', err) ->
              chainAll isIdle d' /\ callbacksAllowed d' = true
              /\ activeInputChans d'
                 = truncateMask inputChannels (Z.of_nat (length (inChanNames d)))
              /\ activeOutputChans d'
                 = truncateMask outputChannels
                     (Z.of_nat (length (outChanNames d)))
              /\ numInputChans d' = countNumberOfSetBits (activeInputChans d')
              /\ numOutputChans d' = countNumberOfSetBits (activeOutputChans d')
              /\ error d' = err)
      by (intros t H; injection H as <- <- <-;
          split; [eapply chainAll_frame; [| | exact He];
                  [apply isIdle_frame; reflexivity | reflexivity] |];
          repeat split; assumption);
    destruct (inputDevice de) as [s |] eqn:Hs.
  - destruct (error de =? "")%string; [discriminate |].
    cbn [mbind option_bind]. apply Hplain.
  - cbn [mbind option_bind]. apply Hplain.
  - destruct (error de =? "")%string.
    + destruct (reopen_rec fuel os inputChannels outputChannels newSampleRate
                  bufferSizeSamples t1 s) as [[[t2 s2] err2] |] eqn:Hrec;
        [| discriminate].
      cbn [mbind option_bind]. intros H. injection H as <- <- <-.
      destruct (IH _ _ _ _ _ Hrec) as (Hs2 & _).
      split.
      { apply chainAll_unfold.
        cbn [callback started deviceID inputDevice set_callbacksAllowed set_error
               set_inputDevice].
        apply chainAll_unfold in He as [Hown _].
        split; [| exact Hs2]. unfold isIdle in *.
        cbn [callback started deviceID set_callbacksAllowed set_error
               set_inputDevice]. exact Hown. }
      repeat split; assumption.
    + cbn [mbind option_bind]. apply Hplain.
  - cbn [mbind option_bind]. apply Hplain.
Qed.

(** X25 (reopen): when the answers of the OS fit the tables, [reopen]
    completes, and it leaves the device closed for audio whether it
    reports an error or not: no device of the chain has a client bound or
    is started (unless its id is 0), so a device that was playing has been
    stopped, and change notifications are allowed again.  The masks of
    active channels are the requested masks cut to the number of channel
    names that the device had before the call, and the numbers of active
    channels are the numbers of bits of these masks. *)
Theorem reopen_leaves_chain_idle (os : OS) (inputChannels outputChannels : Z)
  (newSampleRate : Q) (bufferSizeSamples : Z) (now : nat)
  (d : CoreAudioInternal) :
  (forall id t, viewFits (os id t)) -> chainFits d ->
  exists now' d' err,
    reopen os inputChannels outputChannels newSampleRate bufferSizeSamples now d
    = Some (now', d', err)
    /\ chainAll isIdle d' /\ callbacksAllowed d' = true
    /\ activeInputChans d'
       = truncateMask inputChannels (Z.of_nat (length (inChanNames d)))
    /\ activeOutputChans d'
       = truncateMask outputChannels (Z.of_nat (length (outChanNames d)))
    /\ numInputChans d' = countNumberOfSetBits (activeInputChans d')
    /\ numOutputChans d' = countNumberOfSetBits (activeOutputChans d')
    /\ error d' = err.
Proof.
  intros Hos Hfits. unfold reopen.
  destruct (reopen_rec_spec os Hos inputChannels outputChannels newSampleRate
              bufferSizeSamples (depth d) now d (le_n _) Hfits)
    as (now' & d' & err & Hrun & _).
  exists now', d', err. split; [exact Hrun |].
  apply (reopen_rec_post _ _ _ _ _ _ _ _ _ _ _ Hrun).
Qed.

Lemma startedStereo_fits : chainFits (startedStereo 3 3).
Proof. vm_compute. repeat split; discriminate. Qed.

Lemma reopen_leaves_chain_idle_witness :
  exists now' d' err,
    reopen stereoOS 1 3 (44100 # 1)%Q 4 0 (startedStereo 3 3)
    = Some (now', d', err)
    /\ chainAll isIdle d'
    /\ numInputChans d' = countNumberOfSetBits (activeInputChans d').
Proof.
  destruct (reopen_leaves_chain_idle stereoOS 1 3 (44100 # 1)%Q 4 0%nat
              (startedStereo 3 3) (fun _ _ => stereoView_fits)
              startedStereo_fits)
    as (now' & d' & err & Hrun & Hidle & _ & _ & _ & Hni & _).
  exists now', d', err. split; [exact Hrun |]. split; [exact Hidle | exact Hni].
Defined.

(** X26 (timerCallback): when the refresh of a timer shot reads the buffer
    size and the sample rate that the device has, the shot ends there: it
    takes no time, and the client, the started flag, the slave, the masks
    and the channel counts are as they were, so a device that is playing
    goes on playing. *)
Theorem timerCallback_without_change_keeps_client (os : OS) (now : nat)
  (d : CoreAudioInternal) :
  viewFits (os (deviceID d) now) ->
  numInputChans d <= maxNumChans -> numOutputChans d <= maxNumChans ->
  snd (observe (os (deviceID d) now) (deviceID d) (sampleRate d, bufferSize d))
  = bufferSize d ->
  Qeq_bool (sampleRate d)
    (fst (observe (os (deviceID d) now) (deviceID d) (sampleRate d, bufferSize d)))
  = true ->
  exists d',
    timerCallback os now d = Some (now, d')
    /\ sameControl d d' /\ bufferSize d' = bufferSize d
    /\ Qeq_bool (sampleRate d) (sampleRate d') = true.
Proof.
  intros Hfit Hni Hno Hbs Hsr. unfold timerCallback.
  cbn [deviceID sampleRate bufferSize set_timerRunning].
  destruct (updateDetailsFromDevice_total (os (deviceID d) now)
              (set_timerRunning false d) Hfit Hni Hno) as (d1 & H1).
  rewrite H1. cbn [mbind option_bind].
  destruct (updateDetailsFromDevice_frame _ _ _ H1) as [Hc1 Hobs].
  cbn [deviceID sampleRate bufferSize set_timerRunning] in Hobs.
  assert (Hbs1 : bufferSize d1 = bufferSize d).
  { rewrite <- Hbs, <- Hobs. reflexivity. }
  assert (Hsr1 : Qeq_bool (sampleRate d) (sampleRate d1) = true).
  { rewrite <- Hobs in Hsr. exact Hsr. }
  rewrite Hbs1, Z.eqb_refl, Hsr1. cbn [negb orb].
  exists d1. split; [reflexivity |]. split; [| split; assumption].
  apply (sameControl_trans _ (set_timerRunning false d)); [same_control | exact Hc1].
Qed.

Lemma timerCallback_without_change_keeps_client_witness :
  exists d',
    timerCallback stereoOS 0 (startedStereo 3 3) = Some (0%nat, d')
    /\ sameControl (startedStereo 3 3) d'.
Proof.
  destruct (timerCallback_without_change_keeps_client stereoOS 0%nat
              (startedStereo 3 3)) as (d' & Hrun & Hsame & _).
  - apply stereoView_fits.
  - vm_compute. discriminate.
  - vm_compute. discriminate.
  - vm_compute. reflexivity.
  - vm_compute. reflexivity.
  - exists d'. split; [exact Hrun | exact Hsame].
Defined.

(** ** The polls of reopen *)

(** After a poll that passed the test, with lists that are not empty, the
    three tests that follow the loop set no error. *)
Lemma afterPolling_matched (d : CoreAudioInternal) :
  sampleRates d <> [] -> bufferSizes d <> [] -> afterPolling true d = d.
Proof.
  intros Hrs Hbz. unfold afterPolling.
  destruct (Z.eqb_spec (Z.of_nat (length (sampleRates d))) 0) as [H | _].
  { destruct (sampleRates d); [contradiction | cbn in H; lia]. }
  destruct (Z.eqb_spec (Z.of_nat (length (bufferSizes d))) 0) as [H | _].
  { destruct (bufferSizes d); [contradiction | cbn in H; lia]. }
  reflexivity.
Qed.

(** What [reopen] returns when poll [k] is the first that reads a rate and
    a size that pass the test. *)
Lemma reopen_first_match (os : OS) (os_fits : forall id t, viewFits (os id t))
  (inputChannels outputChannels : Z) (newSampleRate : Q)
  (bufferSizeSamples : Z) (now : nat) (d : CoreAudioInternal) (now' : nat)
  (d' : CoreAudioInternal) (err : string) (k : nat) (o : Q * Z) :
  chainFits d ->
  reopen os inputChannels outputChannels newSampleRate bufferSizeSamples now d
  = Some (now', d', err) ->
  pollTrace os (deviceID d) 30 (reopenStart os now d)
    (sampleRate d, bufferSize d) !! k = Some o ->
  matches newSampleRate bufferSizeSamples o = true ->
  (forall j o', (j < k)%nat ->
     pollTrace os (deviceID d) 30 (reopenStart os now d)
       (sampleRate d, bufferSize d) !! j = Some o' ->
     matches newSampleRate bufferSizeSamples o' = false) ->
  (sampleRate d', bufferSize d') = o
  /\ (sampleRates d' <> [] -> bufferSizes d' <> [] ->
      match inputDevice (snd (reopenPrefix os inputChannels outputChannels now d))
      with
      | Some s =>
          exists s',
            reopen os inputChannels outputChannels newSampleRate
              bufferSizeSamples (reopenStart os now d + 100 * k)%nat s
            = Some (now', s', err)
            /\ inputDevice d' = Some s'
      | None => err = "" /\ now' = (reopenStart os now d + 100 * k)%nat
      end).
Proof.
  intros Hfit Hrun Hk Hm Hbefore.
  unfold reopen in Hrun. rewrite reopen_rec_unfold in Hrun.
  destruct (reopenPrefix_spec os inputChannels outputChannels now d Hfit)
    as (Ht0 & He & Hid & Hsr & Hbs & Hin & Hout & Hslave).
  set (dp := snd (reopenPrefix os inputChannels outputChannels now d)) in *.
  rewrite Ht0 in Hrun. set (t0 := reopenStart os now d) in *.
  destruct (waitForChange_spec os os_fits newSampleRate bufferSizeSamples 30 t0 dp
              Hin Hout) as (t1 & dl & changed & Hw & Hc & Hyes & Hno).
  rewrite Hid, Hsr, Hbs in Hyes, Hno.
  set (tr := pollTrace os (deviceID d) 30 t0 (sampleRate d, bufferSize d)) in *.
  rewrite Hw in Hrun. cbn [mbind option_bind] in Hrun.
  destruct changed.
  2: { exfalso. destruct (Hno eq_refl) as [_ Hall].
       exact (Forall_no_match _ _ _ _ _ Hall Hk Hm). }
  destruct (Hyes eq_refl) as (Hm' & k' & Hk' & Ht1 & Hnth & Hbefore').
  assert (Hkk : k' = k).
  { destruct (Nat.lt_trichotomy k' k) as [Hlt | [Heq | Hgt]]; [| exact Heq |].
    - specialize (Hbefore k' _ Hlt Hnth). congruence.
    - specialize (Hbefore' k o Hgt Hk). congruence. }
  subst k'. rewrite Hk in Hnth. injection Hnth as Ho.
  destruct Hc as (Hel & _ & Hidevl & _).
  rewrite He in Hel.
  destruct (afterPolling_spec true dl Hel)
    as (Hidev & _ & Hsre & Hbse & Hsrs & Hbss & _ & _).
  assert (Hclean : sampleRates (afterPolling true dl) <> [] ->
                   bufferSizes (afterPolling true dl) <> [] ->
                   error (afterPolling true dl) = "").
  { rewrite Hsrs, Hbss. intros Hrs Hbz.
    rewrite (afterPolling_matched dl Hrs Hbz). exact Hel. }
  set (de := afterPolling true dl) in *.
  assert (Hobs : (sampleRate de, bufferSize de) = o).
  { rewrite Hsre, Hbse. symmetry. exact Ho. }
  rewrite Hidev, Hidevl in Hrun.
  destruct (inputDevice d) as [s0 |] eqn:Hs0.
  - destruct Hslave as (s' & Hs' & Hdepth' & _). rewrite Hs' in Hrun |- *.
    destruct (String.eqb_spec (error de) "") as [Hok | Hbad].
    + rewrite depth_unfold, Hs0, <- Hdepth' in Hrun.
      change (reopen_rec (depth s') os inputChannels outputChannels
                newSampleRate bufferSizeSamples t1 s')
        with (reopen os inputChannels outputChannels newSampleRate
                bufferSizeSamples t1 s') in Hrun.
      destruct (reopen os inputChannels outputChannels newSampleRate
                  bufferSizeSamples t1 s') as [[[now2 s2] err2] |] eqn:Hrec;
        [| discriminate].
      cbn [mbind option_bind] in Hrun. injection Hrun as <- <- <-.
      cbn [sampleRate bufferSize sampleRates bufferSizes inputDevice error
             set_callbacksAllowed set_error set_inputDevice].
      split; [exact Hobs |]. intros _ _. exists s2.
      split; [| reflexivity]. rewrite <- Ht1. exact Hrec.
    + cbn [mbind option_bind] in Hrun. injection Hrun as <- <- <-.
      cbn [sampleRate bufferSize sampleRates bufferSizes set_callbacksAllowed].
      split; [exact Hobs |]. intros Hrs Hbz. exfalso. apply Hbad.
      apply Hclean; assumption.
  - rewrite Hslave in Hrun |- *. cbn [mbind option_bind] in Hrun.
    injection Hrun as <- <- <-.
    cbn [sampleRate bufferSize sampleRates bufferSizes error
           set_callbacksAllowed].
    split; [exact Hobs |]. intros Hrs Hbz.
    split; [apply Hclean; assumption | exact Ht1].
Qed.

(** C2.  [reopen] returns (on a device and an OS that fit the fixed tables).
    It polls at most 30 times, the polls 100 ms apart: [pollTrace] lists what
    the 30 polls would read, poll [k] at [100 * k] ms after the time
    [reopenStart] at which [stop (false)] has returned.  If the error that
    [reopen] returns is empty, the rate and the size of the device pass the
    test of the loop: the rate equals the requested rate and the size the
    requested size, and they are what the first passing poll read.  If
    none of the 30 polls reads a rate and size that pass the test, and the
    lists of available rates and sizes are not empty, the error is
    "Couldn't change sample rate/buffer size", returned 3000 ms after the
    polling began (a slave is not reopened then).  Without a slave [reopen]
    returns [100 * k] ms after the polling began, for some [k <= 30].  If
    poll [k] is the first that reads a rate and size that pass the test,
    the polling ends with that poll: the device holds what poll [k] read
    and, the lists not being empty, a device without a slave returns no
    error [100 * k] ms after the polling began, and a device with a slave
    returns what the [reopen] of the slave, begun at that time, returns. *)
Theorem reopen_polls_until_match (os : OS)
  (os_fits : forall id t, viewFits (os id t))
  (inputChannels outputChannels : Z) (newSampleRate : Q)
  (bufferSizeSamples : Z) (now : nat) (d : CoreAudioInternal) :
  chainFits d ->
  exists now' d' err,
    reopen os inputChannels outputChannels newSampleRate bufferSizeSamples now d
    = Some (now', d', err)
    /\ error d' = err
    /\ (err = "" ->
        (getSampleRate d' == newSampleRate)%Q
        /\ getBufferSize d' = bufferSizeSamples
        /\ exists k, (k < 30)%nat
             /\ pollTrace os (deviceID d) 30 (reopenStart os now d)
                  (sampleRate d, bufferSize d) !! k
                = Some (sampleRate d', bufferSize d')
             /\ forall j o, (j < k)%nat ->
                  pollTrace os (deviceID d) 30 (reopenStart os now d)
                    (sampleRate d, bufferSize d) !! j = Some o ->
                  matches newSampleRate bufferSizeSamples o = false)
    /\ (Forall (fun o => matches newSampleRate bufferSizeSamples o = false)
          (pollTrace os (deviceID d) 30 (reopenStart os now d)
             (sampleRate d, bufferSize d)) ->
        sampleRates d' <> [] -> bufferSizes d' <> [] ->
        err = "Couldn't change sample rate/buffer size"
        /\ now' = (reopenStart os now d + 3000)%nat)
    /\ (inputDevice d = None ->
        exists k, (k <= 30)%nat /\ now' = (reopenStart os now d + 100 * k)%nat)
    /\ (forall k o,
          pollTrace os (deviceID d) 30 (reopenStart os now d)
            (sampleRate d, bufferSize d) !! k = Some o ->
          matches newSampleRate bufferSizeSamples o = true ->
          (forall j o', (j < k)%nat ->
             pollTrace os (deviceID d) 30 (reopenStart os now d)
               (sampleRate d, bufferSize d) !! j = Some o' ->
             matches newSampleRate bufferSizeSamples o' = false) ->
          (sampleRate d', bufferSize d') = o
          /\ (sampleRates d' <> [] -> bufferSizes d' <> [] ->
              match inputDevice
                      (snd (reopenPrefix os inputChannels outputChannels now d))
              with
              | Some s =>
                  exists s',
                    reopen os inputChannels outputChannels newSampleRate
                      bufferSizeSamples (reopenStart os now d + 100 * k)%nat s
                    = Some (now', s', err)
                    /\ inputDevice d' = Some s'
              | None =>
                  err = "" /\ now' = (reopenStart os now d + 100 * k)%nat
              end)).
Proof.
  intros Hfit.
  destruct (reopen_rec_spec os os_fits inputChannels outputChannels
              newSampleRate bufferSizeSamples (depth d) now d (le_n _) Hfit)
    as (now' & d' & err & Hrun & Herr & _ & Hok & Hfail & Htime).
  fold (reopen os inputChannels outputChannels newSampleRate bufferSizeSamples
          now d) in Hrun.
  exists now', d', err. split; [exact Hrun |]. split; [exact Herr |].
  split; [| split; [exact Hfail | split; [exact Htime |]]].
  - intros Hempty. destruct (Hok Hempty) as (Hm & Hk).
    unfold matches in Hm. cbn [fst snd] in Hm.
    apply andb_prop in Hm as [Hrate Hsize].
    split; [apply Qeq_bool_iff; exact Hrate |].
    split; [apply Z.eqb_eq in Hsize; symmetry; exact Hsize | exact Hk].
  - intros k o Hk Hm Hbefore.
    exact (reopen_first_match os os_fits inputChannels outputChannels
             newSampleRate bufferSizeSamples now d now' d' err k o Hfit Hrun Hk
             Hm Hbefore).
Qed.

Lemma lateOS_fits (id : Z) (t : nat) : viewFits (lateOS id t).
Proof.
  unfold lateOS. destruct (t <? 400)%nat; [apply stereoView_fits |].
  split; [discriminate |].
  intros input streams Hs. cbn in Hs. injection Hs as <-. vm_compute. discriminate.
Qed.

Lemma reopen_polls_until_match_witness :
  exists d',
    reopen lateOS 3 3 (44100 # 1)%Q 8 0 stereoCore = Some (400%nat, d', "")
    /\ (getSampleRate d' == 44100 # 1)%Q /\ getBufferSize d' = 8.
Proof.
  destruct (reopen_polls_until_match lateOS lateOS_fits 3 3 (44100 # 1)%Q 8
              0%nat stereoCore stereoCore_fits)
    as (now' & d' & err & Hrun & _ & Hok & _ & _ & Hfirst).
  destruct (Hfirst 4%nat ((44100 # 1)%Q, 8)) as [Hval Hres].
  - vm_compute. reflexivity.
  - vm_compute. reflexivity.
  - intros j o' Hj.
    destruct j as [| [| [| [| j]]]]; [| | | | lia];
      vm_compute; intros H; injection H as <-; reflexivity.
  - assert (Hlists : sampleRates d' <> [] /\ bufferSizes d' <> []).
    { assert (Hc : exists n c e,
                 reopen lateOS 3 3 (44100 # 1)%Q 8 0 stereoCore = Some (n, c, e)
                 /\ sampleRates c <> [] /\ bufferSizes c <> []).
      { eexists. eexists. eexists. split; [vm_compute; reflexivity |].
        split; vm_compute; discriminate. }
      destruct Hc as (n & c & e & Hc & Hl). rewrite Hc in Hrun.
      injection Hrun as _ <- _. exact Hl. }
    destruct Hlists as [Hrs Hbz]. specialize (Hres Hrs Hbz).
    assert (Hnone : inputDevice (snd (reopenPrefix lateOS 3 3 0 stereoCore)) = None).
    { vm_compute. reflexivity. }
    rewrite Hnone in Hres. destruct Hres as [-> ->].
    destruct (Hok eq_refl) as (Hrate & Hsize & _).
    exists d'. split; [| split; [exact Hrate | exact Hsize]].
    assert (Ht : (reopenStart lateOS 0 stereoCore + 100 * 4)%nat = 400%nat)
      by (vm_compute; reflexivity).
    rewrite Ht in Hrun. exact Hrun.
Defined.

(** ** The slave after start *)

(** [start] leaves the buffers and the routing of the device itself as
    they are. *)
Lemma startLocal_buffers (os : OS) (now : nat)
  (cb : option AudioIODeviceCallback) (d : CoreAudioInternal) :
  inputChannelInfo (startLocal os now cb d) = inputChannelInfo d
  /\ tempInputBuffers (startLocal os now cb d) = tempInputBuffers d
  /\ bufferSize (startLocal os now cb d) = bufferSize d
  /\ audioBuffer (startLocal os now cb d) = audioBuffer d
  /\ numInputChans (startLocal os now cb d) = numInputChans d.
Proof.
  unfold startLocal. cbn [deviceID set_callback].
  destruct (started d) eqn:Hst; cbn [negb].
  - rewrite Hst. cbn. repeat split; reflexivity.
  - destruct (negb (deviceID d =? 0) && os_AddIOProc (os (deviceID d) now)
              && os_Start (os (deviceID d) now)) eqn:Hos;
      cbn; rewrite ?Hst; cbn; rewrite ?Hst; repeat split; reflexivity.
Qed.

(** C4, as amended.  [start (cb)] on a master that has a slave and that is
    started when the call returns has run [start (cb)] on the slave: the
    result of the call is whether the slave is started, and a started slave
    has [cb] as its client (a slave that could not be started has none).
    The I/O proc of the started slave is the input loop alone: when it
    returns it has called no client and has left the output buffers of the
    OS as they are.  Where entry [i] of the routing table of the slave is
    for the source channel [i], which has its view in the temporary
    buffer, the views of two channels do not overlap and the routed slots
    exist in the input buffers of the OS, the I/O proc returns and has
    deinterleaved the input: sample [k] of the view of channel [i], as the
    master hands it to the client, is the slot of sample [k] that entry
    [i] names. *)
Theorem start_binds_client_of_slave (os : OS) (now : nat)
  (cb : AudioIODeviceCallback) (d s : CoreAudioInternal) :
  inputDevice d = Some s -> inputDevice s = None -> isSlaveDevice s = true ->
  started (fst (start os now (Some cb) d)) = true ->
  exists s',
    inputDevice (fst (start os now (Some cb) d)) = Some s'
    /\ snd (start os now (Some cb) d) = started s'
    /\ (started s' = true -> callback s' = Some cb)
    /\ (started s = false -> started s' = false -> callback s' = None)
    /\ isSlaveDevice s' = true /\ inputDevice s' = None
    /\ (started s' = true ->
        forall inInputData outOutputData : list (list Z),
          audioCallback inInputData outOutputData s'
          = (buf ← readInputChannels inInputData (Z.to_nat (numInputChans s'))
                     s' (audioBuffer s');
             Some (set_audioBuffer buf s', outOutputData, [])))
    /\ (started s' = true ->
        forall (inInputData outOutputData : list (list Z))
               (inInfo : Z -> CallbackDetailsForChannel) (inOff : Z -> Z),
          0 <= bufferSize s ->
          (forall i, 0 <= i < numInputChans s ->
             inputChannelMapped s inInputData
               (Z.of_nat (length (audioBuffer s))) i (inInfo i) (inOff i)
             /\ sourceChannelNum (inInfo i) = i) ->
          (forall i j, 0 <= i < numInputChans s -> 0 <= j < numInputChans s ->
             i <> j -> viewsDisjoint (inOff i) (inOff j) (bufferSize s)) ->
          exists buf,
            audioCallback inInputData outOutputData s'
            = Some (set_audioBuffer buf s', outOutputData, [])
            /\ length buf = length (audioBuffer s)
            /\ forall i k, 0 <= i < numInputChans s ->
                 dataStrideSamples (inInfo i) <> 0 -> 0 <= k < bufferSize s ->
                 exists chan,
                   arr_get (channelViews buf (tempInputBuffers s')
                              (numInputChans s') (bufferSize s')) i = Some chan
                   /\ arr_get chan k
                      = arr_get (streamData inInputData
                                   (fst (slotOf (inInfo i) k)))
                          (snd (slotOf (inInfo i) k))).
Proof.
  intros Hs Hnone Hslave Hstarted.
  rewrite start_unfold, Hs in *.
  destruct (startLocal_spec os now (Some cb) s) as (Hcb' & Hidev' & Hsl' & _ & _ & _).
  destruct (startLocal_buffers os now (Some cb) s)
    as (Hinfo & Htemp & Hbsz & Hbuf & Hnum).
  assert (Hsub : start os now (Some cb) s
                 = (startLocal os now (Some cb) s,
                    started (startLocal os now (Some cb) s))).
  { rewrite start_unfold, Hnone. reflexivity. }
  destruct (started (startLocal os now (Some cb) d)) eqn:Hm.
  - cbn [fst snd] in *. rewrite Hsub. cbn [fst snd inputDevice set_inputDevice].
    set (s1 := startLocal os now (Some cb) s) in *.
    exists s1.
    split; [reflexivity |]. split; [reflexivity |].
    split; [intros Hon; rewrite Hcb', Hon; reflexivity |].
    split; [intros Hoff Hoff'; rewrite Hcb', Hoff', Hoff; reflexivity |].
    split; [congruence |]. split; [congruence |].
    split.
    { intros Hon ind outd. apply (audioCallback_slave _ cb).
      - rewrite Hcb', Hon. reflexivity.
      - congruence.
      - congruence. }
    intros Hon ind outd inInfo inOff Hbs Hin Hdisj.
    destruct (inputViews_deinterleaved s1 ind inInfo inOff)
      as (buf & Hrun & Hlen & Hval).
    { rewrite Hbsz. exact Hbs. }
    { intros i Hi. rewrite Hnum in Hi. destruct (Hin i Hi) as [Hmap Hsrc].
      split; [| exact Hsrc]. unfold inputChannelMapped in *.
      rewrite Hinfo, Htemp, Hbsz, Hbuf. exact Hmap. }
    { intros i j Hi Hj Hne. rewrite Hnum in Hi, Hj. rewrite Hbsz.
      apply Hdisj; assumption. }
    exists buf. split.
    { rewrite (audioCallback_slave s1 cb ind outd); [rewrite Hrun; reflexivity | | |].
      - rewrite Hcb', Hon. reflexivity.
      - congruence.
      - congruence. }
    split; [rewrite Hlen, Hbuf; reflexivity |].
    intros i k Hi Hnz Hk. apply Hval; [rewrite Hnum; exact Hi | exact Hnz |].
    rewrite Hbsz. exact Hk.
  - cbn [fst] in Hstarted. congruence.
Qed.

Lemma openedPairSlave_inputs (i : Z) :
  0 <= i < numInputChans openedPairSlave ->
  inputChannelMapped openedPairSlave stereoFrames
    (Z.of_nat (length (audioBuffer openedPairSlave))) i (stereoInfo i)
    (stereoInOff i)
  /\ sourceChannelNum (stereoInfo i) = i.
Proof.
  intros Hi. change (numInputChans openedPairSlave) with 2 in Hi.
  assert (Hcases : i = 0 \/ i = 1) by lia.
  destruct Hcases as [-> | ->]; (split; [| reflexivity]);
    (split; [vm_compute; reflexivity |]); (split; [vm_compute; reflexivity |]);
    (split; [vm_compute; discriminate |]); (split; [vm_compute; discriminate |]);
    intros _; change (bufferSize openedPairSlave) with 4;
    apply stereoInfo_fits; try reflexivity; lia.
Qed.

Lemma openedPairMaster_slave :
  inputDevice openedPairMaster = Some openedPairSlave.
Proof. vm_compute. reflexivity. Qed.

Lemma start_binds_client_of_slave_witness :
  option_map internal openedPair = Some (Some openedPairMaster)
  /\ exists s',
       inputDevice (fst (start stereoOS 0 (Some passThrough) openedPairMaster))
       = Some s'
       /\ snd (start stereoOS 0 (Some passThrough) openedPairMaster) = started s'
       /\ (started s' = true -> callback s' = Some passThrough)
       /\ exists buf,
            audioCallback stereoFrames stereoSilence s'
            = Some (set_audioBuffer buf s', stereoSilence, [])
            /\ exists chan,
                 arr_get (channelViews buf (tempInputBuffers s')
                            (numInputChans s') (bufferSize s')) 1 = Some chan
                 /\ arr_get chan 2 = Some 22.
Proof.
  split; [vm_compute; reflexivity |].
  destruct (start_binds_client_of_slave stereoOS 0%nat passThrough
              openedPairMaster openedPairSlave openedPairMaster_slave)
    as (s' & Hs' & Hr & Hcb & _ & _ & _ & _ & Hproc).
  - vm_compute. reflexivity.
  - vm_compute. reflexivity.
  - vm_compute. reflexivity.
  - exists s'. split; [exact Hs' |]. split; [exact Hr |]. split; [exact Hcb |].
    assert (Hon : started s' = true).
    { rewrite <- Hr. vm_compute. reflexivity. }
    destruct (Hproc Hon stereoFrames stereoSilence stereoInfo stereoInOff)
      as (buf & Hrun & _ & Hval).
    + vm_compute. discriminate.
    + exact openedPairSlave_inputs.
    + intros i j Hi Hj Hne. change (numInputChans openedPairSlave) with 2 in Hi, Hj.
      change (bufferSize openedPairSlave) with 4.
      unfold viewsDisjoint, stereoInOff. lia.
    + exists buf. split; [exact Hrun |].
      destruct (Hval 1 2) as (chan & Hchan & Hk).
      * change (numInputChans openedPairSlave) with 2. lia.
      * vm_compute. discriminate.
      * change (bufferSize openedPairSlave) with 4. lia.
      * exists chan. split; [exact Hchan |]. rewrite Hk. reflexivity.
Defined.

(** ** The facade for two different ids *)




(** ** A timer shot that sees a change *)

(** A timer shot that sees a change stops the device and its slaves. *)
Lemma timerCallback_change_stops (os : OS) (now : nat) (x : CoreAudioInternal) :
  (forall id t, viewFits (os id t)) ->
  numInputChans x <= maxNumChans -> numOutputChans x <= maxNumChans ->
  seesChange os now x ->
  exists now' x',
    timerCallback os now x = Some (now', x')
    /\ callback x' = None /\ started x' = false
    /\ forall c, noClient c x'.
Proof.
  intros Hos Hin Hout Hchange. unfold seesChange in Hchange.
  assert (Hid : deviceID x <> 0).
  { intros Hz. unfold observe in Hchange. rewrite Hz in Hchange.
    cbn in Hchange. destruct Hchange as [H | H]; apply H; reflexivity. }
  destruct (updateDetailsFromDevice_total (os (deviceID x) now)
              (set_timerRunning false x) (Hos _ _) Hin Hout) as [d1 H1].
  destruct (updateDetailsFromDevice_frame _ _ _ H1) as [Hc1 Hobs1].
  cbn [deviceID sampleRate bufferSize set_timerRunning] in Hobs1.
  rewrite <- Hobs1 in Hchange. cbn [fst snd] in Hchange.
  assert (Htest : negb (bufferSize x =? bufferSize d1)
                  || negb (Qeq_bool (sampleRate x) (sampleRate d1)) = true).
  { destruct Hchange as [H | H].
    - destruct (Z.eqb_spec (bufferSize x) (bufferSize d1)); [contradiction |].
      reflexivity.
    - destruct (Qeq_bool (sampleRate x) (sampleRate d1)) eqn:Hq.
      + apply Qeq_bool_iff in Hq. contradiction.
      + apply orb_true_r. }
  destruct Hc1 as (_ & _ & _ & _ & Hid1 & _ & Hin1 & Hout1 & _).
  cbn [deviceID numInputChans numOutputChans set_timerRunning] in Hid1, Hin1, Hout1.
  destruct (stop_spec os false (set_callbacksAllowed false d1) now)
    as (Hsame & Hcb2 & Hst2 & _).
  pose proof (fun c => stop_noClient os c false (set_callbacksAllowed false d1) now)
    as Hno2.
  destruct (stop os false now (set_callbacksAllowed false d1)) as [t1 d2] eqn:Hstop.
  cbn [snd] in *.
  destruct Hsame as (_ & _ & Hid2 & Hin2 & Hout2 & _).
  cbn [deviceID numInputChans numOutputChans started set_callbacksAllowed]
    in Hid2, Hin2, Hout2, Hst2.
  assert (Hoff2 : started d2 = false).
  { rewrite Hst2, Hid1. destruct (Z.eqb_spec (deviceID x) 0); [contradiction |].
    cbn. apply andb_false_r. }
  destruct (updateDetailsFromDevice_total (os (deviceID d2) t1) d2 (Hos _ _))
    as [d3 H3]; [lia | lia |].
  destruct (updateDetailsFromDevice_frame _ _ _ H3) as [Hc3 _].
  exists t1, (set_callbacksAllowed true d3). split.
  { unfold timerCallback. cbn [deviceID sampleRate bufferSize set_timerRunning].
    rewrite H1. cbn [mbind option_bind]. rewrite Htest, Hstop, H3. reflexivity. }
  destruct Hc3 as (_ & Hcb3 & Hidev3 & _ & _ & Hst3 & _).
  cbn [callback started set_callbacksAllowed].
  split; [congruence |]. split; [congruence |].
  intros c. apply (noClient_frame c d2); [exact Hcb3 | exact Hidev3 | apply Hno2].
Qed.

(** An I/O proc of a master that has a client calls that client. *)
Lemma audioCallback_master_calls (d s : CoreAudioInternal)
  (cb : AudioIODeviceCallback) (ind outd : list (list Z))
  (d' : CoreAudioInternal) (out : list (list Z)) (evs : list ClientEvent) :
  callback d = Some cb -> inputDevice d = Some s -> isSlaveDevice d = false ->
  audioCallback ind outd d = Some (d', out, evs) ->
  exists ins, evs = [IOCallback (cb_id cb) ins (bufferSize d)].
Proof.
  intros Hcb Hidev Hslave. unfold audioCallback. rewrite Hcb, Hidev.
  cbn [mbind option_bind]. rewrite Hslave, Hidev. cbn [negb].
  unfold callClient.
  destruct (writeViews _ (tempOutputBuffers d) (audioBuffer d)) as [buf |];
    [| discriminate].
  cbn [mbind option_bind].
  destruct (writeOutputChannels _ _ outd) as [o |]; [| discriminate].
  cbn [mbind option_bind]. intros H. injection H as <- <- <-.
  eexists. reflexivity.
Qed.

(** C8, as amended.  The timer of the device that the facade holds fires,
    and the refresh reads a buffer size or a sample rate other than the
    device held (on an OS that fits the fixed tables).  Then
    [timerCallback] returns; the device has no client and is not started;
    the call tells no client anything, in particular not
    [audioDeviceStopped], and leaves [isStarted] of the facade as it was.
    From then on, whatever the control thread, the I/O procs, the listeners
    and the timers of master and slave do next, and however their calls
    interleave: a client [c] that is not handed to [start] again is never
    told anything, neither [audioDeviceIOCallback] nor
    [audioDeviceStopped].  When it is the timer of the slave of a pair
    that fires and sees the change, the slave alone is unbound and stopped:
    the master is as it was, still has its client, and every I/O proc of
    the master that completes calls [audioDeviceIOCallback] on that
    client. *)
Theorem timerCallback_change_unbinds_client (os : OS) (now : nat)
  (f : CoreAudioIODevice) (d : CoreAudioInternal) :
  internal f = Some d ->
  (forall id t, viewFits (os id t)) ->
  (numInputChans d <= maxNumChans -> numOutputChans d <= maxNumChans ->
   seesChange os now d ->
   exists now' d' f',
     timerCallback os now d = Some (now', d')
     /\ step os now f ActTimer = Some (now', f', [])
     /\ internal f' = Some d' /\ isStarted f' = isStarted f
     /\ callback d' = None /\ started d' = false
     /\ forall c acts,
          Forall (allowed c) acts ->
          Forall (fun e => eventClient e <> c) (fst (run os now' f' acts)))
  /\ (forall s,
        inputDevice d = Some s ->
        numInputChans s <= maxNumChans -> numOutputChans s <= maxNumChans ->
        seesChange os now s ->
        exists now' s' f',
          timerCallback os now s = Some (now', s')
          /\ step os now f ActSlaveTimer = Some (now', f', [])
          /\ internal f' = Some (set_inputDevice (Some s') d)
          /\ isStarted f' = isStarted f
          /\ callback s' = None /\ started s' = false
          /\ forall cb ind outd now2 f2 evs,
               callback d = Some cb -> isSlaveDevice d = false ->
               step os now' f' (ActAudioProc ind outd) = Some (now2, f2, evs) ->
               exists ins, evs = [IOCallback (cb_id cb) ins (bufferSize d)]).
Proof.
  intros Hint Hos. split.
  - intros Hin Hout Hchange.
    destruct (timerCallback_change_stops os now d Hos Hin Hout Hchange)
      as (now' & d' & Htimer & Hcb & Hoff & Hno).
    exists now', d', (set_internal (Some d') f).
    split; [exact Htimer |].
    split; [cbn [step]; rewrite Hint; cbn [mbind option_bind]; rewrite Htimer;
            reflexivity |].
    split; [reflexivity |]. split; [reflexivity |].
    split; [exact Hcb |]. split; [exact Hoff |].
    intros c acts Hacts. apply run_noClient; [exact Hacts |].
    unfold facadeNoClient. cbn [internal set_internal]. apply Hno.
  - intros s Hs Hin Hout Hchange.
    destruct (timerCallback_change_stops os now s Hos Hin Hout Hchange)
      as (now' & s' & Htimer & Hcb & Hoff & _).
    exists now', s', (set_internal (Some (set_inputDevice (Some s') d)) f).
    split; [exact Htimer |].
    split; [cbn [step]; rewrite Hint; cbn [mbind option_bind]; rewrite Hs;
            cbn [mbind option_bind]; rewrite Htimer; reflexivity |].
    split; [reflexivity |]. split; [reflexivity |].
    split; [exact Hcb |]. split; [exact Hoff |].
    intros cb ind outd now2 f2 evs Hcbd Hsl. cbn [step internal set_internal].
    cbn [mbind option_bind].
    destruct (audioCallback ind outd (set_inputDevice (Some s') d))
      as [[[d2 out] evs2] |] eqn:Hrun; [| discriminate].
    cbn [mbind option_bind]. intros H. injection H as <- <- <-.
    apply (audioCallback_master_calls (set_inputDevice (Some s') d) s' cb ind outd
             d2 out evs2); [exact Hcbd | reflexivity | exact Hsl | exact Hrun].
Qed.

Lemma startedPairFacade_internal :
  internal startedPairFacade = Some startedPairMaster.
Proof. vm_compute. reflexivity. Qed.

Lemma startedPairMaster_slave :
  inputDevice startedPairMaster = Some startedPairSlave.
Proof. vm_compute. reflexivity. Qed.

(** C8 fails as stated: the timer of the slave of the started pair sees
    buffers of 8 frames and stops the slave; the next I/O proc of the master
    still calls [audioDeviceIOCallback] on the client 7. *)
Lemma slave_timer_leaves_master_playing :
  option_map cb_id (callback startedPairMaster) = Some 7%nat
  /\ exists now' f' ins,
       step stereoOS8 0 startedPairFacade ActSlaveTimer = Some (now', f', [])
       /\ option_map (fun d => option_map started (inputDevice d)) (internal f')
          = Some (Some false)
       /\ fst (run stereoOS8 now' f' [ActAudioProc [] stereoSilence])
          = [IOCallback 7 ins 4].
Proof.
  split; [vm_compute; reflexivity |].
  eexists. eexists. eexists.
  split; [vm_compute; reflexivity |].
  split; vm_compute; reflexivity.
Qed.

Lemma timerCallback_change_unbinds_client_witness :
  option_map cb_id (callback startedPairMaster) = Some 7%nat
  /\ (exists now' d' f',
        step stereoOS8 0 startedPairFacade ActTimer = Some (now', f', [])
        /\ internal f' = Some d' /\ callback d' = None /\ started d' = false
        /\ Forall (fun e => eventClient e <> 7%nat)
             (fst (run stereoOS8 now' f'
                     [ActAudioProc [] stereoSilence;
                      ActSlaveAudioProc stereoFrames []; ActIsPlaying; ActStop])))
  /\ (exists now' s' f',
        step stereoOS8 0 startedPairFacade ActSlaveTimer = Some (now', f', [])
        /\ internal f' = Some (set_inputDevice (Some s') startedPairMaster)
        /\ callback s' = None /\ started s' = false).
Proof.
  split; [vm_compute; reflexivity |].
  destruct (timerCallback_change_unbinds_client stereoOS8 0%nat startedPairFacade
              startedPairMaster startedPairFacade_internal
              (fun _ _ => stereoView8_fits)) as [Hmaster Hslave].
  split.
  - destruct Hmaster as (now' & d' & f' & _ & Hstep & Hint & _ & Hcb & Hoff & Hrun).
    + vm_compute. discriminate.
    + vm_compute. discriminate.
    + left. vm_compute. discriminate.
    + exists now', d', f'. split; [exact Hstep |]. split; [exact Hint |].
      split; [exact Hcb |]. split; [exact Hoff |].
      apply Hrun. repeat constructor.
  - destruct (Hslave startedPairSlave startedPairMaster_slave)
      as (now' & s' & f' & _ & Hstep & Hint & _ & Hcb & Hoff & _).
    + vm_compute. discriminate.
    + vm_compute. discriminate.
    + left. vm_compute. discriminate.
    + exists now', s', f'. auto.
Defined.
